(** * make_composable: a shallow embedding of [make_compostable.py]

    The script converts ROS 2 node classes into composable nodes by
    regex-driven rewrites of C++ sources.  This development embeds

    - the text primitives it relies on ([str.splitlines], [str.strip],
      [str.count], [in], [str.join], list slicing),
    - the fragment of Python's [re] that its seven patterns use (a backtracking
      matcher with greedy single-character repeats, groups, backreferences
      and [\b]; [search], [match], [finditer], [sub] and replacement
      templates),
    - the part of [pathlib] it uses, over a file system given as a list of
      files and directories ([read_text] with its universal newlines and
      its [IsADirectoryError] included),
    - the functions of the script, the dialogue of [confirm_nodes] over the
      lines of its input and the command line included,

    and then states and proves properties of them.

    Text is a list of code points below 256; Python's classification of
    these code points ([\s], [\w], line boundaries) is reproduced exactly. *)

From Stdlib Require Import Ascii String List Bool Arith NArith ZArith Lia.
Import ListNotations.

(* ================================================================== *)
(** * Text *)

Definition text := list ascii.

Definition str (s : string) : text := list_ascii_of_string s.

Definition code (c : ascii) : N := N_of_ascii c.

Definition chr_eqb (a b : ascii) : bool := Ascii.eqb a b.

Arguments chr_eqb : simpl never.

Fixpoint text_eqb (a b : text) : bool :=
  match a, b with
  | [], [] => true
  | x :: a', y :: b' => chr_eqb x y && text_eqb a' b'
  | _, _ => false
  end.

(** [strip_prefix p s] is [Some r] when [s = p ++ r]. *)
Fixpoint strip_prefix (p s : text) : option text :=
  match p with
  | [] => Some s
  | x :: p' =>
      match s with
      | y :: s' => if chr_eqb x y then strip_prefix p' s' else None
      | [] => None
      end
  end.

Definition starts_with (p s : text) : bool :=
  match strip_prefix p s with Some _ => true | None => false end.

(** Python's [needle in hay] on strings. *)
Fixpoint contains (needle hay : text) : bool :=
  starts_with needle hay ||
  match hay with
  | [] => false
  | _ :: hay' => contains needle hay'
  end.

(** [s.count(c)] for a one-character [c]. *)
Fixpoint count_char (c : ascii) (s : text) : nat :=
  match s with
  | [] => 0
  | x :: s' => (if chr_eqb c x then 1 else 0) + count_char c s'
  end.

(** [c] does not occur in [t]. *)
Definition lacks (c : ascii) (t : text) : bool :=
  forallb (fun x => negb (chr_eqb c x)) t.

(** Unicode white space below 256: what [str.strip] removes and what [\s]
    matches in a [str] pattern. *)
Definition is_space (c : ascii) : bool :=
  let n := code c in
  ((9 <=? n) && (n <=? 13) || (28 <=? n) && (n <=? 32) ||
   (n =? 133) || (n =? 160))%N.

(** Alphanumeric code points below 256 and the underscore: [\w]. *)
Definition is_word (c : ascii) : bool :=
  let n := code c in
  ((48 <=? n) && (n <=? 57) || (65 <=? n) && (n <=? 90) ||
   (97 <=? n) && (n <=? 122) || (n =? 95) ||
   (n =? 170) || (n =? 178) || (n =? 179) || (n =? 181) ||
   (n =? 185) || (n =? 186) || (188 <=? n) && (n <=? 190) ||
   (192 <=? n) && (n <=? 214) || (216 <=? n) && (n <=? 246) ||
   (248 <=? n))%N.

(** Line boundaries of [str.splitlines] below 256 (CR LF counts once). *)
Definition is_linebreak (c : ascii) : bool :=
  let n := code c in
  ((10 <=? n) && (n <=? 13) || (28 <=? n) && (n <=? 30) || (n =? 133))%N.

Fixpoint drop_space (s : text) : text :=
  match s with
  | c :: s' => if is_space c then drop_space s' else s
  | [] => []
  end.

(** [s.strip()]. *)
Definition strip (s : text) : text :=
  rev (drop_space (rev (drop_space s))).

(** [s.splitlines()]: [cur] holds the current line, reversed. *)
Fixpoint splitlines_from (cur : text) (s : text) : list text :=
  match s with
  | [] => match cur with [] => [] | _ => [rev cur] end
  | c :: s' =>
      if is_linebreak c then
        match s' with
        | d :: s'' =>
            if (code c =? 13)%N && (code d =? 10)%N
            then rev cur :: splitlines_from [] s''
            else rev cur :: splitlines_from [] s'
        | [] => [rev cur]
        end
      else splitlines_from (c :: cur) s'
  end.

Definition splitlines (s : text) : list text := splitlines_from [] s.

Definition carriage_return : ascii := ascii_of_nat 13.

(** What text mode makes of the line ends when a file is read: [\r\n] and
    a lone [\r] come back as [\n]. *)
Fixpoint universal_newlines (s : text) : text :=
  match s with
  | [] => []
  | c :: s' =>
      if (code c =? 13)%N then
        ascii_of_nat 10 ::
        match s' with
        | d :: s'' =>
            if (code d =? 10)%N then universal_newlines s''
            else universal_newlines s'
        | [] => []
        end
      else c :: universal_newlines s'
  end.

(** [sep.join(l)]. *)
Fixpoint join (sep : text) (l : list text) : text :=
  match l with
  | [] => []
  | [x] => x
  | x :: l' => x ++ sep ++ join sep l'
  end.

(** [l[:d]] for a possibly negative [d]. *)
Definition slice_to {A : Type} (l : list A) (d : Z) : list A :=
  if (d <? 0)%Z
  then firstn (length l - Z.to_nat (- d)) l
  else firstn (Z.to_nat d) l.

(* ================================================================== *)
(** * The fragment of [re] used by the script *)

Module Re.

(** Character sets: [\s], [\w], one character, unions ([[\w:]]) and
    complements ([[^)]]). *)
Inductive cset : Type :=
| CsChar (c : ascii)
| CsSpace
| CsWord
| CsUnion (a b : cset)
| CsCompl (a : cset).

Fixpoint cset_mem (cs : cset) (c : ascii) : bool :=
  match cs with
  | CsChar d => chr_eqb d c
  | CsSpace => is_space c
  | CsWord => is_word c
  | CsUnion a b => cset_mem a c || cset_mem b c
  | CsCompl a => negb (cset_mem a c)
  end.

(** Patterns.  Every repeat in the script is a greedy repeat of a single
    character set ([\s*], [\w+], [[^)]*], [[^{]+], [[\w:]*]); [RRep cs lo]
    is [cs{lo,}]. *)
Inductive regex : Type :=
| REps
| RLit (s : text)
| RSet (cs : cset)
| RRep (cs : cset) (lo : nat)
| ROpt (r : regex)
| RAlt (a b : regex)
| RSeq (a b : regex)
| RGroup (n : nat) (r : regex)
| RRef (n : nat)
| RWordB.

Fixpoint rseq (rs : list regex) : regex :=
  match rs with
  | [] => REps
  | [r] => r
  | r :: rs' => RSeq r (rseq rs')
  end.

Definition captures := list (nat * text).

Fixpoint group_of (n : nat) (caps : captures) : option text :=
  match caps with
  | [] => None
  | (i, s) :: caps' => if Nat.eqb i n then Some s else group_of n caps'
  end.

(** The matcher's state: the character before the current position (for
    [\b]), the text from the current position on, the position and the
    groups closed so far. *)
Record mstate : Type := MState {
  ms_prev : option ascii;
  ms_rest : text;
  ms_pos : nat;
  ms_caps : captures
}.

Definition word_opt (c : option ascii) : bool :=
  match c with Some x => is_word x | None => false end.

Definition at_word_boundary (st : mstate) : bool :=
  xorb (word_opt (ms_prev st)) (word_opt (hd_error (ms_rest st))).

(** Consume the literal [s]. *)
Fixpoint eat (s : text) (prev : option ascii) (rest : text) (pos : nat)
  : option (option ascii * text * nat) :=
  match s with
  | [] => Some (prev, rest, pos)
  | x :: s' =>
      match rest with
      | y :: rest' => if chr_eqb x y then eat s' (Some y) rest' (S pos) else None
      | [] => None
      end
  end.

Definition eat_st (s : text) (st : mstate) : option mstate :=
  match eat s (ms_prev st) (ms_rest st) (ms_pos st) with
  | Some (p, r, n) => Some (MState p r n (ms_caps st))
  | None => None
  end.

(** Greedy repeat of a character set, at least [lo] times: the longest run
    is tried first and given back one character at a time. *)
Fixpoint rep (cs : cset) (lo : nat) (k : mstate -> option mstate)
    (prev : option ascii) (rest : text) (pos : nat) (caps : captures)
    {struct rest} : option mstate :=
  match rest with
  | c :: rest' =>
      if cset_mem cs c then
        match rep cs (pred lo) k (Some c) rest' (S pos) caps with
        | Some r => Some r
        | None =>
            match lo with
            | 0 => k (MState prev rest pos caps)
            | S _ => None
            end
        end
      else
        match lo with
        | 0 => k (MState prev rest pos caps)
        | S _ => None
        end
  | [] =>
      match lo with
      | 0 => k (MState prev rest pos caps)
      | S _ => None
      end
  end.

(** The text consumed between two states of one run. *)
Definition consumed (st st' : mstate) : text :=
  firstn (ms_pos st' - ms_pos st) (ms_rest st).

(** Backtracking matcher in continuation-passing style: [run r k st] is the
    first success, in the engine's priority order, of [r] followed by [k]. *)
Fixpoint run (r : regex) (k : mstate -> option mstate) (st : mstate)
  : option mstate :=
  match r with
  | REps => k st
  | RLit s =>
      match eat_st s st with
      | Some st' => k st'
      | None => None
      end
  | RSet cs =>
      match ms_rest st with
      | c :: rest' =>
          if cset_mem cs c
          then k (MState (Some c) rest' (S (ms_pos st)) (ms_caps st))
          else None
      | [] => None
      end
  | RRep cs lo => rep cs lo k (ms_prev st) (ms_rest st) (ms_pos st) (ms_caps st)
  | ROpt a =>
      match run a k st with
      | Some x => Some x
      | None => k st
      end
  | RAlt a b =>
      match run a k st with
      | Some x => Some x
      | None => run b k st
      end
  | RSeq a b => run a (run b k) st
  | RGroup n a =>
      run a (fun st' =>
               k (MState (ms_prev st') (ms_rest st') (ms_pos st')
                    ((n, consumed st st') :: ms_caps st'))) st
  | RRef n =>
      match group_of n (ms_caps st) with
      | Some s =>
          match eat_st s st with
          | Some st' => k st'
          | None => None
          end
      | None => None
      end
  | RWordB => if at_word_boundary st then k st else None
  end.

(** A match object: its span and its groups (group 0 is the whole match). *)
Record pymatch : Type := PyMatch {
  m_start : nat;
  m_end : nat;
  m_caps : captures
}.

Definition group (n : nat) (m : pymatch) : option text := group_of n (m_caps m).

(** [m.group(n)] as text, the empty text standing for [None]. *)
Definition group_text (n : nat) (m : pymatch) : text :=
  match group n m with Some s => s | None => [] end.

(** One attempt at a fixed start position. *)
Definition match_here (r : regex) (prev : option ascii) (rest : text)
    (pos : nat) : option pymatch :=
  match run r (fun st => Some st) (MState prev rest pos []) with
  | Some st =>
      Some (PyMatch pos (ms_pos st)
              ((0, firstn (ms_pos st - pos) rest) :: ms_caps st))
  | None => None
  end.

(** Start positions are tried from left to right. *)
Fixpoint search_from (r : regex) (prev : option ascii) (rest : text)
    (pos : nat) : option pymatch :=
  match match_here r prev rest pos with
  | Some m => Some m
  | None =>
      match rest with
      | c :: rest' => search_from r (Some c) rest' (S pos)
      | [] => None
      end
  end.

(** [re.search(r, s)] and [re.match(r, s)]. *)
Definition search (r : regex) (s : text) : option pymatch :=
  search_from r None s 0.

Definition match_ (r : regex) (s : text) : option pymatch :=
  match_here r None s 0.

(** The leftmost non-overlapping matches; [skip] counts the characters that
    still belong to the previous match.  Every pattern of the script
    consumes at least one character (see [script_patterns_consume] below),
    so that Python's special treatment of empty matches never comes into
    play. *)
Fixpoint scan (r : regex) (prev : option ascii) (rest : text) (pos : nat)
    (skip : nat) : list pymatch :=
  match skip with
  | S n =>
      match rest with
      | c :: rest' => scan r (Some c) rest' (S pos) n
      | [] => []
      end
  | 0 =>
      match match_here r prev rest pos with
      | Some m =>
          m :: match rest with
               | c :: rest' => scan r (Some c) rest' (S pos) (m_end m - pos - 1)
               | [] => []
               end
      | None =>
          match rest with
          | c :: rest' => scan r (Some c) rest' (S pos) 0
          | [] => []
          end
      end
  end.

(** [r.finditer(s)]. *)
Definition finditer (r : regex) (s : text) : list pymatch := scan r None s 0 0.

(** The replacement loop of [sub]: text outside the matches is copied, each
    match is replaced by [repl m] and skipped.  [left] is the number of
    replacements still allowed ([None]: no limit). *)
Fixpoint sub_scan (r : regex) (repl : pymatch -> text) (left : option nat)
    (prev : option ascii) (rest : text) (pos : nat) (skip : nat) : text :=
  match skip with
  | S n =>
      match rest with
      | c :: rest' => sub_scan r repl left (Some c) rest' (S pos) n
      | [] => []
      end
  | 0 =>
      match left with
      | Some 0 => rest
      | _ =>
          match match_here r prev rest pos with
          | Some m =>
              repl m ++
              match rest with
              | c :: rest' =>
                  if m_end m <=? pos
                  then c :: sub_scan r repl (option_map pred left) (Some c) rest' (S pos) 0
                  else sub_scan r repl (option_map pred left) (Some c) rest' (S pos)
                         (m_end m - pos - 1)
              | [] => []
              end
          | None =>
              match rest with
              | c :: rest' => c :: sub_scan r repl left (Some c) rest' (S pos) 0
              | [] => []
              end
          end
      end
  end.

(** The number of replacements the loop makes (what [subn] reports next to
    the new text). *)
Fixpoint subs_made (r : regex) (left : option nat)
    (prev : option ascii) (rest : text) (pos : nat) (skip : nat) : nat :=
  match skip with
  | S n =>
      match rest with
      | c :: rest' => subs_made r left (Some c) rest' (S pos) n
      | [] => 0
      end
  | 0 =>
      match left with
      | Some 0 => 0
      | _ =>
          match match_here r prev rest pos with
          | Some m =>
              S match rest with
                | c :: rest' =>
                    if m_end m <=? pos
                    then subs_made r (option_map pred left) (Some c) rest' (S pos) 0
                    else subs_made r (option_map pred left) (Some c) rest' (S pos)
                           (m_end m - pos - 1)
                | [] => 0
                end
          | None =>
              match rest with
              | c :: rest' => subs_made r left (Some c) rest' (S pos) 0
              | [] => 0
              end
          end
      end
  end.

Definition limit_of (count : nat) : option nat :=
  match count with 0 => None | _ => Some count end.

Definition substitutions (r : regex) (count : nat) (s : text) : nat :=
  subs_made r (limit_of count) None s 0 0.

(** [r.sub(repl, s, count)] for a callable [repl]; [count = 0] replaces all
    matches. *)
Definition sub_with (r : regex) (repl : pymatch -> text) (count : nat)
    (s : text) : text :=
  sub_scan r repl (limit_of count) None s 0 0.

(** ** Replacement templates *)

Inductive titem : Type :=
| TChr (c : ascii)
| TGrp (n : nat).

Definition digit_val (c : ascii) : option nat :=
  let n := code c in
  if ((48 <=? n) && (n <=? 57))%N then Some (N.to_nat n - 48) else None.

Definition is_octdigit (c : ascii) : bool :=
  let n := code c in ((48 <=? n) && (n <=? 55))%N.

Definition is_ascii_letter (c : ascii) : bool :=
  let n := code c in
  ((65 <=? n) && (n <=? 90) || (97 <=? n) && (n <=? 122))%N.

Definition oct (c : ascii) : nat := N.to_nat (code c) - 48.

(** The escapes of a template: [\a \b \f \n \r \t \v \\]. *)
Definition escape_of (c : ascii) : option ascii :=
  let n := code c in
  if (n =? 97)%N then Some (ascii_of_nat 7)
  else if (n =? 98)%N then Some (ascii_of_nat 8)
  else if (n =? 102)%N then Some (ascii_of_nat 12)
  else if (n =? 110)%N then Some (ascii_of_nat 10)
  else if (n =? 114)%N then Some (ascii_of_nat 13)
  else if (n =? 116)%N then Some (ascii_of_nat 9)
  else if (n =? 118)%N then Some (ascii_of_nat 11)
  else if (n =? 92)%N then Some c
  else None.

(** The digits of [\g<digits>] up to the closing [>]. *)
Fixpoint group_number (acc : nat) (seen : bool) (s : text)
  : option (nat * text) :=
  match s with
  | [] => None
  | c :: s' =>
      if (code c =? 62)%N then (if seen then Some (acc, s') else None)
      else match digit_val c with
           | Some d => group_number (10 * acc + d) true s'
           | None => None
           end
  end.

(** [parse_template]: [None] when Python raises ([re.error], or
    [IndexError] for a group name).  [ngroups] is the number of groups of
    the pattern. *)
Fixpoint parse_template (fuel : nat) (ngroups : nat) (t : text)
  : option (list titem) :=
  match fuel with
  | 0 => match t with [] => Some [] | _ => None end
  | S fuel' =>
      let continue_with (items : list titem) (t' : text) :=
        match parse_template fuel' ngroups t' with
        | Some l => Some (items ++ l)
        | None => None
        end in
      let group_ref (n : nat) (t' : text) :=
        if n <=? ngroups then continue_with [TGrp n] t' else None in
      match t with
      | [] => Some []
      | c :: t1 =>
          if negb (code c =? 92)%N then continue_with [TChr c] t1
          else
            match t1 with
            | [] => None
            | e :: t2 =>
                if (code e =? 103)%N then
                  match t2 with
                  | lt :: t3 =>
                      if (code lt =? 60)%N then
                        match group_number 0 false t3 with
                        | Some (n, t4) => group_ref n t4
                        | None => None
                        end
                      else None
                  | [] => None
                  end
                else if (code e =? 48)%N then
                  match t2 with
                  | d1 :: t3 =>
                      if is_octdigit d1 then
                        match t3 with
                        | d2 :: t4 =>
                            if is_octdigit d2
                            then continue_with
                                   [TChr (ascii_of_nat ((8 * oct d1 + oct d2) mod 256))] t4
                            else continue_with [TChr (ascii_of_nat (oct d1))] t3
                        | [] => continue_with [TChr (ascii_of_nat (oct d1))] t3
                        end
                      else continue_with [TChr (ascii_of_nat 0)] t2
                  | [] => continue_with [TChr (ascii_of_nat 0)] t2
                  end
                else
                  match digit_val e with
                  | Some d =>
                      match t2 with
                      | d1 :: t3 =>
                          match digit_val d1 with
                          | Some v1 =>
                              match t3 with
                              | d2 :: t4 =>
                                  if is_octdigit e && is_octdigit d1 && is_octdigit d2
                                  then
                                    let v := 64 * d + 8 * v1 + oct d2 in
                                    if v <=? 255
                                    then continue_with [TChr (ascii_of_nat v)] t4
                                    else None
                                  else group_ref (10 * d + v1) t3
                              | [] => group_ref (10 * d + v1) t3
                              end
                          | None => group_ref d t2
                          end
                      | [] => group_ref d t2
                      end
                  | None =>
                      match escape_of e with
                      | Some x => continue_with [TChr x] t2
                      | None =>
                          if is_ascii_letter e then None
                          else continue_with [TChr c; TChr e] t2
                      end
                  end
            end
      end
  end.

(** A group that took no part in the match expands to the empty text. *)
Fixpoint expand (items : list titem) (m : pymatch) : text :=
  match items with
  | [] => []
  | TChr c :: l => c :: expand l m
  | TGrp n :: l => group_text n m ++ expand l m
  end.

(** [r.sub(template, s, count)] for a template string; [None] when the
    template is rejected (which Python does before it looks for a match). *)
Definition sub (r : regex) (ngroups : nat) (template : text) (count : nat)
    (s : text) : option text :=
  match parse_template (length template) ngroups template with
  | Some items => Some (sub_with r (expand items) count s)
  | None => None
  end.

End Re.

(* ================================================================== *)
(** * The part of [pathlib] used by the script *)

Module Fs.

(** A path is the list of its components; a file system is the list of its
    entries, in the order in which directory listings report them.  An
    entry is a file, with the text its bytes decode to or with bytes that
    are not UTF-8, or a directory.  The directories above an entry exist
    with it, whether they are entries of their own or not. *)
Definition path := list text.

Inductive content : Type :=
| Utf8 (t : text)
| NotUtf8
| Directory.

Definition fs := list (path * content).

Fixpoint path_eqb (p q : path) : bool :=
  match p, q with
  | [], [] => true
  | x :: p', y :: q' => text_eqb x y && path_eqb p' q'
  | _, _ => false
  end.

Fixpoint is_below (dir p : path) : bool :=
  match dir with
  | [] => true
  | x :: dir' =>
      match p with
      | y :: p' => text_eqb x y && is_below dir' p'
      | [] => false
      end
  end.

(** [p.parent], [p.name], [p.stem], [p / c]. *)
Definition parent (p : path) : path := removelast p.

Definition name (p : path) : text := last p [].

Fixpoint rfind_dot (s : text) (i : nat) (found : option nat) : option nat :=
  match s with
  | [] => found
  | c :: s' =>
      rfind_dot s' (S i) (if (code c =? 46)%N then Some i else found)
  end.

Definition stem (p : path) : text :=
  let n := name p in
  match rfind_dot n 0 None with
  | Some i => if (0 <? i) && (i <? length n - 1) then firstn i n else n
  | None => n
  end.

Definition child (p : path) (c : text) : path :=
  match c with
  | [] => p
  | _ => p ++ [c]
  end.

(** Shell-style matching of a file name: [*] and [?]; any other character
    stands for itself (bracket sets do not occur in the script's patterns
    and are not modelled for stems that would contain them). *)
Fixpoint wild (pat : text) : text -> bool :=
  match pat with
  | [] => fun s => match s with [] => true | _ => false end
  | p :: pat' =>
      if (code p =? 42)%N then
        fix star (s : text) : bool :=
          wild pat' s || match s with [] => false | _ :: s' => star s' end
      else if (code p =? 63)%N then
        fun s => match s with _ :: s' => wild pat' s' | [] => false end
      else
        fun s => match s with c :: s' => chr_eqb p c && wild pat' s' | [] => false end
  end.

Definition entries (f : fs) : list path := map fst f.

(** The directories above [p], outermost first, and [p] itself. *)
Fixpoint prefixes_from (above p : path) : list path :=
  match p with
  | [] => []
  | c :: p' => (above ++ [c]) :: prefixes_from (above ++ [c]) p'
  end.

Definition prefixes (p : path) : list path := prefixes_from [] p.

(** A list without its repetitions, the first occurrence being kept. *)
Fixpoint distinct (l : list path) : list path :=
  match l with
  | [] => []
  | p :: l' => p :: filter (fun q => negb (path_eqb p q)) (distinct l')
  end.

(** Everything that exists: the entries and the directories above them. *)
Definition paths (f : fs) : list path :=
  distinct (flat_map prefixes (entries f)).

(** [p.exists()]. *)
Definition exists_ (f : fs) (p : path) : bool :=
  existsb (is_below p) (paths f).

(** [dir.glob(pat)] for a pattern without a directory separator: the
    files and directories of [dir] itself whose name matches. *)
Definition glob (f : fs) (dir : path) (pat : text) : list path :=
  filter (fun p => match p with
                   | [] => false
                   | _ => path_eqb (parent p) dir && wild pat (name p)
                   end) (paths f).

(** [dir.rglob(pat)]: the files and directories of [dir] and of its
    subdirectories whose name matches. *)
Definition rglob (f : fs) (dir : path) (pat : text) : list path :=
  filter (fun p => match p with
                   | [] => false
                   | _ => is_below dir (parent p) && wild pat (name p)
                   end) (paths f).

(** The entry at [p], if there is one. *)
Fixpoint entry (f : fs) (p : path) : option content :=
  match f with
  | [] => None
  | (q, c) :: f' => if path_eqb q p then Some c else entry f' p
  end.

(** What the file system holds at [p]: an entry, a directory above an
    entry, or nothing. *)
Definition read (f : fs) (p : path) : option content :=
  match entry f p with
  | Some c => Some c
  | None => if existsb (is_below p) (entries f) then Some Directory else None
  end.

(** [p.write_text(t, encoding='utf-8')] on a system whose line end is
    [\n]: the text is stored as it is.  (The script writes only to files it
    has just read.) *)
Fixpoint write (f : fs) (p : path) (t : text) : fs :=
  match f with
  | [] => [(p, Utf8 t)]
  | (q, c) :: f' =>
      if path_eqb q p then (q, Utf8 t) :: f' else (q, c) :: write f' p t
  end.

End Fs.

(* ================================================================== *)
(** * The script *)

Import Re Fs.

(** What the script prints, and how a run can be cut short. *)
Inductive event : Type :=
| Updated (class_name : text) (p : path)
| AlreadyConverted (class_name : text)
| ConstructorNotFound (class_name : text) (p : path)
| SkippedNonUtf8 (p : path)
| CallUpdated (p : path)
| HeaderNotFound (class_name : text) (p : path)
| SkippedNonUtf8Header (p : path)
| DeclarationNotFound (class_name : text) (p : path)
| HeaderUpdated (p : path).

Inductive exn : Type :=
| FileNotFoundError
| IsADirectoryError
| UnicodeDecodeError
| ReError.

Inductive res (A : Type) : Type :=
| Ok (a : A)
| Raise (e : exn).

Arguments Ok {A} a.
Arguments Raise {A} e.

Definition bind {A B : Type} (x : res A) (f : A -> res B) : res B :=
  match x with
  | Ok a => f a
  | Raise e => Raise e
  end.

Notation "x <- c1 ;; c2" := (bind c1 (fun x => c2))
  (at level 61, c1 at next level, right associativity).

(** The state threaded through the script: the files and the output. *)
Record world : Type := World {
  files : fs;
  output : list event
}.

Definition say (e : event) (w : world) : world :=
  World (files w) (output w ++ [e]).

Definition put (p : path) (t : text) (w : world) : world :=
  World (write (files w) p t) (output w).

(** [p.read_text(encoding='utf-8')]: the text of the file with its line
    ends translated, or the exception Python raises.  ([FileNotFoundError]
    stands for what is raised where nothing exists at the path; below a
    regular file Python has [NotADirectoryError] for it.) *)
Definition read_text (f : fs) (p : path) : res text :=
  match read f p with
  | Some (Utf8 t) => Ok (universal_newlines t)
  | Some NotUtf8 => Raise UnicodeDecodeError
  | Some Directory => Raise IsADirectoryError
  | None => Raise FileNotFoundError
  end.

Definition of_template (x : option text) : res text :=
  match x with
  | Some t => Ok t
  | None => Raise ReError
  end.

(** ** The patterns *)

Definition spaces : regex := RRep CsSpace 0.
Definition not_chr (c : string) : cset :=
  match str c with
  | [x] => CsCompl (CsChar x)
  | x :: y :: _ => CsCompl (CsUnion (CsChar x) (CsChar y))
  | [] => CsCompl (CsCompl CsSpace)
  end.
Definition lit (s : string) : regex := RLit (str s).

(** The two alternatives of the discovery pattern:
    [(\w+)::\1\s*\([^)]*\)\s*:\s*(?:public\s+)?(?:Node|LifecycleNode)\b]
    and [(\w+)::\2\s*\([^)]*\)\s*:\s*\1\s*\(]. *)
Definition direct_alternative : regex :=
  rseq [RGroup 1 (RRep CsWord 1); lit "::"; RRef 1; spaces; lit "(";
        RRep (not_chr ")") 0; lit ")"; spaces; lit ":"; spaces;
        ROpt (RSeq (lit "public") (RRep CsSpace 1));
        RAlt (lit "Node") (lit "LifecycleNode"); RWordB].

Definition delegating_alternative : regex :=
  rseq [RGroup 2 (RRep CsWord 1); lit "::"; RRef 2; spaces; lit "(";
        RRep (not_chr ")") 0; lit ")"; spaces; lit ":"; spaces;
        RRef 1; spaces; lit "("].

Definition constructor_pattern : regex :=
  RAlt direct_alternative delegating_alternative.

(** [\b{class_name}::{class_name}\s*\(].  A class name reaching the script's
    patterns was matched by [\w+], so that interpolating it yields a
    literal. *)
Definition constructor_line_pattern (class_name : text) : regex :=
  rseq [RWordB; RLit class_name; lit "::"; RLit class_name; spaces; lit "("].

(** [namespace\s+(\w+)] *)
Definition namespace_pattern : regex :=
  rseq [lit "namespace"; RRep CsSpace 1; RGroup 1 (RRep CsWord 1)].

(** [std::make_shared<([\w:]*{class_name})>\s*\(\s*\)] *)
Definition word_or_colon : cset := CsUnion CsWord (CsChar ":").

Definition constructor_call_pattern (class_name : text) : regex :=
  rseq [lit "std::make_shared<";
        RGroup 1 (RSeq (RRep word_or_colon 0) (RLit class_name));
        lit ">"; spaces; lit "("; spaces; lit ")"].

(** [({class_name}::{class_name}\s*\([^)]*\))(\s*:\s*[^{]+)] *)
Definition constructor_regex (class_name : text) : regex :=
  rseq [RGroup 1 (rseq [RLit class_name; lit "::"; RLit class_name; spaces;
                        lit "("; RRep (not_chr ")") 0; lit ")"]);
        RGroup 2 (rseq [spaces; lit ":"; spaces; RRep (not_chr "{") 1])].

(** [\bNode\s*\(([^)]{0,})\)], the source's star being written [{0,}]
    where it would otherwise end this comment. *)
Definition node_initializer_pattern : regex :=
  rseq [RWordB; lit "Node"; spaces; lit "(";
        RGroup 1 (RRep (not_chr ")") 0); lit ")"].

(** [\b{class_name}\s*\([^;{]*\);] *)
Definition declaration_regex (class_name : text) : regex :=
  rseq [RWordB; RLit class_name; spaces; lit "(";
        RRep (not_chr ";{") 0; lit ");"].

(** ** C++ fragments

    [cpp s] reads a fragment in which a backquote stands for the double
    quote of the C++ text; [unlines] ends every line with a newline. *)

Definition dquote : ascii := ascii_of_nat 34.
Definition newline : ascii := ascii_of_nat 10.

Definition cpp (s : string) : text :=
  map (fun c => if (code c =? 96)%N then dquote else c) (str s).

Definition unlines (l : list string) : text :=
  flat_map (fun s => cpp s ++ [newline]) l.

(** ** [find_ros2_node_constructors] *)

(** [match.group(1) or match.group(2)] *)
Definition class_name_of (m : pymatch) : text :=
  match group 1 m with
  | Some (c :: s) => c :: s
  | _ => group_text 2 m
  end.

(** The body of the loop over [rglob('*.cpp')]: [matches] after the file
    [p]. *)
Definition scan_file (f : fs) (matches : list (text * path)) (p : path)
  : res (list (text * path)) :=
  match read_text f p with
  | Raise UnicodeDecodeError => Ok matches
  | Raise e => Raise e
  | Ok content =>
      Ok (matches ++ map (fun m => (class_name_of m, p))
                         (finditer constructor_pattern content))
  end.

Definition find_ros2_node_constructors (f : fs) (root_dir : path)
  : res (list (text * path)) :=
  fold_left (fun acc p => matches <- acc ;; scan_file f matches p)
            (rglob f root_dir (str "*.cpp")) (Ok []).

(** ** [find_enclosing_namespace] *)

Definition is_constructor_line (class_name line : text) : bool :=
  match search (constructor_line_pattern class_name) line with
  | Some _ => true
  | None => false
  end.

(** The index of the first line on which the constructor pattern is found. *)
Fixpoint constructor_line_from (class_name : text) (lines : list text)
    (idx : nat) : option nat :=
  match lines with
  | [] => None
  | line :: lines' =>
      if is_constructor_line class_name line then Some idx
      else constructor_line_from class_name lines' (S idx)
  end.

Definition open_brace : ascii := ascii_of_nat 123.
Definition close_brace : ascii := ascii_of_nat 125.

(** [line.count('{') - line.count('}')] *)
Definition net_braces (line : text) : Z :=
  Z.of_nat (count_char open_brace line) - Z.of_nat (count_char close_brace line).

Definition has_open_brace (line : text) : bool := contains [open_brace] line.

(** The loop state: [brace_depth] and [namespace_stack].  (The script also
    fills a dictionary [depth_to_ns], which it never reads.) *)
Record scan_state : Type := ScanState {
  brace_depth : Z;
  namespace_stack : list text
}.

(** [re.match(r'namespace\s+(\w+)', line)] and its group 1. *)
Definition ns_match (line : text) : option text :=
  match match_ namespace_pattern line with
  | Some m => Some (group_text 1 m)
  | None => None
  end.

(** One iteration of the loop over [range(constructor_line_num + 1)].
    [remaining] is [lines[i : constructor_line_num + 1]]: its head is
    [lines[i]], and the inner loop looks in it for the first line with an
    opening brace. *)
Definition ns_step (st : scan_state) (remaining : list text) : scan_state :=
  match remaining with
  | [] => st
  | raw :: _ =>
      let line := strip raw in
      match ns_match line with
      | Some pending_namespace =>
          match find has_open_brace remaining with
          | Some lj =>
              ScanState (brace_depth st + net_braces lj)
                        (namespace_stack st ++ [pending_namespace])
          | None => st
          end
      | None =>
          let d := (brace_depth st + net_braces line)%Z in
          ScanState d
            (if (d <? Z.of_nat (length (namespace_stack st)))%Z
             then slice_to (namespace_stack st) d
             else namespace_stack st)
      end
  end.

(** The states after each iteration, and the last of them. *)
Fixpoint ns_trace (st : scan_state) (remaining : list text) : list scan_state :=
  match remaining with
  | [] => []
  | _ :: rest => ns_step st remaining :: ns_trace (ns_step st remaining) rest
  end.

Fixpoint ns_scan (st : scan_state) (remaining : list text) : scan_state :=
  match remaining with
  | [] => st
  | _ :: rest => ns_scan (ns_step st remaining) rest
  end.

Definition scanned_lines (lines : list text) (constructor_line_num : nat)
  : list text :=
  firstn (S constructor_line_num) lines.

Definition scope : text := str "::".

Definition ns_prefix (stack : list text) : text :=
  join scope stack ++ match stack with [] => [] | _ => scope end.

Definition find_enclosing_namespace (content class_name : text) : text :=
  let lines := splitlines content in
  match constructor_line_from class_name lines 0 with
  | None => []
  | Some constructor_line_num =>
      ns_prefix (namespace_stack
                   (ns_scan (ScanState 0 [])
                            (scanned_lines lines constructor_line_num)))
  end.

(** ** [update_main_constructors] *)

Definition call_template : text :=
  str "std::make_shared<\1>(rclcpp::NodeOptions{})".

Definition update_main_file (class_name : text) (w : world) (p : path)
  : res world :=
  match read_text (files w) p with
  | Raise UnicodeDecodeError => Ok w
  | Raise e => Raise e
  | Ok content =>
      match search (constructor_call_pattern class_name) content with
      | Some _ =>
          updated <- of_template
            (sub (constructor_call_pattern class_name) 1 call_template 0 content) ;;
          Ok (say (CallUpdated p) (put p updated w))
      | None => Ok w
      end
  end.

Definition main_candidates (f : fs) (cpp_path : path) : list path :=
  let package_dir := parent (parent cpp_path) in
  rglob f package_dir (str "main*.cpp") ++ [cpp_path].

Definition update_main_constructors (class_name : text) (cpp_path : path)
    (w : world) : res world :=
  fold_left (fun acc p => w' <- acc ;; update_main_file class_name w' p)
            (main_candidates (files w) cpp_path) (Ok w).

(** ** [update_node_constructor] *)

Definition new_signature (class_name : text) : text :=
  class_name ++ scope ++ class_name ++ str "(const rclcpp::NodeOptions & options)".

Definition node_template : text := str "Node(\1, options)".

Definition register_macro (namespace_prefix class_name : text) : text :=
  str "RCLCPP_COMPONENTS_REGISTER_NODE(" ++ namespace_prefix ++ class_name ++ str ")".

Definition registration_block (macro : text) : text :=
  [newline; newline] ++
  cpp "#include `rclcpp_components/register_node_macro.hpp`" ++ [newline] ++
  macro ++ [newline].

Definition already_converted (class_name content : text) : bool :=
  contains (class_name ++ scope) content && contains (str "NodeOptions") content.

(** Lines 128 to 132: the text of [updated_content] before the
    registration is appended. *)
Definition rewrite_constructor (class_name content : text) (m : pymatch)
  : res text :=
  let old_initializer := group_text 2 m in
  updated_initializer <- of_template
    (sub node_initializer_pattern 1 node_template 0 old_initializer) ;;
  let updated_constructor := new_signature class_name ++ updated_initializer in
  of_template (sub (constructor_regex class_name) 2 updated_constructor 1 content).

(** Lines 134 to 137. *)
Definition append_registration (class_name content updated_content : text)
  : text :=
  let namespace_prefix := find_enclosing_namespace content class_name in
  let macro := register_macro namespace_prefix class_name in
  if negb (contains macro updated_content)
  then updated_content ++ registration_block macro
  else updated_content.

Definition update_node_constructor (class_name : text) (file_path : path)
    (w : world) : res world :=
  match read_text (files w) file_path with
  | Raise UnicodeDecodeError => Ok (say (SkippedNonUtf8 file_path) w)
  | Raise e => Raise e
  | Ok content =>
      if already_converted class_name content
      then Ok (say (AlreadyConverted class_name) w)
      else
        match search (constructor_regex class_name) content with
        | None => Ok (say (ConstructorNotFound class_name file_path) w)
        | Some m =>
            updated_content <- rewrite_constructor class_name content m ;;
            let updated_content :=
              append_registration class_name content updated_content in
            update_main_constructors class_name file_path
              (say (Updated class_name file_path)
                   (put file_path updated_content w))
        end
  end.

(** ** [update_header_constructor_declaration] *)

Definition header_glob (cpp_path : path) : text := stem cpp_path ++ str ".h*".

Definition candidate_headers (f : fs) (cpp_path : path) : list path :=
  let src_dir := parent cpp_path in
  let package_dir := parent src_dir in
  let include_dir := child package_dir (str "include") in
  glob f src_dir (header_glob cpp_path) ++
  (if exists_ f include_dir then
     glob f include_dir (header_glob cpp_path) ++
     (let nested_include_dir := child include_dir (name package_dir) in
      if exists_ f nested_include_dir
      then glob f nested_include_dir (header_glob cpp_path)
      else [])
   else []).

Definition new_declaration (class_name : text) : text :=
  str "  explicit " ++ class_name ++ str "(const rclcpp::NodeOptions & options);".

Definition update_header_constructor_declaration (class_name : text)
    (cpp_path : path) (w : world) : res world :=
  match candidate_headers (files w) cpp_path with
  | [] => Ok (say (HeaderNotFound class_name cpp_path) w)
  | header_path :: _ =>
      match read_text (files w) header_path with
      | Raise UnicodeDecodeError => Ok (say (SkippedNonUtf8Header header_path) w)
      | Raise e => Raise e
      | Ok content =>
          match search (declaration_regex class_name) content with
          | None => Ok (say (DeclarationNotFound class_name header_path) w)
          | Some _ =>
              updated_content <- of_template
                (sub (declaration_regex class_name) 0
                     (new_declaration class_name) 1 content) ;;
              Ok (say (HeaderUpdated header_path)
                      (put header_path updated_content w))
          end
      end
  end.

(** ** [apply_composable_conversion] *)

Definition convert (w : world) (node : text * path) : res world :=
  let (class_name, p) := node in
  w1 <- update_node_constructor class_name p w ;;
  update_header_constructor_declaration class_name p w1.

Definition apply_composable_conversion (confirmed_nodes : list (text * path))
    (w : world) : res world :=
  fold_left (fun acc node => w' <- acc ;; convert w' node) confirmed_nodes (Ok w).

(** ** [confirm_nodes] *)

(** [c.lower()] below 256: the capital letters of ASCII and of Latin-1. *)
Definition lower_chr (c : ascii) : ascii :=
  let n := code c in
  if ((65 <=? n) && (n <=? 90) ||
      (192 <=? n) && (n <=? 222) && negb (n =? 215))%N
  then ascii_of_N (n + 32) else c.

Definition lower (s : text) : text := map lower_chr s.

(** What the command line prints itself, next to the reports of the
    conversion. *)
Inductive message : Type :=
| Usage
| NoConstructorsFound
| Found (n : nat)
| Prompt (class_name : text) (p : path)
| PleaseEnter
| NoneSelected
| MarkedForConversion
| Marked (class_name : text) (p : path).

(** The terminal: the lines still to be read from standard input, each as
    [input()] returns it, and what was printed. *)
Record terminal : Type := Terminal {
  stdin : list text;
  printed : list message
}.

Definition print (m : message) (t : terminal) : terminal :=
  Terminal (stdin t) (printed t ++ [m]).

(** The [while True] loop for one node, [choice] being
    [input(prompt).strip().lower()]: [Some true] for [y], [Some false] for
    [n], [None] when the input ends first ([input] raises [EOFError] after
    it has written the prompt). *)
Fixpoint ask (class_name : text) (p : path) (lines : list text)
    (shown : list message) : option bool * terminal :=
  match lines with
  | [] => (None, Terminal [] (shown ++ [Prompt class_name p]))
  | line :: lines' =>
      let choice := lower (strip line) in
      if text_eqb choice (str "y")
      then (Some true, Terminal lines' (shown ++ [Prompt class_name p]))
      else if text_eqb choice (str "n")
      then (Some false, Terminal lines' (shown ++ [Prompt class_name p]))
      else ask class_name p lines' (shown ++ [Prompt class_name p; PleaseEnter])
  end.

(** The loop over [nodes], [confirmed] being the list built so far. *)
Fixpoint confirm_from (confirmed nodes : list (text * path)) (t : terminal)
  : option (list (text * path)) * terminal :=
  match nodes with
  | [] => (Some confirmed, t)
  | (class_name, p) :: nodes' =>
      match ask class_name p (stdin t) (printed t) with
      | (Some true, t') => confirm_from (confirmed ++ [(class_name, p)]) nodes' t'
      | (Some false, t') => confirm_from confirmed nodes' t'
      | (None, t') => (None, t')
      end
  end.

Definition confirm_nodes (nodes : list (text * path)) (t : terminal)
  : option (list (text * path)) * terminal :=
  confirm_from [] nodes t.

(** ** The command line *)

(** How a run ends: [sys.exit] or the end of the script, with the files and
    reports left behind; [EOFError] from [input]; an exception of
    discovery or of the conversion. *)
Inductive ending : Type :=
| Exit (status : nat) (w : world)
| EndOfInput (w : world)
| Uncaught (e : exn).

(** The script run as a program; [argv] holds the name of the script and
    the arguments, the workspace as the path it denotes. *)
Definition main (argv : list path) (t : terminal) (w : world)
  : ending * terminal :=
  match argv with
  | [_; root] =>
      match find_ros2_node_constructors (files w) root with
      | Raise e => (Uncaught e, t)
      | Ok [] => (Exit 0 w, print NoConstructorsFound t)
      | Ok nodes =>
          match confirm_nodes nodes (print (Found (length nodes)) t) with
          | (None, t') => (EndOfInput w, t')
          | (Some [], t') => (Exit 0 w, print NoneSelected t')
          | (Some confirmed, t') =>
              let t'' :=
                fold_left (fun t0 node => print (Marked (fst node) (snd node)) t0)
                          confirmed (print MarkedForConversion t') in
              match apply_composable_conversion confirmed w with
              | Ok w' => (Exit 0 w', t'')
              | Raise e => (Uncaught e, t'')
              end
          end
      end
  | _ => (Exit 1 w, print Usage t)
  end.

(* ================================================================== *)
(** * Sample packages *)

Definition Foo : text := str "Foo".

Definition in_pkg (l : list string) : path := map str ("pkg" :: l)%string.

Definition foo_cpp : path := in_pkg ["src"; "foo.cpp"]%string.
Definition foo_hpp : path := in_pkg ["include"; "pkg"; "foo.hpp"]%string.
Definition main_cpp : path := in_pkg ["src"; "main.cpp"]%string.

Definition package (l : list (path * text)) : world :=
  World (map (fun e => (fst e, Utf8 (snd e))) l) [].

(** A class whose only constructor delegates to another constructor of the
    class. *)
Definition delegating_source : text :=
  cpp "Foo::Foo(int x) : Foo(x, 0) {}".

(** The same class deriving directly from the node class. *)
Definition direct_source : text :=
  cpp "Foo::Foo(int x) : Node(`foo_node`) {}".

(** The package of the end-to-end scenario. *)
Definition demo_package : world :=
  package
    [(foo_cpp, unlines ["namespace demo {"; "Foo::Foo(): Node(`foo`){}"; "}"]%string);
     (foo_hpp, unlines ["class Foo {"; "  Foo();"; "};"]%string);
     (main_cpp, unlines ["auto n = std::make_shared<Foo>();"]%string)].

(** The header of [demo_package] after one and after two conversions. *)
Definition header_once : text :=
  unlines ["class Foo {";
           "    explicit Foo(const rclcpp::NodeOptions & options);";
           "};"]%string.

Definition header_twice : text :=
  unlines ["class Foo {";
           "    explicit   explicit Foo(const rclcpp::NodeOptions & options);";
           "};"]%string.

(** A file in which another class is converted and [Foo] is not. *)
Definition mixed_source : text :=
  unlines ["Bar::Bar(const rclcpp::NodeOptions & options) : Node(`bar`, options) {}";
           "Foo::Foo() : Node(`foo`) {}"]%string.

(** A file that mentions [Foo] but does not define its constructor. *)
Definition no_constructor_source : text :=
  cpp "int main() { return 0; }".

Definition no_constructor_package : world :=
  package [(foo_cpp, no_constructor_source)].

(** ** Groups a pattern can set, patterns that cannot match *)

(** [sets_group n r]: a group numbered [n] occurs in [r]. *)
Fixpoint sets_group (n : nat) (r : regex) : bool :=
  match r with
  | ROpt a => sets_group n a
  | RAlt a b | RSeq a b => sets_group n a || sets_group n b
  | RGroup i a => Nat.eqb i n || sets_group n a
  | _ => false
  end.

(** [needs_group n r]: every way through [r] passes a backreference to
    group [n] before any group [n] is closed. *)
Fixpoint needs_group (n : nat) (r : regex) : bool :=
  match r with
  | RRef i => Nat.eqb i n
  | RAlt a b => needs_group n a && needs_group n b
  | RSeq a b => needs_group n a || (negb (sets_group n a) && needs_group n b)
  | RGroup _ a => needs_group n a
  | _ => false
  end.

(** ** The three places searched for a header *)

Definition own_dir (cpp_path : path) : path := parent cpp_path.

Definition package_include_dir (cpp_path : path) : path :=
  child (parent (parent cpp_path)) (str "include").

Definition nested_include_dir (cpp_path : path) : path :=
  child (package_include_dir cpp_path) (name (parent (parent cpp_path))).

(** The header the synchronizer works on. *)
Definition chosen_header (f : fs) (cpp_path : path) : option path :=
  hd_error (candidate_headers f cpp_path).

(** A package with a header next to the source and one in each include
    directory, and a package with no header at all. *)
Definition three_headers : world :=
  package
    [(in_pkg ["include"; "pkg"; "foo.hpp"]%string, cpp "class Foo { Foo(); };");
     (in_pkg ["include"; "foo.h"]%string, cpp "class Foo { Foo(); };");
     (in_pkg ["src"; "foo.hh"]%string, cpp "class Foo { Foo(); };");
     (foo_cpp, direct_source)].

Definition no_header : world := package [(foo_cpp, direct_source)].

(** ** Vocabulary for the namespace resolver *)

(** The running count of opening minus closing braces after each line,
    starting from [acc]. *)
Fixpoint running_depth (acc : Z) (lines : list text) : list Z :=
  match lines with
  | [] => []
  | l :: rest => (acc + net_braces l)%Z :: running_depth (acc + net_braces l)%Z rest
  end.

(** No line prefix closes more braces than it opens. *)
Definition balanced (lines : list text) : bool :=
  forallb (fun d => (0 <=? d)%Z) (running_depth 0 lines).

(** The line that supplies the opening brace of a namespace does not close
    more braces than it opens. *)
Fixpoint openers_ok (remaining : list text) : bool :=
  match remaining with
  | [] => true
  | raw :: rest =>
      match ns_match (strip raw), find has_open_brace remaining with
      | Some _, Some lj => (0 <=? net_braces lj)%Z
      | _, _ => true
      end && openers_ok rest
  end.

Definition well_formed (lines : list text) : bool :=
  balanced lines && openers_ok lines.

(** The depths the resolver goes through on [content]. *)
Definition tracked_depths (content class_name : text) : list Z :=
  let lines := splitlines content in
  match constructor_line_from class_name lines 0 with
  | None => []
  | Some n => map brace_depth (ns_trace (ScanState 0 []) (scanned_lines lines n))
  end.

(** A line without braces that neither names a namespace nor holds the
    constructor. *)
Definition quiet (class_name line : text) : bool :=
  negb (is_constructor_line class_name line) &&
  match ns_match (strip line) with Some _ => false | None => true end &&
  (count_char open_brace line =? 0) && (count_char close_brace line =? 0).

(** [opens class_name n ls]: the lines [ls] open namespace [n], the keyword
    beginning a line and the brace standing on that line or on a later
    one, with only quiet lines in between. *)
Inductive opens (class_name n : text) : list text -> Prop :=
| opens_same_line : forall l,
    ns_match (strip l) = Some n ->
    net_braces l = 1%Z ->
    is_constructor_line class_name l = false ->
    opens class_name n [l]
| opens_later_line : forall l between b,
    ns_match (strip l) = Some n ->
    has_open_brace l = false ->
    is_constructor_line class_name l = false ->
    forallb (quiet class_name) between = true ->
    ns_match (strip b) = None ->
    net_braces b = 1%Z ->
    is_constructor_line class_name b = false ->
    opens class_name n (l :: between ++ [b]).

(** Sample sources for the resolver. *)
Definition unbalanced_source : text :=
  unlines ["namespace a {"; "namespace b {"; "}}}"; "Foo::Foo() {{"]%string.

Definition one_line_namespaces : text :=
  unlines ["namespace a { namespace b {"; "Foo::Foo() {}"]%string.

Definition nested_namespaces : text :=
  unlines ["#include <memory>";
           "namespace a {";
           "";
           "  namespace b";
           "  // nodes";
           "  {";
           "Foo::Foo() : Node(`foo`) {}"]%string.

(** ** Vocabulary for reasoning about matches *)

(** The least number of characters a pattern consumes. *)
Fixpoint min_len (r : regex) : nat :=
  match r with
  | REps | RRef _ | RWordB | ROpt _ => 0
  | RLit s => length s
  | RSet _ => 1
  | RRep _ lo => lo
  | RAlt a b => Nat.min (min_len a) (min_len b)
  | RSeq a b => min_len a + min_len b
  | RGroup _ a => min_len a
  end.

(** The character before the position reached after consuming [s]. *)
Definition last_of (prev : option ascii) (s : text) : option ascii :=
  fold_left (fun _ c => Some c) s prev.

(** The state reached from [MState prev (s ++ rest) pos caps] by consuming
    [s]. *)
Definition after (prev : option ascii) (s rest : text) (pos : nat)
    (caps : captures) : mstate :=
  MState (last_of prev s) rest (pos + length s) caps.

(** [s.find(needle)]: the index of the first occurrence. *)
Fixpoint find_text (needle hay : text) : option nat :=
  if starts_with needle hay then Some 0
  else match hay with
       | [] => None
       | _ :: hay' => option_map S (find_text needle hay')
       end.

(** [needle] begins at no position of [gap] in the text [gap ++ rest]. *)
Fixpoint absent (needle gap rest : text) : Prop :=
  match gap with
  | [] => True
  | c :: gap' =>
      starts_with needle (c :: gap' ++ rest) = false /\ absent needle gap' rest
  end.

(** The pattern matches at no position of [gap] in the text [gap ++ rest]. *)
Fixpoint no_match (r : regex) (prev : option ascii) (gap rest : text)
    (pos : nat) : Prop :=
  match gap with
  | [] => True
  | c :: gap' =>
      match_here r prev (c :: gap' ++ rest) pos = None /\
      no_match r (Some c) gap' rest (S pos)
  end.

(** The continuation fails after each further character of [a]. *)
Fixpoint fails_along (k : mstate -> option mstate) (a rest : text) (pos : nat)
    (caps : captures) : Prop :=
  match a with
  | [] => True
  | c :: a' =>
      k (MState (Some c) (a' ++ rest) (S pos) caps) = None /\
      fails_along k a' rest (S pos) caps
  end.

(** The repeat cannot go further: the text ends or goes on with a
    character outside the set. *)
Definition stops (cs : cset) (rest : text) : bool :=
  match rest with
  | [] => true
  | c :: _ => negb (cset_mem cs c)
  end.

(** No proper suffix of [needle] is a prefix of it. *)
Definition border_free (needle : text) : bool :=
  forallb (fun d => negb (starts_with (skipn d needle) needle))
          (seq 1 (length needle - 1)).

(** ** The lines of a file with two nested namespaces

    A line without braces. *)
Definition braceless (l : text) : bool :=
  lacks open_brace l && lacks close_brace l.

(** [ClassName::ClassName] occurs in the line. *)
Definition names_constructor (class_name l : text) : bool :=
  contains (class_name ++ scope ++ class_name) l.

(** After its indentation the line begins with [namespace]. *)
Definition begins_namespace (l : text) : bool :=
  starts_with (str "namespace") (drop_space l).

(** A line without braces that neither begins with [namespace] nor holds
    [ClassName::ClassName]. *)
Definition plain (class_name l : text) : bool :=
  braceless l && negb (names_constructor class_name l) &&
  negb (begins_namespace l).

(** The lines that open namespace [n]: [namespace n {] on one line, or
    [namespace n], plain lines, and a line with the brace. *)
Inductive namespace_opening (class_name n : text) : list text -> Prop :=
| opening_same_line : forall indent ws w t,
    forallb is_space indent = true ->
    forallb is_space ws = true -> ws <> [] ->
    forallb is_space w = true ->
    braceless t = true ->
    names_constructor class_name
      (indent ++ str "namespace" ++ ws ++ n ++ w ++ str "{" ++ t) = false ->
    namespace_opening class_name n
      [indent ++ str "namespace" ++ ws ++ n ++ w ++ str "{" ++ t]
| opening_later_line : forall indent ws t between ib tb,
    forallb is_space indent = true ->
    forallb is_space ws = true -> ws <> [] ->
    stops CsWord t = true ->
    braceless t = true ->
    names_constructor class_name
      (indent ++ str "namespace" ++ ws ++ n ++ t) = false ->
    forallb (plain class_name) between = true ->
    forallb is_space ib = true ->
    braceless tb = true ->
    names_constructor class_name (ib ++ str "{" ++ tb) = false ->
    namespace_opening class_name n
      ((indent ++ str "namespace" ++ ws ++ n ++ t)
       :: between ++ [ib ++ str "{" ++ tb]).

(** ** Vocabulary for constructor definitions *)

Definition backslash : ascii := ascii_of_nat 92.
Definition open_paren : ascii := ascii_of_nat 40.

(** [ClassName::ClassName w0 ( params )] *)
Definition signature (class_name w0 params : text) : text :=
  class_name ++ scope ++ class_name ++ w0 ++ str "(" ++ params ++ str ")".

(** [w1 : w2 body], [body] starting the first initializer. *)
Definition initializer_list (w1 w2 body : text) : text :=
  w1 ++ str ":" ++ w2 ++ body.

(** [Node w ( args )] and what the rewriter makes of it. *)
Definition node_call (w args : text) : text :=
  str "Node" ++ w ++ str "(" ++ args ++ str ")".

Definition node_call_rewritten (args : text) : text :=
  str "Node(" ++ args ++ str ", options)".

(** [LifecycleNode( args )] *)
Definition lifecycle_call (args : text) : text :=
  str "LifecycleNode(" ++ args ++ str ")".

Definition opens_body (t : text) : bool :=
  match t with
  | [] => false
  | c :: _ => negb (is_space c)
  end.

(** The replacement a template without escapes stands for. *)
Definition node_replacement (m : pymatch) : text :=
  str "Node(" ++ group_text 1 m ++ str ", options)".

(** ** Vocabulary for the rewrite of a constructor *)

Definition capital_n : ascii := ascii_of_nat 78.

(** A file with a constructor definition of known shape, the text [pre]
    before it and the body, from its opening brace on, after it; and the
    match the rewriter finds in it. *)
Definition shaped_content (class_name pre w0 params w1 w2 body rest : text)
  : text :=
  pre ++ signature class_name w0 params ++ initializer_list w1 w2 body
      ++ str "{" ++ rest.

Definition shaped_match (class_name pre w0 params w1 w2 body : text)
  : pymatch :=
  PyMatch (length pre)
    (length pre + length (signature class_name w0 params
                          ++ initializer_list w1 w2 body))
    [(0, signature class_name w0 params ++ initializer_list w1 w2 body);
     (2, initializer_list w1 w2 body);
     (1, signature class_name w0 params)].

(** A lifecycle node, with the base class qualified. *)
Definition lifecycle_source : text :=
  cpp "Foo::Foo(int x) : rclcpp_lifecycle::LifecycleNode(`foo`), x_(x) {}".

(** Group [n] took no part in the match so far. *)
Definition unset (n : nat) (st : mstate) : Prop :=
  group_of n (ms_caps st) = None.

(** The brace depth is at least the height of the namespace stack. *)
Definition covers (st : scan_state) : Prop :=
  (Z.of_nat (length (namespace_stack st)) <= brace_depth st)%Z.

(** ** Vocabulary for call sites *)

Definition make_shared : text := str "std::make_shared<".

(** A call without arguments: [std::make_shared<q ClassName> w1 ( w2 )],
    with [q] the qualification and [w1], [w2] white space. *)
Definition call_text (class_name q w1 w2 : text) : text :=
  make_shared ++ q ++ class_name ++ str ">" ++ w1 ++ str "(" ++ w2 ++ str ")".

(** What it becomes. *)
Definition call_rewritten (class_name q : text) : text :=
  make_shared ++ q ++ class_name ++ str ">(rclcpp::NodeOptions{})".

(** The beginning of a call with arguments, up to the first character of
    its first argument: [std::make_shared<g> w1 ( w2]. *)
Definition call_head (g w1 w2 : text) : text :=
  make_shared ++ g ++ str ">" ++ w1 ++ str "(" ++ w2.

(** The text begins with a call of the class without arguments:
    [std::make_shared<q ClassName> w1 ( w2 )], [q] being made of word
    characters and colons, [w1] and [w2] of white space. *)
Definition call_without_arguments (class_name s : text) : Prop :=
  exists q w1 w2 tail,
    s = call_text class_name q w1 w2 ++ tail /\
    forallb (cset_mem word_or_colon) q = true /\
    forallb is_space w1 = true /\
    forallb is_space w2 = true.

(** The same, as the pattern of the call-site updater decides it. *)
Definition begins_call (class_name s : text) : bool :=
  match match_here (constructor_call_pattern class_name) None s 0 with
  | Some _ => true
  | None => false
  end.

(** A file seen as a sequence of stretches of other text and of places at
    which [std::make_shared<] stands: a call of the class without
    arguments, the beginning of a call with arguments, or [std::make_shared<]
    followed by anything else that is not a call of the class without
    arguments. *)
Inductive piece : Type :=
| Gap (t : text)
| Call0 (q w1 w2 : text)
| CallN (g w1 w2 : text)
| Other.

Definition render_piece (class_name : text) (p : piece) : text :=
  match p with
  | Gap t => t
  | Call0 q w1 w2 => call_text class_name q w1 w2
  | CallN g w1 w2 => call_head g w1 w2
  | Other => make_shared
  end.

Definition expected_piece (class_name : text) (p : piece) : text :=
  match p with
  | Gap t => t
  | Call0 q _ _ => call_rewritten class_name q
  | CallN g w1 w2 => call_head g w1 w2
  | Other => make_shared
  end.

Definition render (class_name : text) (ps : list piece) : text :=
  flat_map (render_piece class_name) ps.

Definition expected (class_name : text) (ps : list piece) : text :=
  flat_map (expected_piece class_name) ps.

Definition is_call (p : piece) : bool :=
  match p with Gap _ => false | _ => true end.

Definition is_call0 (p : piece) : bool :=
  match p with Call0 _ _ _ => true | _ => false end.

Definition close_paren : ascii := ascii_of_nat 41.
Definition less_than : ascii := ascii_of_nat 60.

(** What follows the parenthesis of a call with arguments: something other
    than white space and the closing parenthesis (or the end of the
    file). *)
Definition opens_arguments (t : text) : bool :=
  match t with
  | [] => true
  | c :: _ => negb (is_space c) && negb (chr_eqb close_paren c)
  end.

(** The stretches of other text do not contain [std::make_shared<] and are
    separated by the places at which it stands; qualifications are made of
    word characters and colons; a call with arguments has a first
    argument; at any other place the text does not begin with a call of
    the class without arguments. *)
Fixpoint pieces_ok (class_name : text) (ps : list piece) : bool :=
  match ps with
  | [] => true
  | Gap t :: ps' =>
      negb (contains make_shared t) &&
      match ps' with [] => true | p :: _ => is_call p end &&
      pieces_ok class_name ps'
  | Call0 q w1 w2 :: ps' =>
      forallb (cset_mem word_or_colon) q && forallb is_space w1 &&
      forallb is_space w2 && pieces_ok class_name ps'
  | CallN g w1 w2 :: ps' =>
      forallb (cset_mem word_or_colon) g && forallb is_space w1 &&
      forallb is_space w2 && opens_arguments (render class_name ps') &&
      pieces_ok class_name ps'
  | Other :: ps' =>
      negb (begins_call class_name (make_shared ++ render class_name ps')) &&
      pieces_ok class_name ps'
  end.

(** The replacement of [update_main_constructors], as a function of the
    match. *)
Definition call_replacement (m : pymatch) : text :=
  make_shared ++ group_text 1 m ++ str ">(rclcpp::NodeOptions{})".

(** An entry point with three calls. *)
Definition sample_calls : list piece :=
  [Gap (cpp "auto a = "); Call0 (str "demo::") [] [];
   Gap (cpp "; auto b = "); CallN Foo [] []; Gap (cpp "42); auto c = ");
   Call0 [] (str " ") (str " "); Gap (cpp ";")].

(** An entry point with a call of another class. *)
Definition mixed_calls : list piece :=
  [Gap (cpp "auto a = "); Call0 (str "demo::") [] [];
   Gap (cpp "; auto b = "); CallN Foo [] []; Gap (cpp "42); auto c = ");
   Other; Gap (cpp "Bar>();")].

Definition calls_package : world :=
  package [(foo_cpp, direct_source); (main_cpp, render Foo mixed_calls)].

(** ** Vocabulary for what a step leaves alone *)

(** [rewritten f f']: the entries are the same, and every path holds what
    it held or, where it held a file that could be decoded, a file again. *)
Definition rewritten (f f' : fs) : Prop :=
  entries f' = entries f /\
  forall q,
    read f' q = read f q \/
    exists s t, read f q = Some (Utf8 s) /\ read f' q = Some (Utf8 t).

(** The report [e] was made. *)
Definition reported (e : event) (w : world) : Prop := In e (output w).

(** ** Vocabulary for the answers *)

Definition is_yes (line : text) : bool := text_eqb (lower (strip line)) (str "y").
Definition is_no (line : text) : bool := text_eqb (lower (strip line)) (str "n").
Definition is_answer (line : text) : bool := is_yes line || is_no line.

(** The answers the input holds, in order. *)
Definition answers (lines : list text) : list bool :=
  map is_yes (filter is_answer lines).

(** The input left after [n] answers were read. *)
Fixpoint after_answers (n : nat) (lines : list text) : list text :=
  match n with
  | 0 => lines
  | S n' =>
      match lines with
      | [] => []
      | line :: lines' =>
          if is_answer line then after_answers n' lines'
          else after_answers n lines'
      end
  end.

(** The nodes answered with [y]. *)
Definition selected (nodes : list (text * path)) (choices : list bool)
  : list (text * path) :=
  map fst (filter snd (combine nodes choices)).

(** [a] is [b] with some elements left out. *)
Inductive subsequence {A : Type} : list A -> list A -> Prop :=
| subsequence_nil : subsequence [] []
| subsequence_take : forall x a b, subsequence a b -> subsequence (x :: a) (x :: b)
| subsequence_skip : forall x a b, subsequence a b -> subsequence a (x :: b).

(** The line is the character [x] with white space around it. *)
Definition padded (x : ascii) (line : text) : Prop :=
  exists a b,
    line = a ++ x :: b /\ forallb is_space a = true /\ forallb is_space b = true.

(** ** Vocabulary for discovery *)

(** What one file adds to the candidates. *)
Definition file_matches (f : fs) (p : path) : list (text * path) :=
  match read_text f p with
  | Ok content =>
      map (fun m => (class_name_of m, p)) (finditer constructor_pattern content)
  | Raise _ => []
  end.

(** No path of the list is a directory. *)
Definition all_files (f : fs) (l : list path) : Prop :=
  forall q, In q l -> read f q <> Some Directory.

(** The longest run of word characters the text begins with. *)
Fixpoint word_run (s : text) : text :=
  match s with
  | c :: s' => if is_word c then c :: word_run s' else []
  | [] => []
  end.

(** The text begins with a name, [::] and the same name again. *)
Definition doubled_name (s : text) : bool :=
  match word_run s with
  | [] => false
  | c :: n => starts_with ((c :: n) ++ scope ++ (c :: n)) s
  end.

(** The index of the first suffix of [s] with the property [P], and the
    indices of all of them, counted from [pos]. *)
Fixpoint first_at (P : text -> bool) (s : text) : option nat :=
  if P s then Some 0
  else match s with
       | [] => None
       | _ :: s' => option_map S (first_at P s')
       end.

Fixpoint positions (P : text -> bool) (s : text) (pos : nat) : list nat :=
  (if P s then [pos] else []) ++
  match s with
  | [] => []
  | _ :: s' => positions P s' (S pos)
  end.

(** A line that closes one brace and opens none, and neither begins with
    [namespace] nor holds [ClassName::ClassName]. *)
Definition closes (class_name l : text) : bool :=
  (count_char open_brace l =? 0) && (count_char close_brace l =? 1) &&
  negb (names_constructor class_name l) && negb (begins_namespace l).

(** A namespace that is closed again before the constructor, once with the
    brace on the line of the keyword and once with the brace on the next
    line. *)
Definition closed_namespace_source : text :=
  unlines ["namespace a {"; "}"; "Foo::Foo() : Node(`foo`) {}"]%string.

Definition closed_namespace_source' : text :=
  unlines ["namespace a"; "{"; "}"; "Foo::Foo() : Node(`foo`) {}"]%string.

(** The argument the call-site updater writes, with the parenthesis that
    closes the call. *)
Definition default_options : text := str "rclcpp::NodeOptions{})".

(** ** Vocabulary for escapes and declarations *)

(** Constructors whose initializer list holds a nested call, an escape
    sequence of the template language and an escape sequence it rejects. *)
Definition nested_call_source : text :=
  cpp "Foo::Foo() : Node(make_name(`foo`)) {}".

Definition line_break_source : text :=
  cpp "Foo::Foo() : Node(`foo`), sep_(`\n`) {}".

Definition digits_source : text :=
  cpp "Foo::Foo() : Node(`foo`), re_(`\d+`) {}".

(** The characters a parameter list of a declaration may hold: all but
    the semicolon and the opening brace. *)
Definition in_declaration (c : ascii) : bool := cset_mem (not_chr ";{") c.

(** [ClassName ws ( params );] *)
Definition declaration (class_name ws params : text) : text :=
  class_name ++ ws ++ str "(" ++ params ++ str ");".

(** A header that declares two constructors. *)
Definition two_constructors_header : text :=
  unlines ["class Foo : public rclcpp::Node {"; "public:";
           "  explicit Foo(int x);"; "  Foo(int x, int y);"; "};"]%string.

(** A name without the wildcards of [glob]. *)
Definition plain_name (s : text) : bool :=
  forallb (fun c => negb (code c =? 42)%N && negb (code c =? 63)%N &&
                    negb (code c =? 91)%N) s.

(** A node the conversion is meant for: the class name is made of word
    characters, as discovery reports it, and the name of the file holds no
    wildcard. *)
Definition convertible (node : text * path) : bool :=
  forallb is_word (fst node) && plain_name (stem (snd node)).

(** A package in which [main.cpp] is a directory, one in which a
    directory is named as a source file, and one in which a directory is
    named as the header. *)
Definition main_directory : world :=
  World [(foo_cpp, Utf8 direct_source);
         (in_pkg ["src"; "main.cpp"; "notes.txt"]%string, Utf8 [])] [].


Definition header_directory : world :=
  World [(foo_cpp, Utf8 direct_source);
         (in_pkg ["src"; "foo.h"; "notes.txt"]%string, Utf8 []);
         (foo_hpp, Utf8 (cpp "class Foo { Foo(); };"))] [].

(** A file in which a delegating constructor stands before the
    constructor that names the node class, and a lifecycle node whose name
    is written with an escaped backslash. *)
Definition delegating_first_source : text :=
  unlines ["Foo::Foo() : Foo(0) {}";
           "Foo::Foo(int x) : Node(`foo_node`) {}"]%string.

Definition escaped_lifecycle_source : text :=
  cpp "Foo::Foo() : LifecycleNode(`a\\b`) {}".

(** A package whose entry point cannot be decoded. *)
Definition undecodable_main : world :=
  World [(foo_cpp, Utf8 direct_source); (main_cpp, NotUtf8)] [].

(* ================================================================== *)
(** * Basic facts about text and paths *)

Lemma chr_eqb_refl : forall c, chr_eqb c c = true.
Proof. intro c. apply Ascii.eqb_refl. Qed.

Lemma chr_eqb_eq : forall a b, chr_eqb a b = true <-> a = b.
Proof. intros a b. apply Ascii.eqb_eq. Qed.

Lemma chr_eqb_sym : forall a b, chr_eqb a b = chr_eqb b a.
Proof. intros a b. apply Ascii.eqb_sym. Qed.

Lemma text_eqb_eq : forall a b, text_eqb a b = true <-> a = b.
Proof.
  induction a as [|x a IH]; destruct b as [|y b]; simpl; split; intro H;
    try reflexivity; try discriminate.
  - apply andb_true_iff in H. destruct H as [H1 H2].
    apply chr_eqb_eq in H1. apply IH in H2. now subst.
  - injection H as -> ->. rewrite chr_eqb_refl. simpl. now apply IH.
Qed.

Lemma path_eqb_eq : forall p q, path_eqb p q = true <-> p = q.
Proof.
  induction p as [|x p IH]; destruct q as [|y q]; simpl; split; intro H;
    try reflexivity; try discriminate.
  - apply andb_true_iff in H. destruct H as [H1 H2].
    apply text_eqb_eq in H1. apply IH in H2. now subst.
  - injection H as -> ->. apply andb_true_iff. split.
    + now apply text_eqb_eq.
    + now apply IH.
Qed.

Lemma path_eqb_neq : forall p q, p <> q -> path_eqb p q = false.
Proof.
  intros p q H. destruct (path_eqb p q) eqn:E; [|reflexivity].
  apply path_eqb_eq in E. contradiction.
Qed.

Lemma strip_prefix_app : forall p s, strip_prefix p (p ++ s) = Some s.
Proof.
  induction p as [|x p IH]; intro s; simpl; [reflexivity|].
  now rewrite chr_eqb_refl.
Qed.

Lemma strip_prefix_some : forall p s r, strip_prefix p s = Some r -> s = p ++ r.
Proof.
  induction p as [|x p IH]; intros s r H; simpl in *.
  - now injection H as ->.
  - destruct s as [|y s]; [discriminate|].
    destruct (chr_eqb x y) eqn:E; [|discriminate].
    apply chr_eqb_eq in E. subst y. f_equal. now apply IH.
Qed.

Lemma starts_with_app : forall p s, starts_with p (p ++ s) = true.
Proof. intros p s. unfold starts_with. now rewrite strip_prefix_app. Qed.

Lemma starts_with_true : forall p s,
  starts_with p s = true -> exists r, s = p ++ r.
Proof.
  intros p s H. unfold starts_with in H.
  destruct (strip_prefix p s) as [r|] eqn:E; [|discriminate].
  exists r. now apply strip_prefix_some.
Qed.

(** [needle in hay] holds as soon as [needle] occurs somewhere in [hay]. *)
Lemma contains_app : forall a needle b, contains needle (a ++ needle ++ b) = true.
Proof.
  induction a as [|x a IH]; intros needle b.
  - simpl app. destruct (needle ++ b) eqn:E; simpl; rewrite <- ?E;
      rewrite starts_with_app; reflexivity.
  - simpl. rewrite IH. apply orb_true_r.
Qed.

Lemma is_below_app : forall d x, is_below d (d ++ x) = true.
Proof.
  induction d as [|c d IH]; intro x; simpl; [reflexivity|].
  rewrite IH. replace (text_eqb c c) with true; [reflexivity|].
  symmetry. now apply text_eqb_eq.
Qed.

Lemma is_below_parent : forall p, is_below (parent p) p = true.
Proof.
  intro p. unfold parent. destruct p as [|c p]; [reflexivity|].
  rewrite (app_removelast_last (l := c :: p) [] ltac:(discriminate)) at 2.
  apply is_below_app.
Qed.

Lemma is_below_child : forall d c p,
  is_below (child d c) p = true -> is_below d p = true.
Proof.
  intros d c p. unfold child. destruct c as [|x c]; [auto|].
  revert p. induction d as [|y d IH]; intros p H; [reflexivity|].
  simpl in *. destruct p as [|z p]; [discriminate|].
  apply andb_true_iff in H. destruct H as [H1 H2].
  rewrite H1. simpl. now apply IH.
Qed.

Lemma entry_write_other : forall f h t p,
  p <> h -> entry (write f h t) p = entry f p.
Proof.
  induction f as [|[q c] f IH]; intros h t p Hne; simpl.
  - rewrite path_eqb_neq; [reflexivity|]. congruence.
  - destruct (path_eqb q h) eqn:E; simpl.
    + apply path_eqb_eq in E. subst q.
      rewrite path_eqb_neq; [reflexivity|]. congruence.
    + destruct (path_eqb q p); [reflexivity|]. now apply IH.
Qed.

Lemma entry_write_same : forall f p t, entry (write f p t) p = Some (Utf8 t).
Proof.
  induction f as [|[q c] f IH]; intros p t; cbn [write entry].
  - now rewrite (proj2 (path_eqb_eq p p) eq_refl).
  - destruct (path_eqb q p) eqn:E; cbn [entry]; rewrite E; [reflexivity|].
    apply IH.
Qed.

(** Writing to an entry keeps the list of entries. *)
Lemma entries_write : forall f p t,
  entry f p <> None -> entries (write f p t) = entries f.
Proof.
  induction f as [|[q c] f IH]; intros p t H; [now contradiction H|].
  cbn [entry] in H. cbn [write]. destruct (path_eqb q p) eqn:E.
  - reflexivity.
  - unfold entries in *. cbn [map fst]. f_equal. now apply IH.
Qed.

Lemma read_entry : forall f p c,
  entry f p = Some c -> read f p = Some c.
Proof. intros f p c H. unfold read. now rewrite H. Qed.

(** What is read as a file is an entry. *)
Lemma read_file : forall f p c,
  read f p = Some c -> c <> Directory -> entry f p = Some c.
Proof.
  intros f p c H Hc. unfold read in H.
  destruct (entry f p) as [c'|]; [exact H|].
  destruct (existsb (is_below p) (entries f)); [|discriminate].
  injection H as <-. now contradiction Hc.
Qed.

Lemma read_write_other : forall f h t p,
  entry f h <> None -> p <> h -> read (write f h t) p = read f p.
Proof.
  intros f h t p Hh Hne. unfold read.
  now rewrite entry_write_other, entries_write.
Qed.

Lemma read_write_same : forall f p t, read (write f p t) p = Some (Utf8 t).
Proof. intros f p t. apply read_entry, entry_write_same. Qed.

Lemma paths_write : forall f p t,
  entry f p <> None -> paths (write f p t) = paths f.
Proof. intros f p t H. unfold paths. now rewrite entries_write. Qed.

(** ** What exists *)

Lemma is_below_prefix : forall d p,
  is_below d p = true <-> exists x, p = d ++ x.
Proof.
  induction d as [|c d IH]; intro p; simpl.
  - split; [intros _; now exists p | reflexivity].
  - destruct p as [|y p]; [split; [discriminate | intros [x H]; discriminate]|].
    rewrite andb_true_iff, text_eqb_eq, IH. split.
    + intros [-> [x ->]]. now exists x.
    + intros [x H]. injection H as -> ->. split; [reflexivity | now exists x].
Qed.

Lemma in_prefixes_from : forall p above q,
  In q (prefixes_from above p) <->
  exists a b, p = a ++ b /\ a <> [] /\ q = above ++ a.
Proof.
  induction p as [|c p IH]; intros above q; cbn [prefixes_from].
  - split; [intros [] | intros [a [b [H [Ha _]]]]].
    destruct a; [now contradiction Ha | discriminate].
  - cbn [In]. rewrite IH. split.
    + intros [<- | [a [b [-> [Ha ->]]]]].
      * exists [c], p. repeat split. discriminate.
      * exists (c :: a), b. repeat split; [discriminate|].
        now rewrite <- app_assoc.
    + intros [a [b [H [Ha ->]]]]. destruct a as [|x a]; [now contradiction Ha|].
      injection H as <- ->. destruct a as [|y a].
      * now left.
      * right. exists (y :: a), b. repeat split; [discriminate|].
        now rewrite <- app_assoc.
Qed.

Lemma in_prefixes : forall p q,
  In q (prefixes p) <-> q <> [] /\ is_below q p = true.
Proof.
  intros p q. unfold prefixes. rewrite in_prefixes_from, is_below_prefix.
  split.
  - intros [a [b [-> [Ha ->]]]]. split; [exact Ha | now exists b].
  - intros [Hq [x ->]]. now exists q, x.
Qed.

Lemma in_distinct : forall l p, In p (distinct l) <-> In p l.
Proof.
  induction l as [|q l IH]; intro p; cbn [distinct In]; [reflexivity|].
  rewrite filter_In, IH. split.
  - intros [H | [H _]]; [now left | now right].
  - intros [H | H]; [now left|].
    destruct (path_eqb q p) eqn:E.
    + left. now apply path_eqb_eq.
    + right. now split.
Qed.

(** A path exists when it is at or above an entry. *)
Lemma in_paths : forall f p,
  In p (paths f) <-> p <> [] /\ existsb (is_below p) (entries f) = true.
Proof.
  intros f p. unfold paths. rewrite in_distinct, in_flat_map, existsb_exists.
  split.
  - intros [q [Hq H]]. apply in_prefixes in H. destruct H as [Hp H].
    split; [exact Hp | now exists q].
  - intros [Hp [q [Hq H]]]. exists q. split; [exact Hq|].
    now apply in_prefixes.
Qed.

Lemma read_in_paths : forall f p, In p (paths f) -> read f p <> None.
Proof.
  intros f p H. apply in_paths in H. destruct H as [_ H]. unfold read.
  rewrite H. now destruct (entry f p).
Qed.

Lemma entry_in_entries : forall f p c, entry f p = Some c -> In p (entries f).
Proof.
  induction f as [|[q c'] f IH]; intros p c H; [discriminate|].
  cbn [entry] in H. cbn [entries map fst]. destruct (path_eqb q p) eqn:E.
  - left. now apply path_eqb_eq.
  - right. now apply IH with c.
Qed.

Lemma is_below_refl : forall p, is_below p p = true.
Proof. intro p. apply is_below_prefix. exists []. now rewrite app_nil_r. Qed.

Lemma in_paths_read : forall f p, read f p <> None -> p <> [] -> In p (paths f).
Proof.
  intros f p H Hp. apply in_paths. split; [exact Hp|]. unfold read in H.
  destruct (entry f p) as [c|] eqn:E.
  - apply existsb_exists. exists p. split; [|apply is_below_refl].
    now apply entry_in_entries with c.
  - now destruct (existsb (is_below p) (entries f)).
Qed.

(** ** Reading a file *)

Lemma read_text_ok : forall f p content,
  read_text f p = Ok content ->
  exists stored,
    entry f p = Some (Utf8 stored) /\ content = universal_newlines stored.
Proof.
  intros f p content H. unfold read_text in H.
  destruct (read f p) as [[t| |]|] eqn:E; try discriminate.
  injection H as <-. exists t. split; [|reflexivity].
  apply read_file; [exact E | discriminate].
Qed.

Lemma read_text_stored : forall f p stored,
  read f p = Some (Utf8 stored) -> read_text f p = Ok (universal_newlines stored).
Proof. intros f p stored H. unfold read_text. now rewrite H. Qed.

Lemma read_text_raises : forall f p e,
  read_text f p = Raise e ->
  (e = UnicodeDecodeError /\ entry f p = Some NotUtf8) \/
  (e = IsADirectoryError /\ read f p = Some Directory) \/
  (e = FileNotFoundError /\ read f p = None).
Proof.
  intros f p e H. unfold read_text in H.
  destruct (read f p) as [[t| |]|] eqn:E; try discriminate;
    injection H as <-.
  - left. split; [reflexivity|]. apply read_file; [exact E | discriminate].
  - right. left. now split.
  - right. right. now split.
Qed.

(** The text that is read holds no carriage return, and text without one
    is read as it was written. *)
Lemma universal_newlines_bound : forall n s,
  length s <= n -> lacks carriage_return (universal_newlines s) = true.
Proof.
  induction n as [|n IH]; intros s Hn.
  - destruct s; [reflexivity | simpl in Hn; lia].
  - destruct s as [|c s]; [reflexivity|]. cbn [universal_newlines].
    simpl in Hn. destruct (code c =? 13)%N eqn:Ec.
    + cbn [lacks forallb]. replace (chr_eqb carriage_return (ascii_of_nat 10))
        with false by reflexivity. cbn [negb andb].
      destruct s as [|d s]; [reflexivity|]. simpl in Hn.
      destruct (code d =? 10)%N; apply IH; simpl; lia.
    + cbn [lacks forallb]. fold (lacks carriage_return (universal_newlines s)).
      rewrite IH by lia.
      assert (H : chr_eqb carriage_return c = false).
      { destruct (chr_eqb carriage_return c) eqn:E; [|reflexivity].
        apply chr_eqb_eq in E. subst c. discriminate Ec. }
      now rewrite H.
Qed.

Lemma universal_newlines_lacks : forall s,
  lacks carriage_return (universal_newlines s) = true.
Proof. intro s. now apply universal_newlines_bound with (length s). Qed.

Lemma universal_newlines_plain : forall s,
  lacks carriage_return s = true -> universal_newlines s = s.
Proof.
  induction s as [|c s IH]; intro H; [reflexivity|].
  cbn [lacks forallb] in H. apply andb_true_iff in H. destruct H as [Hc Hs].
  cbn [universal_newlines].
  assert (E : (code c =? 13)%N = false).
  { destruct (code c =? 13)%N eqn:E; [|reflexivity].
    apply N.eqb_eq in E. unfold code in E.
    assert (c = carriage_return).
    { rewrite <- (ascii_N_embedding c), E. reflexivity. }
    subst c. discriminate Hc. }
  rewrite E. f_equal. now apply IH.
Qed.

Lemma read_text_lacks : forall f p content,
  read_text f p = Ok content -> lacks carriage_return content = true.
Proof.
  intros f p content H. apply read_text_ok in H.
  destruct H as [stored [_ ->]]. apply universal_newlines_lacks.
Qed.

Lemma read_text_written : forall f p t,
  lacks carriage_return t = true -> read_text (write f p t) p = Ok t.
Proof.
  intros f p t H. unfold read_text. rewrite read_write_same.
  now rewrite universal_newlines_plain.
Qed.

Lemma read_text_write_other : forall f h t p,
  entry f h <> None -> p <> h -> read_text (write f h t) p = read_text f p.
Proof.
  intros f h t p Hh Hne. unfold read_text. now rewrite read_write_other.
Qed.

(* ================================================================== *)
(** * The idempotence guard of the constructor rewriter *)

Lemma already_converted_intro : forall class_name a b c d content,
  content = a ++ (class_name ++ scope) ++ b ->
  content = c ++ str "NodeOptions" ++ d ->
  already_converted class_name content = true.
Proof.
  intros class_name a b c d content H1 H2. unfold already_converted.
  apply andb_true_iff. split.
  - rewrite H1. apply contains_app.
  - rewrite H2. apply contains_app.
Qed.

(** C9.  The guard of [update_node_constructor] looks at token presence
    only: when the text of the file contains [ClassName::] somewhere and
    [NodeOptions] somewhere, wherever these occur, the function reports
    "already converted" and leaves every file as it was. *)
Theorem guard_fires_on_token_presence :
  forall (class_name : text) (file_path : path) (w : world)
         (content a b c d : text),
    read_text (files w) file_path = Ok content ->
    content = a ++ (class_name ++ scope) ++ b ->
    content = c ++ str "NodeOptions" ++ d ->
    update_node_constructor class_name file_path w
      = Ok (say (AlreadyConverted class_name) w)
    /\ files (say (AlreadyConverted class_name) w) = files w.
Proof.
  intros class_name file_path w content a b c d Hread H1 H2.
  split; [|reflexivity].
  unfold update_node_constructor. rewrite Hread.
  now rewrite (already_converted_intro _ _ _ _ _ _ H1 H2).
Qed.

(** The guard fires for [Foo] in a file where only [Bar] was converted:
    the constructor of [Foo] stays as it was. *)
Lemma guard_fires_on_token_presence_witness :
  update_node_constructor Foo foo_cpp (package [(foo_cpp, mixed_source)])
    = Ok (say (AlreadyConverted Foo) (package [(foo_cpp, mixed_source)]))
  /\ files (say (AlreadyConverted Foo) (package [(foo_cpp, mixed_source)]))
     = files (package [(foo_cpp, mixed_source)]).
Proof.
  apply (guard_fires_on_token_presence Foo foo_cpp
           (package [(foo_cpp, mixed_source)]) mixed_source
           (firstn 72 mixed_source) (skipn 77 mixed_source)
           (firstn 23 mixed_source) (skipn 34 mixed_source));
    reflexivity.
Defined.

(* ================================================================== *)
(** * When the registration is appended *)

(** C3, the claim as stated fails: with no constructor of [Foo] in the
    file and the guard not fired, nothing is appended. *)
Lemma not_found_appends_nothing :
  already_converted Foo no_constructor_source = false /\
  search (constructor_regex Foo) no_constructor_source = None /\
  update_node_constructor Foo foo_cpp no_constructor_package
    = Ok (say (ConstructorNotFound Foo foo_cpp) no_constructor_package) /\
  read (files (say (ConstructorNotFound Foo foo_cpp) no_constructor_package))
       foo_cpp
    = Some (Utf8 no_constructor_source) /\
  ~ (exists macro,
        read (files (say (ConstructorNotFound Foo foo_cpp)
                       no_constructor_package)) foo_cpp
        = Some (Utf8 (no_constructor_source ++ registration_block macro))).
Proof.
  repeat split; try reflexivity.
  intros [macro H]. vm_compute in H. discriminate.
Qed.

(** C3, amended.  The registration is appended only on the path on which
    the constructor was found and rewritten: on the "already converted"
    path and on the "not found" path the function returns before that,
    with the files untouched; after a rewrite, the include line and the
    directive are appended at the end of the text unless the directive
    already occurs in it. *)
Theorem registration_appended_only_after_rewrite :
  forall (class_name : text) (file_path : path) (w : world) (content : text),
    read_text (files w) file_path = Ok content ->
    (already_converted class_name content = true ->
       update_node_constructor class_name file_path w
         = Ok (say (AlreadyConverted class_name) w)) /\
    (already_converted class_name content = false ->
     search (constructor_regex class_name) content = None ->
       update_node_constructor class_name file_path w
         = Ok (say (ConstructorNotFound class_name file_path) w)) /\
    (forall m updated,
       already_converted class_name content = false ->
       search (constructor_regex class_name) content = Some m ->
       rewrite_constructor class_name content m = Ok updated ->
       let macro :=
         register_macro (find_enclosing_namespace content class_name) class_name in
       update_node_constructor class_name file_path w
         = update_main_constructors class_name file_path
             (say (Updated class_name file_path)
                (put file_path (append_registration class_name content updated) w))
       /\ (contains macro updated = false ->
             append_registration class_name content updated
               = updated ++ registration_block macro)
       /\ (contains macro updated = true ->
             append_registration class_name content updated = updated)).
Proof.
  intros class_name file_path w content Hread.
  unfold update_node_constructor. rewrite Hread.
  split; [|split].
  - intros ->. reflexivity.
  - intros -> ->. reflexivity.
  - intros m updated Hg Hs Hr. rewrite Hg, Hs, Hr. simpl.
    split; [reflexivity|].
    unfold append_registration.
    split; intros ->; reflexivity.
Qed.

Lemma registration_appended_only_after_rewrite_witness :
  update_node_constructor Foo foo_cpp no_constructor_package
    = Ok (say (ConstructorNotFound Foo foo_cpp) no_constructor_package).
Proof.
  apply (proj1 (proj2 (registration_appended_only_after_rewrite Foo foo_cpp
           no_constructor_package no_constructor_source eq_refl)));
    reflexivity.
Defined.

(* ================================================================== *)
(** * Backreferences to a group that took no part in the match *)

Section UnsetGroup.

Variable n : nat.

Lemma eat_st_caps : forall s st st',
  eat_st s st = Some st' -> ms_caps st' = ms_caps st.
Proof.
  intros s st st'. unfold eat_st.
  destruct (eat s (ms_prev st) (ms_rest st) (ms_pos st)) as [[[p r] q]|];
    [|discriminate].
  intro H. injection H as <-. reflexivity.
Qed.

Lemma rep_unset : forall cs k rest lo prev pos caps,
  group_of n caps = None ->
  (forall st', unset n st' -> k st' = None) ->
  rep cs lo k prev rest pos caps = None.
Proof.
  intros cs k. induction rest as [|c rest IH]; intros lo prev pos caps Hc Hk;
    simpl.
  - destruct lo; [apply Hk; exact Hc | reflexivity].
  - destruct (cset_mem cs c).
    + rewrite IH by assumption.
      destruct lo; [apply Hk; exact Hc | reflexivity].
    + destruct lo; [apply Hk; exact Hc | reflexivity].
Qed.

(** A pattern without group [n] hands the continuation states in which
    group [n] is still unset. *)
Lemma run_keeps_unset : forall r k st,
  sets_group n r = false ->
  unset n st ->
  (forall st', unset n st' -> k st' = None) ->
  run r k st = None.
Proof.
  induction r as [| s | cs | cs lo | a IHa | a IHa b IHb | a IHa b IHb
                 | i a IHa | i |]; intros k st Hs Hst Hk; simpl in *.
  - now apply Hk.
  - destruct (eat_st s st) as [st'|] eqn:E; [|reflexivity].
    apply Hk. unfold unset. now rewrite (eat_st_caps _ _ _ E).
  - destruct (ms_rest st) as [|c rest]; [reflexivity|].
    destruct (cset_mem cs c); [|reflexivity]. now apply Hk.
  - now apply rep_unset.
  - rewrite IHa by assumption. now apply Hk.
  - apply orb_false_iff in Hs. destruct Hs as [Ha Hb].
    rewrite IHa by assumption. now apply IHb.
  - apply orb_false_iff in Hs. destruct Hs as [Ha Hb].
    apply IHa; try assumption. intros st' Hst'. now apply IHb.
  - apply orb_false_iff in Hs. destruct Hs as [Hi Ha].
    apply IHa; try assumption. intros st' Hst'. apply Hk.
    unfold unset. simpl. now rewrite Hi.
  - destruct (group_of i (ms_caps st)); [|reflexivity].
    destruct (eat_st t st) as [st'|] eqn:E; [|reflexivity].
    apply Hk. unfold unset. now rewrite (eat_st_caps _ _ _ E).
  - destruct (at_word_boundary st); [now apply Hk | reflexivity].
Qed.

(** A pattern that needs group [n] fails wherever group [n] is unset. *)
Lemma run_needs_group : forall r k st,
  needs_group n r = true -> unset n st -> run r k st = None.
Proof.
  induction r as [| s | cs | cs lo | a IHa | a IHa b IHb | a IHa b IHb
                 | i a IHa | i |]; intros k st Hn Hst; simpl in *;
    try discriminate.
  - apply andb_true_iff in Hn. destruct Hn as [Ha Hb].
    rewrite IHa by assumption. now apply IHb.
  - apply orb_true_iff in Hn. destruct Hn as [Ha | Hb].
    + now apply IHa.
    + apply andb_true_iff in Hb. destruct Hb as [Hs Hb].
      apply negb_true_iff in Hs.
      apply run_keeps_unset; try assumption.
      intros st' Hst'. now apply IHb.
  - now apply IHa.
  - apply Nat.eqb_eq in Hn. subst i. unfold unset in Hst. now rewrite Hst.
Qed.

End UnsetGroup.

(** The second alternative of the discovery pattern refers to group 1,
    which only the first alternative sets: it matches nowhere. *)
Lemma delegating_alternative_dead : forall prev rest pos,
  match_here delegating_alternative prev rest pos = None.
Proof.
  intros prev rest pos. unfold match_here.
  rewrite (@run_needs_group 1); reflexivity.
Qed.

Lemma constructor_pattern_match_here : forall prev rest pos,
  match_here constructor_pattern prev rest pos
  = match_here direct_alternative prev rest pos.
Proof.
  intros prev rest pos. unfold match_here, constructor_pattern.
  change (run (RAlt direct_alternative delegating_alternative)
            (fun st => Some st) (MState prev rest pos []))
    with (match run direct_alternative (fun st => Some st) (MState prev rest pos []) with
          | Some x => Some x
          | None => run delegating_alternative (fun st => Some st)
                      (MState prev rest pos [])
          end).
  rewrite (@run_needs_group 1 delegating_alternative) by reflexivity.
  now destruct (run direct_alternative _ _).
Qed.

Lemma scan_ext : forall r1 r2,
  (forall prev rest pos, match_here r1 prev rest pos = match_here r2 prev rest pos) ->
  forall rest prev pos skip, scan r1 prev rest pos skip = scan r2 prev rest pos skip.
Proof.
  intros r1 r2 H. induction rest as [|c rest IH]; intros prev pos skip.
  - destruct skip; simpl; [|reflexivity]. now rewrite H.
  - destruct skip; simpl.
    + rewrite H. destruct (match_here r2 prev (c :: rest) pos);
        now rewrite IH.
    + apply IH.
Qed.

(** C1.  The delegating form is never discovered: the second alternative
    of the discovery pattern matches at no position of any text, so that
    the candidates of every file are those of the first alternative alone.
    A file whose only constructor of [Foo] delegates to another constructor
    of [Foo] yields no candidate, where the direct form yields one. *)
Theorem delegating_constructor_not_discovered :
  (forall prev rest pos, match_here delegating_alternative prev rest pos = None) /\
  (forall content,
     finditer constructor_pattern content = finditer direct_alternative content) /\
  find_ros2_node_constructors
    (files (package [(foo_cpp, delegating_source)])) (in_pkg []) = Ok [] /\
  find_ros2_node_constructors
    (files (package [(foo_cpp, direct_source)])) (in_pkg [])
  = Ok [(Foo, foo_cpp)].
Proof.
  split; [exact delegating_alternative_dead|].
  split.
  - intro content. unfold finditer.
    apply scan_ext. exact constructor_pattern_match_here.
  - split; vm_compute; reflexivity.
Qed.

(* ================================================================== *)
(** * Converting twice *)

(** C2.  A second conversion of the sample package finds the
    implementation file converted and leaves it and the entry point alone,
    but rewrites the declaration in the header once more: the header after
    the second run differs from the header after the first. *)
Theorem second_conversion_rewrites_header_again :
  exists w1 w2,
    apply_composable_conversion [(Foo, foo_cpp)] demo_package = Ok w1 /\
    apply_composable_conversion [(Foo, foo_cpp)] w1 = Ok w2 /\
    read (files w1) foo_hpp = Some (Utf8 header_once) /\
    read (files w2) foo_hpp = Some (Utf8 header_twice) /\
    header_once <> header_twice /\
    read (files w2) foo_cpp = read (files w1) foo_cpp /\
    read (files w2) main_cpp = read (files w1) main_cpp.
Proof.
  eexists. eexists.
  split; [vm_compute; reflexivity|].
  split; [vm_compute; reflexivity|].
  repeat split; try (vm_compute; reflexivity).
  vm_compute. discriminate.
Qed.

(* ================================================================== *)
(** * Where the header is looked for *)

Lemma glob_exists : forall f dir pat p,
  In p (glob f dir pat) -> exists_ f dir = true.
Proof.
  intros f dir pat p H. unfold glob in H. apply filter_In in H.
  destruct H as [Hin Hp]. unfold exists_. apply existsb_exists.
  exists p. split; [exact Hin|].
  destruct p as [|c p]; [discriminate|].
  apply andb_true_iff in Hp. destruct Hp as [Hp _].
  apply path_eqb_eq in Hp. rewrite <- Hp. apply is_below_parent.
Qed.

Lemma glob_missing : forall f dir pat,
  exists_ f dir = false -> glob f dir pat = [].
Proof.
  intros f dir pat H. destruct (glob f dir pat) as [|p l] eqn:E; [reflexivity|].
  assert (Hin : In p (glob f dir pat)) by (rewrite E; now left).
  apply glob_exists in Hin. congruence.
Qed.

Lemma exists_child : forall f d c,
  exists_ f (child d c) = true -> exists_ f d = true.
Proof.
  intros f d c H. unfold exists_ in *. apply existsb_exists in H.
  destruct H as [p [Hin Hp]]. apply existsb_exists. exists p.
  split; [exact Hin|]. now apply is_below_child with c.
Qed.

(** The two [exists()] tests only skip directories in which the glob would
    find nothing. *)
Lemma candidate_headers_flat : forall f cpp_path,
  candidate_headers f cpp_path
  = glob f (own_dir cpp_path) (header_glob cpp_path)
    ++ glob f (package_include_dir cpp_path) (header_glob cpp_path)
    ++ glob f (nested_include_dir cpp_path) (header_glob cpp_path).
Proof.
  intros f cpp_path.
  unfold candidate_headers, own_dir, nested_include_dir, package_include_dir.
  set (inc := child (parent (parent cpp_path)) (str "include")).
  set (nested := child inc (name (parent (parent cpp_path)))).
  f_equal.
  destruct (exists_ f inc) eqn:Ei.
  - f_equal. destruct (exists_ f nested) eqn:En; [reflexivity|].
    symmetry. now apply glob_missing.
  - rewrite (glob_missing _ _ _ Ei). simpl.
    symmetry. apply glob_missing.
    destruct (exists_ f nested) eqn:En; [|reflexivity].
    apply exists_child in En. congruence.
Qed.

(** The synchronizer touches no file but the chosen header. *)
Lemma header_update_frame : forall class_name cpp_path w w' h p,
  chosen_header (files w) cpp_path = Some h ->
  update_header_constructor_declaration class_name cpp_path w = Ok w' ->
  p <> h -> read (files w') p = read (files w) p.
Proof.
  intros class_name cpp_path w w' h p Hc Hu Hne.
  unfold chosen_header in Hc. unfold update_header_constructor_declaration in Hu.
  destruct (candidate_headers (files w) cpp_path) as [|h' l]; [discriminate|].
  simpl in Hc. injection Hc as ->.
  destruct (read_text (files w) h) as [content|e] eqn:E.
  - destruct (search (declaration_regex class_name) content).
    + destruct (sub (declaration_regex class_name) 0
                  (new_declaration class_name) 1 content);
        simpl in Hu; [|discriminate].
      injection Hu as <-. simpl. apply read_write_other; [|exact Hne].
      apply read_text_ok in E. destruct E as [stored [E _]]. now rewrite E.
    + injection Hu as <-. reflexivity.
  - destruct e; try discriminate. injection Hu as <-. reflexivity.
Qed.

(* ================================================================== *)
(** * The namespace resolver *)

Lemma count_char_app : forall c a b,
  count_char c (a ++ b) = count_char c a + count_char c b.
Proof.
  intros c a b. induction a as [|x a IH]; simpl; [reflexivity|].
  rewrite IH. lia.
Qed.

Lemma count_char_rev : forall c s, count_char c (rev s) = count_char c s.
Proof.
  intros c s. induction s as [|x s IH]; simpl; [reflexivity|].
  rewrite count_char_app, IH. simpl. lia.
Qed.

Lemma count_char_drop_space : forall c s,
  is_space c = false -> count_char c (drop_space s) = count_char c s.
Proof.
  intros c s Hc. induction s as [|x s IH]; simpl; [reflexivity|].
  destruct (is_space x) eqn:Ex; [|reflexivity].
  rewrite IH. destruct (chr_eqb c x) eqn:E; [|reflexivity].
  apply chr_eqb_eq in E. congruence.
Qed.

Lemma count_char_strip : forall c s,
  is_space c = false -> count_char c (strip s) = count_char c s.
Proof.
  intros c s Hc. unfold strip.
  now rewrite count_char_rev, count_char_drop_space, count_char_rev,
    count_char_drop_space.
Qed.

Lemma net_braces_strip : forall l, net_braces (strip l) = net_braces l.
Proof.
  intro l. unfold net_braces. now rewrite !count_char_strip.
Qed.

Lemma no_open_brace_count : forall l,
  has_open_brace l = false -> count_char open_brace l = 0.
Proof.
  unfold has_open_brace. induction l as [|x l IH]; intro H; [reflexivity|].
  cbn [contains] in H. unfold starts_with in H. cbn [strip_prefix] in H.
  cbn [count_char].
  destruct (chr_eqb open_brace x); [discriminate|].
  rewrite IH; [reflexivity | exact H].
Qed.

Lemma open_brace_count : forall l,
  has_open_brace l = true -> 0 < count_char open_brace l.
Proof.
  unfold has_open_brace. induction l as [|x l IH]; intro H; [discriminate|].
  cbn [contains] in H. unfold starts_with in H. cbn [strip_prefix] in H.
  cbn [count_char].
  destruct (chr_eqb open_brace x); [lia|].
  apply IH in H. lia.
Qed.

Lemma count_open_brace : forall l,
  0 < count_char open_brace l -> has_open_brace l = true.
Proof.
  intros l H. destruct (has_open_brace l) eqn:E; [reflexivity|].
  apply no_open_brace_count in E. lia.
Qed.

(** The tracked depth is at least the true running depth as long as the
    lines that open namespaces do not close more than they open. *)
Lemma tracked_depth_bound : forall remaining st acc,
  (acc <= brace_depth st)%Z ->
  forallb (fun d => (0 <=? d)%Z) (running_depth acc remaining) = true ->
  openers_ok remaining = true ->
  Forall (fun st' => (0 <= brace_depth st')%Z) (ns_trace st remaining).
Proof.
  induction remaining as [|raw rest IH]; intros st acc Hacc Hbal Hop;
    [constructor|].
  simpl running_depth in Hbal. simpl forallb in Hbal.
  apply andb_true_iff in Hbal. destruct Hbal as [H0 Hbal].
  apply Z.leb_le in H0.
  cbn [openers_ok] in Hop. apply andb_true_iff in Hop.
  destruct Hop as [Hraw Hop].
  assert (Hstep : (acc + net_braces raw <= brace_depth (ns_step st (raw :: rest)))%Z).
  { cbn [ns_step]. destruct (ns_match (strip raw)) as [ns|].
    - cbn [find] in *. destruct (has_open_brace raw) eqn:Hb.
      + simpl. lia.
      + apply no_open_brace_count in Hb.
        assert (net_braces raw <= 0)%Z by (unfold net_braces; lia).
        destruct (find has_open_brace rest) as [lj|].
        * apply Z.leb_le in Hraw. simpl. lia.
        * lia.
    - simpl. rewrite net_braces_strip. lia. }
  cbn [ns_trace]. constructor; [lia|].
  apply IH with (acc := (acc + net_braces raw)%Z); assumption.
Qed.

(** C4, the claim as stated fails: on [unbalanced_source] the tracked depth
    goes through -1, and the resolver goes on and answers [a::]. *)
Lemma negative_depth_not_abandoned :
  tracked_depths unbalanced_source Foo = [1; 2; -1; 1]%Z /\
  find_enclosing_namespace unbalanced_source Foo = str "a::" /\
  find_enclosing_namespace unbalanced_source Foo <> [].
Proof.
  split; [vm_compute; reflexivity|].
  split; [vm_compute; reflexivity|].
  intro H. vm_compute in H. discriminate H.
Qed.

(** C4, amended.  On input in which no line prefix closes more braces than
    it opens, and in which the line supplying a namespace's opening brace
    does not close more than it opens, the tracked depth is never negative.
    The resolver has no way of abandoning the scan: its answer is always
    the chain built from the stack left after the constructor line. *)
Theorem tracked_depth_never_negative :
  forall (content class_name : text),
    (forall n,
       constructor_line_from class_name (splitlines content) 0 = Some n ->
       well_formed (scanned_lines (splitlines content) n) = true ->
       Forall (fun d => (0 <= d)%Z) (tracked_depths content class_name)) /\
    (forall n,
       constructor_line_from class_name (splitlines content) 0 = Some n ->
       find_enclosing_namespace content class_name
       = ns_prefix (namespace_stack
                      (ns_scan (ScanState 0 [])
                         (scanned_lines (splitlines content) n)))).
Proof.
  intros content class_name. split.
  - intros n Hn Hwf. unfold tracked_depths. rewrite Hn.
    unfold well_formed in Hwf. apply andb_true_iff in Hwf.
    destruct Hwf as [Hb Ho]. apply Forall_map.
    apply tracked_depth_bound with (acc := 0%Z); [simpl; lia | exact Hb | exact Ho].
  - intros n Hn. unfold find_enclosing_namespace. now rewrite Hn.
Qed.

Lemma tracked_depth_never_negative_witness :
  Forall (fun d => (0 <= d)%Z) (tracked_depths nested_namespaces Foo).
Proof.
  apply (proj1 (tracked_depth_never_negative nested_namespaces Foo) 6).
  - reflexivity.
  - reflexivity.
Defined.

(** ** Two nested namespaces *)

Lemma quiet_inv : forall class_name l,
  quiet class_name l = true ->
  is_constructor_line class_name l = false /\
  ns_match (strip l) = None /\
  has_open_brace l = false /\
  net_braces l = 0%Z.
Proof.
  intros class_name l H. unfold quiet in H.
  apply andb_true_iff in H. destruct H as [H H4].
  apply andb_true_iff in H. destruct H as [H H3].
  apply andb_true_iff in H. destruct H as [H1 H2].
  apply negb_true_iff in H1. apply Nat.eqb_eq in H3, H4.
  repeat split.
  - exact H1.
  - now destruct (ns_match (strip l)).
  - destruct (has_open_brace l) eqn:E; [|reflexivity].
    apply open_brace_count in E. lia.
  - unfold net_braces. lia.
Qed.

Lemma ns_step_quiet : forall class_name st raw rest,
  quiet class_name raw = true -> covers st -> ns_step st (raw :: rest) = st.
Proof.
  intros class_name st raw rest Hq Hc.
  destruct (quiet_inv _ _ Hq) as [_ [Hns [_ Hnet]]].
  cbn [ns_step]. rewrite Hns, net_braces_strip, Hnet.
  unfold covers in Hc. destruct st as [d stack]. simpl in *.
  rewrite Z.add_0_r.
  assert (H : (d <? Z.of_nat (length stack))%Z = false) by (apply Z.ltb_ge; lia).
  now rewrite H.
Qed.

Lemma ns_scan_quiet : forall class_name ls st rest,
  forallb (quiet class_name) ls = true -> covers st ->
  ns_scan st (ls ++ rest) = ns_scan st rest.
Proof.
  intros class_name. induction ls as [|l ls IH]; intros st rest Hq Hc;
    [reflexivity|].
  simpl in Hq. apply andb_true_iff in Hq. destruct Hq as [Hl Hq].
  change ((l :: ls) ++ rest) with (l :: (ls ++ rest)). cbn [ns_scan].
  rewrite (ns_step_quiet class_name) by assumption. now apply IH.
Qed.

Lemma find_brace_after_quiet : forall class_name ls b rest,
  forallb (quiet class_name) ls = true ->
  has_open_brace b = true ->
  find has_open_brace (ls ++ b :: rest) = Some b.
Proof.
  intros class_name. induction ls as [|l ls IH]; intros b rest Hq Hb.
  - simpl. now rewrite Hb.
  - simpl in Hq. apply andb_true_iff in Hq. destruct Hq as [Hl Hq].
    destruct (quiet_inv _ _ Hl) as [_ [_ [Hno _]]].
    simpl. rewrite Hno. now apply IH.
Qed.

Lemma net_one_has_brace : forall l, net_braces l = 1%Z -> has_open_brace l = true.
Proof.
  intros l H. apply count_open_brace. unfold net_braces in H. lia.
Qed.


Lemma opens_not_constructor : forall class_name n ls,
  opens class_name n ls ->
  forallb (fun l => negb (is_constructor_line class_name l)) ls = true.
Proof.
  intros class_name n ls Ho.
  destruct Ho as [l Hns Hnet Hct | l between b Hns Hno Hct Hq Hnsb Hnet Hctb].
  - simpl. now rewrite Hct.
  - simpl. rewrite Hct. simpl. rewrite forallb_app. apply andb_true_iff. split.
    + apply forallb_forall. intros x Hx.
      rewrite forallb_forall in Hq.
      destruct (quiet_inv _ _ (Hq x Hx)) as [H _]. now rewrite H.
    + simpl. now rewrite Hctb.
Qed.

Lemma quiet_not_constructor : forall class_name ls,
  forallb (quiet class_name) ls = true ->
  forallb (fun l => negb (is_constructor_line class_name l)) ls = true.
Proof.
  intros class_name ls Hq. apply forallb_forall. intros x Hx.
  rewrite forallb_forall in Hq.
  destruct (quiet_inv _ _ (Hq x Hx)) as [H _]. now rewrite H.
Qed.

Lemma constructor_line_from_app : forall class_name pre anchor rest k,
  forallb (fun l => negb (is_constructor_line class_name l)) pre = true ->
  is_constructor_line class_name anchor = true ->
  constructor_line_from class_name (pre ++ anchor :: rest) k
  = Some (k + length pre).
Proof.
  intros class_name. induction pre as [|l pre IH]; intros anchor rest k Hp Ha.
  - simpl. rewrite Ha. f_equal. lia.
  - simpl in Hp. apply andb_true_iff in Hp. destruct Hp as [Hl Hp].
    apply negb_true_iff in Hl. simpl. rewrite Hl.
    rewrite IH by assumption. f_equal. lia.
Qed.

Lemma scanned_lines_app : forall (pre : list text) anchor rest,
  scanned_lines (pre ++ anchor :: rest) (length pre) = pre ++ [anchor].
Proof.
  intros pre anchor rest. unfold scanned_lines.
  induction pre as [|l pre IH]; [reflexivity|].
  simpl. f_equal. exact IH.
Qed.

(** C5.  The resolver looks for the keyword [namespace] at the beginning
    of a line only, and so sees one namespace per line at most: for the
    very form the claim quotes, with both namespaces opened on one line,
    only the first is seen, and the answer is [a::] where the
    fully-qualified namespace of the constructor is [a::b::]. *)
Lemma one_line_namespaces_resolve_to_outer :
  find_enclosing_namespace one_line_namespaces Foo = str "a::" /\
  find_enclosing_namespace one_line_namespaces Foo <> str "a::b::".
Proof.
  split; [vm_compute; reflexivity|].
  intro H. vm_compute in H. discriminate H.
Qed.


(* ================================================================== *)
(** * How the matcher runs on a text of known shape *)

Lemma last_of_cons : forall c a prev, last_of prev (c :: a) = last_of (Some c) a.
Proof. reflexivity. Qed.

Lemma eat_app : forall s prev rest pos,
  eat s prev (s ++ rest) pos = Some (last_of prev s, rest, pos + length s).
Proof.
  induction s as [|x s IH]; intros prev rest pos; simpl.
  - now rewrite Nat.add_0_r.
  - rewrite chr_eqb_refl, IH.
    replace (pos + S (length s)) with (S pos + length s) by lia. reflexivity.
Qed.

Lemma eat_some : forall s prev rest pos p r n,
  eat s prev rest pos = Some (p, r, n) ->
  rest = s ++ r /\ p = last_of prev s /\ n = pos + length s.
Proof.
  induction s as [|x s IH]; intros prev rest pos p r n H; simpl in H.
  - injection H as <- <- <-. repeat split. simpl. lia.
  - destruct rest as [|y rest]; [discriminate|].
    destruct (chr_eqb x y) eqn:E; [|discriminate].
    apply chr_eqb_eq in E. subst y.
    apply IH in H. destruct H as [-> [-> ->]].
    repeat split. simpl. lia.
Qed.

Lemma eat_none : forall s prev rest pos,
  starts_with s rest = false -> eat s prev rest pos = None.
Proof.
  intros s prev rest pos H.
  destruct (eat s prev rest pos) as [[[p r] n]|] eqn:E; [|reflexivity].
  apply eat_some in E. destruct E as [-> _].
  now rewrite starts_with_app in H.
Qed.

Lemma run_seq : forall a b k st, run (RSeq a b) k st = run a (run b k) st.
Proof. reflexivity. Qed.

Lemma run_lit : forall s k prev rest pos caps,
  run (RLit s) k (MState prev (s ++ rest) pos caps)
  = k (after prev s rest pos caps).
Proof.
  intros. simpl. unfold eat_st. simpl. now rewrite eat_app.
Qed.

Lemma run_lit_none : forall s k prev rest pos caps,
  starts_with s rest = false ->
  run (RLit s) k (MState prev rest pos caps) = None.
Proof.
  intros. simpl. unfold eat_st. simpl. now rewrite eat_none.
Qed.

Lemma run_lit_some : forall s k st x,
  run (RLit s) k st = Some x ->
  exists rest,
    ms_rest st = s ++ rest /\
    k (after (ms_prev st) s rest (ms_pos st) (ms_caps st)) = Some x.
Proof.
  intros s k st x H. simpl in H. unfold eat_st in H.
  destruct (eat s (ms_prev st) (ms_rest st) (ms_pos st)) as [[[p r] n]|] eqn:E;
    [|discriminate].
  apply eat_some in E. destruct E as [Hr [-> ->]].
  exists r. split; [exact Hr | exact H].
Qed.

Lemma run_group : forall n r k prev rest pos caps,
  run (RGroup n r) k (MState prev rest pos caps)
  = run r (fun st' =>
             k (MState (ms_prev st') (ms_rest st') (ms_pos st')
                  ((n, firstn (ms_pos st' - pos) rest) :: ms_caps st')))
        (MState prev rest pos caps).
Proof. reflexivity. Qed.

Lemma run_wordb : forall k st,
  run RWordB k st = if at_word_boundary st then k st else None.
Proof. reflexivity. Qed.

Lemma run_rep : forall cs lo k prev rest pos caps,
  run (RRep cs lo) k (MState prev rest pos caps) = rep cs lo k prev rest pos caps.
Proof. reflexivity. Qed.

(** A repeat that runs over [a] hands over to what comes after. *)
Lemma rep_prefix : forall cs k a lo prev rest pos caps x,
  forallb (cset_mem cs) a = true ->
  rep cs (lo - length a) k (last_of prev a) rest (pos + length a) caps = Some x ->
  rep cs lo k prev (a ++ rest) pos caps = Some x.
Proof.
  intros cs k. induction a as [|c a IH]; intros lo prev rest pos caps x Ha H.
  - simpl in *. now rewrite Nat.sub_0_r, Nat.add_0_r in H.
  - simpl in Ha. apply andb_true_iff in Ha. destruct Ha as [Hc Ha].
    simpl. rewrite Hc.
    rewrite (IH (pred lo) (Some c) rest (S pos) caps x Ha); [reflexivity|].
    simpl in H. replace (pred lo - length a) with (lo - S (length a)) by lia.
    replace (S pos + length a) with (pos + S (length a)) by lia.
    exact H.
Qed.

Lemma rep_stop : forall cs k prev rest pos caps,
  stops cs rest = true ->
  rep cs 0 k prev rest pos caps = k (MState prev rest pos caps).
Proof.
  intros cs k prev rest pos caps H. destruct rest as [|c rest]; [reflexivity|].
  simpl in *. apply negb_true_iff in H. now rewrite H.
Qed.

(** The greedy end: the repeat takes all of [a] when the continuation
    succeeds there. *)
Lemma rep_max : forall cs k a lo prev rest pos caps x,
  forallb (cset_mem cs) a = true ->
  stops cs rest = true ->
  lo <= length a ->
  k (after prev a rest pos caps) = Some x ->
  rep cs lo k prev (a ++ rest) pos caps = Some x.
Proof.
  intros cs k a lo prev rest pos caps x Ha Hs Hlo Hk.
  apply rep_prefix; [exact Ha|].
  replace (lo - length a) with 0 by lia.
  rewrite rep_stop by exact Hs. exact Hk.
Qed.

(** Giving back: when the continuation fails after each character of [a],
    the repeat falls back to where it started. *)
Lemma rep_fallback : forall cs k a prev rest pos caps,
  forallb (cset_mem cs) a = true ->
  stops cs rest = true ->
  fails_along k a rest pos caps ->
  rep cs 0 k prev (a ++ rest) pos caps = k (MState prev (a ++ rest) pos caps).
Proof.
  intros cs k. induction a as [|c a IH]; intros prev rest pos caps Ha Hs Hf.
  - simpl. now apply rep_stop.
  - simpl in Ha. apply andb_true_iff in Ha. destruct Ha as [Hc Ha].
    destruct Hf as [Hf1 Hf2].
    change ((c :: a) ++ rest) with (c :: (a ++ rest)).
    cbn [rep]. rewrite Hc. cbn [pred].
    rewrite (IH (Some c) rest (S pos) caps Ha Hs Hf2), Hf1. reflexivity.
Qed.

(** A repeat that found something took some [a] and left the rest to the
    continuation. *)
Lemma rep_some : forall cs k rest lo prev pos caps x,
  rep cs lo k prev rest pos caps = Some x ->
  exists a rest',
    rest = a ++ rest' /\ forallb (cset_mem cs) a = true /\ lo <= length a /\
    k (after prev a rest' pos caps) = Some x.
Proof.
  intros cs k. induction rest as [|c rest IH]; intros lo prev pos caps x H.
  - simpl in H. destruct lo; [|discriminate].
    exists [], []. repeat split; try reflexivity.
    unfold after. simpl. now rewrite Nat.add_0_r.
  - simpl in H. 
    assert (Hhere : match lo with 0 => k (MState prev (c :: rest) pos caps)
                              | S _ => None end = Some x ->
                    exists a rest', c :: rest = a ++ rest' /\
                      forallb (cset_mem cs) a = true /\ lo <= length a /\
                      k (after prev a rest' pos caps) = Some x).
    { intro H0. destruct lo; [|discriminate].
      exists [], (c :: rest). repeat split; try reflexivity.
      unfold after. simpl. now rewrite Nat.add_0_r. }
    destruct (cset_mem cs c) eqn:Hc; [|now apply Hhere].
    destruct (rep cs (pred lo) k (Some c) rest (S pos) caps) as [y|] eqn:E;
      [|now apply Hhere].
    injection H as ->. apply IH in E.
    destruct E as [a [rest' [-> [Ha [Hlo Hk]]]]].
    exists (c :: a), rest'. repeat split.
    + simpl. now rewrite Hc.
    + simpl. lia.
    + unfold after in *. simpl.
      replace (pos + S (length a)) with (S pos + length a) by lia. exact Hk.
Qed.

(** ** No pattern of the script matches the empty text *)

Lemma run_advances : forall r k st x,
  run r k st = Some x ->
  exists st', k st' = Some x /\ ms_pos st + min_len r <= ms_pos st'.
Proof.
  induction r as [| s | cs | cs lo | a IHa | a IHa b IHb | a IHa b IHb
                 | i a IHa | i |]; intros k st x H.
  - exists st. split; [exact H | simpl; lia].
  - apply run_lit_some in H. destruct H as [rest [_ H]].
    eexists. split; [exact H | simpl; lia].
  - simpl in H. destruct (ms_rest st) as [|c rest]; [discriminate|].
    destruct (cset_mem cs c); [|discriminate].
    eexists. split; [exact H | simpl; lia].
  - simpl in H. apply rep_some in H.
    destruct H as [a [rest [_ [_ [Hlo H]]]]].
    eexists. split; [exact H | simpl; lia].
  - simpl in H. destruct (run a k st) as [y|] eqn:E.
    + injection H as ->. apply IHa in E. destruct E as [st' [Hk Hp]].
      exists st'. split; [exact Hk | simpl; lia].
    + exists st. split; [exact H | simpl; lia].
  - simpl in H. destruct (run a k st) as [y|] eqn:E.
    + injection H as ->. apply IHa in E. destruct E as [st' [Hk Hp]].
      exists st'. split; [exact Hk | simpl; lia].
    + apply IHb in H. destruct H as [st' [Hk Hp]].
      exists st'. split; [exact Hk | simpl; lia].
  - rewrite run_seq in H. apply IHa in H. destruct H as [st1 [H Hp1]].
    apply IHb in H. destruct H as [st2 [H Hp2]].
    exists st2. split; [exact H | simpl; lia].
  - simpl in H. apply IHa in H. destruct H as [st1 [H Hp1]].
    eexists. split; [exact H | simpl in *; lia].
  - simpl in H. destruct (group_of i (ms_caps st)) as [s|]; [|discriminate].
    change (run (RLit s) k st = Some x) in H.
    apply run_lit_some in H. destruct H as [rest [_ H]].
    eexists. split; [exact H | simpl; lia].
  - rewrite run_wordb in H. destruct (at_word_boundary st); [|discriminate].
    exists st. split; [exact H | simpl; lia].
Qed.

Lemma match_here_advances : forall r prev rest pos m,
  match_here r prev rest pos = Some m ->
  m_start m = pos /\ pos + min_len r <= m_end m.
Proof.
  intros r prev rest pos m H. unfold match_here in H.
  destruct (run r (fun st => Some st) (MState prev rest pos [])) as [st|] eqn:E;
    [|discriminate].
  injection H as <-. apply run_advances in E.
  destruct E as [st' [Hk Hp]]. injection Hk as ->.
  split; [reflexivity | exact Hp].
Qed.

(** Every match of a pattern of the script holds at least one character:
    the loops of [finditer] and [sub] never meet an empty match. *)
Lemma script_patterns_consume : forall class_name r,
  In r [constructor_pattern; constructor_line_pattern class_name;
        namespace_pattern; constructor_call_pattern class_name;
        constructor_regex class_name; node_initializer_pattern;
        declaration_regex class_name] ->
  forall prev rest pos m,
    match_here r prev rest pos = Some m -> m_start m < m_end m.
Proof.
  intros class_name r Hr prev rest pos m H.
  apply match_here_advances in H. destruct H as [-> H].
  assert (Hmin : 1 <= min_len r).
  { simpl in Hr.
    repeat (destruct Hr as [<- | Hr]; [simpl; lia|]). contradiction. }
  lia.
Qed.

(* ================================================================== *)
(** * Occurrences of a literal, and the scanning loops *)

Lemma starts_with_cons : forall x p y s,
  starts_with (x :: p) (y :: s) = chr_eqb x y && starts_with p s.
Proof.
  intros. unfold starts_with. simpl. now destruct (chr_eqb x y).
Qed.

(** A prefix test only looks at as many characters as the prefix has. *)
Lemma starts_with_longer : forall p s x,
  length p <= length s -> starts_with p (s ++ x) = starts_with p s.
Proof.
  induction p as [|c p IH]; intros s x H; [reflexivity|].
  destruct s as [|d s]; [simpl in H; lia|].
  simpl app. rewrite !starts_with_cons. simpl in H.
  now rewrite IH by lia.
Qed.

(** A prefix of [u ++ v] lies within [u], or covers [u] and goes on in
    [v]. *)
Lemma starts_with_split : forall p u v,
  starts_with p (u ++ v) = true ->
  (length p <= length u /\ starts_with p u = true) \/
  (length u < length p /\ starts_with u p = true /\
   starts_with (skipn (length u) p) v = true).
Proof.
  induction p as [|c p IH]; intros u v H.
  - left. split; [simpl; lia | reflexivity].
  - destruct u as [|d u].
    + right. simpl. split; [lia|]. split; [reflexivity | exact H].
    + simpl app in H. rewrite starts_with_cons in H.
      apply andb_true_iff in H. destruct H as [Hc H].
      destruct (IH u v H) as [[Hl Hs] | [Hl [Hs Hk]]].
      * left. split; [simpl; lia|]. rewrite starts_with_cons.
        now rewrite Hc, Hs.
      * right. split; [simpl; lia|]. split.
        -- rewrite starts_with_cons. rewrite chr_eqb_sym, Hc. exact Hs.
        -- exact Hk.
Qed.

Lemma starts_with_in : forall p u x v,
  starts_with p (u ++ x :: v) = true -> length u < length p -> In x p.
Proof.
  induction p as [|c p IH]; intros u x v H Hl; [simpl in Hl; lia|].
  destruct u as [|d u].
  - simpl app in H. rewrite starts_with_cons in H.
    apply andb_true_iff in H. destruct H as [Hc _].
    apply chr_eqb_eq in Hc. now left.
  - simpl app in H. rewrite starts_with_cons in H.
    apply andb_true_iff in H. destruct H as [_ H].
    right. apply IH with u v; [exact H | simpl in Hl; lia].
Qed.

Lemma starts_with_last_in : forall p u,
  starts_with p u = true -> p <> [] -> In (last p (ascii_of_nat 0)) u.
Proof.
  intros p u H Hp. apply starts_with_true in H. destruct H as [r ->].
  apply in_or_app. left.
  destruct p as [|c p]; [contradiction|].
  rewrite (app_removelast_last (l := c :: p) (ascii_of_nat 0) ltac:(discriminate)) at 2.
  apply in_or_app. right. now left.
Qed.

Lemma contains_cons_false : forall needle c hay,
  contains needle (c :: hay) = false ->
  starts_with needle (c :: hay) = false /\ contains needle hay = false.
Proof.
  intros needle c hay H. cbn [contains] in H. now apply orb_false_iff in H.
Qed.

Lemma absent_app : forall needle a b rest,
  absent needle a (b ++ rest) -> absent needle b rest ->
  absent needle (a ++ b) rest.
Proof.
  intros needle. induction a as [|c a IH]; intros b rest Ha Hb; [exact Hb|].
  destruct Ha as [H1 H2]. cbn [app absent]. split.
  - now rewrite <- app_assoc.
  - now apply IH.
Qed.

(** No occurrence begins with a character other than the first of the
    literal. *)
Lemma absent_first : forall x needle a rest,
  forallb (fun c => negb (chr_eqb x c)) a = true ->
  absent (x :: needle) a rest.
Proof.
  intros x needle. induction a as [|c a IH]; intros rest H; [exact I|].
  simpl in H. apply andb_true_iff in H. destruct H as [Hc H].
  cbn [absent]. split; [|now apply IH].
  rewrite starts_with_cons. apply negb_true_iff in Hc. now rewrite Hc.
Qed.

(** No occurrence begins in [a] when [a] lacks the last character of the
    literal and is followed by a character the literal lacks. *)
Lemma absent_blocked : forall needle a x rest,
  needle <> [] ->
  ~ In (last needle (ascii_of_nat 0)) a ->
  ~ In x needle ->
  absent needle a (x :: rest).
Proof.
  intros needle a x rest Hn. induction a as [|c a IH]; intros Hl Hx; [exact I|].
  cbn [absent]. split.
  - destruct (starts_with needle (c :: a ++ x :: rest)) eqn:E; [|reflexivity].
    exfalso. change (c :: a ++ x :: rest) with ((c :: a) ++ x :: rest) in E.
    destruct (starts_with_split _ _ _ E) as [[_ Hs] | [Hlen _]].
    + apply Hl. now apply starts_with_last_in.
    + apply Hx. now apply starts_with_in with (c :: a) rest.
  - apply IH; [|exact Hx]. intro H. apply Hl. now right.
Qed.

Lemma border_free_spec : forall needle d,
  border_free needle = true -> 1 <= d < length needle ->
  starts_with (skipn d needle) needle = false.
Proof.
  intros needle d H Hd. unfold border_free in H.
  rewrite forallb_forall in H.
  apply negb_true_iff. apply H. apply in_seq. lia.
Qed.

(** A text without the literal, followed by the literal: no occurrence
    begins before the end of the text. *)
Lemma absent_before_literal : forall needle gap rest,
  border_free needle = true ->
  contains needle gap = false ->
  absent needle gap (needle ++ rest).
Proof.
  intros needle gap rest Hb. induction gap as [|c gap IH]; intro Hc; [exact I|].
  apply contains_cons_false in Hc. destruct Hc as [Hs Hc].
  cbn [absent]. split; [|now apply IH].
  destruct (starts_with needle (c :: gap ++ needle ++ rest)) eqn:E; [|reflexivity].
  exfalso. change (c :: gap ++ needle ++ rest) with ((c :: gap) ++ needle ++ rest) in E.
  destruct (starts_with_split _ _ _ E) as [[_ Hs'] | [Hlen [_ Hk]]].
  - congruence.
  - rewrite starts_with_longer in Hk by (rewrite length_skipn; lia).
    rewrite border_free_spec in Hk; [discriminate | exact Hb |].
    simpl in *. lia.
Qed.

Lemma absent_at_end : forall needle gap,
  contains needle gap = false -> absent needle gap [].
Proof.
  intros needle. induction gap as [|c gap IH]; intro Hc; [exact I|].
  apply contains_cons_false in Hc. destruct Hc as [Hs Hc].
  cbn [absent]. rewrite app_nil_r. split; [exact Hs | now apply IH].
Qed.

Lemma find_text_absent : forall needle gap rest,
  find_text needle (gap ++ rest) = Some (length gap) -> absent needle gap rest.
Proof.
  intros needle. induction gap as [|c gap IH]; intros rest H; [exact I|].
  cbn [app find_text] in H.
  destruct (starts_with needle (c :: gap ++ rest)) eqn:E; [discriminate|].
  cbn [absent]. split; [exact E|]. apply IH.
  destruct (find_text needle (gap ++ rest)); simpl in H; [|discriminate].
  injection H as ->. reflexivity.
Qed.

(** A pattern that begins with a literal matches only where the literal
    occurs. *)
Lemma absent_no_match : forall r needle,
  (forall prev rest pos,
     starts_with needle rest = false -> match_here r prev rest pos = None) ->
  forall gap prev rest pos,
    absent needle gap rest -> no_match r prev gap rest pos.
Proof.
  intros r needle Hr. induction gap as [|c gap IH]; intros prev rest pos Ha;
    [exact I|].
  destruct Ha as [H1 H2]. cbn [no_match]. split.
  - now apply Hr.
  - now apply IH.
Qed.

Lemma search_from_gap : forall r gap prev rest pos,
  no_match r prev gap rest pos ->
  search_from r prev (gap ++ rest) pos
  = search_from r (last_of prev gap) rest (pos + length gap).
Proof.
  intros r. induction gap as [|c gap IH]; intros prev rest pos H.
  - simpl. now rewrite Nat.add_0_r.
  - destruct H as [H1 H2]. cbn [app search_from]. rewrite H1.
    rewrite IH by exact H2. rewrite last_of_cons.
    now replace (S pos + length gap) with (pos + length (c :: gap)) by (simpl; lia).
Qed.

Lemma sub_scan_done : forall r repl prev rest pos,
  sub_scan r repl (Some 0) prev rest pos 0 = rest.
Proof. intros. now destruct rest. Qed.

(** The loop copies a stretch of text in which the pattern does not
    match. *)
Lemma sub_scan_gap : forall r repl left gap prev rest pos,
  no_match r prev gap rest pos ->
  sub_scan r repl left prev (gap ++ rest) pos 0
  = gap ++ sub_scan r repl left (last_of prev gap) rest (pos + length gap) 0.
Proof.
  intros r repl left. induction gap as [|c gap IH]; intros prev rest pos H.
  - simpl. now rewrite Nat.add_0_r.
  - destruct H as [H1 H2].
    assert (Hrec : c :: sub_scan r repl left (Some c) (gap ++ rest) (S pos) 0
                   = (c :: gap) ++ sub_scan r repl left (last_of prev (c :: gap))
                                    rest (pos + length (c :: gap)) 0).
    { rewrite IH by exact H2. rewrite last_of_cons. simpl.
      now replace (S (pos + length gap)) with (pos + S (length gap)) by lia. }
    cbn [app sub_scan]. rewrite H1.
    destruct left as [[|n]|]; try exact Hrec.
    rewrite sub_scan_done. reflexivity.
Qed.

Lemma sub_scan_skip : forall r repl left a prev rest pos,
  sub_scan r repl left prev (a ++ rest) pos (length a)
  = sub_scan r repl left (last_of prev a) rest (pos + length a) 0.
Proof.
  intros r repl left. induction a as [|c a IH]; intros prev rest pos.
  - simpl. now rewrite Nat.add_0_r.
  - cbn [app length sub_scan]. rewrite IH, last_of_cons.
    now replace (S pos + length a) with (pos + S (length a)) by lia.
Qed.

(** The loop replaces a match and goes on after it. *)
Lemma sub_scan_hit : forall r repl left occ prev rest pos m,
  left <> Some 0 ->
  occ <> [] ->
  match_here r prev (occ ++ rest) pos = Some m ->
  m_end m = pos + length occ ->
  sub_scan r repl left prev (occ ++ rest) pos 0
  = repl m ++ sub_scan r repl (option_map pred left) (last_of prev occ) rest
                (pos + length occ) 0.
Proof.
  intros r repl left occ prev rest pos m Hleft Hocc Hm Hend.
  destruct occ as [|c occ]; [contradiction|].
  cbn [app sub_scan]. change (c :: occ ++ rest) with ((c :: occ) ++ rest).
  rewrite Hm.
  assert (Hcont :
    (if m_end m <=? pos
     then c :: sub_scan r repl (option_map pred left) (Some c) (occ ++ rest) (S pos) 0
     else sub_scan r repl (option_map pred left) (Some c) (occ ++ rest) (S pos)
            (m_end m - pos - 1))
    = sub_scan r repl (option_map pred left) (last_of prev (c :: occ)) rest
        (pos + length (c :: occ)) 0).
  { assert (Hle : (m_end m <=? pos) = false) by (apply Nat.leb_gt; simpl in Hend; lia).
    rewrite Hle. simpl length in *.
    replace (m_end m - pos - 1) with (length occ) by lia.
    rewrite sub_scan_skip, last_of_cons.
    now replace (S pos + length occ) with (pos + S (length occ)) by lia. }
  destruct left as [[|n]|]; [contradiction | |]; now rewrite Hcont.
Qed.

(** A search finds something exactly when the replacement loop makes a
    replacement. *)
Lemma search_none_subs_made : forall r rest prev pos,
  search_from r prev rest pos = None <-> subs_made r None prev rest pos 0 = 0.
Proof.
  intros r. induction rest as [|c rest IH]; intros prev pos; simpl.
  - destruct (match_here r prev [] pos); split; intro H;
      try reflexivity; discriminate.
  - destruct (match_here r prev (c :: rest) pos).
    + split; intro H; discriminate.
    + apply IH.
Qed.

(* ================================================================== *)
(** * The call-site pattern *)

Lemma forallb_weaken : forall (P Q : ascii -> bool) (a : text),
  (forall c, P c = true -> Q c = true) ->
  forallb P a = true -> forallb Q a = true.
Proof.
  intros P Q a H Ha. apply forallb_forall. intros x Hx.
  rewrite forallb_forall in Ha. auto.
Qed.

Lemma forallb_not_in : forall (P : ascii -> bool) (a : text) (x : ascii),
  forallb P a = true -> P x = false -> ~ In x a.
Proof.
  intros P a x Ha Hx Hin. rewrite forallb_forall in Ha.
  rewrite (Ha x Hin) in Hx. discriminate.
Qed.

Lemma firstn_exact : forall (a b : text), firstn (length a) (a ++ b) = a.
Proof.
  intros a b. rewrite firstn_app, Nat.sub_diag, firstn_all. simpl.
  apply app_nil_r.
Qed.

(** Two ways of cutting a text into a run of a class and a first character
    outside it agree. *)
Lemma span_unique : forall (P : ascii -> bool) a b x y s t,
  forallb P a = true -> forallb P b = true ->
  P x = false -> P y = false ->
  a ++ x :: s = b ++ y :: t ->
  a = b /\ x = y /\ s = t.
Proof.
  intros P. induction a as [|c a IH]; intros b x y s t Ha Hb Hx Hy H.
  - destruct b as [|d b].
    + simpl in H. injection H as -> ->. auto.
    + simpl in H. injection H as -> _. simpl in Hb.
      rewrite Hx in Hb. discriminate.
  - destruct b as [|d b].
    + simpl in H. injection H as -> _. simpl in Ha.
      rewrite Hy in Ha. discriminate.
    + simpl in H. injection H as -> H. simpl in Ha, Hb.
      apply andb_true_iff in Ha. apply andb_true_iff in Hb.
      destruct (IH b x y s t) as [-> [-> ->]]; tauto.
Qed.

Lemma span_no_end : forall (P : ascii -> bool) a b y t,
  forallb P a = true -> P y = false -> a <> b ++ y :: t.
Proof.
  intros P a b y t Ha Hy H. subst a. rewrite forallb_app in Ha.
  apply andb_true_iff in Ha. destruct Ha as [_ Ha]. simpl in Ha.
  rewrite Hy in Ha. discriminate.
Qed.

(** A literal cannot be read across a character it does not contain. *)
Lemma fails_along_lit : forall s k x t caps a pos,
  ~ In x s -> length a <= length s ->
  fails_along (run (RLit s) k) a (x :: t) pos caps.
Proof.
  intros s k x t caps. induction a as [|c a IH]; intros pos Hx Hl; [exact I|].
  cbn [fails_along]. split.
  - apply run_lit_none.
    destruct (starts_with s (a ++ x :: t)) eqn:E; [|reflexivity].
    exfalso. apply Hx. apply starts_with_in with a t; [exact E|].
    simpl in Hl. lia.
  - apply IH; [exact Hx | simpl in Hl; lia].
Qed.

Lemma word_is_word_or_colon : forall c,
  is_word c = true -> cset_mem word_or_colon c = true.
Proof. intros c H. simpl. now rewrite H. Qed.

Lemma call_head_literal : forall class_name prev rest pos,
  starts_with make_shared rest = false ->
  match_here (constructor_call_pattern class_name) prev rest pos = None.
Proof.
  intros class_name prev rest pos H. unfold match_here, constructor_call_pattern.
  cbn [rseq]. unfold lit. rewrite run_seq.
  now rewrite run_lit_none by exact H.
Qed.

Ltac lengths := repeat rewrite length_app; simpl length; lia.

(** A call without arguments is matched, the class and its qualification
    making up group 1. *)
Lemma call_match : forall class_name q w1 w2 prev rest pos,
  forallb is_word class_name = true ->
  forallb (cset_mem word_or_colon) q = true ->
  forallb is_space w1 = true ->
  forallb is_space w2 = true ->
  match_here (constructor_call_pattern class_name) prev
    (call_text class_name q w1 w2 ++ rest) pos
  = Some (PyMatch pos (pos + length (call_text class_name q w1 w2))
            [(0, call_text class_name q w1 w2); (1, q ++ class_name)]).
Proof.
  intros class_name q w1 w2 prev rest pos Hc Hq Hw1 Hw2.
  assert (Hrun :
    run (constructor_call_pattern class_name) (fun st => Some st)
        (MState prev (call_text class_name q w1 w2 ++ rest) pos [])
    = Some (MState (Some close_paren) rest
              (pos + length (call_text class_name q w1 w2))
              [(1, q ++ class_name)])).
  { unfold constructor_call_pattern, call_text, make_shared, lit, spaces.
    cbn [rseq]. rewrite <- !app_assoc.
    rewrite run_seq, run_lit. unfold after.
    rewrite run_seq, run_group, run_seq, run_rep.
    apply rep_prefix; [exact Hq|]. cbn [Nat.sub].
    rewrite rep_fallback;
      [ | apply forallb_weaken with is_word;
          [exact word_is_word_or_colon | exact Hc]
        | reflexivity
        | apply fails_along_lit;
          [ apply forallb_not_in with is_word; [exact Hc | reflexivity]
          | lia ] ].
    rewrite run_lit. unfold after. cbn beta. cbn [ms_prev ms_rest ms_pos ms_caps].
    replace (pos + length (str "std::make_shared<") + length q
             + length class_name - (pos + length (str "std::make_shared<")))
      with (length (q ++ class_name)) by lengths.
    rewrite (app_assoc q class_name), firstn_exact.
    rewrite run_seq, run_lit. unfold after.
    rewrite run_seq, run_rep.
    apply rep_max; [exact Hw1 | reflexivity | lia |]. unfold after.
    rewrite run_seq, run_lit. unfold after.
    rewrite run_seq, run_rep.
    apply rep_max; [exact Hw2 | reflexivity | lia |]. unfold after.
    rewrite run_lit. unfold after.
    f_equal. f_equal. lengths. }
  unfold match_here. rewrite Hrun. cbn [ms_pos ms_caps].
  replace (pos + length (call_text class_name q w1 w2) - pos)
    with (length (call_text class_name q w1 w2)) by lia.
  now rewrite firstn_exact.
Qed.

(** Whatever the pattern matches is a call without arguments. *)
Lemma call_match_inv : forall class_name prev rest pos m,
  match_here (constructor_call_pattern class_name) prev rest pos = Some m ->
  exists q w1 w2 tail,
    rest = call_text class_name q w1 w2 ++ tail /\
    forallb (cset_mem word_or_colon) q = true /\
    forallb is_space w1 = true /\
    forallb is_space w2 = true.
Proof.
  intros class_name prev rest pos m H. unfold match_here in H.
  destruct (run (constructor_call_pattern class_name) (fun st => Some st)
              (MState prev rest pos [])) as [st|] eqn:E; [|discriminate].
  clear H. unfold constructor_call_pattern, lit, spaces in E. cbn [rseq] in E.
  rewrite run_seq in E. apply run_lit_some in E.
  cbn [ms_prev ms_rest ms_pos ms_caps] in E. destruct E as [r1 [-> E]].
  unfold after in E. rewrite run_seq, run_group, run_seq, run_rep in E.
  apply rep_some in E. destruct E as [q [r2 [-> [Hq [_ E]]]]].
  apply run_lit_some in E. unfold after in E.
  cbn [ms_prev ms_rest ms_pos ms_caps] in E. destruct E as [r3 [-> E]].
  cbn beta in E. unfold after in E. cbn [ms_prev ms_rest ms_pos ms_caps] in E.
  rewrite run_seq in E. apply run_lit_some in E.
  cbn [ms_prev ms_rest ms_pos ms_caps] in E. destruct E as [r4 [-> E]].
  unfold after in E. rewrite run_seq, run_rep in E.
  apply rep_some in E. destruct E as [w1 [r5 [-> [Hw1 [_ E]]]]].
  unfold after in E. rewrite run_seq in E. apply run_lit_some in E.
  cbn [ms_prev ms_rest ms_pos ms_caps] in E. destruct E as [r6 [-> E]].
  unfold after in E. rewrite run_seq, run_rep in E.
  apply rep_some in E. destruct E as [w2 [r7 [-> [Hw2 [_ E]]]]].
  apply run_lit_some in E. unfold after in E.
  cbn [ms_prev ms_rest ms_pos ms_caps] in E. destruct E as [r8 [-> E]].
  exists q, w1, w2, r8. repeat split; try assumption.
  unfold call_text, make_shared. now rewrite <- !app_assoc.
Qed.

(** The beginning of a call with arguments is not matched. *)
Lemma call_with_arguments_no_match : forall class_name g w1 w2 X prev pos,
  forallb is_word class_name = true ->
  forallb (cset_mem word_or_colon) g = true ->
  forallb is_space w1 = true ->
  forallb is_space w2 = true ->
  opens_arguments X = true ->
  match_here (constructor_call_pattern class_name) prev
    (call_head g w1 w2 ++ X) pos = None.
Proof.
  intros class_name g w1 w2 X prev pos Hc Hg Hw1 Hw2 HX.
  destruct (match_here (constructor_call_pattern class_name) prev
              (call_head g w1 w2 ++ X) pos) as [m|] eqn:E; [|reflexivity].
  exfalso. apply call_match_inv in E.
  destruct E as [q [v1 [v2 [tail [Heq [Hq [Hv1 Hv2]]]]]]].
  unfold call_head, call_text in Heq. rewrite <- !app_assoc in Heq.
  apply app_inv_head in Heq. rewrite (app_assoc q class_name) in Heq.
  assert (Hqc : forallb (cset_mem word_or_colon) (q ++ class_name) = true).
  { rewrite forallb_app, Hq. simpl.
    apply forallb_weaken with is_word;
      [exact word_is_word_or_colon | exact Hc]. }
  cbn [str list_ascii_of_string app] in Heq.
  destruct (span_unique (cset_mem word_or_colon) g (q ++ class_name)
              ">"%char ">"%char _ _ Hg Hqc eq_refl eq_refl Heq)
    as [_ [_ Heq1]].
  destruct (span_unique is_space w1 v1 "("%char "("%char _ _
              Hw1 Hv1 eq_refl eq_refl Heq1)
    as [_ [_ Heq2]].
  destruct X as [|c X].
  - rewrite app_nil_r in Heq2.
    now apply (span_no_end is_space w2 v2 close_paren tail Hw2 eq_refl).
  - simpl in HX. apply andb_true_iff in HX. destruct HX as [Hs Hp].
    apply negb_true_iff in Hs, Hp.
    destruct (span_unique is_space w2 v2 c ")"%char _ _
                Hw2 Hv2 Hs eq_refl Heq2)
      as [_ [Hcp _]].
    subst c. unfold close_paren in Hp. rewrite chr_eqb_refl in Hp.
    discriminate.
Qed.

Lemma absent_tail_make_shared : forall Y,
  absent make_shared (tl make_shared) Y.
Proof. intro Y. vm_compute. repeat split. Qed.

Lemma space_not_s : forall c,
  is_space c = true -> negb (chr_eqb (ascii_of_nat 115) c) = true.
Proof.
  intros c H. apply negb_true_iff.
  destruct (chr_eqb (ascii_of_nat 115) c) eqn:E; [|reflexivity].
  apply chr_eqb_eq in E. subst c. discriminate.
Qed.

(** No call begins inside the beginning of a call with arguments. *)
Lemma absent_in_call_head : forall g w1 w2 X,
  forallb (cset_mem word_or_colon) g = true ->
  forallb is_space w1 = true ->
  forallb is_space w2 = true ->
  absent make_shared
    (tl make_shared ++ g ++ str ">" ++ w1 ++ str "(" ++ w2) X.
Proof.
  intros g w1 w2 X Hg Hw1 Hw2.
  apply absent_app; [apply absent_tail_make_shared|].
  apply absent_app.
  - cbn [str list_ascii_of_string app].
    apply absent_blocked.
    + discriminate.
    + apply forallb_not_in with (cset_mem word_or_colon);
        [exact Hg | reflexivity].
    + intro H. vm_compute in H.
      repeat (destruct H as [H|H]; [discriminate H|]). exact H.
  - apply (absent_first (ascii_of_nat 115) (tl make_shared)).
    cbn [str list_ascii_of_string app forallb].
    rewrite forallb_app. cbn [forallb].
    rewrite (forallb_weaken _ _ _ space_not_s Hw1),
      (forallb_weaken _ _ _ space_not_s Hw2).
    reflexivity.
Qed.

Lemma call_head_cons : forall g w1 w2,
  call_head g w1 w2
  = ascii_of_nat 115 :: (tl make_shared ++ g ++ str ">" ++ w1 ++ str "(" ++ w2).
Proof. reflexivity. Qed.

Lemma no_match_call_head : forall class_name g w1 w2 X prev pos,
  forallb is_word class_name = true ->
  forallb (cset_mem word_or_colon) g = true ->
  forallb is_space w1 = true ->
  forallb is_space w2 = true ->
  opens_arguments X = true ->
  no_match (constructor_call_pattern class_name) prev (call_head g w1 w2) X pos.
Proof.
  intros class_name g w1 w2 X prev pos Hc Hg Hw1 Hw2 HX.
  pose proof (call_with_arguments_no_match class_name g w1 w2 X prev pos
                Hc Hg Hw1 Hw2 HX) as H0.
  rewrite call_head_cons in *. cbn [no_match]. split; [exact H0|].
  apply absent_no_match with make_shared.
  - intros. now apply call_head_literal.
  - now apply absent_in_call_head.
Qed.

(** Whether the pattern matches depends on the text alone. *)
Lemma begins_call_spec : forall class_name s,
  forallb is_word class_name = true ->
  (begins_call class_name s = true <-> call_without_arguments class_name s).
Proof.
  intros class_name s Hc. unfold begins_call. split.
  - destruct (match_here (constructor_call_pattern class_name) None s 0)
      as [m|] eqn:E; [|discriminate].
    intros _. exact (call_match_inv _ _ _ _ _ E).
  - intros [q [w1 [w2 [tail [-> [Hq [Hw1 Hw2]]]]]]].
    now rewrite call_match.
Qed.

Lemma no_call_no_match : forall class_name s prev pos,
  forallb is_word class_name = true ->
  begins_call class_name s = false ->
  match_here (constructor_call_pattern class_name) prev s pos = None.
Proof.
  intros class_name s prev pos Hc H.
  destruct (match_here (constructor_call_pattern class_name) prev s pos)
    as [m|] eqn:E; [|reflexivity].
  apply call_match_inv in E.
  apply (begins_call_spec class_name s Hc) in E. congruence.
Qed.

(** No call begins at or inside an occurrence of [std::make_shared<] that
    is not followed by the rest of a call without arguments. *)
Lemma no_match_other : forall class_name X prev pos,
  forallb is_word class_name = true ->
  begins_call class_name (make_shared ++ X) = false ->
  no_match (constructor_call_pattern class_name) prev make_shared X pos.
Proof.
  intros class_name X prev pos Hc H.
  change make_shared with (ascii_of_nat 115 :: tl make_shared) at 1.
  cbn [no_match]. split.
  - now apply no_call_no_match.
  - apply absent_no_match with make_shared.
    + intros. now apply call_head_literal.
    + apply absent_tail_make_shared.
Qed.

Lemma render_call_starts : forall class_name p ps,
  is_call p = true ->
  exists Y, render class_name (p :: ps) = make_shared ++ Y.
Proof.
  intros class_name p ps H. destruct p as [t | q w1 w2 | g w1 w2 |];
    [discriminate | | |]; cbn [render flat_map render_piece].
  - unfold call_text. rewrite <- !app_assoc. eexists. reflexivity.
  - unfold call_head. rewrite <- !app_assoc. eexists. reflexivity.
  - eexists. reflexivity.
Qed.

Lemma no_match_gap : forall class_name t ps prev pos,
  contains make_shared t = false ->
  match ps with [] => true | p :: _ => is_call p end = true ->
  no_match (constructor_call_pattern class_name) prev t (render class_name ps) pos.
Proof.
  intros class_name t ps prev pos Ht Hps.
  apply absent_no_match with make_shared.
  - intros. now apply call_head_literal.
  - destruct ps as [|p ps].
    + now apply absent_at_end.
    + destruct (render_call_starts class_name p ps Hps) as [Y ->].
      now apply absent_before_literal.
Qed.

Lemma subs_made_gap : forall r left gap prev rest pos,
  no_match r prev gap rest pos ->
  subs_made r left prev (gap ++ rest) pos 0
  = subs_made r left (last_of prev gap) rest (pos + length gap) 0.
Proof.
  intros r left. induction gap as [|c gap IH]; intros prev rest pos H.
  - simpl. now rewrite Nat.add_0_r.
  - destruct H as [H1 H2].
    assert (Hrec : subs_made r left (Some c) (gap ++ rest) (S pos) 0
                   = subs_made r left (last_of prev (c :: gap)) rest
                       (pos + length (c :: gap)) 0).
    { rewrite IH by exact H2. rewrite last_of_cons. simpl.
      now replace (S (pos + length gap)) with (pos + S (length gap)) by lia. }
    cbn [app subs_made]. rewrite H1.
    destruct left as [[|n]|]; try exact Hrec.
    now destruct rest.
Qed.

Lemma subs_made_skip : forall r left a prev rest pos,
  subs_made r left prev (a ++ rest) pos (length a)
  = subs_made r left (last_of prev a) rest (pos + length a) 0.
Proof.
  intros r left. induction a as [|c a IH]; intros prev rest pos.
  - simpl. now rewrite Nat.add_0_r.
  - cbn [app length subs_made]. rewrite IH, last_of_cons.
    now replace (S pos + length a) with (pos + S (length a)) by lia.
Qed.

Lemma subs_made_hit : forall r left occ prev rest pos m,
  left <> Some 0 ->
  occ <> [] ->
  match_here r prev (occ ++ rest) pos = Some m ->
  m_end m = pos + length occ ->
  subs_made r left prev (occ ++ rest) pos 0
  = S (subs_made r (option_map pred left) (last_of prev occ) rest
         (pos + length occ) 0).
Proof.
  intros r left occ prev rest pos m Hleft Hocc Hm Hend.
  destruct occ as [|c occ]; [contradiction|].
  cbn [app subs_made]. change (c :: occ ++ rest) with ((c :: occ) ++ rest).
  rewrite Hm.
  assert (Hcont :
    (if m_end m <=? pos
     then subs_made r (option_map pred left) (Some c) (occ ++ rest) (S pos) 0
     else subs_made r (option_map pred left) (Some c) (occ ++ rest) (S pos)
            (m_end m - pos - 1))
    = subs_made r (option_map pred left) (last_of prev (c :: occ)) rest
        (pos + length (c :: occ)) 0).
  { assert (Hle : (m_end m <=? pos) = false) by (apply Nat.leb_gt; simpl in Hend; lia).
    rewrite Hle. simpl length in *.
    replace (m_end m - pos - 1) with (length occ) by lia.
    rewrite subs_made_skip, last_of_cons.
    now replace (S pos + length occ) with (pos + S (length occ)) by lia. }
  destruct left as [[|n]|]; [contradiction | |]; now rewrite Hcont.
Qed.

Lemma sub_scan_ext : forall r repl1 repl2,
  (forall m, repl1 m = repl2 m) ->
  forall rest left prev pos skip,
    sub_scan r repl1 left prev rest pos skip
    = sub_scan r repl2 left prev rest pos skip.
Proof.
  intros r repl1 repl2 H. induction rest as [|c rest IH];
    intros left prev pos skip.
  - destruct skip; [|reflexivity]. cbn [sub_scan].
    destruct left as [[|n]|]; try reflexivity;
      destruct (match_here r prev [] pos); now rewrite ?H.
  - destruct skip; cbn [sub_scan]; [|apply IH].
    destruct left as [[|n]|]; try reflexivity;
      destruct (match_here r prev (c :: rest) pos) as [m|];
      rewrite ?H, ?IH; try reflexivity;
      destruct (m_end m <=? pos); now rewrite ?IH.
Qed.

Lemma call_text_not_nil : forall class_name q w1 w2,
  call_text class_name q w1 w2 <> [].
Proof. intros. discriminate. Qed.

Section Pieces.

Variable class_name : text.
Hypothesis class_name_word : forallb is_word class_name = true.

Lemma pieces_rewritten : forall ps prev pos,
  pieces_ok class_name ps = true ->
  sub_scan (constructor_call_pattern class_name) call_replacement None prev
    (render class_name ps) pos 0
  = expected class_name ps.
Proof.
  induction ps as [|p ps IH]; intros prev pos Hok.
  - cbn [render flat_map sub_scan].
    now rewrite call_head_literal by reflexivity.
  - destruct p as [t | q w1 w2 | g w1 w2 |]; cbn [pieces_ok] in Hok;
      cbn [render expected flat_map render_piece expected_piece];
      fold (render class_name ps); fold (expected class_name ps).
    + apply andb_true_iff in Hok. destruct Hok as [Hok Hps].
      apply andb_true_iff in Hok. destruct Hok as [Ht Hnext].
      apply negb_true_iff in Ht.
      rewrite sub_scan_gap by (now apply no_match_gap).
      now rewrite IH.
    + apply andb_true_iff in Hok. destruct Hok as [Hok Hps].
      apply andb_true_iff in Hok. destruct Hok as [Hok Hw2].
      apply andb_true_iff in Hok. destruct Hok as [Hq Hw1].
      rewrite (sub_scan_hit (constructor_call_pattern class_name)
                 call_replacement None (call_text class_name q w1 w2) prev
                 (render class_name ps) pos _
                 ltac:(discriminate) (call_text_not_nil class_name q w1 w2)
                 (call_match class_name q w1 w2 prev (render class_name ps) pos
                    class_name_word Hq Hw1 Hw2) eq_refl).
      cbn [option_map]. rewrite IH by exact Hps.
      unfold call_replacement, call_rewritten, group_text, group.
      cbn [m_caps group_of Nat.eqb].
      now rewrite <- !app_assoc.
    + apply andb_true_iff in Hok. destruct Hok as [Hok Hps].
      apply andb_true_iff in Hok. destruct Hok as [Hok HX].
      apply andb_true_iff in Hok. destruct Hok as [Hok Hw2].
      apply andb_true_iff in Hok. destruct Hok as [Hg Hw1].
      rewrite sub_scan_gap by (now apply no_match_call_head).
      now rewrite IH.
    + apply andb_true_iff in Hok. destruct Hok as [Hno Hps].
      apply negb_true_iff in Hno.
      rewrite sub_scan_gap by (now apply no_match_other).
      now rewrite IH.
Qed.

Lemma pieces_counted : forall ps prev pos,
  pieces_ok class_name ps = true ->
  subs_made (constructor_call_pattern class_name) None prev
    (render class_name ps) pos 0
  = length (filter is_call0 ps).
Proof.
  induction ps as [|p ps IH]; intros prev pos Hok.
  - cbn [render flat_map subs_made].
    now rewrite call_head_literal by reflexivity.
  - destruct p as [t | q w1 w2 | g w1 w2 |]; cbn [pieces_ok] in Hok;
      cbn [render flat_map render_piece filter is_call0 length];
      fold (render class_name ps).
    + apply andb_true_iff in Hok. destruct Hok as [Hok Hps].
      apply andb_true_iff in Hok. destruct Hok as [Ht Hnext].
      apply negb_true_iff in Ht.
      rewrite subs_made_gap by (now apply no_match_gap).
      now rewrite IH.
    + apply andb_true_iff in Hok. destruct Hok as [Hok Hps].
      apply andb_true_iff in Hok. destruct Hok as [Hok Hw2].
      apply andb_true_iff in Hok. destruct Hok as [Hq Hw1].
      rewrite (subs_made_hit (constructor_call_pattern class_name)
                 None (call_text class_name q w1 w2) prev
                 (render class_name ps) pos _
                 ltac:(discriminate) (call_text_not_nil class_name q w1 w2)
                 (call_match class_name q w1 w2 prev (render class_name ps) pos
                    class_name_word Hq Hw1 Hw2) eq_refl).
      cbn [option_map]. now rewrite IH by exact Hps.
    + apply andb_true_iff in Hok. destruct Hok as [Hok Hps].
      apply andb_true_iff in Hok. destruct Hok as [Hok HX].
      apply andb_true_iff in Hok. destruct Hok as [Hok Hw2].
      apply andb_true_iff in Hok. destruct Hok as [Hg Hw1].
      rewrite subs_made_gap by (now apply no_match_call_head).
      now rewrite IH.
    + apply andb_true_iff in Hok. destruct Hok as [Hno Hps].
      apply negb_true_iff in Hno.
      rewrite subs_made_gap by (now apply no_match_other).
      now rewrite IH.
Qed.

End Pieces.

Lemma call_template_parses :
  exists items,
    parse_template (length call_template) 1 call_template = Some items /\
    forall m, expand items m = call_replacement m.
Proof.
  eexists. split; [vm_compute; reflexivity|]. intro m. reflexivity.
Qed.

Lemma sub_call_template : forall class_name content,
  sub (constructor_call_pattern class_name) 1 call_template 0 content
  = Some (sub_with (constructor_call_pattern class_name) call_replacement 0 content).
Proof.
  intros class_name content. unfold sub.
  destruct call_template_parses as [items [-> Hm]].
  f_equal. unfold sub_with. now apply sub_scan_ext.
Qed.

Lemma filter_call0_length : forall ps,
  (existsb is_call0 ps = true -> 0 < length (filter is_call0 ps)) /\
  (existsb is_call0 ps = false -> length (filter is_call0 ps) = 0).
Proof.
  induction ps as [|p ps [IH1 IH2]]; split; simpl; intro H;
    try discriminate; try reflexivity.
  - destruct (is_call0 p); simpl in *; [lia | auto].
  - destruct (is_call0 p); simpl in *; [discriminate | auto].
Qed.

Lemma expected_without_call0 : forall class_name ps,
  existsb is_call0 ps = false -> expected class_name ps = render class_name ps.
Proof.
  intros class_name. induction ps as [|p ps IH]; intro H; [reflexivity|].
  simpl in H. apply orb_false_iff in H. destruct H as [Hp H].
  cbn [expected render flat_map].
  fold (render class_name ps). fold (expected class_name ps).
  rewrite IH by exact H. now destruct p.
Qed.

(** What [update_main_file] does, by the number of replacements. *)
Lemma update_main_file_cases : forall class_name p w content,
  read_text (files w) p = Ok content ->
  (substitutions (constructor_call_pattern class_name) 0 content = 0 ->
     update_main_file class_name w p = Ok w) /\
  (0 < substitutions (constructor_call_pattern class_name) 0 content ->
     update_main_file class_name w p
     = Ok (say (CallUpdated p)
             (put p (sub_with (constructor_call_pattern class_name)
                       call_replacement 0 content) w))).
Proof.
  intros class_name p w content Hread.
  unfold update_main_file. rewrite Hread.
  unfold substitutions, search. cbn [limit_of].
  destruct (search_from (constructor_call_pattern class_name) None content 0)
    as [m|] eqn:E.
  - split; intro H.
    + apply search_none_subs_made in H. congruence.
    + rewrite sub_call_template. reflexivity.
  - split; intro H; [reflexivity|].
    apply search_none_subs_made in E. lia.
Qed.

(* ================================================================== *)
(** * The constructor pattern and the initializer pattern *)

Lemma no_match_app : forall r a b prev rest pos,
  no_match r prev a (b ++ rest) pos ->
  no_match r (last_of prev a) b rest (pos + length a) ->
  no_match r prev (a ++ b) rest pos.
Proof.
  intros r. induction a as [|c a IH]; intros b prev rest pos Ha Hb.
  - simpl in *. now rewrite Nat.add_0_r in Hb.
  - destruct Ha as [H1 H2]. cbn [app no_match]. split.
    + now rewrite <- app_assoc.
    + apply IH; [exact H2|]. rewrite last_of_cons in Hb.
      now replace (S pos + length a) with (pos + length (c :: a)) by (simpl; lia).
Qed.

Lemma search_from_hit : forall r prev rest pos m,
  match_here r prev rest pos = Some m -> search_from r prev rest pos = Some m.
Proof.
  intros r prev rest pos m H. destruct rest; simpl; now rewrite H.
Qed.

Lemma not_in_forallb : forall (c : ascii) (t : text),
  ~ In c t -> forallb (fun x => negb (chr_eqb c x)) t = true.
Proof.
  intros c t H. apply forallb_forall. intros x Hx. apply negb_true_iff.
  destruct (chr_eqb c x) eqn:E; [|reflexivity].
  apply chr_eqb_eq in E. subst x. contradiction.
Qed.

Lemma code_backslash : forall c, c <> backslash -> (code c =? 92)%N = false.
Proof.
  intros c H. apply N.eqb_neq. intro E. apply H.
  unfold code in E. rewrite <- (ascii_N_embedding c), E. reflexivity.
Qed.

(** A template without a backslash stands for itself. *)
Lemma parse_template_plain : forall t n,
  ~ In backslash t ->
  parse_template (length t) n t = Some (map TChr t).
Proof.
  induction t as [|c t IH]; intros n H; [reflexivity|].
  cbn [length parse_template].
  rewrite code_backslash by (intro E; apply H; now left).
  cbn [negb]. rewrite IH by (intro E; apply H; now right).
  reflexivity.
Qed.

Lemma expand_plain : forall t m, expand (map TChr t) m = t.
Proof.
  induction t as [|c t IH]; intro m; [reflexivity|]. simpl. now rewrite IH.
Qed.

Lemma last_of_not_word : forall a prev,
  a <> [] -> forallb (fun c => negb (is_word c)) a = true ->
  word_opt (last_of prev a) = false.
Proof.
  induction a as [|c a IH]; intros prev Hn Ha; [contradiction|].
  simpl in Ha. apply andb_true_iff in Ha. destruct Ha as [Hc Ha].
  rewrite last_of_cons. destruct a as [|d a].
  - simpl. now apply negb_true_iff.
  - apply IH; [discriminate | exact Ha].
Qed.

Lemma space_not_word : forall c, is_space c = true -> negb (is_word c) = true.
Proof.
  intros c H. apply negb_true_iff. destruct (is_word c) eqn:E; [|reflexivity].
  exfalso. revert H E. unfold is_space, is_word.
  set (n := code c). clearbody n. intros H E.
  repeat rewrite ?orb_true_iff, ?andb_true_iff, ?N.leb_le, ?N.eqb_eq in H.
  repeat rewrite ?orb_true_iff, ?andb_true_iff, ?N.leb_le, ?N.eqb_eq in E.
  lia.
Qed.

(** ** [\bNode\s*\(([^)]{0,})\)] *)

Lemma node_head_literal : forall prev rest pos,
  starts_with (str "Node") rest = false ->
  match_here node_initializer_pattern prev rest pos = None.
Proof.
  intros prev rest pos H. unfold match_here, node_initializer_pattern.
  cbn [rseq]. unfold lit. rewrite run_seq, run_wordb.
  destruct (at_word_boundary _); [|reflexivity].
  rewrite run_seq. now rewrite run_lit_none by exact H.
Qed.

(** Inside a word, [\b] keeps the pattern from matching. *)
Lemma node_inside_word : forall c rest pos,
  is_word c = true ->
  match_here node_initializer_pattern (Some c) (str "Node" ++ rest) pos = None.
Proof.
  intros c rest pos H. unfold match_here, node_initializer_pattern.
  cbn [rseq]. rewrite run_seq, run_wordb.
  unfold at_word_boundary. cbn [ms_prev ms_rest word_opt str
    list_ascii_of_string app hd_error].
  rewrite H. reflexivity.
Qed.

Lemma node_match : forall prev w args rest pos,
  word_opt prev = false ->
  forallb is_space w = true ->
  ~ In close_paren args ->
  match_here node_initializer_pattern prev (node_call w args ++ rest) pos
  = Some (PyMatch pos (pos + length (node_call w args))
            [(0, node_call w args); (1, args)]).
Proof.
  intros prev w args rest pos Hprev Hw Hargs.
  assert (Hrun :
    run node_initializer_pattern (fun st => Some st)
        (MState prev (node_call w args ++ rest) pos [])
    = Some (MState (Some close_paren) rest (pos + length (node_call w args))
              [(1, args)])).
  { unfold node_initializer_pattern, node_call, lit, spaces.
    cbn [rseq]. rewrite <- !app_assoc.
    rewrite run_seq, run_wordb.
    assert (Hb : at_word_boundary
                   (MState prev (str "Node" ++ w ++ str "(" ++ args ++ str ")" ++ rest)
                      pos []) = true).
    { unfold at_word_boundary. cbn [ms_prev ms_rest]. rewrite Hprev. reflexivity. }
    rewrite Hb.
    rewrite run_seq, run_lit. unfold after.
    rewrite run_seq, run_rep.
    apply rep_max; [exact Hw | reflexivity | lia |]. unfold after.
    rewrite run_seq, run_lit. unfold after.
    rewrite run_seq, run_group, run_rep.
    apply rep_max;
      [ apply (not_in_forallb close_paren); exact Hargs
      | reflexivity | lia |].
    unfold after. cbn beta. cbn [ms_prev ms_rest ms_pos ms_caps].
    replace (pos + length (str "Node") + length w + length (str "(")
             + length args
             - (pos + length (str "Node") + length w + length (str "(")))
      with (length args) by lia.
    rewrite firstn_exact, run_lit. unfold after.
    f_equal. f_equal. lengths. }
  unfold match_here. rewrite Hrun. cbn [ms_pos ms_caps].
  replace (pos + length (node_call w args) - pos)
    with (length (node_call w args)) by lia.
  now rewrite firstn_exact.
Qed.

Lemma firstn_cover : forall (a b : text) n,
  length a <= n -> firstn n (a ++ b) = a ++ firstn (n - length a) b.
Proof.
  intros a b n H. rewrite firstn_app. now rewrite firstn_all2 by exact H.
Qed.

Lemma firstn_none : forall (b : text) n, n = 0 -> firstn n b = [].
Proof. intros b n ->. reflexivity. Qed.

Lemma mstate_eq : forall p p' r r' n n' c c',
  p = p' -> r = r' -> n = n' -> c = c' -> MState p r n c = MState p' r' n' c'.
Proof. intros. now subst. Qed.

Ltac take_prefix :=
  repeat (rewrite firstn_cover by lengths);
  rewrite firstn_none by lengths;
  rewrite ?app_nil_r.

Lemma constructor_match : forall class_name w0 params w1 w2 body X prev pos,
  forallb is_space w0 = true ->
  ~ In close_paren params ->
  forallb is_space w1 = true ->
  forallb is_space w2 = true ->
  opens_body body = true ->
  ~ In open_brace body ->
  stops (not_chr "{") X = true ->
  match_here (constructor_regex class_name) prev
    (signature class_name w0 params ++ initializer_list w1 w2 body ++ X) pos
  = Some (PyMatch pos
            (pos + length (signature class_name w0 params
                           ++ initializer_list w1 w2 body))
            [(0, signature class_name w0 params ++ initializer_list w1 w2 body);
             (2, initializer_list w1 w2 body);
             (1, signature class_name w0 params)]).
Proof.
  intros class_name w0 params w1 w2 body X prev pos Hw0 Hp Hw1 Hw2 Hb Hbody HX.
  assert (Hrun :
    run (constructor_regex class_name) (fun st => Some st)
        (MState prev (signature class_name w0 params
                      ++ initializer_list w1 w2 body ++ X) pos [])
    = Some (MState (last_of None body) X
              (pos + length (signature class_name w0 params
                             ++ initializer_list w1 w2 body))
              [(2, initializer_list w1 w2 body);
               (1, signature class_name w0 params)])).
  { destruct body as [|b body]; [discriminate|].
    unfold constructor_regex, signature, initializer_list, lit, spaces, scope.
    cbn [rseq]. rewrite <- !app_assoc.
    rewrite run_seq, run_group.
    rewrite run_seq, run_lit. unfold after.
    rewrite run_seq, run_lit. unfold after.
    rewrite run_seq, run_lit. unfold after.
    rewrite run_seq, run_rep.
    apply rep_max; [exact Hw0 | reflexivity | lia |]. unfold after.
    rewrite run_seq, run_lit. unfold after.
    rewrite run_seq, run_rep.
    apply rep_max;
      [apply (not_in_forallb close_paren); exact Hp | reflexivity | lia |].
    unfold after. rewrite run_lit. unfold after.
    cbn beta. cbn [ms_prev ms_rest ms_pos ms_caps].
    rewrite run_group.
    rewrite run_seq, run_rep.
    apply rep_max; [exact Hw1 | reflexivity | lia |]. unfold after.
    rewrite run_seq, run_lit. unfold after.
    rewrite run_seq, run_rep.
    apply rep_max; [exact Hw2 | exact Hb | lia |]. unfold after.
    rewrite run_rep.
    apply rep_max;
      [apply (not_in_forallb open_brace); exact Hbody | exact HX | simpl; lia |].
    unfold after. cbn beta. cbn [ms_prev ms_rest ms_pos ms_caps].
    f_equal. apply mstate_eq.
    - reflexivity.
    - reflexivity.
    - lengths.
    - f_equal; [|f_equal]; f_equal; take_prefix; reflexivity. }
  unfold match_here. rewrite Hrun. cbn [ms_pos ms_caps].
  f_equal. f_equal. f_equal. f_equal.
  rewrite app_assoc. 
  set (whole := signature class_name w0 params ++ initializer_list w1 w2 body).
  replace (pos + length whole - pos) with (length whole) by lia.
  apply firstn_exact.
Qed.

(** The pattern matches only where [ClassName::ClassName] stands. *)
Lemma constructor_head_literal : forall class_name prev rest pos,
  starts_with (class_name ++ scope ++ class_name) rest = false ->
  match_here (constructor_regex class_name) prev rest pos = None.
Proof.
  intros class_name prev rest pos H. unfold match_here.
  destruct (run (constructor_regex class_name) (fun st => Some st)
              (MState prev rest pos [])) as [st|] eqn:E; [|reflexivity].
  exfalso. unfold constructor_regex, lit in E. cbn [rseq] in E.
  rewrite run_seq, run_group, run_seq in E.
  apply run_lit_some in E. cbn [ms_prev ms_rest ms_pos ms_caps] in E.
  destruct E as [r1 [-> E]]. unfold after in E.
  rewrite run_seq in E. apply run_lit_some in E.
  cbn [ms_prev ms_rest ms_pos ms_caps] in E.
  destruct E as [r2 [-> E]]. unfold after in E.
  rewrite run_seq in E. apply run_lit_some in E.
  cbn [ms_prev ms_rest ms_pos ms_caps] in E.
  destruct E as [r3 [-> E]].
  unfold scope in H. rewrite !app_assoc in H.
  rewrite <- !app_assoc in H.
  replace (class_name ++ str "::" ++ class_name ++ r3)
    with ((class_name ++ str "::" ++ class_name) ++ r3) in H
    by (now rewrite <- !app_assoc).
  rewrite starts_with_app in H. discriminate.
Qed.

Lemma node_template_parses :
  exists items,
    parse_template (length node_template) 1 node_template = Some items /\
    forall m, expand items m = node_replacement m.
Proof.
  eexists. split; [vm_compute; reflexivity|]. intro m. reflexivity.
Qed.

Lemma sub_node_template : forall t,
  sub node_initializer_pattern 1 node_template 0 t
  = Some (sub_scan node_initializer_pattern node_replacement None None t 0 0).
Proof.
  intro t. unfold sub. destruct node_template_parses as [items [-> Hm]].
  f_equal. unfold sub_with. now apply sub_scan_ext.
Qed.

Lemma sub_scan_rest : forall r repl gap prev pos,
  no_match r prev gap [] pos ->
  match_here r (last_of prev gap) [] (pos + length gap) = None ->
  sub_scan r repl None prev gap pos 0 = gap.
Proof.
  intros r repl gap prev pos Hg He.
  rewrite <- (app_nil_r gap) at 1. rewrite sub_scan_gap by exact Hg.
  cbn [sub_scan]. rewrite He. apply app_nil_r.
Qed.

Lemma space_not_n : forall c,
  is_space c = true -> negb (chr_eqb capital_n c) = true.
Proof.
  intros c H. apply negb_true_iff.
  destruct (chr_eqb capital_n c) eqn:E; [|reflexivity].
  apply chr_eqb_eq in E. subst c. discriminate.
Qed.

Lemma no_node_in_gap : forall t prev pos,
  contains (str "Node") t = false ->
  no_match node_initializer_pattern prev t [] pos.
Proof.
  intros t prev pos H. apply absent_no_match with (str "Node").
  - intros. now apply node_head_literal.
  - now apply absent_at_end.
Qed.

(** The part of an initializer list before its first initializer holds no
    [Node]. *)
Lemma no_node_before_body : forall w1 w2 rest prev pos,
  forallb is_space w1 = true ->
  forallb is_space w2 = true ->
  no_match node_initializer_pattern prev (w1 ++ str ":" ++ w2) rest pos.
Proof.
  intros w1 w2 rest prev pos H1 H2.
  apply absent_no_match with (str "Node").
  - intros. now apply node_head_literal.
  - apply (absent_first capital_n (str "ode")).
    rewrite !forallb_app.
    rewrite (forallb_weaken _ _ _ space_not_n H1),
      (forallb_weaken _ _ _ space_not_n H2).
    reflexivity.
Qed.

Lemma before_body_not_word : forall w1 w2 prev,
  forallb is_space w1 = true ->
  forallb is_space w2 = true ->
  word_opt (last_of prev (w1 ++ str ":" ++ w2)) = false.
Proof.
  intros w1 w2 prev H1 H2. apply last_of_not_word.
  - destruct w1; discriminate.
  - rewrite !forallb_app.
    rewrite (forallb_weaken _ _ _ space_not_word H1),
      (forallb_weaken _ _ _ space_not_word H2).
    reflexivity.
Qed.

(** Forwarding: a call of [Node] gets the options as a further argument. *)
Lemma node_initializer_rewritten : forall w1 w2 w3 args q,
  forallb is_space w1 = true ->
  forallb is_space w2 = true ->
  forallb is_space w3 = true ->
  ~ In close_paren args ->
  contains (str "Node") q = false ->
  sub node_initializer_pattern 1 node_template 0
      (initializer_list w1 w2 (node_call w3 args ++ q))
  = Some (initializer_list w1 w2 (node_call_rewritten args ++ q)).
Proof.
  intros w1 w2 w3 args q H1 H2 H3 Ha Hq.
  rewrite sub_node_template. f_equal. unfold initializer_list.
  replace (w1 ++ str ":" ++ w2 ++ node_call w3 args ++ q)
    with ((w1 ++ str ":" ++ w2) ++ node_call w3 args ++ q)
    by (now rewrite <- !app_assoc).
  rewrite sub_scan_gap by (now apply no_node_before_body).
  rewrite (sub_scan_hit node_initializer_pattern node_replacement None
             (node_call w3 args) _ q _ _
             ltac:(discriminate) ltac:(discriminate)
             (node_match _ w3 args q _ (before_body_not_word w1 w2 None H1 H2)
                H3 Ha) eq_refl).
  cbn [option_map].
  rewrite sub_scan_rest;
    [ | now apply no_node_in_gap | now apply node_head_literal ].
  unfold node_replacement, node_call_rewritten, group_text, group.
  cbn [m_caps group_of Nat.eqb].
  now rewrite <- !app_assoc.
Qed.

Lemma no_constructor_before : forall class_name pre rest prev pos,
  find_text (class_name ++ scope ++ class_name) (pre ++ rest) = Some (length pre) ->
  no_match (constructor_regex class_name) prev pre rest pos.
Proof.
  intros class_name pre rest prev pos H.
  apply absent_no_match with (class_name ++ scope ++ class_name).
  - intros. now apply constructor_head_literal.
  - now apply find_text_absent.
Qed.

Section ConstructorShape.

Variables class_name pre w0 params w1 w2 body rest : text.

Hypothesis space_w0 : forallb is_space w0 = true.
Hypothesis space_w1 : forallb is_space w1 = true.
Hypothesis space_w2 : forallb is_space w2 = true.
Hypothesis params_open : ~ In close_paren params.
Hypothesis body_opens : opens_body body = true.
Hypothesis body_open : ~ In open_brace body.

Hypothesis first_occurrence :
  find_text (class_name ++ scope ++ class_name)
    (shaped_content class_name pre w0 params w1 w2 body rest)
  = Some (length pre).

Lemma shaped_match_here : forall prev,
  match_here (constructor_regex class_name) prev
    ((signature class_name w0 params ++ initializer_list w1 w2 body)
     ++ str "{" ++ rest) (length pre)
  = Some (shaped_match class_name pre w0 params w1 w2 body).
Proof.
  intro prev. rewrite <- app_assoc.
  now apply constructor_match.
Qed.

Lemma constructor_found :
  search (constructor_regex class_name)
    (shaped_content class_name pre w0 params w1 w2 body rest)
  = Some (shaped_match class_name pre w0 params w1 w2 body).
Proof.
  unfold search, shaped_content.
  rewrite search_from_gap
    by (apply no_constructor_before; exact first_occurrence).
  apply search_from_hit. cbn [Nat.add]. rewrite app_assoc.
  apply shaped_match_here.
Qed.

Lemma signature_not_nil : forall w p,
  signature class_name w p ++ initializer_list w1 w2 body <> [].
Proof.
  intros w p H. apply (f_equal (@length ascii)) in H.
  unfold signature, scope in H. rewrite !length_app in H. simpl in H. lia.
Qed.

Lemma constructor_rewritten : forall init',
  sub node_initializer_pattern 1 node_template 0 (initializer_list w1 w2 body)
    = Some init' ->
  ~ In backslash (new_signature class_name ++ init') ->
  rewrite_constructor class_name
    (shaped_content class_name pre w0 params w1 w2 body rest)
    (shaped_match class_name pre w0 params w1 w2 body)
  = Ok (pre ++ new_signature class_name ++ init' ++ str "{" ++ rest).
Proof.
  intros init' Hinner Hplain. unfold rewrite_constructor.
  change (group_text 2 (shaped_match class_name pre w0 params w1 w2 body))
    with (initializer_list w1 w2 body).
  rewrite Hinner. cbn [of_template bind].
  unfold sub. rewrite parse_template_plain by exact Hplain.
  cbn [of_template]. f_equal.
  unfold sub_with, shaped_content. cbn [limit_of].
  rewrite sub_scan_gap
    by (apply no_constructor_before; exact first_occurrence).
  f_equal. cbn [Nat.add]. rewrite app_assoc.
  rewrite (sub_scan_hit (constructor_regex class_name) _ (Some 1)
             (signature class_name w0 params ++ initializer_list w1 w2 body)
             _ (str "{" ++ rest) (length pre)
             (shaped_match class_name pre w0 params w1 w2 body)
             ltac:(discriminate) (signature_not_nil w0 params)
             (shaped_match_here _) eq_refl).
  cbn [option_map pred]. rewrite sub_scan_done, expand_plain.
  now rewrite <- app_assoc.
Qed.

End ConstructorShape.

Lemma update_node_constructor_found : forall class_name file_path w content m updated,
  read_text (files w) file_path = Ok content ->
  contains (str "NodeOptions") content = false ->
  search (constructor_regex class_name) content = Some m ->
  rewrite_constructor class_name content m = Ok updated ->
  update_node_constructor class_name file_path w
  = update_main_constructors class_name file_path
      (say (Updated class_name file_path)
         (put file_path (append_registration class_name content updated) w)).
Proof.
  intros class_name file_path w content m updated Hread Hno Hs Hr.
  unfold update_node_constructor. rewrite Hread.
  unfold already_converted. rewrite Hno, andb_false_r, Hs, Hr. reflexivity.
Qed.

Lemma lacks_not_in : forall c t, lacks c t = true -> ~ In c t.
Proof.
  intros c t H. apply forallb_not_in with (fun x => negb (chr_eqb c x));
    [exact H|]. now rewrite chr_eqb_refl.
Qed.

Lemma not_in_lacks : forall c t, ~ In c t -> lacks c t = true.
Proof. intros c t H. now apply not_in_forallb. Qed.

Lemma lacks_app : forall c a b, lacks c (a ++ b) = lacks c a && lacks c b.
Proof. intros. apply forallb_app. Qed.

Lemma class_lacks : forall (P : ascii -> bool) c t,
  P c = false -> forallb P t = true -> lacks c t = true.
Proof.
  intros P c t Hc Ht. apply not_in_lacks. now apply forallb_not_in with P.
Qed.

(** No occurrence of the literal begins in a text that lacks it and is
    followed by something no proper suffix of the literal begins. *)
Lemma absent_before_other : forall needle gap v,
  contains needle gap = false ->
  (forall d, 1 <= d < length needle -> starts_with (skipn d needle) v = false) ->
  absent needle gap v.
Proof.
  intros needle gap v Hc Hv. induction gap as [|c gap IH]; [exact I|].
  apply contains_cons_false in Hc. destruct Hc as [Hs Hc].
  cbn [absent]. split; [|now apply IH].
  destruct (starts_with needle (c :: gap ++ v)) eqn:E; [|reflexivity].
  exfalso. change (c :: gap ++ v) with ((c :: gap) ++ v) in E.
  destruct (starts_with_split _ _ _ E) as [[_ Hs'] | [Hlen [_ Hk]]].
  - congruence.
  - rewrite Hv in Hk; [discriminate|]. simpl in *. lia.
Qed.

Lemma node_suffix_not_lifecycle : forall d t,
  1 <= d < length (str "Node") ->
  starts_with (skipn d (str "Node")) (str "Lifecycle" ++ t) = false.
Proof.
  intros d t H. simpl in H.
  destruct d as [|[|[|[|d]]]]; try lia; reflexivity.
Qed.

(** No forwarding: the [Node] of a qualified or unqualified
    [LifecycleNode] does not stand at a word boundary, and the initializer
    list stays as it is. *)
Lemma lifecycle_initializer_kept : forall w1 w2 lead args q,
  forallb is_space w1 = true ->
  forallb is_space w2 = true ->
  contains (str "Node") lead = false ->
  contains (str "Node") (args ++ str ")" ++ q) = false ->
  sub node_initializer_pattern 1 node_template 0
      (initializer_list w1 w2 (lead ++ lifecycle_call args ++ q))
  = Some (initializer_list w1 w2 (lead ++ lifecycle_call args ++ q)).
Proof.
  intros w1 w2 lead args q H1 H2 Hl Hq.
  rewrite sub_node_template. f_equal. unfold initializer_list, lifecycle_call.
  set (tail := args ++ str ")" ++ q).
  replace (w1 ++ str ":" ++ w2 ++ lead
           ++ (str "LifecycleNode(" ++ args ++ str ")") ++ q)
    with ((w1 ++ str ":" ++ w2) ++ lead ++ str "Lifecycle" ++ str "Node"
          ++ str "(" ++ tail)
    by (unfold tail; rewrite <- !app_assoc; reflexivity).
  apply sub_scan_rest; [|now apply node_head_literal].
  apply no_match_app; [now apply no_node_before_body|].
  apply no_match_app.
  { apply absent_no_match with (str "Node").
    - intros. now apply node_head_literal.
    - rewrite <- app_assoc. apply absent_before_other; [exact Hl|].
      intros d Hd. now apply node_suffix_not_lifecycle. }
  apply (no_match_app node_initializer_pattern (str "Lifecycle")).
  - apply absent_no_match with (str "Node").
    + intros. now apply node_head_literal.
    + apply (absent_first capital_n (str "ode")). reflexivity.
  - replace (last_of (last_of (last_of None (w1 ++ str ":" ++ w2)) lead)
               (str "Lifecycle"))
      with (Some "e"%char) by reflexivity.
    change (str "Node" ++ str "(" ++ tail)
      with (capital_n :: (str "ode(" ++ tail)).
    cbn [no_match]. split.
    + rewrite app_nil_r.
      change (capital_n :: str "ode(" ++ tail)
        with (str "Node" ++ str "(" ++ tail).
      apply node_inside_word. reflexivity.
    + apply absent_no_match with (str "Node").
      * intros. now apply node_head_literal.
      * apply absent_app.
        -- apply (absent_first capital_n (str "ode")). reflexivity.
        -- now apply absent_at_end.
Qed.

(* ================================================================== *)
(** * The namespace resolver on lines of known shape *)

Lemma drop_space_spaces : forall indent s,
  forallb is_space indent = true -> drop_space (indent ++ s) = drop_space s.
Proof.
  induction indent as [|c indent IH]; intros s H; [reflexivity|].
  simpl in H. apply andb_true_iff in H. destruct H as [Hc H].
  simpl. rewrite Hc. now apply IH.
Qed.

Lemma drop_space_opens : forall s, opens_body s = true -> drop_space s = s.
Proof.
  intros [|c s] H; [reflexivity|]. simpl in *.
  apply negb_true_iff in H. now rewrite H.
Qed.

Lemma drop_space_app : forall u v,
  opens_body v = true -> drop_space (u ++ v) = drop_space u ++ v.
Proof.
  induction u as [|c u IH]; intros v H.
  - simpl. now apply drop_space_opens.
  - simpl. destruct (is_space c); [now apply IH | reflexivity].
Qed.

(** Stripping a line whose text proper is [indent ++ a ++ tail], [a]
    beginning and ending with characters other than white space. *)
Lemma strip_line : forall indent a tail,
  forallb is_space indent = true ->
  opens_body a = true ->
  opens_body (rev a) = true ->
  strip (indent ++ a ++ tail) = a ++ rev (drop_space (rev tail)).
Proof.
  intros indent a tail Hi Ha Hr. unfold strip.
  rewrite drop_space_spaces by exact Hi.
  rewrite (drop_space_opens (a ++ tail))
    by (destruct a; [discriminate | exact Ha]).
  rewrite rev_app_distr, (drop_space_app (rev tail) (rev a)) by exact Hr.
  now rewrite rev_app_distr, rev_involutive.
Qed.

Lemma rev_drop_space_prefix : forall r,
  exists u, rev r = rev (drop_space r) ++ u.
Proof.
  induction r as [|c r IH]; [exists []; reflexivity|].
  simpl. destruct (is_space c).
  - destruct IH as [u Hu]. exists (u ++ [c]). now rewrite Hu, <- app_assoc.
  - exists []. simpl. now rewrite app_nil_r.
Qed.

Lemma rstrip_prefix : forall t, exists u, t = rev (drop_space (rev t)) ++ u.
Proof.
  intro t. destruct (rev_drop_space_prefix (rev t)) as [u Hu].
  rewrite rev_involutive in Hu. now exists u.
Qed.

Lemma stops_prefix : forall cs t u, stops cs (t ++ u) = true -> stops cs t = true.
Proof. intros cs [|c t] u H; [reflexivity | exact H]. Qed.

Lemma word_not_space : forall c, is_word c = true -> is_space c = false.
Proof.
  intros c H. destruct (is_space c) eqn:E; [|reflexivity].
  apply space_not_word in E. rewrite H in E. discriminate.
Qed.

(** A line [indent namespace ws name tail] is taken for the opening of
    namespace [name]. *)
Lemma namespace_line : forall indent ws name tail,
  forallb is_space indent = true ->
  forallb is_space ws = true -> ws <> [] ->
  forallb is_word name = true -> name <> [] ->
  stops CsWord tail = true ->
  ns_match (strip (indent ++ str "namespace" ++ ws ++ name ++ tail)) = Some name.
Proof.
  intros indent ws name tail Hi Hws Hne Hn Hnn Ht.
  assert (Hlast : opens_body (rev (str "namespace" ++ ws ++ name)) = true).
  { rewrite !rev_app_distr.
    destruct (rev name) as [|c r] eqn:E.
    - apply (f_equal (@rev ascii)) in E. rewrite rev_involutive in E.
      simpl in E. contradiction.
    - simpl. assert (Hc : In c name) by (apply in_rev; rewrite E; now left).
      rewrite forallb_forall in Hn. now rewrite (word_not_space _ (Hn c Hc)). }
  replace (indent ++ str "namespace" ++ ws ++ name ++ tail)
    with (indent ++ (str "namespace" ++ ws ++ name) ++ tail)
    by (now rewrite <- !app_assoc).
  rewrite strip_line by (try assumption; reflexivity).
  set (tail' := rev (drop_space (rev tail))).
  assert (Ht' : stops CsWord tail' = true).
  { destruct (rstrip_prefix tail) as [u Hu]. fold tail' in Hu.
    rewrite Hu in Ht. now apply stops_prefix in Ht. }
  unfold ns_match, match_, match_here, namespace_pattern, lit.
  cbn [rseq]. rewrite <- !app_assoc.
  assert (Hrun :
    run (RSeq (RLit (str "namespace"))
           (RSeq (RRep CsSpace 1) (RGroup 1 (RRep CsWord 1))))
        (fun st => Some st)
        (MState None (str "namespace" ++ ws ++ name ++ tail') 0 [])
    = Some (MState (last_of (last_of (Some "e"%char) ws) name) tail'
              (0 + length (str "namespace") + length ws + length name)
              [(1, name)])).
  { rewrite run_seq, run_lit. unfold after.
    rewrite run_seq, run_rep.
    apply rep_max;
      [ exact Hws
      | destruct name as [|c name]; [contradiction|]; simpl in *;
        apply andb_true_iff in Hn; destruct Hn as [Hc _];
        now rewrite (word_not_space _ Hc)
      | destruct ws; [contradiction | simpl; lia] |].
    unfold after. rewrite run_group, run_rep.
    apply rep_max;
      [ exact Hn | exact Ht'
      | destruct name; [contradiction | simpl; lia] |].
    unfold after. cbn beta. cbn [ms_prev ms_rest ms_pos ms_caps].
    replace (0 + length (str "namespace") + length ws + length name
             - (0 + length (str "namespace") + length ws))
      with (length name) by lia.
    now rewrite firstn_exact. }
  rewrite Hrun. reflexivity.
Qed.


Lemma constructor_line_literal : forall class_name prev rest pos,
  starts_with (class_name ++ scope ++ class_name) rest = false ->
  match_here (constructor_line_pattern class_name) prev rest pos = None.
Proof.
  intros class_name prev rest pos H. unfold match_here.
  destruct (run (constructor_line_pattern class_name) (fun st => Some st)
              (MState prev rest pos [])) as [st|] eqn:E; [|reflexivity].
  exfalso. unfold constructor_line_pattern, lit in E. cbn [rseq] in E.
  rewrite run_seq, run_wordb in E.
  destruct (at_word_boundary _); [|discriminate].
  rewrite run_seq in E.
  apply run_lit_some in E. cbn [ms_prev ms_rest ms_pos ms_caps] in E.
  destruct E as [r1 [-> E]]. unfold after in E.
  rewrite run_seq in E. apply run_lit_some in E.
  cbn [ms_prev ms_rest ms_pos ms_caps] in E.
  destruct E as [r2 [-> E]]. unfold after in E.
  rewrite run_seq in E. apply run_lit_some in E.
  cbn [ms_prev ms_rest ms_pos ms_caps] in E.
  destruct E as [r3 [-> E]].
  unfold scope in H.
  replace (class_name ++ str "::" ++ class_name ++ r3)
    with ((class_name ++ str "::" ++ class_name) ++ r3) in H
    by (now rewrite <- !app_assoc).
  rewrite starts_with_app in H. discriminate.
Qed.

Lemma search_from_none : forall r s prev pos,
  no_match r prev s [] pos ->
  match_here r (last_of prev s) [] (pos + length s) = None ->
  search_from r prev s pos = None.
Proof.
  intros r s prev pos Hs He. rewrite <- (app_nil_r s).
  rewrite search_from_gap by exact Hs. cbn [search_from]. now rewrite He.
Qed.

Lemma not_constructor_line : forall class_name l,
  names_constructor class_name l = false ->
  is_constructor_line class_name l = false.
Proof.
  intros class_name l H. unfold is_constructor_line, search.
  rewrite search_from_none; [reflexivity | |].
  - apply absent_no_match with (class_name ++ scope ++ class_name).
    + intros. now apply constructor_line_literal.
    + now apply absent_at_end.
  - apply constructor_line_literal. unfold scope.
    destruct class_name; reflexivity.
Qed.

Lemma search_from_later : forall r pre prev rest pos m,
  match_here r (last_of prev pre) rest (pos + length pre) = Some m ->
  exists m', search_from r prev (pre ++ rest) pos = Some m'.
Proof.
  intros r. induction pre as [|c pre IH]; intros prev rest pos m H.
  - simpl in H. rewrite Nat.add_0_r in H. exists m.
    now apply search_from_hit.
  - cbn [app search_from].
    destruct (match_here r prev (c :: pre ++ rest) pos) as [m0|];
      [now exists m0|].
    apply IH with m. rewrite last_of_cons in H.
    now replace (S pos + length pre) with (pos + length (c :: pre))
      by (simpl; lia).
Qed.

(** A line in which [ClassName::ClassName w (] stands at a word boundary is
    taken for the constructor line. *)
Lemma constructor_line : forall class_name pre w post,
  forallb is_word class_name = true -> class_name <> [] ->
  word_opt (last_of None pre) = false ->
  forallb is_space w = true ->
  is_constructor_line class_name
    (pre ++ class_name ++ scope ++ class_name ++ w ++ str "(" ++ post) = true.
Proof.
  intros class_name pre w post Hc Hn Hpre Hw.
  unfold is_constructor_line, search.
  assert (Hm : exists m,
    match_here (constructor_line_pattern class_name) (last_of None pre)
      (class_name ++ scope ++ class_name ++ w ++ str "(" ++ post)
      (0 + length pre) = Some m).
  { unfold match_here.
    assert (Hrun : exists st,
      run (constructor_line_pattern class_name) (fun st => Some st)
        (MState (last_of None pre)
           (class_name ++ scope ++ class_name ++ w ++ str "(" ++ post)
           (0 + length pre) []) = Some st).
    { unfold constructor_line_pattern, lit, spaces, scope. cbn [rseq].
      rewrite run_seq, run_wordb.
      assert (Hb : at_word_boundary
                     (MState (last_of None pre)
                        (class_name ++ str "::" ++ class_name ++ w ++ str "(" ++ post)
                        (0 + length pre) []) = true).
      { unfold at_word_boundary. cbn [ms_prev ms_rest]. rewrite Hpre.
        destruct class_name as [|c cn]; [contradiction|].
        simpl in Hc. apply andb_true_iff in Hc. destruct Hc as [Hc _].
        simpl. now rewrite Hc. }
      rewrite Hb.
      rewrite run_seq, run_lit. unfold after.
      rewrite run_seq, run_lit. unfold after.
      rewrite run_seq, run_lit. unfold after.
      rewrite run_seq, run_rep.
      eexists.
      apply rep_max; [exact Hw | reflexivity | lia |]. unfold after.
      rewrite run_lit. reflexivity. }
    destruct Hrun as [st ->]. eexists. reflexivity. }
  destruct Hm as [m Hm].
  destruct (search_from_later _ _ _ _ _ _ Hm) as [m' ->]. reflexivity.
Qed.

Lemma namespace_head_literal : forall l,
  starts_with (str "namespace") l = false -> ns_match l = None.
Proof.
  intros l H. unfold ns_match, match_, match_here, namespace_pattern, lit.
  cbn [rseq]. rewrite run_seq. now rewrite run_lit_none by exact H.
Qed.

Lemma starts_with_prefix : forall p s u,
  starts_with p s = true -> starts_with p (s ++ u) = true.
Proof.
  intros p s u H. apply starts_with_true in H. destruct H as [r ->].
  rewrite <- app_assoc. apply starts_with_app.
Qed.

Lemma not_namespace_line : forall l,
  begins_namespace l = false -> ns_match (strip l) = None.
Proof.
  intros l H. apply namespace_head_literal.
  destruct (starts_with (str "namespace") (strip l)) eqn:E; [|reflexivity].
  unfold begins_namespace in H. unfold strip in E.
  destruct (rstrip_prefix (drop_space l)) as [u Hu].
  rewrite Hu in H. rewrite (starts_with_prefix _ _ u E) in H. discriminate.
Qed.

Lemma lacks_count : forall c l, lacks c l = true -> count_char c l = 0.
Proof.
  intros c l H. induction l as [|x l IH]; [reflexivity|].
  unfold lacks in H. simpl in H. apply andb_true_iff in H.
  destruct H as [Hx H]. apply negb_true_iff in Hx.
  cbn [count_char]. rewrite Hx. now apply IH.
Qed.

Lemma count_char_class : forall (P : ascii -> bool) c l,
  P c = false -> forallb P l = true -> count_char c l = 0.
Proof.
  intros P c l Hc Hl. apply lacks_count. now apply class_lacks with P.
Qed.

Lemma braceless_net : forall l, braceless l = true -> net_braces l = 0%Z.
Proof.
  intros l H. unfold braceless in H. apply andb_true_iff in H.
  destruct H as [H1 H2]. unfold net_braces.
  now rewrite (lacks_count _ _ H1), (lacks_count _ _ H2).
Qed.

Lemma plain_quiet : forall class_name l,
  plain class_name l = true -> quiet class_name l = true.
Proof.
  intros class_name l H. unfold plain in H.
  apply andb_true_iff in H. destruct H as [H Hns].
  apply andb_true_iff in H. destruct H as [Hb Hc].
  apply negb_true_iff in Hns, Hc.
  unfold braceless in Hb. apply andb_true_iff in Hb. destruct Hb as [H1 H2].
  unfold quiet.
  rewrite (not_constructor_line _ _ Hc), (not_namespace_line _ Hns),
    (lacks_count _ _ H1), (lacks_count _ _ H2).
  reflexivity.
Qed.

Lemma stops_word_after_space : forall w c t,
  forallb is_space w = true -> is_word c = false ->
  stops CsWord (w ++ c :: t) = true.
Proof.
  intros [|x w] c t Hw Hc; simpl.
  - now rewrite Hc.
  - simpl in Hw. apply andb_true_iff in Hw. destruct Hw as [Hx _].
    apply space_not_word in Hx. exact Hx.
Qed.

Lemma no_count_no_brace : forall l,
  count_char open_brace l = 0 -> has_open_brace l = false.
Proof.
  intros l H. destruct (has_open_brace l) eqn:E; [|reflexivity].
  apply open_brace_count in E. lia.
Qed.

Ltac count_braces :=
  unfold net_braces; repeat rewrite count_char_app;
  repeat match goal with
  | H : forallb is_space ?x = true |- context [count_char ?c ?x] =>
      rewrite (count_char_class is_space c x eq_refl H)
  | H : forallb is_word ?x = true |- context [count_char ?c ?x] =>
      rewrite (count_char_class is_word c x eq_refl H)
  | H : lacks ?c ?x = true |- context [count_char ?c ?x] =>
      rewrite (lacks_count c x H)
  end.

Lemma opening_opens : forall class_name n ls,
  forallb is_word n = true -> n <> [] ->
  namespace_opening class_name n ls -> opens class_name n ls.
Proof.
  intros class_name n ls Hn Hnn Ho.
  destruct Ho as [indent ws w t Hi Hws Hwn Hw Ht Hc
                 | indent ws t between ib tb Hi Hws Hwn Hst Ht Hc Hbetween
                     Hib Htb Hcb].
  - unfold braceless in Ht. apply andb_true_iff in Ht. destruct Ht as [Ht1 Ht2].
    apply opens_same_line.
    + apply namespace_line; try assumption.
      now apply stops_word_after_space.
    + count_braces. reflexivity.
    + now apply not_constructor_line.
  - unfold braceless in Ht, Htb. apply andb_true_iff in Ht, Htb.
    destruct Ht as [Ht1 Ht2], Htb as [Htb1 Htb2].
    apply opens_later_line.
    + now apply namespace_line.
    + apply no_count_no_brace. count_braces. reflexivity.
    + now apply not_constructor_line.
    + apply forallb_forall. intros x Hx. apply plain_quiet.
      rewrite forallb_forall in Hbetween. now apply Hbetween.
    + apply not_namespace_line. unfold begins_namespace.
      now rewrite drop_space_spaces by exact Hib.
    + count_braces. reflexivity.
    + now apply not_constructor_line.
Qed.



(* ================================================================== *)
(** * The confirmation dialogue *)

Lemma after_answers_zero : forall lines, after_answers 0 lines = lines.
Proof. now destruct lines. Qed.

Lemma ask_answers : forall class_name p lines shown,
  fst (ask class_name p lines shown) = hd_error (answers lines) /\
  stdin (snd (ask class_name p lines shown)) = after_answers 1 lines.
Proof.
  intros class_name p. induction lines as [|line lines IH]; intro shown.
  - split; reflexivity.
  - cbn [ask]. unfold answers. cbn [filter after_answers].
    unfold is_answer, is_yes, is_no.
    destruct (text_eqb (lower (strip line)) (str "y")) eqn:Ey.
    + cbn [orb map hd_error fst snd stdin].
      rewrite Ey, after_answers_zero. split; reflexivity.
    + destruct (text_eqb (lower (strip line)) (str "n")) eqn:En.
      * cbn [orb map hd_error fst snd stdin].
        rewrite Ey, after_answers_zero. split; reflexivity.
      * cbn [orb]. apply IH.
Qed.

Lemma answers_after_one : forall lines,
  answers (after_answers 1 lines) = tl (answers lines).
Proof.
  induction lines as [|line lines IH]; [reflexivity|].
  unfold answers in *. cbn [after_answers filter].
  destruct (is_answer line); [now rewrite after_answers_zero | exact IH].
Qed.

Lemma after_answers_succ : forall n lines,
  after_answers (S n) lines = after_answers n (after_answers 1 lines).
Proof.
  intros n. induction lines as [|line lines IH].
  - destruct n; reflexivity.
  - cbn [after_answers].
    destruct (is_answer line); [now rewrite after_answers_zero | exact IH].
Qed.

Lemma after_answers_none : forall lines,
  answers lines = [] -> after_answers 1 lines = [].
Proof.
  induction lines as [|line lines IH]; [reflexivity|].
  unfold answers in *. cbn [after_answers filter].
  destruct (is_answer line); [discriminate | exact IH].
Qed.

Lemma after_answers_nil : forall n, after_answers n [] = [].
Proof. now destruct n. Qed.

Lemma selected_cons : forall node nodes b choices,
  selected (node :: nodes) (b :: choices)
  = (if b then [node] else []) ++ selected nodes choices.
Proof. intros node nodes [] choices; reflexivity. Qed.

Lemma confirm_from_answers : forall nodes confirmed t,
  fst (confirm_from confirmed nodes t)
  = (if length nodes <=? length (answers (stdin t))
     then Some (confirmed ++ selected nodes (answers (stdin t)))
     else None) /\
  stdin (snd (confirm_from confirmed nodes t))
  = after_answers (length nodes) (stdin t).
Proof.
  induction nodes as [|[class_name p] nodes IH]; intros confirmed t.
  - cbn. rewrite app_nil_r. now destruct (stdin t).
  - cbn [confirm_from length].
    destruct (ask_answers class_name p (stdin t) (printed t)) as [Hc Hs].
    rewrite after_answers_succ.
    pose proof (answers_after_one (stdin t)) as Hrest.
    pose proof (after_answers_none (stdin t)) as Hnone.
    destruct (ask class_name p (stdin t) (printed t)) as [choice t'].
    cbn [fst snd] in Hc, Hs. rewrite <- Hs in *.
    destruct (answers (stdin t)) as [|b choices]; cbn [hd_error tl] in *;
      subst choice.
    + cbn [fst snd length Nat.leb]. split; [reflexivity|].
      rewrite Hnone by reflexivity. now rewrite after_answers_nil.
    + destruct (IH (if b then confirmed ++ [(class_name, p)] else confirmed) t')
        as [H1 H2].
      rewrite Hrest in H1. rewrite selected_cons. cbn [length Nat.leb].
      destruct b; rewrite H1, H2;
        (split; [|reflexivity]);
        destruct (length nodes <=? length choices); try reflexivity;
        now rewrite <- ?app_assoc.
Qed.

(** X1.  The dialogue decides by the answers the input holds, whatever else
    is typed between them: with at least as many answers as nodes, the nodes
    confirmed are those whose answer is [y], in the order of [nodes]; with
    fewer, the dialogue ends in [EOFError].  The input is read up to the
    answer for the last node. *)
Theorem confirm_nodes_by_answers : forall nodes t,
  fst (confirm_nodes nodes t)
  = (if length nodes <=? length (answers (stdin t))
     then Some (selected nodes (answers (stdin t)))
     else None) /\
  stdin (snd (confirm_nodes nodes t))
  = after_answers (length nodes) (stdin t).
Proof. intros nodes t. apply (confirm_from_answers nodes [] t). Qed.

Lemma subsequence_refl : forall (A : Type) (l : list A), subsequence l l.
Proof. induction l; constructor; assumption. Qed.

Lemma subsequence_selected : forall nodes choices,
  subsequence (selected nodes choices) nodes.
Proof.
  induction nodes as [|node nodes IH]; intros choices.
  - destruct choices; constructor.
  - destruct choices as [|b choices].
    + unfold selected. cbn. constructor.
      specialize (IH []). unfold selected in IH. now destruct nodes.
    + rewrite selected_cons. destruct b; cbn [app]; constructor; apply IH.
Qed.

(** X2.  The dialogue invents nothing: what it returns is the list it was given
    with some nodes left out, in the same order. *)
Theorem confirm_nodes_subsequence : forall nodes t confirmed t',
  confirm_nodes nodes t = (Some confirmed, t') ->
  subsequence confirmed nodes.
Proof.
  intros nodes t confirmed t' H.
  destruct (confirm_from_answers nodes [] t) as [H1 _].
  unfold confirm_nodes in H. rewrite H in H1. cbn [fst] in H1.
  destruct (length nodes <=? length (answers (stdin t))); [|discriminate].
  injection H1 as ->. apply subsequence_selected.
Qed.

Lemma confirm_nodes_subsequence_witness :
  subsequence [(Foo, foo_cpp)] [(str "Bar", foo_cpp); (Foo, foo_cpp)].
Proof.
  eapply (confirm_nodes_subsequence [(str "Bar", foo_cpp); (Foo, foo_cpp)]
            (Terminal [str "n"; str "maybe"; str " Y"] [])).
  reflexivity.
Defined.

Lemma drop_space_split : forall s,
  exists a, s = a ++ drop_space s /\ forallb is_space a = true.
Proof.
  induction s as [|c s [a [H1 H2]]].
  - exists []. split; reflexivity.
  - cbn [drop_space]. destruct (is_space c) eqn:E.
    + exists (c :: a). cbn. rewrite E, H2. split; [now f_equal | reflexivity].
    + exists []. split; reflexivity.
Qed.

Lemma drop_space_head : forall s c r,
  drop_space s = c :: r -> is_space c = false.
Proof.
  induction s as [|x s IH]; intros c r H; [discriminate|].
  cbn [drop_space] in H. destruct (is_space x) eqn:E.
  - now apply IH with r.
  - now injection H as <- _.
Qed.

Lemma drop_space_all : forall s, forallb is_space s = true -> drop_space s = [].
Proof.
  induction s as [|c s IH]; intro H; [reflexivity|].
  cbn in H. apply andb_true_iff in H. destruct H as [H1 H2].
  cbn [drop_space]. rewrite H1. now apply IH.
Qed.

Lemma forallb_rev : forall (P : ascii -> bool) s,
  forallb P (rev s) = forallb P s.
Proof.
  intros P. induction s as [|c s IH]; [reflexivity|].
  cbn [rev forallb]. rewrite forallb_app, IH. cbn. 
  rewrite andb_true_r. apply andb_comm.
Qed.

Lemma strip_single : forall line x,
  strip line = [x] <-> is_space x = false /\ padded x line.
Proof.
  intros line x. split.
  - intro H. unfold strip in H.
    destruct (drop_space_split line) as [a [Ha Hsa]].
    destruct (drop_space_split (rev (drop_space line))) as [b [Hb Hsb]].
    apply (f_equal (@rev ascii)) in H. rewrite rev_involutive in H.
    cbn in H. rewrite H in Hb. split.
    + now apply drop_space_head with (rev (drop_space line)) [].
    + exists a, (rev b). split; [|split].
      * rewrite Ha at 1. f_equal.
        rewrite <- (rev_involutive (drop_space line)), Hb, rev_app_distr.
        reflexivity.
      * exact Hsa.
      * now rewrite forallb_rev.
  - intros [Hx [a [b [-> [Ha Hb]]]]].
    change (a ++ x :: b) with (a ++ [x] ++ b).
    rewrite strip_line; [| exact Ha | cbn; now rewrite Hx | cbn; now rewrite Hx].
    rewrite drop_space_all by (now rewrite forallb_rev). reflexivity.
Qed.

Lemma lower_chr_y : forall c,
  lower_chr c = "y"%char <-> c = "y"%char \/ c = "Y"%char.
Proof.
  intros [b0 b1 b2 b3 b4 b5 b6 b7].
  destruct b0, b1, b2, b3, b4, b5, b6, b7; vm_compute;
    (split; [intro H; try discriminate H; auto | intros [H|H]; try discriminate H; reflexivity]).
Qed.

Lemma lower_chr_n : forall c,
  lower_chr c = "n"%char <-> c = "n"%char \/ c = "N"%char.
Proof.
  intros [b0 b1 b2 b3 b4 b5 b6 b7].
  destruct b0, b1, b2, b3, b4, b5, b6, b7; vm_compute;
    (split; [intro H; try discriminate H; auto | intros [H|H]; try discriminate H; reflexivity]).
Qed.

Lemma lower_single : forall s x,
  lower s = [x] <-> exists c, s = [c] /\ lower_chr c = x.
Proof.
  intros s x. split.
  - destruct s as [|c [|d s]]; try discriminate. intro H. injection H as H.
    now exists c.
  - intros [c [-> H]]. cbn. now rewrite H.
Qed.

Lemma choice_single : forall line x,
  is_space x = false ->
  text_eqb (lower (strip line)) [x] = true
  <-> exists c, lower_chr c = x /\ is_space c = false /\ padded c line.
Proof.
  intros line x Hx. rewrite text_eqb_eq, lower_single. split.
  - intros [c [Hs Hc]]. apply strip_single in Hs. exists c. tauto.
  - intros [c [Hc Hp]]. exists c. split; [|exact Hc]. now apply strip_single.
Qed.

Lemma is_yes_padded : forall line,
  is_yes line = true <-> padded "y" line \/ padded "Y" line.
Proof.
  intro line. unfold is_yes.
  rewrite (choice_single line "y"%char eq_refl). split.
  - intros [c [Hc [_ Hp]]]. apply lower_chr_y in Hc. destruct Hc; subst; auto.
  - intros [H|H]; [exists "y"%char | exists "Y"%char]; repeat split; assumption.
Qed.

Lemma is_no_padded : forall line,
  is_no line = true <-> padded "n" line \/ padded "N" line.
Proof.
  intro line. unfold is_no.
  rewrite (choice_single line "n"%char eq_refl). split.
  - intros [c [Hc [_ Hp]]]. apply lower_chr_n in Hc. destruct Hc; subst; auto.
  - intros [H|H]; [exists "n"%char | exists "N"%char]; repeat split; assumption.
Qed.

Lemma yes_not_no : forall line, is_yes line = true -> is_no line = false.
Proof.
  intros line H. unfold is_yes, is_no in *. apply text_eqb_eq in H.
  now rewrite H.
Qed.

(** X3.  An answer counts as yes exactly when it is a [y] or a [Y] with nothing
    but white space around it, and as no exactly when it is such an [n] or
    [N]. *)
Theorem accepted_answers : forall (node : text * path) (line : text) shown,
  (fst (confirm_nodes [node] (Terminal [line] shown)) = Some [node]
   <-> padded "y" line \/ padded "Y" line) /\
  (fst (confirm_nodes [node] (Terminal [line] shown)) = Some []
   <-> padded "n" line \/ padded "N" line).
Proof.
  intros node line shown.
  rewrite <- is_yes_padded, <- is_no_padded.
  destruct (confirm_from_answers [node] [] (Terminal [line] shown)) as [H _].
  unfold confirm_nodes. rewrite H. clear H. cbn [stdin length].
  unfold answers. cbn [filter]. unfold is_answer.
  destruct (is_yes line) eqn:Ey.
  - rewrite (yes_not_no _ Ey). cbn. rewrite Ey. cbn.
    split; split; intro H; try reflexivity; discriminate H.
  - destruct (is_no line) eqn:En; cbn; rewrite ?Ey; cbn;
      split; split; intro H; try reflexivity; discriminate H.
Qed.

(* ================================================================== *)
(** * The command line *)

Lemma selected_none : forall nodes choices,
  existsb (fun b => b) choices = false -> selected nodes choices = [].
Proof.
  induction nodes as [|node nodes IH]; intros choices H.
  - reflexivity.
  - destruct choices as [|b choices]; [reflexivity|].
    cbn in H. apply orb_false_iff in H. destruct H as [-> H].
    rewrite selected_cons. now apply IH.
Qed.

Lemma answers_without_yes : forall lines,
  existsb is_yes lines = false -> existsb (fun b => b) (answers lines) = false.
Proof.
  induction lines as [|line lines IH]; intro H; [reflexivity|].
  cbn in H. apply orb_false_iff in H. destruct H as [H1 H2].
  unfold answers in *. cbn [filter]. destruct (is_answer line); [|now apply IH].
  cbn. rewrite H1. now apply IH.
Qed.

(* ================================================================== *)
(** * Discovery *)

Lemma run_ref : forall n s k prev rest pos caps,
  group_of n caps = Some s ->
  run (RRef n) k (MState prev (s ++ rest) pos caps)
  = k (after prev s rest pos caps).
Proof.
  intros n s k prev rest pos caps H. cbn [run ms_caps]. rewrite H.
  unfold eat_st. cbn [ms_prev ms_rest ms_pos ms_caps]. now rewrite eat_app.
Qed.

Lemma run_ref_some : forall n k st x,
  run (RRef n) k st = Some x ->
  exists s rest,
    group_of n (ms_caps st) = Some s /\ ms_rest st = s ++ rest /\
    k (after (ms_prev st) s rest (ms_pos st) (ms_caps st)) = Some x.
Proof.
  intros n k st x H. cbn [run] in H.
  destruct (group_of n (ms_caps st)) as [s|]; [|discriminate].
  unfold eat_st in H.
  destruct (eat s (ms_prev st) (ms_rest st) (ms_pos st)) as [[[p r] i]|] eqn:E;
    [|discriminate].
  apply eat_some in E. destruct E as [E1 [E2 E3]]. subst p i.
  exists s, r. repeat split; assumption.
Qed.

Lemma run_alt_some : forall a b k st x,
  run (RAlt a b) k st = Some x -> run a k st = Some x \/ run b k st = Some x.
Proof.
  intros a b k st x H. cbn [run] in H.
  destruct (run a k st); [left; exact H | right; exact H].
Qed.

Lemma run_opt_some : forall a k st x,
  run (ROpt a) k st = Some x -> run a k st = Some x \/ k st = Some x.
Proof.
  intros a k st x H. cbn [run] in H.
  destruct (run a k st); [left; exact H | right; exact H].
Qed.

Lemma word_boundary_some : forall st x,
  run RWordB (fun st' => Some st') st = Some x -> x = st.
Proof.
  intros st x H. rewrite run_wordb in H.
  destruct (at_word_boundary st); [now injection H | discriminate].
Qed.

(** The end of the first alternative: the name of the base class. *)
Lemma base_name_some : forall st x,
  run (RAlt (lit "Node") (lit "LifecycleNode"))
      (run RWordB (fun st' => Some st')) st = Some x ->
  ms_caps x = ms_caps st /\
  (starts_with (str "Node") (ms_rest st) = true \/
   starts_with (str "LifecycleNode") (ms_rest st) = true).
Proof.
  intros st x H. apply run_alt_some in H. unfold lit in H.
  destruct H as [H|H]; apply run_lit_some in H; destruct H as [r [Hr H]];
    apply word_boundary_some in H; subst x; rewrite Hr;
    (split; [reflexivity|]); [left | right]; apply starts_with_app.
Qed.

Lemma public_or_base_some : forall st x,
  run (ROpt (RSeq (lit "public") (RRep CsSpace 1)))
      (run (RSeq (RAlt (lit "Node") (lit "LifecycleNode")) RWordB)
           (fun st' => Some st')) st = Some x ->
  ms_caps x = ms_caps st /\
  (starts_with (str "public") (ms_rest st) = true \/
   starts_with (str "Node") (ms_rest st) = true \/
   starts_with (str "LifecycleNode") (ms_rest st) = true).
Proof.
  intros st x H. apply run_opt_some in H. destruct H as [H|H].
  - rewrite run_seq in H. unfold lit in H. apply run_lit_some in H.
    destruct H as [r [Hr H]]. unfold after in H. rewrite run_rep in H.
    apply rep_some in H. destruct H as [a [r' [_ [_ [_ H]]]]].
    rewrite run_seq in H. apply base_name_some in H.
    destruct H as [H _]. split; [exact H|]. left. rewrite Hr.
    apply starts_with_app.
  - rewrite run_seq in H. apply base_name_some in H. tauto.
Qed.

(** Whatever the first alternative matches is a constructor definition
    whose initializer list begins with the name of the base class. *)
Lemma direct_match_inv : forall prev rest pos m,
  match_here direct_alternative prev rest pos = Some m ->
  exists c w0 params w1 w2 body,
    rest = signature c w0 params ++ initializer_list w1 w2 body /\
    forallb is_word c = true /\ c <> [] /\
    forallb is_space w0 = true /\
    forallb is_space w1 = true /\
    forallb is_space w2 = true /\
    ~ In close_paren params /\
    (starts_with (str "public") body = true \/
     starts_with (str "Node") body = true \/
     starts_with (str "LifecycleNode") body = true) /\
    group 1 m = Some c.
Proof.
  intros prev rest pos m H. unfold match_here in H.
  destruct (run direct_alternative (fun st => Some st) (MState prev rest pos []))
    as [st|] eqn:E; [|discriminate].
  injection H as <-.
  unfold direct_alternative, spaces in E. cbn [rseq] in E.
  rewrite run_seq, run_group, run_rep in E.
  apply rep_some in E. destruct E as [c [r1 [-> [Hc [Hlen E]]]]].
  unfold after in E. cbn beta in E. cbn [ms_prev ms_rest ms_pos ms_caps] in E.
  replace (pos + length c - pos) with (length c) in E by lia.
  rewrite firstn_exact in E.
  rewrite run_seq in E. unfold lit in E. apply run_lit_some in E.
  cbn [ms_prev ms_rest ms_pos ms_caps] in E. destruct E as [r2 [-> E]].
  unfold after in E. rewrite run_seq in E. apply run_ref_some in E.
  cbn [ms_prev ms_rest ms_pos ms_caps group_of Nat.eqb] in E.
  destruct E as [s [r3 [Hs [-> E]]]]. injection Hs as <-.
  unfold after in E. rewrite run_seq, run_rep in E.
  apply rep_some in E. destruct E as [w0 [r4 [-> [Hw0 [_ E]]]]].
  unfold after in E. rewrite run_seq in E. apply run_lit_some in E.
  cbn [ms_prev ms_rest ms_pos ms_caps] in E. destruct E as [r5 [-> E]].
  unfold after in E. rewrite run_seq, run_rep in E.
  apply rep_some in E. destruct E as [params [r6 [-> [Hp [_ E]]]]].
  unfold after in E. rewrite run_seq in E. apply run_lit_some in E.
  cbn [ms_prev ms_rest ms_pos ms_caps] in E. destruct E as [r7 [-> E]].
  unfold after in E. rewrite run_seq, run_rep in E.
  apply rep_some in E. destruct E as [w1 [r8 [-> [Hw1 [_ E]]]]].
  unfold after in E. rewrite run_seq in E. apply run_lit_some in E.
  cbn [ms_prev ms_rest ms_pos ms_caps] in E. destruct E as [r9 [-> E]].
  unfold after in E. rewrite run_seq, run_rep in E.
  apply rep_some in E. destruct E as [w2 [body [-> [Hw2 [_ E]]]]].
  unfold after in E. rewrite run_seq in E.
  apply public_or_base_some in E. cbn [ms_rest ms_caps] in E.
  destruct E as [Hcaps Hbody].
  exists c, w0, params, w1, w2, body.
  split; [unfold signature, initializer_list, scope; now rewrite <- !app_assoc|].
  split; [exact Hc|]. split; [destruct c; [simpl in Hlen; lia | discriminate]|].
  split; [exact Hw0|]. split; [exact Hw1|]. split; [exact Hw2|].
  split.
  - apply forallb_not_in with (fun x => negb (chr_eqb ")"%char x));
      [exact Hp | reflexivity].
  - split; [exact Hbody|]. unfold group. cbn [m_caps group_of Nat.eqb].
    now rewrite Hcaps.
Qed.

(** Every match [finditer] reports was found at some position of the
    text. *)
Lemma scan_in : forall r rest prev pos skip m,
  In m (scan r prev rest pos skip) ->
  exists a b prev' pos',
    rest = a ++ b /\ match_here r prev' b pos' = Some m.
Proof.
  intros r. induction rest as [|c rest IH]; intros prev pos skip m H.
  - destruct skip; [|contradiction]. cbn [scan] in H.
    destruct (match_here r prev [] pos) as [m0|] eqn:E; [|contradiction].
    destruct H as [->|[]]. now exists [], [], prev, pos.
  - destruct skip as [|n]; cbn [scan] in H.
    + destruct (match_here r prev (c :: rest) pos) as [m0|] eqn:E.
      * destruct H as [->|H]; [now exists [], (c :: rest), prev, pos|].
        apply IH in H. destruct H as [a [b [p' [i' [-> H]]]]].
        now exists (c :: a), b, p', i'.
      * apply IH in H. destruct H as [a [b [p' [i' [-> H]]]]].
        now exists (c :: a), b, p', i'.
    + apply IH in H. destruct H as [a [b [p' [i' [-> H]]]]].
      now exists (c :: a), b, p', i'.
Qed.

Lemma wild_literal : forall pat s,
  forallb (fun c => negb (code c =? 42)%N && negb (code c =? 63)%N) pat = true ->
  wild pat s = true -> s = pat.
Proof.
  induction pat as [|p pat IH]; intros s Hl H.
  - destruct s; [reflexivity | discriminate].
  - cbn [forallb] in Hl. apply andb_true_iff in Hl. destruct Hl as [Hp Hl].
    apply andb_true_iff in Hp. destruct Hp as [H1 H2].
    apply negb_true_iff in H1, H2. cbn [wild] in H. rewrite H1, H2 in H.
    destruct s as [|c s]; [discriminate|].
    apply andb_true_iff in H. destruct H as [Hc H].
    apply chr_eqb_eq in Hc. subst c. f_equal. now apply IH.
Qed.

(** A name matches [*.cpp] when it ends in [.cpp]. *)
Lemma wild_cpp : forall s,
  wild (str "*.cpp") s = true -> exists a, s = a ++ str ".cpp".
Proof.
  intro s. change (str "*.cpp") with ("*"%char :: str ".cpp").
  cbn [wild]. change (code "*" =? 42)%N with true. cbn iota.
  induction s as [|c s IH]; intro H.
  - apply orb_true_iff in H. destruct H as [H|H]; [|discriminate].
    apply wild_literal in H; [discriminate | reflexivity].
  - apply orb_true_iff in H. destruct H as [H|H].
    + apply wild_literal in H; [|reflexivity]. exists []. exact H.
    + apply IH in H. destruct H as [a ->]. now exists (c :: a).
Qed.

Lemma class_name_of_group : forall m c,
  group 1 m = Some c -> c <> [] -> class_name_of m = c.
Proof.
  intros m c H Hc. unfold class_name_of. rewrite H.
  destruct c; [contradiction | reflexivity].
Qed.

Lemma scan_files_raise : forall f l e,
  fold_left (fun acc p => matches <- acc ;; scan_file f matches p) l (Raise e)
  = Raise e.
Proof. intros f. induction l as [|p l IH]; intro e; [reflexivity | apply IH]. Qed.

(** The loop of discovery: it gathers what the files add, one after the
    other, and is cut short by the first directory. *)
Lemma scan_files : forall f l acc,
  (forall q, In q l -> read f q <> None) ->
  match fold_left (fun acc p => matches <- acc ;; scan_file f matches p)
                  l (Ok acc) with
  | Ok nodes => nodes = acc ++ flat_map (file_matches f) l /\ all_files f l
  | Raise e =>
      e = IsADirectoryError /\ exists q, In q l /\ read f q = Some Directory
  end.
Proof.
  intros f. induction l as [|p l IH]; intros acc Hex.
  - cbn [fold_left flat_map]. rewrite app_nil_r. split; [reflexivity|].
    intros q [].
  - cbn [fold_left bind flat_map]. unfold scan_file at 2, file_matches at 1.
    assert (Hp : read f p <> None) by (apply Hex; now left).
    assert (Hl : forall q, In q l -> read f q <> None)
      by (intros q Hq; apply Hex; now right).
    unfold read_text. destruct (read f p) as [[t| |]|] eqn:E;
      [| | |now contradiction Hp].
    + specialize (IH (acc ++ map (fun m => (class_name_of m, p))
                         (finditer constructor_pattern (universal_newlines t)))
                     Hl).
      destruct (fold_left _ l _) as [nodes|e].
      * destruct IH as [-> Hall]. split; [now rewrite <- app_assoc|].
        intros q [<-|Hq]; [rewrite E; discriminate | now apply Hall].
      * destruct IH as [-> [q [Hq Hd]]]. split; [reflexivity|].
        exists q. split; [now right | exact Hd].
    + specialize (IH acc Hl).
      destruct (fold_left _ l _) as [nodes|e].
      * destruct IH as [-> Hall]. split; [reflexivity|].
        intros q [<-|Hq]; [rewrite E; discriminate | now apply Hall].
      * destruct IH as [-> [q [Hq Hd]]]. split; [reflexivity|].
        exists q. split; [now right | exact Hd].
    + rewrite scan_files_raise. split; [reflexivity|].
      exists p. split; [now left | exact E].
Qed.

Lemma rglob_exists : forall f dir pat q,
  In q (rglob f dir pat) -> read f q <> None.
Proof.
  intros f dir pat q H. apply read_in_paths. unfold rglob in H.
  now apply filter_In in H.
Qed.

(** What discovery returns, when it returns. *)
Lemma discovery_returns : forall f root_dir nodes,
  find_ros2_node_constructors f root_dir = Ok nodes ->
  nodes = flat_map (file_matches f) (rglob f root_dir (str "*.cpp")) /\
  all_files f (rglob f root_dir (str "*.cpp")).
Proof.
  intros f root_dir nodes H. unfold find_ros2_node_constructors in H.
  pose proof (scan_files f (rglob f root_dir (str "*.cpp")) []
                (rglob_exists f root_dir (str "*.cpp"))) as Hs.
  rewrite H in Hs. exact Hs.
Qed.

(** X5.  What discovery reports is sound: every candidate names a file of
    the tree below the root whose name ends in [.cpp] and whose text could
    be decoded, and a class name that is a non-empty run of word
    characters with [ClassName::ClassName] occurring in that text as it is
    read. *)
Theorem discovered_nodes_sound :
  forall (f : fs) (root_dir : path) (nodes : list (text * path))
         (class_name : text) (p : path),
    find_ros2_node_constructors f root_dir = Ok nodes ->
    In (class_name, p) nodes ->
    In p (paths f) /\
    is_below root_dir (parent p) = true /\
    (exists a, name p = a ++ str ".cpp") /\
    class_name <> [] /\
    forallb is_word class_name = true /\
    exists content,
      read_text f p = Ok content /\
      contains (class_name ++ scope ++ class_name) content = true.
Proof.
  intros f root_dir nodes class_name p Hfind H.
  apply discovery_returns in Hfind. destruct Hfind as [-> _].
  apply in_flat_map in H. destruct H as [q [Hq H]].
  unfold file_matches in H.
  destruct (read_text f q) as [content|e] eqn:Hread; [|contradiction].
  apply in_map_iff in H. destruct H as [m [Hm Hin]].
  injection Hm as Hname <-.
  unfold rglob in Hq. apply filter_In in Hq. destruct Hq as [Hq Hf].
  destruct q as [|x q]; [discriminate|].
  apply andb_true_iff in Hf. destruct Hf as [Hbelow Hwild].
  unfold finditer in Hin. apply scan_in in Hin.
  destruct Hin as [a [b [prev [pos [Hab Hm]]]]].
  rewrite constructor_pattern_match_here in Hm.
  apply direct_match_inv in Hm.
  destruct Hm as [c [w0 [params [w1 [w2 [body [Hb [Hc [Hne [_ [_ [_ [_ [_ Hg]]]]]]]]]]]]]].
  rewrite (class_name_of_group m c Hg Hne) in Hname. subst class_name.
  split; [exact Hq|]. split; [exact Hbelow|].
  split; [now apply wild_cpp|]. split; [exact Hne|]. split; [exact Hc|].
  exists content. split; [exact Hread|].
  rewrite Hab, Hb. unfold signature. rewrite <- !app_assoc.
  assert (E : forall x y z r : text, x ++ y ++ z ++ r = (x ++ y ++ z) ++ r)
    by (intros; now rewrite <- !app_assoc).
  rewrite (E c scope c). apply contains_app.
Qed.

Lemma discovered_nodes_sound_witness :
  In foo_cpp (paths (files demo_package)) /\
  is_below (in_pkg []) (parent foo_cpp) = true /\
  (exists a, name foo_cpp = a ++ str ".cpp") /\
  Foo <> [] /\
  forallb is_word Foo = true /\
  exists content,
    read_text (files demo_package) foo_cpp = Ok content /\
    contains (Foo ++ scope ++ Foo) content = true.
Proof.
  apply (discovered_nodes_sound (files demo_package) (in_pkg [])
           [(Foo, foo_cpp)] Foo foo_cpp).
  - vm_compute. reflexivity.
  - left. reflexivity.
Defined.

Lemma run_opt_none : forall a k st,
  run a k st = None -> run (ROpt a) k st = k st.
Proof. intros a k st H. cbn [run]. now rewrite H. Qed.

Lemma run_alt_none : forall a b k st,
  run a k st = None -> run (RAlt a b) k st = run b k st.
Proof. intros a b k st H. cbn [run]. now rewrite H. Qed.

Lemma run_alt_first : forall a b k st x,
  run a k st = Some x -> run (RAlt a b) k st = Some x.
Proof. intros a b k st x H. cbn [run]. now rewrite H. Qed.

Lemma boundary_after_word : forall c tail pos caps,
  is_word c = true -> stops CsWord tail = true ->
  at_word_boundary (MState (Some c) tail pos caps) = true.
Proof.
  intros c tail pos caps Hc Ht. unfold at_word_boundary.
  cbn [ms_prev ms_rest word_opt]. rewrite Hc.
  destruct tail as [|d tail]; [reflexivity|].
  cbn in Ht. apply negb_true_iff in Ht. cbn. now rewrite Ht.
Qed.

(** A constructor definition whose initializer list begins with [Node] or
    [LifecycleNode] is matched, the class making up group 1. *)
Lemma direct_match : forall class_name w0 params w1 w2 base tail prev pos,
  forallb is_word class_name = true -> class_name <> [] ->
  forallb is_space w0 = true ->
  forallb is_space w1 = true ->
  forallb is_space w2 = true ->
  ~ In close_paren params ->
  base = str "Node" \/ base = str "LifecycleNode" ->
  stops CsWord tail = true ->
  exists m,
    match_here direct_alternative prev
      (signature class_name w0 params ++ initializer_list w1 w2 (base ++ tail))
      pos = Some m /\
    group 1 m = Some class_name.
Proof.
  intros class_name w0 params w1 w2 base tail prev pos Hc Hne Hw0 Hw1 Hw2 Hp
    Hbase Htail.
  assert (Hrun : exists q i,
    run direct_alternative (fun st => Some st)
        (MState prev (signature class_name w0 params
                      ++ initializer_list w1 w2 (base ++ tail)) pos [])
    = Some (MState q tail i [(1, class_name)])).
  { destruct Hbase as [-> | ->];
      unfold direct_alternative, signature, initializer_list, scope, lit, spaces;
      cbn [rseq]; rewrite <- !app_assoc;
      rewrite run_seq, run_group, run_rep;
      do 2 eexists;
      (apply rep_max;
         [exact Hc | reflexivity
          | destruct class_name; [contradiction | simpl; lia] |]);
      unfold after; cbn beta; cbn [ms_prev ms_rest ms_pos ms_caps];
      replace (pos + length class_name - pos) with (length class_name) by lia;
      rewrite firstn_exact;
      rewrite run_seq, run_lit; unfold after;
      rewrite run_seq, run_ref by reflexivity; unfold after;
      rewrite run_seq, run_rep;
      (apply rep_max; [exact Hw0 | reflexivity | lia |]); unfold after;
      rewrite run_seq, run_lit; unfold after;
      rewrite run_seq, run_rep;
      (apply rep_max; [now apply not_in_forallb | reflexivity | lia |]);
      unfold after;
      rewrite run_seq, run_lit; unfold after;
      rewrite run_seq, run_rep;
      (apply rep_max; [exact Hw1 | reflexivity | lia |]); unfold after;
      rewrite run_seq, run_lit; unfold after;
      rewrite run_seq, run_rep;
      (apply rep_max; [exact Hw2 | reflexivity | lia |]); unfold after;
      rewrite run_seq, run_opt_none
        by (rewrite run_seq; now apply run_lit_none);
      rewrite run_seq.
    - apply run_alt_first.
      rewrite run_lit. unfold after. rewrite run_wordb.
      match goal with |- context [last_of ?p (str "Node")] =>
        change (last_of p (str "Node")) with (Some "e"%char) end.
      rewrite boundary_after_word by (reflexivity || exact Htail).
      reflexivity.
    - rewrite run_alt_none by (now apply run_lit_none).
      rewrite run_lit. unfold after. rewrite run_wordb.
      match goal with |- context [last_of ?p (str "LifecycleNode")] =>
        change (last_of p (str "LifecycleNode")) with (Some "e"%char) end.
      rewrite boundary_after_word by (reflexivity || exact Htail).
      reflexivity. }
  destruct Hrun as [q [i Hrun]].
  unfold match_here. rewrite Hrun. eexists. split; reflexivity.
Qed.

Lemma word_run_app : forall c r,
  forallb is_word c = true -> stops CsWord r = true -> word_run (c ++ r) = c.
Proof.
  induction c as [|x c IH]; intros r Hc Hr.
  - destruct r as [|y r]; [reflexivity|]. cbn in Hr |- *.
    apply negb_true_iff in Hr. now rewrite Hr.
  - cbn in Hc. apply andb_true_iff in Hc. destruct Hc as [Hx Hc].
    cbn [app word_run]. rewrite Hx. f_equal. now apply IH.
Qed.

(** The discovery pattern matches only where a doubled name begins. *)
Lemma discovery_needs_doubled_name : forall prev rest pos,
  doubled_name rest = false ->
  match_here constructor_pattern prev rest pos = None.
Proof.
  intros prev rest pos H. rewrite constructor_pattern_match_here.
  destruct (match_here direct_alternative prev rest pos) as [m|] eqn:E;
    [|reflexivity].
  exfalso. apply direct_match_inv in E.
  destruct E as [c [w0 [params [w1 [w2 [body [-> [Hc [Hne _]]]]]]]]].
  unfold doubled_name, signature in H. rewrite <- !app_assoc in H.
  rewrite word_run_app in H by (exact Hc || reflexivity).
  destruct c as [|x c]; [contradiction|].
  assert (E : forall a b d r : text, a ++ b ++ d ++ r = (a ++ b ++ d) ++ r)
    by (intros; now rewrite <- !app_assoc).
  rewrite (E (x :: c) scope (x :: c)) in H.
  rewrite starts_with_app in H. discriminate.
Qed.

Lemma no_match_before : forall r (P : text -> bool),
  (forall prev rest pos, P rest = false -> match_here r prev rest pos = None) ->
  forall gap prev rest pos,
    first_at P (gap ++ rest) = Some (length gap) ->
    no_match r prev gap rest pos.
Proof.
  intros r P HP. induction gap as [|c gap IH]; intros prev rest pos H;
    [exact I|].
  cbn [app first_at length] in H.
  destruct (P (c :: gap ++ rest)) eqn:E; [discriminate|].
  destruct (first_at P (gap ++ rest)) as [n|] eqn:F; [|discriminate].
  injection H as ->. cbn [no_match]. split.
  - now apply HP.
  - now apply IH.
Qed.

Lemma scan_gap : forall r gap prev rest pos,
  no_match r prev gap rest pos ->
  scan r prev (gap ++ rest) pos 0
  = scan r (last_of prev gap) rest (pos + length gap) 0.
Proof.
  intros r. induction gap as [|c gap IH]; intros prev rest pos H.
  - cbn. now rewrite Nat.add_0_r.
  - destruct H as [H1 H2]. cbn [app scan]. rewrite H1.
    rewrite IH by exact H2. rewrite last_of_cons. f_equal.
    cbn [length]. lia.
Qed.

Lemma scan_first : forall r prev rest pos m,
  match_here r prev rest pos = Some m -> In m (scan r prev rest pos 0).
Proof.
  intros r prev rest pos m H. destruct rest; cbn [scan]; rewrite H; now left.
Qed.

Lemma discovery_total : forall f root_dir,
  all_files f (rglob f root_dir (str "*.cpp")) ->
  find_ros2_node_constructors f root_dir
  = Ok (flat_map (file_matches f) (rglob f root_dir (str "*.cpp"))).
Proof.
  intros f root_dir Hall. unfold find_ros2_node_constructors.
  pose proof (scan_files f (rglob f root_dir (str "*.cpp")) []
                (rglob_exists f root_dir (str "*.cpp"))) as Hs.
  destruct (fold_left _ _ _) as [nodes|e].
  - destruct Hs as [-> _]. reflexivity.
  - destruct Hs as [_ [q [Hq Hd]]]. now apply Hall in Hq.
Qed.

Lemma discovery_raises : forall f root_dir e,
  find_ros2_node_constructors f root_dir = Raise e ->
  e = IsADirectoryError /\
  exists q, In q (rglob f root_dir (str "*.cpp")) /\ read f q = Some Directory.
Proof.
  intros f root_dir e H. unfold find_ros2_node_constructors in H.
  pose proof (scan_files f (rglob f root_dir (str "*.cpp")) []
                (rglob_exists f root_dir (str "*.cpp"))) as Hs.
  rewrite H in Hs. exact Hs.
Qed.



(** X6.  A constructor definition whose initializer list begins with [Node]
    or [LifecycleNode], the name ending there, is discovered: when it is
    the first place of the file at which a name is followed by [::] and
    the same name, the class is reported with the file whenever discovery
    returns, as it does when nothing named [*.cpp] below the root is a
    directory. *)
Theorem direct_constructor_discovered :
  forall (f : fs) (root_dir p : path)
         (class_name pre w0 params w1 w2 base tail : text),
    let content :=
      pre ++ signature class_name w0 params
          ++ initializer_list w1 w2 (base ++ tail) in
    In p (rglob f root_dir (str "*.cpp")) ->
    read_text f p = Ok content ->
    forallb is_word class_name = true -> class_name <> [] ->
    forallb is_space w0 = true ->
    forallb is_space w1 = true ->
    forallb is_space w2 = true ->
    ~ In close_paren params ->
    base = str "Node" \/ base = str "LifecycleNode" ->
    stops CsWord tail = true ->
    first_at doubled_name content = Some (length pre) ->
    (forall nodes,
       find_ros2_node_constructors f root_dir = Ok nodes ->
       In (class_name, p) nodes) /\
    (all_files f (rglob f root_dir (str "*.cpp")) ->
     exists nodes,
       find_ros2_node_constructors f root_dir = Ok nodes /\
       In (class_name, p) nodes).
Proof.
  intros f root_dir p class_name pre w0 params w1 w2 base tail content
    Hp Hread Hc Hne Hw0 Hw1 Hw2 Hpar Hbase Htail Hfirst.
  assert (Hin : In (class_name, p)
                   (flat_map (file_matches f) (rglob f root_dir (str "*.cpp")))).
  { apply in_flat_map.
    exists p. split; [exact Hp|]. unfold file_matches. rewrite Hread.
    apply in_map_iff.
    destruct (direct_match class_name w0 params w1 w2 base tail
                (last_of None pre) (0 + length pre) Hc Hne Hw0 Hw1 Hw2 Hpar
                Hbase Htail) as [m [Hm Hg]].
    exists m. split.
    - now rewrite (class_name_of_group m class_name Hg Hne).
    - unfold finditer, content. rewrite scan_gap.
      + apply scan_first. now rewrite constructor_pattern_match_here.
      + apply no_match_before with doubled_name;
          [exact discovery_needs_doubled_name | exact Hfirst]. }
  split.
  - intros nodes Hfind. apply discovery_returns in Hfind.
    destruct Hfind as [-> _]. exact Hin.
  - intro Hall. eexists. split; [now apply discovery_total | exact Hin].
Qed.

Lemma direct_constructor_discovered_witness :
  exists nodes,
    find_ros2_node_constructors
      (files (package
                [(foo_cpp,
                  cpp "using std::string; Foo::Foo (int x) : LifecycleNode(`foo`) {}")]))
      (in_pkg []) = Ok nodes /\
    In (Foo, foo_cpp) nodes.
Proof.
  apply (direct_constructor_discovered _ (in_pkg []) foo_cpp Foo
           (cpp "using std::string; ") (str " ") (str "int x")
           (str " ") (str " ") (str "LifecycleNode") (cpp "(`foo`) {}"));
    try reflexivity.
  - now left.
  - discriminate.
  - now apply lacks_not_in.
  - now right.
  - intros q Hq. vm_compute in Hq. destruct Hq as [<-|[]]. discriminate.
Defined.

Lemma starts_with_head : forall s body c,
  starts_with (c :: s) body = true -> exists r, body = c :: r.
Proof.
  intros s body c H. apply starts_with_true in H. destruct H as [r ->].
  now exists (s ++ r).
Qed.

(** A constructor definition whose initializer list begins with anything
    but [public], [Node] or [LifecycleNode] is not matched. *)
Lemma direct_no_match : forall class_name w0 params w1 w2 body prev pos,
  forallb is_word class_name = true ->
  forallb is_space w0 = true ->
  forallb is_space w1 = true ->
  forallb is_space w2 = true ->
  ~ In close_paren params ->
  opens_body body = true ->
  starts_with (str "public") body = false ->
  starts_with (str "Node") body = false ->
  starts_with (str "LifecycleNode") body = false ->
  match_here direct_alternative prev
    (signature class_name w0 params ++ initializer_list w1 w2 body) pos = None.
Proof.
  intros class_name w0 params w1 w2 body prev pos Hc Hw0 Hw1 Hw2 Hp Hbody
    Hpub Hnode Hlife.
  destruct (match_here direct_alternative prev _ pos) as [m|] eqn:E;
    [|reflexivity].
  exfalso. apply direct_match_inv in E.
  destruct E as [c [v0 [ps [v1 [v2 [body' [Heq [Hc' [_ [Hv0 [Hv1 [Hv2 [Hps [Hb _]]]]]]]]]]]]]].
  unfold signature, initializer_list, scope in Heq.
  rewrite <- !app_assoc in Heq.
  cbn [str list_ascii_of_string app] in Heq.
  destruct (span_unique is_word class_name c ":"%char ":"%char _ _
              Hc Hc' eq_refl eq_refl Heq) as [<- [_ Heq1]].
  injection Heq1 as Heq1. apply app_inv_head in Heq1.
  destruct (span_unique is_space w0 v0 "("%char "("%char _ _
              Hw0 Hv0 eq_refl eq_refl Heq1) as [_ [_ Heq2]].
  destruct (span_unique (fun x => negb (chr_eqb close_paren x)) params ps
              ")"%char ")"%char _ _
              (not_in_forallb _ _ Hp) (not_in_forallb _ _ Hps)
              eq_refl eq_refl Heq2) as [_ [_ Heq3]].
  destruct (span_unique is_space w1 v1 ":"%char ":"%char _ _
              Hw1 Hv1 eq_refl eq_refl Heq3) as [_ [_ Heq4]].
  destruct body as [|x body]; [discriminate|].
  cbn in Hbody. apply negb_true_iff in Hbody.
  assert (Hy : exists y r, body' = y :: r /\ is_space y = false).
  { destruct Hb as [H|[H|H]]; apply starts_with_head in H;
      destruct H as [r ->]; eexists; eexists; split; reflexivity. }
  destruct Hy as [y [r [-> Hy]]].
  destruct (span_unique is_space w2 v2 x y _ _ Hw2 Hv2 Hbody Hy Heq4)
    as [_ [-> ->]].
  destruct Hb as [H|[H|H]]; congruence.
Qed.

Lemma positions_some : forall (P : text -> bool) a b pos,
  P b = true -> positions P (a ++ b) pos <> [].
Proof.
  intros P. induction a as [|c a IH]; intros b pos H.
  - destruct b; cbn [app positions]; rewrite H; discriminate.
  - cbn [app positions]. intro E. apply app_eq_nil in E.
    destruct E as [_ E]. now apply (IH b (S pos)).
Qed.

Lemma positions_only : forall (P : text -> bool) a b pos i,
  positions P (a ++ b) pos = [i] -> P b = true -> pos + length a = i.
Proof.
  intros P. induction a as [|c a IH]; intros b pos i H Hb.
  - destruct b; cbn [app positions] in H; rewrite Hb in H;
      injection H as <-; cbn; lia.
  - cbn [app positions] in H. destruct (P (c :: a ++ b)).
    + injection H as _ H. now apply positions_some in H.
    + cbn [app] in H. apply IH in H; [|exact Hb]. cbn [length]. lia.
Qed.

Lemma scan_none : forall r s prev pos skip,
  (forall a b, s = a ++ b ->
     match_here r (last_of prev a) b (pos + length a) = None) ->
  scan r prev s pos skip = [].
Proof.
  intros r. induction s as [|c s IH]; intros prev pos skip H.
  - destruct skip; [|reflexivity]. cbn [scan].
    specialize (H [] [] eq_refl). cbn in H. rewrite Nat.add_0_r in H.
    now rewrite H.
  - assert (Hs : forall skip', scan r (Some c) s (S pos) skip' = []).
    { intro skip'. apply IH. intros a b ->.
      specialize (H (c :: a) b eq_refl). rewrite last_of_cons in H.
      cbn [length] in H. now replace (S pos + length a) with (pos + S (length a)) by lia. }
    destruct skip; cbn [scan]; [|apply Hs].
    specialize (H [] (c :: s) eq_refl). cbn in H. rewrite Nat.add_0_r in H.
    rewrite H. apply Hs.
Qed.

Lemma app_same_length : forall (a c b d : text),
  length a = length c -> a ++ b = c ++ d -> a = c /\ b = d.
Proof.
  induction a as [|x a IH]; intros [|y c] b d Hl H; try discriminate.
  - now split.
  - injection H as -> H. injection Hl as Hl.
    destruct (IH c b d Hl H) as [-> ->]. now split.
Qed.

(** X7.  A constructor definition whose initializer list begins with
    anything but [Node], [LifecycleNode] or [public] (a base class written
    with its namespace, a member, another constructor) is not discovered:
    when no other place of the file holds a name followed by [::] and the
    same name, discovery reports nothing for the file. *)
Theorem other_initializers_not_discovered :
  forall (f : fs) (root_dir p : path)
         (class_name pre w0 params w1 w2 body : text),
    let content :=
      pre ++ signature class_name w0 params ++ initializer_list w1 w2 body in
    read_text f p = Ok content ->
    forallb is_word class_name = true ->
    forallb is_space w0 = true ->
    forallb is_space w1 = true ->
    forallb is_space w2 = true ->
    ~ In close_paren params ->
    opens_body body = true ->
    starts_with (str "public") body = false ->
    starts_with (str "Node") body = false ->
    starts_with (str "LifecycleNode") body = false ->
    positions doubled_name content 0 = [length pre] ->
    forall nodes,
      find_ros2_node_constructors f root_dir = Ok nodes ->
      ~ In p (map snd nodes).
Proof.
  intros f root_dir p class_name pre w0 params w1 w2 body content
    Hread Hc Hw0 Hw1 Hw2 Hpar Hbody Hpub Hnode Hlife Hpos nodes Hfind H.
  apply discovery_returns in Hfind. destruct Hfind as [-> _].
  apply in_map_iff in H. destruct H as [[c p'] [Hp H]]. cbn in Hp. subst p'.
  apply in_flat_map in H.
  destruct H as [q [_ H]]. unfold file_matches in H.
  destruct (read_text f q) as [t|e] eqn:Hq; try contradiction.
  apply in_map_iff in H. destruct H as [m [Hm Hin]].
  injection Hm as _ ->. rewrite Hread in Hq. injection Hq as <-.
  unfold finditer in Hin. rewrite scan_none in Hin; [contradiction|].
  intros a b Hab.
  destruct (doubled_name b) eqn:Hd;
    [|now apply discovery_needs_doubled_name].
  rewrite Hab in Hpos. apply positions_only in Hpos; [|exact Hd].
  cbn in Hpos. unfold content in Hab.
  assert (Ha : a = pre /\
               b = signature class_name w0 params ++ initializer_list w1 w2 body).
  { apply app_same_length; [now symmetry | now symmetry]. }
  destruct Ha as [-> ->].
  rewrite constructor_pattern_match_here. now apply direct_no_match.
Qed.

Lemma other_initializers_not_discovered_witness :
  find_ros2_node_constructors
    (files (package
              [(foo_cpp, cpp "Foo::Foo(int x) : rclcpp::Node(`foo`) {}")]))
    (in_pkg []) = Ok [] /\
  ~ In foo_cpp (map snd (@nil (text * path))).
Proof.
  split; [reflexivity|].
  apply (other_initializers_not_discovered
           (files (package
                     [(foo_cpp, cpp "Foo::Foo(int x) : rclcpp::Node(`foo`) {}")]))
           (in_pkg []) foo_cpp Foo
           [] [] (str "int x") (str " ") (str " ")
           (cpp "rclcpp::Node(`foo`) {}"));
    try reflexivity.
  now apply lacks_not_in.
Defined.

(* ================================================================== *)
(** * A namespace closed before the constructor *)

(** The depth after the lines that open a namespace: one more when the
    brace stands on the line of the keyword, two more when it stands on a
    later line, which is counted when the keyword is met and again when
    the scan comes to it. *)
Lemma ns_scan_opens_depth : forall class_name n ls st rest,
  opens class_name n ls -> covers st ->
  ns_scan st (ls ++ rest)
  = ns_scan (ScanState (brace_depth st + Z.of_nat (Nat.min 2 (length ls)))
               (namespace_stack st ++ [n])) rest.
Proof.
  intros class_name n ls st rest Ho Hc. unfold covers in Hc.
  destruct Ho as [l Hns Hnet Hct | l between b Hns Hno Hct Hq Hnsb Hnet Hctb].
  - change ([l] ++ rest) with (l :: rest). cbn [ns_scan ns_step find].
    rewrite Hns, (net_one_has_brace _ Hnet), Hnet. reflexivity.
  - change ((l :: between ++ [b]) ++ rest)
      with (l :: ((between ++ [b]) ++ rest)).
    rewrite <- app_assoc. change ([b] ++ rest) with (b :: rest).
    cbn [ns_scan].
    assert (H1 : ns_step st (l :: between ++ b :: rest)
                 = ScanState (brace_depth st + 1) (namespace_stack st ++ [n])).
    { cbn [ns_step find]. rewrite Hns, Hno.
      rewrite (find_brace_after_quiet class_name) by
        (try assumption; now apply net_one_has_brace).
      now rewrite Hnet. }
    rewrite H1.
    rewrite (ns_scan_quiet class_name) by
      (try assumption; unfold covers; simpl; rewrite length_app; simpl; lia).
    cbn [ns_scan ns_step]. rewrite Hnsb, net_braces_strip, Hnet.
    cbn [brace_depth namespace_stack].
    assert (H2 : (brace_depth st + 1 + 1
                  <? Z.of_nat (length (namespace_stack st ++ [n])))%Z = false)
      by (apply Z.ltb_ge; rewrite length_app; simpl; lia).
    rewrite H2. f_equal. f_equal.
    cbn [length]. rewrite length_app. cbn [length].
    replace (Nat.min 2 (S (length between + 1))) with 2 by lia. lia.
Qed.

Lemma closes_inv : forall class_name l,
  closes class_name l = true ->
  is_constructor_line class_name l = false /\
  ns_match (strip l) = None /\
  net_braces l = (-1)%Z.
Proof.
  intros class_name l H. unfold closes in H.
  repeat (apply andb_true_iff in H; destruct H as [H ?]).
  apply Nat.eqb_eq in H, H2. apply negb_true_iff in H0, H1.
  split; [now apply not_constructor_line|].
  split; [now apply not_namespace_line|].
  unfold net_braces. lia.
Qed.

Lemma namespace_opening_not_nil : forall class_name n A,
  namespace_opening class_name n A -> A <> [].
Proof. intros class_name n A H. destruct H; discriminate. Qed.

(** X8.  In a file with one namespace before the constructor line, opened
    by lines of its own and closed again by a line that closes one brace
    and opens none, every other line before the constructor line holding
    no brace, not beginning with [namespace] and not holding
    [ClassName::ClassName(], and the constructor line closing no more
    braces than it opens: the namespace is left out of the prefix when its
    opening brace stood on the line of the keyword.  When the brace stood
    on a later line, that line is counted twice, the closing brace does
    not bring the depth back below the height of the stack, and the
    namespace stays in the prefix. *)
Theorem closed_namespace :
  forall (content class_name n : text) (P A M Q R : list text)
         (closing pre w post : text),
    let anchor :=
      pre ++ class_name ++ scope ++ class_name ++ w ++ str "(" ++ post in
    splitlines content = P ++ A ++ M ++ closing :: Q ++ anchor :: R ->
    forallb is_word class_name = true -> class_name <> [] ->
    forallb is_word n = true -> n <> [] ->
    forallb (plain class_name) (P ++ M ++ Q) = true ->
    namespace_opening class_name n A ->
    closes class_name closing = true ->
    word_opt (last_of None pre) = false ->
    forallb is_space w = true ->
    begins_namespace anchor = false ->
    (0 <= net_braces anchor)%Z ->
    find_enclosing_namespace content class_name
    = match A with
      | [_] => []
      | _ => n ++ scope
      end.
Proof.
  intros content class_name n P A M Q R closing pre w post anchor Hl Hc Hcn
    Hn Hnn Hplain HA Hclose Hpre Hw Hns Hnet.
  assert (Hq : forallb (quiet class_name) (P ++ M ++ Q) = true).
  { apply forallb_forall. intros x Hx. apply plain_quiet.
    rewrite forallb_forall in Hplain. now apply Hplain. }
  rewrite !forallb_app in Hq. apply andb_true_iff in Hq.
  destruct Hq as [HP Hq]. apply andb_true_iff in Hq. destruct Hq as [HM HQ].
  pose proof (namespace_opening_not_nil _ _ _ HA) as HAn.
  apply opening_opens in HA; [|assumption|assumption].
  destruct (closes_inv _ _ Hclose) as [Hcc [Hcns Hcnet]].
  assert (Hanchor : is_constructor_line class_name anchor = true)
    by (now apply constructor_line).
  assert (Hans : ns_match (strip anchor) = None)
    by (now apply not_namespace_line).
  unfold find_enclosing_namespace. rewrite Hl.
  replace (P ++ A ++ M ++ closing :: Q ++ anchor :: R)
    with ((P ++ A ++ M ++ [closing] ++ Q) ++ anchor :: R)
    by (now rewrite <- !app_assoc).
  rewrite constructor_line_from_app; [|
    rewrite !forallb_app;
    rewrite (quiet_not_constructor _ _ HP), (quiet_not_constructor _ _ HM),
      (quiet_not_constructor _ _ HQ), (opens_not_constructor _ _ _ HA);
    cbn; rewrite Hcc; reflexivity | exact Hanchor].
  simpl Nat.add. rewrite scanned_lines_app.
  rewrite <- !app_assoc.
  rewrite (ns_scan_quiet class_name) by (try assumption; unfold covers; simpl; lia).
  rewrite (ns_scan_opens_depth class_name n A) by
    (try assumption; unfold covers; simpl; lia).
  cbn [brace_depth namespace_stack app].
  assert (Hstep : forall k : Z,
            (1 <= k)%Z ->
            ns_scan (ScanState (0 + k) [n]) (M ++ [closing] ++ Q ++ [anchor])
            = ScanState (0 + k + -1 + net_braces anchor)
                (if (k =? 1)%Z then [] else [n])).
  { intros k Hk.
    rewrite (ns_scan_quiet class_name) by
      (try assumption; unfold covers; simpl; lia).
    change ([closing] ++ Q ++ [anchor]) with (closing :: Q ++ [anchor]).
    cbn [ns_scan ns_step]. rewrite Hcns, net_braces_strip, Hcnet.
    cbn [brace_depth namespace_stack length].
    destruct (k =? 1)%Z eqn:Ek.
    - apply Z.eqb_eq in Ek. subst k.
      change (0 + 1 + -1 <? Z.of_nat 1)%Z with true. cbn iota.
      change (slice_to [n] (0 + 1 + -1)%Z) with (@nil text).
      rewrite (ns_scan_quiet class_name) by
        (try assumption; unfold covers; simpl; lia).
      cbn [ns_scan ns_step]. rewrite Hans, net_braces_strip.
      cbn [brace_depth namespace_stack length].
      assert (H : (0 + 1 + -1 + net_braces anchor <? Z.of_nat 0)%Z = false)
        by (apply Z.ltb_ge; lia).
      now rewrite H.
    - apply Z.eqb_neq in Ek.
      assert (H0 : (0 + k + -1 <? Z.of_nat 1)%Z = false)
        by (apply Z.ltb_ge; simpl; lia).
      rewrite H0.
      rewrite (ns_scan_quiet class_name) by
        (try assumption; unfold covers; simpl; lia).
      cbn [ns_scan ns_step]. rewrite Hans, net_braces_strip.
      cbn [brace_depth namespace_stack length].
      assert (H : (0 + k + -1 + net_braces anchor <? Z.of_nat 1)%Z = false)
        by (apply Z.ltb_ge; simpl; lia).
      now rewrite H. }
  rewrite Hstep by (destruct A as [|x [|y A]]; [contradiction | simpl; lia | simpl; lia]).
  cbn [namespace_stack].
  destruct A as [|x [|y A]]; [contradiction | reflexivity |].
  replace (Z.of_nat (Nat.min 2 (length (x :: y :: A))) =? 1)%Z with false
    by (symmetry; apply Z.eqb_neq; cbn [length]; lia).
  unfold ns_prefix. cbn [join]. reflexivity.
Qed.

Lemma closed_namespace_witness :
  find_enclosing_namespace closed_namespace_source Foo = [] /\
  find_enclosing_namespace closed_namespace_source' Foo = str "a" ++ scope.
Proof.
  split.
  - apply (closed_namespace closed_namespace_source Foo (str "a")
             [] [[] ++ str "namespace" ++ str " " ++ str "a" ++ str " " ++ str "{" ++ []]
             [] [] [] (str "}") [] [] (cpp ") : Node(`foo`) {}"));
      try reflexivity; try discriminate;
      try (apply opening_same_line; try reflexivity; discriminate);
      try (vm_compute; discriminate).
  - apply (closed_namespace closed_namespace_source' Foo (str "a")
             [] (([] ++ str "namespace" ++ str " " ++ str "a" ++ [])
                 :: [] ++ [[] ++ str "{" ++ []])
             [] [] [] (str "}") [] [] (cpp ") : Node(`foo`) {}"));
      try reflexivity; try discriminate;
      try (apply opening_later_line; try reflexivity; discriminate);
      try (vm_compute; discriminate).
Defined.

(* ================================================================== *)
(** * What the resolver looks at *)

Lemma constructor_line_from_bound : forall class_name ls k i,
  constructor_line_from class_name ls k = Some i -> k <= i < k + length ls.
Proof.
  intros class_name. induction ls as [|l ls IH]; intros k i H; [discriminate|].
  cbn [constructor_line_from] in H. cbn [length].
  destruct (is_constructor_line class_name l).
  - injection H as <-. lia.
  - apply IH in H. lia.
Qed.

Lemma constructor_line_from_prefix : forall class_name P anchor R k,
  is_constructor_line class_name anchor = true ->
  constructor_line_from class_name (P ++ anchor :: R) k
  = constructor_line_from class_name (P ++ [anchor]) k.
Proof.
  intros class_name. induction P as [|l P IH]; intros anchor R k H.
  - cbn. now rewrite H.
  - cbn [app constructor_line_from].
    destruct (is_constructor_line class_name l); [reflexivity|]. now apply IH.
Qed.

Lemma firstn_prefix : forall (P : list text) anchor R n,
  n <= S (length P) ->
  firstn n (P ++ anchor :: R) = firstn n (P ++ [anchor]).
Proof.
  induction P as [|l P IH]; intros anchor R n H.
  - destruct n as [|[|n]]; [reflexivity | reflexivity | simpl in H; lia].
  - destruct n; [reflexivity|]. cbn [app firstn]. f_equal. apply IH.
    simpl in H. lia.
Qed.

(** X9.  The resolver reads the file up to the first line that holds the
    constructor and no further: two files that agree up to a line holding
    the constructor get the same prefix, whatever follows that line. *)
Theorem namespace_from_lines_before_constructor :
  forall (class_name content content' anchor : text) (P R R' : list text),
    forallb is_word class_name = true ->
    splitlines content = P ++ anchor :: R ->
    splitlines content' = P ++ anchor :: R' ->
    is_constructor_line class_name anchor = true ->
    find_enclosing_namespace content class_name
    = find_enclosing_namespace content' class_name.
Proof.
  intros class_name content content' anchor P R R' _ H H' Ha.
  unfold find_enclosing_namespace. rewrite H, H'.
  rewrite (constructor_line_from_prefix class_name P anchor R 0 Ha).
  rewrite (constructor_line_from_prefix class_name P anchor R' 0 Ha).
  destruct (constructor_line_from class_name (P ++ [anchor]) 0) as [i|] eqn:E;
    [|reflexivity].
  apply constructor_line_from_bound in E. rewrite length_app in E. cbn in E.
  unfold scanned_lines.
  rewrite (firstn_prefix P anchor R (S i)) by lia.
  rewrite (firstn_prefix P anchor R' (S i)) by lia. reflexivity.
Qed.

Lemma namespace_from_lines_before_constructor_witness :
  find_enclosing_namespace
    (unlines ["namespace a {"; "Foo::Foo() : Node(`foo`) {}"; "}"]%string) Foo
  = find_enclosing_namespace
      (unlines ["namespace a {"; "Foo::Foo() : Node(`foo`) {}";
                "namespace b {"; "}}}"]%string) Foo.
Proof.
  apply (namespace_from_lines_before_constructor Foo _ _
           (cpp "Foo::Foo() : Node(`foo`) {}") [cpp "namespace a {"]
           [cpp "}"] [cpp "namespace b {"; cpp "}}}"]);
    reflexivity.
Defined.

Lemma contains_true : forall needle hay,
  contains needle hay = true -> exists a b, hay = a ++ needle ++ b.
Proof.
  intros needle. induction hay as [|c hay IH]; intro H.
  - cbn [contains] in H. rewrite orb_false_r in H.
    apply starts_with_true in H. destruct H as [r ->]. now exists [], r.
  - cbn [contains] in H. apply orb_true_iff in H. destruct H as [H|H].
    + apply starts_with_true in H. destruct H as [r ->]. now exists [], r.
    + apply IH in H. destruct H as [a [b ->]]. now exists (c :: a), b.
Qed.

Lemma contains_within : forall needle a l b,
  contains needle l = true -> contains needle (a ++ l ++ b) = true.
Proof.
  intros needle a l b H. apply contains_true in H. destruct H as [x [y ->]].
  rewrite <- !app_assoc. rewrite (app_assoc a x). apply contains_app.
Qed.

(** The lines of a text are stretches of it. *)
Lemma splitlines_from_within : forall n s cur l,
  length s <= n ->
  In l (splitlines_from cur s) -> exists a b, rev cur ++ s = a ++ l ++ b.
Proof.
  induction n as [|n IH]; intros s cur l Hn H.
  - destruct s; [|simpl in Hn; lia].
    cbn [splitlines_from] in H. destruct cur as [|x cur]; [contradiction|].
    destruct H as [<-|[]]. exists [], []. now rewrite !app_nil_r.
  - destruct s as [|c s].
    + cbn [splitlines_from] in H. destruct cur as [|x cur]; [contradiction|].
      destruct H as [<-|[]]. exists [], []. now rewrite !app_nil_r.
    + cbn [splitlines_from] in H. cbn [length] in Hn.
      destruct (is_linebreak c).
      * destruct s as [|d s].
        -- destruct H as [<-|[]]. exists [], [c]. reflexivity.
        -- destruct ((code c =? 13)%N && (code d =? 10)%N).
           ++ destruct H as [<-|H]; [exists [], (c :: d :: s); reflexivity|].
              apply IH in H; [|cbn [length] in Hn; lia].
              destruct H as [a [b H]]. cbn [rev app] in H.
              exists (rev cur ++ c :: d :: a), b. rewrite H.
              now rewrite <- app_assoc.
           ++ destruct H as [<-|H]; [exists [], (c :: d :: s); reflexivity|].
              apply IH in H; [|lia].
              destruct H as [a [b H]]. cbn [rev app] in H.
              exists (rev cur ++ c :: a), b. rewrite H.
              now rewrite <- app_assoc.
      * apply IH in H; [|lia]. destruct H as [a [b H]]. exists a, b.
        rewrite <- H. cbn [rev]. now rewrite <- app_assoc.
Qed.

Lemma constructor_line_from_none : forall class_name ls k,
  forallb (fun l => negb (is_constructor_line class_name l)) ls = true ->
  constructor_line_from class_name ls k = None.
Proof.
  intros class_name. induction ls as [|l ls IH]; intros k H; [reflexivity|].
  cbn in H. apply andb_true_iff in H. destruct H as [H1 H2].
  apply negb_true_iff in H1. cbn [constructor_line_from]. rewrite H1.
  now apply IH.
Qed.

(** X10.  In a file in which [ClassName::ClassName] does not occur the
    resolver finds no constructor line and answers with the empty
    prefix. *)
Theorem no_constructor_no_namespace : forall (content class_name : text),
  forallb is_word class_name = true ->
  contains (class_name ++ scope ++ class_name) content = false ->
  find_enclosing_namespace content class_name = [].
Proof.
  intros content class_name _ H. unfold find_enclosing_namespace.
  rewrite constructor_line_from_none; [reflexivity|].
  apply forallb_forall. intros l Hl. apply negb_true_iff.
  apply not_constructor_line. unfold names_constructor.
  destruct (contains (class_name ++ scope ++ class_name) l) eqn:E;
    [|reflexivity].
  apply (splitlines_from_within (length content)) in Hl; [|lia].
  destruct Hl as [a [b Hl]]. cbn [rev app] in Hl.
  rewrite Hl in H. now rewrite contains_within in H.
Qed.

Lemma no_constructor_no_namespace_witness :
  find_enclosing_namespace
    (unlines ["namespace a {"; "Bar::Bar() : Node(`bar`) {}"; "}"]%string) Foo
  = [].
Proof. apply no_constructor_no_namespace; reflexivity. Defined.

(* ================================================================== *)
(** * Updating the call sites twice *)

Lemma expected_call_starts : forall class_name p ps,
  is_call p = true ->
  exists Y, expected class_name (p :: ps) = make_shared ++ Y.
Proof.
  intros class_name p ps H. destruct p as [t | q w1 w2 | g w1 w2 |];
    [discriminate | | |]; cbn [expected flat_map expected_piece].
  - unfold call_rewritten. rewrite <- !app_assoc. eexists. reflexivity.
  - unfold call_head. rewrite <- !app_assoc. eexists. reflexivity.
  - eexists. reflexivity.
Qed.

Lemma no_match_gap_expected : forall class_name t ps prev pos,
  contains make_shared t = false ->
  match ps with [] => true | p :: _ => is_call p end = true ->
  no_match (constructor_call_pattern class_name) prev t
    (expected class_name ps) pos.
Proof.
  intros class_name t ps prev pos Ht Hps.
  apply absent_no_match with make_shared.
  - intros. now apply call_head_literal.
  - destruct ps as [|p ps].
    + now apply absent_at_end.
    + destruct (expected_call_starts class_name p ps Hps) as [Y ->].
      now apply absent_before_literal.
Qed.

(** No call begins in the argument that was written. *)
Lemma no_match_default_options : forall class_name rest prev pos,
  no_match (constructor_call_pattern class_name) prev default_options rest pos.
Proof.
  intros class_name rest prev pos.
  apply absent_no_match with make_shared.
  - intros. now apply call_head_literal.
  - change default_options with (str "rclcpp::NodeOptions{}" ++ [")"%char]).
    apply absent_app.
    + cbn [app]. apply absent_blocked.
      * discriminate.
      * apply lacks_not_in. reflexivity.
      * apply lacks_not_in. reflexivity.
    + cbn [absent app]. split; [reflexivity | exact I].
Qed.

Lemma call_rewritten_split : forall class_name q,
  call_rewritten class_name q
  = call_head (q ++ class_name) [] [] ++ default_options.
Proof.
  intros class_name q. unfold call_rewritten, call_head, default_options.
  now rewrite <- !app_assoc.
Qed.

Lemma expected_head : forall class_name ps,
  hd_error (expected class_name ps) = hd_error (render class_name ps).
Proof.
  intros class_name. induction ps as [|p ps IH]; [reflexivity|].
  destruct p as [t | q w1 w2 | g w1 w2 |];
    cbn [expected render flat_map expected_piece render_piece];
    fold (expected class_name ps); fold (render class_name ps).
  - destruct t; [exact IH | reflexivity].
  - reflexivity.
  - reflexivity.
  - reflexivity.
Qed.

(** A text that ends in a closing parenthesis and holds no [<] is not the
    beginning of a text that begins with [std::make_shared<]. *)
Lemma not_prefix_of_make_shared : forall Y Z,
  lacks less_than Y = true ->
  starts_with (Y ++ [close_paren]) (make_shared ++ Z) = false.
Proof.
  intros Y Z HY.
  destruct (starts_with (Y ++ [close_paren]) (make_shared ++ Z)) eqn:E;
    [|reflexivity].
  exfalso. apply starts_with_split in E.
  destruct E as [[_ E] | [_ [E _]]].
  - apply starts_with_last_in in E; [|now destruct Y].
    rewrite last_last in E. vm_compute in E.
    repeat (destruct E as [E|E]; [discriminate E|]). exact E.
  - apply starts_with_last_in in E; [|discriminate].
    change (last make_shared (ascii_of_nat 0)) with less_than in E.
    apply in_app_or in E. destruct E as [E | [E | []]].
    + now apply (lacks_not_in _ _ HY).
    + discriminate E.
Qed.

Lemma lacks_skipn : forall c n t, lacks c t = true -> lacks c (skipn n t) = true.
Proof.
  intros c n t H. apply not_in_lacks. intro Hin.
  apply (lacks_not_in _ _ H). rewrite <- (firstn_skipn n t).
  apply in_or_app. now right.
Qed.

(** What follows [std::make_shared<] is the rest of a call without
    arguments in the updated text only if it was in the text before. *)
Lemma begins_call_expected : forall class_name ps,
  forallb is_word class_name = true ->
  pieces_ok class_name ps = true ->
  begins_call class_name (make_shared ++ render class_name ps) = false ->
  begins_call class_name (make_shared ++ expected class_name ps) = false.
Proof.
  intros class_name ps Hc Hok Hno.
  destruct (begins_call class_name (make_shared ++ expected class_name ps))
    eqn:E; [|reflexivity].
  exfalso. apply (begins_call_spec class_name _ Hc) in E.
  destruct E as [q [w1 [w2 [tail [E [Hq [Hw1 Hw2]]]]]]].
  unfold call_text in E. rewrite <- !app_assoc in E. apply app_inv_head in E.
  set (X := q ++ class_name ++ str ">" ++ w1 ++ str "(" ++ w2).
  assert (HX : lacks less_than X = true).
  { unfold X. rewrite !lacks_app.
    rewrite (class_lacks (cset_mem word_or_colon) less_than q eq_refl Hq),
      (class_lacks is_word less_than class_name eq_refl Hc),
      (class_lacks is_space less_than w1 eq_refl Hw1),
      (class_lacks is_space less_than w2 eq_refl Hw2).
    reflexivity. }
  assert (Hs : starts_with (X ++ [close_paren]) (expected class_name ps) = true).
  { assert (E' : expected class_name ps = (X ++ [close_paren]) ++ tail)
      by (rewrite E; unfold X; now rewrite <- !app_assoc).
    rewrite E'. apply starts_with_app. }
  assert (Hr : starts_with (X ++ [close_paren]) (render class_name ps) = true).
  { destruct ps as [|p ps].
    - cbn in Hs. destruct X; discriminate Hs.
    - assert (Hcall : forall p', is_call p' = true ->
                starts_with (X ++ [close_paren])
                  (expected class_name (p' :: ps)) = true -> False).
      { intros p' Hp' H.
        destruct (expected_call_starts class_name p' ps Hp') as [Z HZ].
        rewrite HZ, not_prefix_of_make_shared in H by exact HX.
        discriminate H. }
      destruct p as [t | q' v1 v2 | g v1 v2 |];
        try (exfalso; eapply Hcall; [|exact Hs]; reflexivity).
      clear Hcall.
      cbn [expected render flat_map expected_piece render_piece] in *.
      fold (expected class_name ps) in Hs. fold (render class_name ps).
      apply starts_with_split in Hs.
      destruct Hs as [[_ Hs] | [Hlen [_ Hs]]]; [now apply starts_with_prefix|].
      exfalso. rewrite skipn_app in Hs.
      rewrite length_app in Hlen. cbn [length] in Hlen.
      replace (length t - length X) with 0 in Hs by lia. cbn [skipn] in Hs.
      cbn [pieces_ok] in Hok. apply andb_true_iff in Hok.
      destruct Hok as [Hok _]. apply andb_true_iff in Hok.
      destruct Hok as [_ Hnext].
      destruct ps as [|p' ps].
      + cbn in Hs. destruct (skipn (length t) X); discriminate Hs.
      + destruct (expected_call_starts class_name p' ps Hnext) as [Z HZ].
        rewrite HZ, not_prefix_of_make_shared in Hs
          by (now apply lacks_skipn).
        discriminate Hs. }
  apply starts_with_true in Hr. destruct Hr as [r Hr].
  assert (Hb : begins_call class_name (make_shared ++ render class_name ps)
               = true).
  { apply begins_call_spec; [exact Hc|]. exists q, w1, w2, r.
    split; [|now repeat split]. rewrite Hr. unfold call_text, X.
    now rewrite <- !app_assoc. }
  congruence.
Qed.

Lemma opens_arguments_head : forall a b,
  hd_error a = hd_error b -> opens_arguments a = opens_arguments b.
Proof.
  intros [|x a] [|y b] H; try discriminate; [reflexivity|].
  now injection H as ->.
Qed.

Section PiecesAgain.

Variable class_name : text.
Hypothesis class_name_word : forallb is_word class_name = true.

(** The text the updater writes holds no call without arguments. *)
Lemma expected_has_no_call : forall ps prev pos,
  pieces_ok class_name ps = true ->
  subs_made (constructor_call_pattern class_name) None prev
    (expected class_name ps) pos 0 = 0.
Proof.
  induction ps as [|p ps IH]; intros prev pos Hok.
  - cbn [expected flat_map subs_made].
    now rewrite call_head_literal by reflexivity.
  - destruct p as [t | q w1 w2 | g w1 w2 |]; cbn [pieces_ok] in Hok;
      cbn [expected flat_map expected_piece];
      fold (expected class_name ps).
    + apply andb_true_iff in Hok. destruct Hok as [Hok Hps].
      apply andb_true_iff in Hok. destruct Hok as [Ht Hnext].
      apply negb_true_iff in Ht.
      rewrite subs_made_gap by (now apply no_match_gap_expected).
      now apply IH.
    + apply andb_true_iff in Hok. destruct Hok as [Hok Hps].
      apply andb_true_iff in Hok. destruct Hok as [Hok Hw2].
      apply andb_true_iff in Hok. destruct Hok as [Hq Hw1].
      rewrite call_rewritten_split, <- app_assoc.
      rewrite subs_made_gap.
      * rewrite subs_made_gap by apply no_match_default_options.
        now apply IH.
      * apply no_match_call_head; try reflexivity; try assumption.
        rewrite forallb_app, Hq. cbn [andb].
        apply forallb_weaken with is_word;
          [exact word_is_word_or_colon | exact class_name_word].
    + apply andb_true_iff in Hok. destruct Hok as [Hok Hps].
      apply andb_true_iff in Hok. destruct Hok as [Hok HX].
      apply andb_true_iff in Hok. destruct Hok as [Hok Hw2].
      apply andb_true_iff in Hok. destruct Hok as [Hg Hw1].
      rewrite subs_made_gap.
      * now apply IH.
      * apply no_match_call_head; try assumption.
        rewrite <- HX. apply opens_arguments_head, expected_head.
    + apply andb_true_iff in Hok. destruct Hok as [Hno Hps].
      apply negb_true_iff in Hno.
      rewrite subs_made_gap.
      * now apply IH.
      * apply no_match_other; [exact class_name_word|].
        now apply begins_call_expected.
Qed.

End PiecesAgain.

(** The updated text holds no carriage return when the text before held
    none. *)
Lemma expected_lacks : forall class_name ps,
  lacks carriage_return (render class_name ps) = true ->
  lacks carriage_return (expected class_name ps) = true.
Proof.
  intros class_name. induction ps as [|p ps IH]; intro H; [reflexivity|].
  cbn [render expected flat_map] in *.
  fold (render class_name ps) in H. fold (expected class_name ps).
  rewrite lacks_app in *. apply andb_true_iff in H. destruct H as [Hp H].
  rewrite IH by exact H. rewrite andb_true_r.
  destruct p as [t | q w1 w2 | g w1 w2 |]; cbn [render_piece expected_piece] in *;
    try exact Hp.
  unfold call_text in Hp. unfold call_rewritten. rewrite !lacks_app in *.
  apply andb_true_iff in Hp. destruct Hp as [_ Hp].
  apply andb_true_iff in Hp. destruct Hp as [Hq Hp].
  apply andb_true_iff in Hp. destruct Hp as [Hcn _].
  now rewrite Hq, Hcn.
Qed.

(** The first place at which a literal occurs. *)
Lemma first_occurrence : forall needle hay,
  needle <> [] ->
  contains needle hay = true ->
  exists gap rest,
    hay = gap ++ needle ++ rest /\ contains needle gap = false.
Proof.
  intros needle hay Hne. induction hay as [|c hay IH]; intro H.
  - cbn [contains] in H. rewrite orb_false_r in H.
    apply starts_with_true in H. destruct H as [r H].
    destruct needle; [now contradiction Hne | discriminate H].
  - cbn [contains] in H. destruct (starts_with needle (c :: hay)) eqn:E.
    + apply starts_with_true in E. destruct E as [r E].
      exists [], r. split; [exact E|].
      destruct needle; [now contradiction Hne | reflexivity].
    + cbn [orb] in H. destruct (IH H) as [gap [rest [-> Hgap]]].
      exists (c :: gap), rest. split; [reflexivity|].
      cbn [contains]. rewrite Hgap, orb_false_r.
      destruct (starts_with needle (c :: gap)) eqn:E'; [|reflexivity].
      apply starts_with_prefix with (u := needle ++ rest) in E'.
      cbn [app] in E'. congruence.
Qed.

(** Every text is a sequence of pieces. *)
Lemma pieces_exist : forall class_name,
  forallb is_word class_name = true ->
  forall n s,
    length s <= n ->
    exists ps, pieces_ok class_name ps = true /\ render class_name ps = s.
Proof.
  intros class_name Hc. induction n as [|n IH]; intros s Hn.
  - destruct s; [|simpl in Hn; lia]. now exists [].
  - destruct (contains make_shared s) eqn:E.
    + apply first_occurrence in E; [|discriminate].
      destruct E as [gap [rest [-> Hgap]]].
      rewrite !length_app in Hn.
      change (length make_shared) with 17 in Hn.
      destruct (begins_call class_name (make_shared ++ rest)) eqn:Eb.
      * pose proof Eb as Hcall.
        apply (begins_call_spec class_name _ Hc) in Hcall.
        destruct Hcall as [q [w1 [w2 [tail [Heq [Hq [Hw1 Hw2]]]]]]].
        destruct (IH tail) as [ps [Hok Hr]].
        { assert (Hl : length (make_shared ++ rest)
                       = length (call_text class_name q w1 w2 ++ tail))
            by (now rewrite Heq).
          unfold call_text in Hl. rewrite !length_app in Hl.
          change (length make_shared) with 17 in Hl. lia. }
        exists (Gap gap :: Call0 q w1 w2 :: ps). split.
        -- cbn [pieces_ok is_call]. now rewrite Hgap, Hq, Hw1, Hw2, Hok.
        -- cbn [render flat_map render_piece]. fold (render class_name ps).
           now rewrite Hr, Heq.
      * destruct (IH rest) as [ps [Hok Hr]]; [lia|].
        exists (Gap gap :: Other :: ps). split.
        -- cbn [pieces_ok is_call]. fold (render class_name ps).
           now rewrite Hgap, Hr, Eb, Hok.
        -- cbn [render flat_map render_piece]. fold (render class_name ps).
           now rewrite Hr.
    + exists [Gap s]. split.
      * cbn [pieces_ok]. now rewrite E.
      * cbn [render flat_map render_piece]. apply app_nil_r.
Qed.

(** X11.  Updating the call sites of a file twice is the same as updating
    them once: the second update finds no call without arguments and
    writes nothing. *)
Theorem call_site_update_idempotent :
  forall (class_name : text) (p : path) (w w1 : world) (ps : list piece),
    forallb is_word class_name = true ->
    pieces_ok class_name ps = true ->
    read_text (files w) p = Ok (render class_name ps) ->
    update_main_file class_name w p = Ok w1 ->
    update_main_file class_name w1 p = Ok w1.
Proof.
  intros class_name p w w1 ps Hc Hok Hread H1.
  destruct (update_main_file_cases class_name p w _ Hread) as [H0 Hpos].
  assert (Hn : substitutions (constructor_call_pattern class_name) 0
                 (render class_name ps) = length (filter is_call0 ps)).
  { unfold substitutions. cbn [limit_of]. now apply pieces_counted. }
  destruct (existsb is_call0 ps) eqn:E.
  - rewrite Hpos in H1 by (rewrite Hn; now apply filter_call0_length).
    injection H1 as <-. unfold sub_with. cbn [limit_of].
    rewrite pieces_rewritten by assumption.
    apply (update_main_file_cases class_name p _ (expected class_name ps)).
    + cbn [say put files]. apply read_text_written, expected_lacks.
      now apply read_text_lacks with (files w) p.
    + unfold substitutions. cbn [limit_of]. now apply expected_has_no_call.
  - rewrite H0 in H1 by (rewrite Hn; now apply filter_call0_length).
    injection H1 as <-. apply H0. rewrite Hn. now apply filter_call0_length.
Qed.

Lemma call_site_update_idempotent_witness :
  update_main_file Foo
    (say (CallUpdated main_cpp)
       (put main_cpp (expected Foo sample_calls)
          (package [(main_cpp, render Foo sample_calls)]))) main_cpp
  = Ok (say (CallUpdated main_cpp)
          (put main_cpp (expected Foo sample_calls)
             (package [(main_cpp, render Foo sample_calls)]))).
Proof.
  apply (call_site_update_idempotent Foo main_cpp
           (package [(main_cpp, render Foo sample_calls)]) _ sample_calls);
    reflexivity.
Defined.

(* ================================================================== *)
(** * What the call-site updater leaves alone *)

Lemma rewritten_refl : forall f, rewritten f f.
Proof. intro f. split; [reflexivity|]. intro q. now left. Qed.

Lemma rewritten_trans : forall f g h,
  rewritten f g -> rewritten g h -> rewritten f h.
Proof.
  intros f g h [E1 R1] [E2 R2]. split; [congruence|]. intro q.
  destruct (R1 q) as [H1 | [s [t [H1 H1']]]],
           (R2 q) as [H2 | [s' [t' [H2 H2']]]].
  - left. congruence.
  - right. exists s', t'. split; [congruence | exact H2'].
  - right. exists s, t. split; [exact H1 | congruence].
  - right. exists s, t'. now split.
Qed.

Lemma rewritten_write : forall f p s t,
  entry f p = Some (Utf8 s) -> rewritten f (write f p t).
Proof.
  intros f p s t H. split.
  - apply entries_write. rewrite H. discriminate.
  - intro q. destruct (path_eqb q p) eqn:E.
    + apply path_eqb_eq in E. subst q. right. exists s, t.
      split; [now apply read_entry | apply read_write_same].
    + left. apply read_write_other; [rewrite H; discriminate|].
      intros ->. rewrite (proj2 (path_eqb_eq p p) eq_refl) in E. discriminate.
Qed.

Lemma rewritten_paths : forall f f', rewritten f f' -> paths f' = paths f.
Proof. intros f f' [E _]. unfold paths. now rewrite E. Qed.

Lemma rewritten_rglob : forall f f' dir pat,
  rewritten f f' -> rglob f' dir pat = rglob f dir pat.
Proof. intros f f' dir pat H. unfold rglob. now rewrite (rewritten_paths _ _ H). Qed.

Lemma rewritten_kind : forall f f' q c,
  rewritten f f' -> (forall t, c <> Some (Utf8 t)) ->
  (read f' q = c <-> read f q = c).
Proof.
  intros f f' q c [_ R] Hc. destruct (R q) as [H | [s [t [H H']]]].
  - now rewrite H.
  - rewrite H, H'. split; intro E; exfalso; symmetry in E; now apply Hc in E.
Qed.

Lemma rewritten_all_files : forall f f' l,
  rewritten f f' -> all_files f l -> all_files f' l.
Proof.
  intros f f' l R H q Hq E.
  apply (rewritten_kind f f' q (Some Directory) R) in E; [|discriminate].
  now apply (H q Hq).
Qed.

Lemma rewritten_exists : forall f f' q,
  rewritten f f' -> read f q <> None -> read f' q <> None.
Proof.
  intros f f' q R H E.
  apply (rewritten_kind f f' q None R) in E; [|discriminate]. contradiction.
Qed.

(** One file of the candidates, when the update returns. *)
Lemma update_main_file_ok : forall class_name w p w',
  update_main_file class_name w p = Ok w' ->
  rewritten (files w) (files w') /\
  (forall q, q <> p -> read (files w') q = read (files w) q) /\
  (forall e, reported e w -> reported e w') /\
  (forall e, reported e w' -> reported e w \/ e = CallUpdated p).
Proof.
  intros class_name w p w' H. unfold update_main_file in H.
  assert (Hsame : rewritten (files w) (files w) /\
                  (forall q, q <> p -> read (files w) q = read (files w) q) /\
                  (forall e, reported e w -> reported e w) /\
                  (forall e, reported e w -> reported e w \/ e = CallUpdated p))
    by (split; [apply rewritten_refl | repeat split; auto]).
  destruct (read_text (files w) p) as [content|e] eqn:E.
  - destruct (search (constructor_call_pattern class_name) content).
    + rewrite sub_call_template in H. cbn [of_template bind] in H.
      injection H as <-. apply read_text_ok in E.
      destruct E as [stored [E _]]. cbn [say put files].
      split; [now apply rewritten_write with stored|]. split; [|split].
      * intros q Hq. apply read_write_other; [rewrite E; discriminate|exact Hq].
      * intros e He. unfold reported in *. cbn [say put output].
        apply in_or_app. now left.
      * intros e He. unfold reported in *. cbn [say put output] in He.
        apply in_app_or in He. destruct He as [He | [<- | []]];
          [now left | now right].
    + injection H as <-. exact Hsame.
  - destruct e; try discriminate H. injection H as <-. exact Hsame.
Qed.

(** The update of one file fails only where it cannot read a file. *)
Lemma update_main_file_raise : forall class_name w p e,
  update_main_file class_name w p = Raise e ->
  (e = IsADirectoryError /\ read (files w) p = Some Directory) \/
  (e = FileNotFoundError /\ read (files w) p = None).
Proof.
  intros class_name w p e H. unfold update_main_file in H.
  destruct (read_text (files w) p) as [content|e'] eqn:E.
  - destruct (search (constructor_call_pattern class_name) content);
      [|discriminate H].
    rewrite sub_call_template in H. discriminate H.
  - destruct (read_text_raises _ _ _ E) as [[-> _] | [[-> Hd] | [-> Hn]]].
    + discriminate H.
    + injection H as <-. now left.
    + injection H as <-. now right.
Qed.

Lemma update_main_files_raise : forall class_name l e,
  fold_left (fun acc p => w' <- acc ;; update_main_file class_name w' p)
            l (Raise e) = Raise e.
Proof.
  intros class_name. induction l as [|p l IH]; intro e; [reflexivity|apply IH].
Qed.

Lemma update_main_files_ok : forall class_name l w w',
  fold_left (fun acc p => w' <- acc ;; update_main_file class_name w' p)
            l (Ok w) = Ok w' ->
  rewritten (files w) (files w') /\
  (forall q, ~ In q l -> read (files w') q = read (files w) q).
Proof.
  intros class_name. induction l as [|p l IH]; intros w w' H.
  - injection H as <-. split; [apply rewritten_refl | reflexivity].
  - cbn [fold_left bind] in H.
    destruct (update_main_file class_name w p) as [w1|e] eqn:E;
      [|rewrite update_main_files_raise in H; discriminate H].
    destruct (update_main_file_ok _ _ _ _ E) as [R1 [F1 _]].
    destruct (IH _ _ H) as [R2 F2].
    split; [now apply rewritten_trans with (files w1)|].
    intros q Hq. rewrite F2 by (intro; apply Hq; now right).
    apply F1. intros ->. apply Hq. now left.
Qed.

Lemma update_main_files_fail : forall class_name l w e,
  fold_left (fun acc p => w' <- acc ;; update_main_file class_name w' p)
            l (Ok w) = Raise e ->
  (e = IsADirectoryError /\
   exists q, In q l /\ read (files w) q = Some Directory) \/
  (e = FileNotFoundError /\ exists q, In q l /\ read (files w) q = None).
Proof.
  intros class_name. induction l as [|p l IH]; intros w e H;
    [discriminate H|].
  cbn [fold_left bind] in H.
  destruct (update_main_file class_name w p) as [w1|e'] eqn:E.
  - destruct (update_main_file_ok _ _ _ _ E) as [R _].
    destruct (IH _ _ H) as [[-> [q [Hq Hd]]] | [-> [q [Hq Hn]]]].
    + left. split; [reflexivity|]. exists q. split; [now right|].
      now apply (rewritten_kind _ _ q (Some Directory) R) in Hd.
    + right. split; [reflexivity|]. exists q. split; [now right|].
      now apply (rewritten_kind _ _ q None R) in Hn.
  - rewrite update_main_files_raise in H. injection H as <-.
    destruct (update_main_file_raise _ _ _ _ E) as [[-> Hd] | [-> Hn]].
    + left. split; [reflexivity|]. exists p. split; [now left | exact Hd].
    + right. split; [reflexivity|]. exists p. split; [now left | exact Hn].
Qed.

Lemma main_candidates_exist : forall f cpp_path q,
  read f cpp_path <> None ->
  In q (main_candidates f cpp_path) -> read f q <> None.
Proof.
  intros f cpp_path q H Hq. unfold main_candidates in Hq.
  apply in_app_or in Hq. destruct Hq as [Hq | [<- | []]]; [|exact H].
  now apply rglob_exists in Hq.
Qed.

(** The candidates are gone through one by one; the update fails only at
    a directory, or for want of the implementation file. *)
Lemma update_main_constructors_returns : forall class_name cpp_path w,
  read (files w) cpp_path <> None ->
  all_files (files w) (main_candidates (files w) cpp_path) ->
  exists w', update_main_constructors class_name cpp_path w = Ok w'.
Proof.
  intros class_name cpp_path w Hex Hall. unfold update_main_constructors.
  destruct (fold_left _ _ _) as [w'|e] eqn:E; [now exists w'|].
  exfalso. apply update_main_files_fail in E.
  destruct E as [[_ [q [Hq Hd]]] | [_ [q [Hq Hn]]]].
  - now apply (Hall q Hq).
  - now apply (main_candidates_exist _ _ _ Hex Hq).
Qed.

(** A run that returns has met no directory. *)
Lemma update_main_files_all_files : forall class_name l w w',
  fold_left (fun acc p => w' <- acc ;; update_main_file class_name w' p)
            l (Ok w) = Ok w' ->
  all_files (files w) l.
Proof.
  intros class_name. induction l as [|p l IH]; intros w w' H q Hq;
    [destruct Hq|].
  cbn [fold_left bind] in H.
  destruct (update_main_file class_name w p) as [w1|e] eqn:E;
    [|rewrite update_main_files_raise in H; discriminate H].
  destruct Hq as [<- | Hq].
  - intro Hd. unfold update_main_file, read_text in E. rewrite Hd in E.
    discriminate E.
  - destruct (update_main_file_ok _ _ _ _ E) as [R _].
    intro Hd. apply (IH _ _ H q Hq).
    now apply (rewritten_kind _ _ q (Some Directory) R).
Qed.

Lemma update_main_constructors_ok : forall class_name cpp_path w w',
  update_main_constructors class_name cpp_path w = Ok w' ->
  rewritten (files w) (files w') /\
  forall q,
    q <> cpp_path ->
    ~ In q (rglob (files w) (parent (parent cpp_path)) (str "main*.cpp")) ->
    read (files w') q = read (files w) q.
Proof.
  intros class_name cpp_path w w' H. unfold update_main_constructors in H.
  apply update_main_files_ok in H. destruct H as [R F].
  split; [exact R|]. intros q Hq Hm. apply F. unfold main_candidates.
  intro Hin. apply in_app_or in Hin.
  destruct Hin as [Hin | [Heq | []]]; [now apply Hm | now apply Hq].
Qed.

(** X12.  When the implementation file exists, the call-site updater
    fails at a directory and nowhere else: it returns when neither the
    implementation file nor anything named [main*.cpp] below the package
    directory is a directory, and it ends in [IsADirectoryError] when one
    of them is.  When it returns, it has created and removed nothing, and
    has changed no file other than the implementation file and the files
    [main*.cpp] below the package directory. *)
Theorem call_site_update_frame :
  forall (class_name : text) (cpp_path : path) (w : world),
    (read (files w) cpp_path <> None ->
     all_files (files w) (main_candidates (files w) cpp_path) ->
     exists w', update_main_constructors class_name cpp_path w = Ok w') /\
    (read (files w) cpp_path <> None ->
     forall q,
       In q (main_candidates (files w) cpp_path) ->
       read (files w) q = Some Directory ->
       update_main_constructors class_name cpp_path w
       = Raise IsADirectoryError) /\
    (forall w',
       update_main_constructors class_name cpp_path w = Ok w' ->
       paths (files w') = paths (files w) /\
       forall q,
         q <> cpp_path ->
         ~ In q (rglob (files w) (parent (parent cpp_path)) (str "main*.cpp")) ->
         read (files w') q = read (files w) q).
Proof.
  intros class_name cpp_path w. split; [|split].
  - apply update_main_constructors_returns.
  - intros Hex q Hq Hd. unfold update_main_constructors.
    destruct (fold_left _ _ _) as [w'|e] eqn:E.
    + apply update_main_files_all_files in E. now contradiction (E q Hq).
    + apply update_main_files_fail in E.
      destruct E as [[-> _] | [_ [q' [Hq' Hn]]]]; [reflexivity|].
      now contradiction (main_candidates_exist _ _ _ Hex Hq').
  - intros w' H. apply update_main_constructors_ok in H.
    destruct H as [R F]. split; [now apply rewritten_paths | exact F].
Qed.

Lemma demo_candidates_files :
  all_files (files demo_package) (main_candidates (files demo_package) foo_cpp).
Proof.
  intros q Hq. vm_compute in Hq.
  destruct Hq as [<- | [<- | []]]; discriminate.
Qed.

Lemma call_site_update_frame_witness :
  exists w',
    update_main_constructors Foo foo_cpp demo_package = Ok w' /\
    paths (files w') = paths (files demo_package).
Proof.
  destruct (call_site_update_frame Foo foo_cpp demo_package)
    as [H1 [_ H3]].
  destruct H1 as [w' Hw'];
    [discriminate | exact demo_candidates_files|].
  exists w'. split; [exact Hw'|]. now apply H3.
Defined.

(* ================================================================== *)
(** * What the call-site updater makes of every candidate *)

Lemma no_make_shared_no_substitution : forall class_name t,
  contains make_shared t = false ->
  substitutions (constructor_call_pattern class_name) 0 t = 0.
Proof.
  intros class_name t H. unfold substitutions. cbn [limit_of].
  apply search_none_subs_made. apply search_from_none.
  - apply (no_match_gap class_name t [] None 0 H eq_refl).
  - now apply call_head_literal.
Qed.

Section Candidates.

Variable class_name : text.
Hypothesis class_name_word : forallb is_word class_name = true.

(** What is written for a file that was read holds no carriage return and
    no call without arguments. *)
Lemma updated_text : forall content,
  lacks carriage_return content = true ->
  let updated :=
    sub_with (constructor_call_pattern class_name) call_replacement 0 content in
  lacks carriage_return updated = true /\
  substitutions (constructor_call_pattern class_name) 0 updated = 0.
Proof.
  intros content Hcr updated.
  destruct (pieces_exist class_name class_name_word (length content) content
              (le_n _)) as [ps [Hok Hr]].
  assert (Hu : updated = expected class_name ps).
  { unfold updated, sub_with. cbn [limit_of]. rewrite <- Hr.
    now apply pieces_rewritten. }
  rewrite Hu. split.
  - apply expected_lacks. now rewrite Hr.
  - unfold substitutions. cbn [limit_of]. now apply expected_has_no_call.
Qed.

(** The loop over the candidates, file by file: a file without a call
    without arguments is not written; a candidate with such calls holds the
    updated text in the end, and is reported. *)
Lemma update_main_files_result : forall l w w',
  fold_left (fun acc p => w' <- acc ;; update_main_file class_name w' p)
            l (Ok w) = Ok w' ->
  (forall e, reported e w -> reported e w') /\
  forall p content,
    read_text (files w) p = Ok content ->
    (substitutions (constructor_call_pattern class_name) 0 content = 0 ->
     read (files w') p = read (files w) p /\
     (reported (CallUpdated p) w' -> reported (CallUpdated p) w)) /\
    (In p l ->
     0 < substitutions (constructor_call_pattern class_name) 0 content ->
     read (files w') p
     = Some (Utf8 (sub_with (constructor_call_pattern class_name)
                     call_replacement 0 content)) /\
     reported (CallUpdated p) w').
Proof.
  induction l as [|p0 l IH]; intros w w' H.
  - injection H as <-. split; [auto|]. intros p content Hread.
    split; [auto | intros []].
  - cbn [fold_left bind] in H.
    destruct (update_main_file class_name w p0) as [w1|e] eqn:E;
      [|rewrite update_main_files_raise in H; discriminate H].
    destruct (update_main_file_ok _ _ _ _ E) as [R1 [F1 [M1 N1]]].
    destruct (IH _ _ H) as [M2 IH2].
    split; [auto|]. intros p content Hread.
    destruct (path_eqb p p0) eqn:Ep.
    + apply path_eqb_eq in Ep. subst p0.
      destruct (update_main_file_cases class_name p w content Hread)
        as [H0 Hpos].
      split.
      * intro Hz. rewrite H0 in E by exact Hz. injection E as <-.
        now apply (IH2 p content Hread).
      * intros _ Hp. rewrite Hpos in E by exact Hp. injection E as <-.
        destruct (updated_text content (read_text_lacks _ _ _ Hread))
          as [Hcr Hz].
        destruct (IH2 p _ (read_text_written (files w) p _ Hcr)) as [Hk _].
        destruct (Hk Hz) as [Hk1 _]. split.
        -- rewrite Hk1. cbn [say put files]. apply read_write_same.
        -- apply M2. unfold reported. cbn [say put output].
           apply in_or_app. right. now left.
    + assert (Hne : p <> p0).
      { intros ->. rewrite (proj2 (path_eqb_eq p0 p0) eq_refl) in Ep.
        discriminate. }
      assert (Hread1 : read_text (files w1) p = Ok content).
      { unfold read_text in *. now rewrite (F1 p Hne). }
      destruct (IH2 p content Hread1) as [Hz Hp]. split.
      * intro H0. destruct (Hz H0) as [Hk1 Hk2]. split.
        -- now rewrite Hk1, (F1 p Hne).
        -- intro Hrep. apply Hk2 in Hrep. apply N1 in Hrep.
           destruct Hrep as [Hrep | Heq]; [exact Hrep|].
           injection Heq as ->. now contradiction Hne.
      * intros [<- | Hin] Hpos; [now contradiction Hne|].
        now apply Hp.
Qed.

End Candidates.

(** C7.  For every candidate file of the call-site updater: each call
    [std::make_shared<...ClassName>()] without arguments is rewritten to
    [std::make_shared<...ClassName>(rclcpp::NodeOptions{})], a call with the
    one default-constructed options argument; everything else, calls with
    arguments and calls of other classes included, is left as it was; and
    the file is written back, and reported, exactly when it holds a call
    without arguments.  Every text is made of such pieces, and the pattern
    matches exactly where a call without arguments begins.  The updater
    returns when the implementation file exists and no candidate is a
    directory. *)
Theorem call_sites_rewritten :
  forall (class_name : text) (cpp_path : path) (w : world),
    forallb is_word class_name = true ->
    (forall s,
       begins_call class_name s = true <-> call_without_arguments class_name s) /\
    (forall content,
       exists ps,
         pieces_ok class_name ps = true /\ render class_name ps = content) /\
    (read (files w) cpp_path <> None ->
     all_files (files w) (main_candidates (files w) cpp_path) ->
     exists w', update_main_constructors class_name cpp_path w = Ok w') /\
    (forall w',
       update_main_constructors class_name cpp_path w = Ok w' ->
       forall p content ps,
         In p (main_candidates (files w) cpp_path) ->
         read_text (files w) p = Ok content ->
         pieces_ok class_name ps = true ->
         render class_name ps = content ->
         substitutions (constructor_call_pattern class_name) 0 content
         = length (filter is_call0 ps) /\
         (existsb is_call0 ps = true ->
            read (files w') p = Some (Utf8 (expected class_name ps)) /\
            reported (CallUpdated p) w') /\
         (existsb is_call0 ps = false ->
            read (files w') p = read (files w) p /\
            (reported (CallUpdated p) w' -> reported (CallUpdated p) w))).
Proof.
  intros class_name cpp_path w Hc. split; [|split; [|split]].
  - intro s. now apply begins_call_spec.
  - intro content. now apply (pieces_exist class_name Hc (length content)).
  - apply update_main_constructors_returns.
  - intros w' H p content ps Hp Hread Hok Hr.
    unfold update_main_constructors in H.
    apply (update_main_files_result class_name Hc) in H.
    destruct H as [_ H]. destruct (H p content Hread) as [Hz Hpos].
    assert (Hn : substitutions (constructor_call_pattern class_name) 0 content
                 = length (filter is_call0 ps)).
    { unfold substitutions. cbn [limit_of]. rewrite <- Hr.
      now apply pieces_counted. }
    split; [exact Hn|]. split; intro Hex.
    + destruct (Hpos Hp) as [Hw Hrep].
      { rewrite Hn. now apply filter_call0_length. }
      split; [|exact Hrep]. rewrite Hw. unfold sub_with. cbn [limit_of].
      rewrite <- Hr. now rewrite pieces_rewritten.
    + apply Hz. rewrite Hn. now apply filter_call0_length.
Qed.

(** An entry point with a qualified call without arguments, a call with an
    argument and a call of another class. *)
Lemma call_sites_rewritten_witness :
  exists w',
    update_main_constructors Foo foo_cpp calls_package = Ok w' /\
    read (files w') main_cpp
    = Some (Utf8
              (cpp "auto a = std::make_shared<demo::Foo>(rclcpp::NodeOptions{});"
               ++ cpp " auto b = std::make_shared<Foo>(42);"
               ++ cpp " auto c = std::make_shared<Bar>();")).
Proof.
  destruct (call_sites_rewritten Foo foo_cpp calls_package eq_refl)
    as [_ [_ [H3 H4]]].
  destruct H3 as [w' Hw'].
  - discriminate.
  - intros q Hq. vm_compute in Hq.
    destruct Hq as [<- | [<- | []]]; discriminate.
  - exists w'. split; [exact Hw'|].
    destruct (H4 w' Hw' main_cpp (render Foo mixed_calls) mixed_calls)
      as [_ [H _]]; try reflexivity.
    + vm_compute. now left.
    + now destruct (H eq_refl).
Defined.

(* ================================================================== *)
(** * Where the options argument goes *)

(** The call-site updater sees the same candidates after the
    implementation file was written. *)
Lemma main_candidates_written : forall f p s t,
  entry f p = Some (Utf8 s) ->
  main_candidates (write f p t) p = main_candidates f p.
Proof.
  intros f p s t H. unfold main_candidates.
  now rewrite (rewritten_rglob _ _ _ _ (rewritten_write f p s t H)).
Qed.

(** After the constructor was rewritten: the rewriter returns unless the
    call-site updater meets a directory, and the implementation file then
    holds the text that was written, with its calls without arguments
    updated. *)
Lemma update_node_constructor_written :
  forall class_name file_path w content m updated,
    forallb is_word class_name = true ->
    read_text (files w) file_path = Ok content ->
    contains (str "NodeOptions") content = false ->
    search (constructor_regex class_name) content = Some m ->
    rewrite_constructor class_name content m = Ok updated ->
    let written := append_registration class_name content updated in
    (all_files (files w) (main_candidates (files w) file_path) ->
     exists w', update_node_constructor class_name file_path w = Ok w') /\
    (forall w',
       update_node_constructor class_name file_path w = Ok w' ->
       reported (Updated class_name file_path) w' /\
       forall ps,
         pieces_ok class_name ps = true ->
         render class_name ps = universal_newlines written ->
         read (files w') file_path
         = Some (Utf8 (if existsb is_call0 ps
                       then expected class_name ps else written))).
Proof.
  intros class_name file_path w content m updated Hc Hread Hno Hs Hr written.
  rewrite (update_node_constructor_found _ _ _ _ _ _ Hread Hno Hs Hr).
  fold written.
  destruct (read_text_ok _ _ _ Hread) as [stored [He _]].
  set (w0 := say (Updated class_name file_path) (put file_path written w)).
  assert (Hcand : main_candidates (files w0) file_path
                  = main_candidates (files w) file_path)
    by (now apply main_candidates_written with stored).
  assert (H0 : read (files w0) file_path = Some (Utf8 written))
    by apply read_write_same.
  split.
  - intro Hall. apply update_main_constructors_returns.
    + rewrite H0. discriminate.
    + rewrite Hcand.
      apply rewritten_all_files with (files w); [|exact Hall].
      now apply rewritten_write with stored.
  - intros w' H. unfold update_main_constructors in H.
    apply (update_main_files_result class_name Hc) in H.
    destruct H as [Hrep H]. split.
    + apply Hrep. unfold reported, w0. cbn [say put output].
      apply in_or_app. right. now left.
    + intros ps Hok Hrender.
      destruct (H file_path _ (read_text_stored _ _ _ H0)) as [Hz Hpos].
      assert (Hn : substitutions (constructor_call_pattern class_name) 0
                     (universal_newlines written)
                   = length (filter is_call0 ps)).
      { unfold substitutions. cbn [limit_of]. rewrite <- Hrender.
        now apply pieces_counted. }
      destruct (existsb is_call0 ps) eqn:Ex.
      * destruct Hpos as [Hw _].
        { unfold main_candidates. apply in_or_app. right. now left. }
        { rewrite Hn. now apply filter_call0_length. }
        rewrite Hw. unfold sub_with. cbn [limit_of]. rewrite <- Hrender.
        now rewrite pieces_rewritten.
      * destruct Hz as [Hw _].
        { rewrite Hn. now apply filter_call0_length. }
        now rewrite Hw.
Qed.

(** X13.  The options argument is put before the first closing parenthesis
    that follows [Node(].  For a constructor that is the first
    [ClassName::ClassName] of a file not yet converted, whose initializer
    list begins with [Node w (args )], [args] holding no closing
    parenthesis, and goes on to the brace of the body with text free of
    backslashes and of a further [Node], the rewritten list begins with
    [Node(args, options)] and goes on as before.  With no arguments this
    is [Node(, options)]; when the first closing parenthesis closes a
    nested call, the options end up inside that call.  The file holds this
    text in the end, with the registration and its own calls without
    arguments updated. *)
Theorem options_before_first_closing_parenthesis :
  forall (class_name pre w0 params w1 w2 w3 args q rest : text)
         (p : path) (w : world),
    let init := initializer_list w1 w2 (node_call w3 args ++ q) in
    let init' := initializer_list w1 w2 (node_call_rewritten args ++ q) in
    let content :=
      pre ++ signature class_name w0 params ++ init ++ str "{" ++ rest in
    let updated :=
      pre ++ new_signature class_name ++ init' ++ str "{" ++ rest in
    let written := append_registration class_name content updated in
    forallb is_word class_name = true ->
    forallb is_space w0 = true ->
    forallb is_space w1 = true ->
    forallb is_space w2 = true ->
    forallb is_space w3 = true ->
    ~ In close_paren params ->
    ~ In close_paren args ->
    ~ In open_brace (w3 ++ args ++ q) ->
    ~ In backslash (args ++ q) ->
    contains (str "Node") q = false ->
    read_text (files w) p = Ok content ->
    contains (str "NodeOptions") content = false ->
    find_text (class_name ++ scope ++ class_name) content = Some (length pre) ->
    exists m,
      search (constructor_regex class_name) content = Some m /\
      rewrite_constructor class_name content m = Ok updated /\
      update_node_constructor class_name p w
      = update_main_constructors class_name p
          (say (Updated class_name p) (put p written w)) /\
      forall w',
        update_node_constructor class_name p w = Ok w' ->
        forall ps,
          pieces_ok class_name ps = true ->
          render class_name ps = universal_newlines written ->
          read (files w') p
          = Some (Utf8 (if existsb is_call0 ps
                        then expected class_name ps else written)).
Proof.
  intros class_name pre w0 params w1 w2 w3 args q rest p w init init' content
    updated written Hc Hw0 Hw1 Hw2 Hw3 Hp Hargs Hbrace Hback Hq Hread Hno
    Hfirst.
  set (body := node_call w3 args ++ q).
  apply not_in_lacks in Hbrace, Hback.
  rewrite !lacks_app in Hbrace. rewrite lacks_app in Hback.
  apply andb_true_iff in Hbrace, Hback.
  destruct Hbrace as [Hb0 Hb1], Hback as [Hk1 Hk2].
  apply andb_true_iff in Hb1. destruct Hb1 as [Hb1 Hb2].
  assert (Hopens : opens_body body = true) by reflexivity.
  assert (Hbody : ~ In open_brace body).
  { apply lacks_not_in. unfold body, node_call. rewrite !lacks_app.
    now rewrite Hb0, Hb1, Hb2. }
  assert (Hinner : sub node_initializer_pattern 1 node_template 0 init
                   = Some init')
    by (now apply node_initializer_rewritten).
  assert (Hfound := constructor_found class_name pre w0 params w1 w2 body rest
                      Hw0 Hw1 Hw2 Hp Hopens Hbody Hfirst).
  assert (Hrew : rewrite_constructor class_name content
                   (shaped_match class_name pre w0 params w1 w2 body)
                 = Ok updated).
  { apply (constructor_rewritten class_name pre w0 params w1 w2 body rest
             Hw0 Hw1 Hw2 Hp Hopens Hbody Hfirst init' Hinner).
    apply lacks_not_in. unfold new_signature, scope, init', initializer_list,
      node_call_rewritten. rewrite !lacks_app.
    rewrite (class_lacks is_word backslash class_name eq_refl Hc),
      (class_lacks is_space backslash w1 eq_refl Hw1),
      (class_lacks is_space backslash w2 eq_refl Hw2), Hk1, Hk2.
    reflexivity. }
  exists (shaped_match class_name pre w0 params w1 w2 body).
  split; [exact Hfound|]. split; [exact Hrew|]. split.
  - now apply update_node_constructor_found
      with (m := shaped_match class_name pre w0 params w1 w2 body).
  - intros w' Hw'.
    now apply (update_node_constructor_written class_name p w content _ updated
                 Hc Hread Hno Hfound Hrew).
Qed.

Lemma options_before_first_closing_parenthesis_witness :
  exists m,
    search (constructor_regex Foo) nested_call_source = Some m /\
    rewrite_constructor Foo nested_call_source m
    = Ok (cpp "Foo::Foo(const rclcpp::NodeOptions & options)"
          ++ cpp " : Node(make_name(`foo`, options)) {}").
Proof.
  destruct (options_before_first_closing_parenthesis Foo [] [] []
              (str " ") (str " ") [] (cpp "make_name(`foo`") (str ") ")
              (str "}") foo_cpp (package [(foo_cpp, nested_call_source)])
              eq_refl eq_refl eq_refl eq_refl eq_refl
              (lacks_not_in close_paren [] eq_refl)
              (lacks_not_in close_paren (cpp "make_name(`foo`") eq_refl)
              (lacks_not_in open_brace
                 ([] ++ cpp "make_name(`foo`" ++ str ") ") eq_refl)
              (lacks_not_in backslash
                 (cpp "make_name(`foo`" ++ str ") ") eq_refl)
              eq_refl eq_refl eq_refl eq_refl)
    as [m [Hs [Hr _]]].
  exists m. split; assumption.
Defined.

(* ================================================================== *)
(** * Backslashes in the initializer list

    The rewritten constructor is handed to [sub] as the replacement
    template, so that a backslash of the C++ text is read as the beginning
    of an escape of the template language. *)

Lemma parse_template_plain_fuel : forall t fuel n,
  ~ In backslash t -> length t <= fuel ->
  parse_template fuel n t = Some (map TChr t).
Proof.
  induction t as [|c t IH]; intros fuel n H Hf.
  - destruct fuel; reflexivity.
  - destruct fuel as [|fuel]; [simpl in Hf; lia|].
    cbn [parse_template].
    rewrite code_backslash by (intro E; apply H; now left).
    cbn [negb]. rewrite IH; [reflexivity | | simpl in Hf; lia].
    intro E. apply H. now right.
Qed.

Lemma escape_facts : forall e x,
  escape_of e = Some x ->
  (code e =? 103)%N = false /\ (code e =? 48)%N = false /\
  digit_val e = None.
Proof.
  intros [b0 b1 b2 b3 b4 b5 b6 b7] x.
  destruct b0, b1, b2, b3, b4, b5, b6, b7; vm_compute; intro H;
    try discriminate H; repeat split.
Qed.

Lemma letter_facts : forall e,
  is_ascii_letter e = true ->
  (code e =? 48)%N = false /\ digit_val e = None.
Proof.
  intros [b0 b1 b2 b3 b4 b5 b6 b7].
  destruct b0, b1, b2, b3, b4, b5, b6, b7; vm_compute; intro H;
    try discriminate H; repeat split.
Qed.

Lemma parse_template_escape_step : forall fuel n e x t,
  escape_of e = Some x ->
  parse_template (S fuel) n (backslash :: e :: t)
  = match parse_template fuel n t with
    | Some l => Some (TChr x :: l)
    | None => None
    end.
Proof.
  intros fuel n e x t He. destruct (escape_facts e x He) as [Hg [H0 Hd]].
  cbn [parse_template].
  change (code backslash =? 92)%N with true. cbn [negb].
  now rewrite Hg, H0, Hd, He.
Qed.

(** An escape of the template language is replaced by the character it
    stands for. *)
Lemma parse_template_escape : forall a e x b n,
  ~ In backslash a -> escape_of e = Some x -> ~ In backslash b ->
  parse_template (length (a ++ backslash :: e :: b)) n
    (a ++ backslash :: e :: b)
  = Some (map TChr (a ++ x :: b)).
Proof.
  induction a as [|c a IH]; intros e x b n Ha He Hb.
  - cbn [app length]. rewrite (parse_template_escape_step _ n e x b He).
    now rewrite parse_template_plain_fuel by (exact Hb || simpl; lia).
  - cbn [app length parse_template].
    rewrite code_backslash by (intro E; apply Ha; now left).
    cbn [negb]. rewrite (IH e x b n); [reflexivity | | exact He | exact Hb].
    intro E. apply Ha. now right.
Qed.

Lemma parse_template_bad_escape_step : forall fuel n e t,
  is_ascii_letter e = true -> escape_of e = None ->
  (code e =? 103)%N = false ->
  parse_template (S fuel) n (backslash :: e :: t) = None.
Proof.
  intros fuel n e t Hl He Hg. destruct (letter_facts e Hl) as [H0 Hd].
  cbn [parse_template].
  change (code backslash =? 92)%N with true. cbn [negb].
  now rewrite Hg, H0, Hd, He, Hl.
Qed.

(** A backslash before a letter that names no escape is rejected. *)
Lemma parse_template_bad_escape : forall a e b n,
  ~ In backslash a ->
  is_ascii_letter e = true -> escape_of e = None ->
  (code e =? 103)%N = false ->
  parse_template (length (a ++ backslash :: e :: b)) n
    (a ++ backslash :: e :: b)
  = None.
Proof.
  induction a as [|c a IH]; intros e b n Ha Hl He Hg.
  - cbn [app length]. now apply parse_template_bad_escape_step.
  - cbn [app length parse_template].
    rewrite code_backslash by (intro E; apply Ha; now left).
    cbn [negb].
    rewrite (IH e b n); [reflexivity | | exact Hl | exact He | exact Hg].
    intro E. apply Ha. now right.
Qed.

Section ConstructorTemplate.

Variables class_name pre w0 params w1 w2 body rest : text.

Hypothesis space_w0 : forallb is_space w0 = true.
Hypothesis space_w1 : forallb is_space w1 = true.
Hypothesis space_w2 : forallb is_space w2 = true.
Hypothesis params_open : ~ In close_paren params.
Hypothesis body_opens : opens_body body = true.
Hypothesis body_open : ~ In open_brace body.

Hypothesis first_occurrence :
  find_text (class_name ++ scope ++ class_name)
    (shaped_content class_name pre w0 params w1 w2 body rest)
  = Some (length pre).

(** The constructor is replaced by what the template expands to. *)
Lemma constructor_rewritten_to : forall init' expansion,
  sub node_initializer_pattern 1 node_template 0 (initializer_list w1 w2 body)
    = Some init' ->
  parse_template (length (new_signature class_name ++ init')) 2
    (new_signature class_name ++ init')
    = Some (map TChr expansion) ->
  rewrite_constructor class_name
    (shaped_content class_name pre w0 params w1 w2 body rest)
    (shaped_match class_name pre w0 params w1 w2 body)
  = Ok (pre ++ expansion ++ str "{" ++ rest).
Proof.
  intros init' expansion Hinner Hparse. unfold rewrite_constructor.
  change (group_text 2 (shaped_match class_name pre w0 params w1 w2 body))
    with (initializer_list w1 w2 body).
  rewrite Hinner. cbn [of_template bind].
  unfold sub. rewrite Hparse.
  cbn [of_template]. f_equal.
  unfold sub_with, shaped_content. cbn [limit_of].
  rewrite sub_scan_gap
    by (apply no_constructor_before; exact first_occurrence).
  f_equal. cbn [Nat.add]. rewrite app_assoc.
  rewrite (sub_scan_hit (constructor_regex class_name) _ (Some 1)
             (signature class_name w0 params ++ initializer_list w1 w2 body)
             _ (str "{" ++ rest) (length pre)
             (shaped_match class_name pre w0 params w1 w2 body)
             ltac:(discriminate)
             (signature_not_nil class_name w1 w2 body w0 params)
             (shaped_match_here class_name pre w0 params w1 w2 body rest
                space_w0 space_w1 space_w2 params_open body_opens body_open _)
             eq_refl).
  cbn [option_map pred]. now rewrite sub_scan_done, expand_plain.
Qed.

(** A template that is rejected ends the rewrite in [re.error]. *)
Lemma constructor_template_rejected : forall init',
  sub node_initializer_pattern 1 node_template 0 (initializer_list w1 w2 body)
    = Some init' ->
  parse_template (length (new_signature class_name ++ init')) 2
    (new_signature class_name ++ init') = None ->
  rewrite_constructor class_name
    (shaped_content class_name pre w0 params w1 w2 body rest)
    (shaped_match class_name pre w0 params w1 w2 body)
  = Raise ReError.
Proof.
  intros init' Hinner Hparse. unfold rewrite_constructor.
  change (group_text 2 (shaped_match class_name pre w0 params w1 w2 body))
    with (initializer_list w1 w2 body).
  rewrite Hinner. cbn [of_template bind].
  unfold sub. now rewrite Hparse.
Qed.

End ConstructorTemplate.

Lemma update_node_constructor_raises :
  forall class_name file_path w content m e,
    read_text (files w) file_path = Ok content ->
    contains (str "NodeOptions") content = false ->
    search (constructor_regex class_name) content = Some m ->
    rewrite_constructor class_name content m = Raise e ->
    update_node_constructor class_name file_path w = Raise e.
Proof.
  intros class_name file_path w content m e Hread Hno Hs Hr.
  unfold update_node_constructor. rewrite Hread.
  unfold already_converted. rewrite Hno, andb_false_r, Hs, Hr. reflexivity.
Qed.

Lemma not_in_app : forall (c : ascii) (a b : text),
  ~ In c a -> ~ In c b -> ~ In c (a ++ b).
Proof.
  intros c a b Ha Hb H. apply in_app_or in H. tauto.
Qed.

(** The template made of the new signature and an initializer list whose
    first backslash comes after the call of [Node]: the text before that
    backslash holds none. *)
Lemma template_before_backslash : forall class_name w1 w2 args lead,
  forallb is_word class_name = true ->
  forallb is_space w1 = true ->
  forallb is_space w2 = true ->
  ~ In backslash (args ++ lead) ->
  ~ In backslash
      (new_signature class_name
       ++ w1 ++ str ":" ++ w2 ++ node_call_rewritten args ++ lead).
Proof.
  intros class_name w1 w2 args lead Hc Hw1 Hw2 H.
  apply not_in_lacks in H. rewrite lacks_app in H.
  apply andb_true_iff in H. destruct H as [H1 H2].
  apply lacks_not_in. unfold new_signature, scope, node_call_rewritten.
  rewrite !lacks_app.
  rewrite (class_lacks is_word backslash class_name eq_refl Hc),
    (class_lacks is_space backslash w1 eq_refl Hw1),
    (class_lacks is_space backslash w2 eq_refl Hw2), H1, H2.
  reflexivity.
Qed.

Lemma template_split : forall class_name w1 w2 args lead e tail,
  new_signature class_name
  ++ initializer_list w1 w2
       (node_call_rewritten args ++ lead ++ backslash :: e :: tail)
  = (new_signature class_name
     ++ w1 ++ str ":" ++ w2 ++ node_call_rewritten args ++ lead)
    ++ backslash :: e :: tail.
Proof.
  intros. unfold initializer_list. now rewrite <- !app_assoc.
Qed.

(** C6.  In a file that holds the constructor
    [Foo::Foo(int x) : Node("foo_node")] as its first [Foo::Foo], is not yet
    converted, and goes on to the opening brace of the body with text free
    of further [Node] calls and of backslashes, the rewriter finds the
    constructor and rewrites it to
    [Foo::Foo(const rclcpp::NodeOptions & options) : Node("foo_node", options)]:
    one parameter, the options, and two arguments for [Node], the original
    one and then the options.  All the rest of the text is kept.  The
    rewriter returns when nothing named [main*.cpp] below the package
    directory is a directory, and the file holds this text in the end,
    with the registration and with its own calls without arguments
    updated. *)
Theorem node_constructor_rewritten :
  forall (pre q rest : text) (p : path) (w : world),
    let content :=
      pre ++ cpp "Foo::Foo(int x) : Node(`foo_node`)" ++ q ++ str "{" ++ rest in
    let updated :=
      pre ++ cpp "Foo::Foo(const rclcpp::NodeOptions & options)"
          ++ cpp " : Node(`foo_node`, options)" ++ q ++ str "{" ++ rest in
    let written := append_registration Foo content updated in
    read_text (files w) p = Ok content ->
    contains (str "NodeOptions") content = false ->
    find_text (str "Foo::Foo") content = Some (length pre) ->
    ~ In open_brace q ->
    ~ In backslash q ->
    contains (str "Node") q = false ->
    (exists m,
       search (constructor_regex Foo) content = Some m /\
       group_text 1 m = cpp "Foo::Foo(int x)" /\
       group_text 2 m = cpp " : Node(`foo_node`)" ++ q /\
       rewrite_constructor Foo content m = Ok updated) /\
    (all_files (files w) (main_candidates (files w) p) ->
     exists w', update_node_constructor Foo p w = Ok w') /\
    (forall w',
       update_node_constructor Foo p w = Ok w' ->
       reported (Updated Foo p) w' /\
       forall ps,
         pieces_ok Foo ps = true ->
         render Foo ps = universal_newlines written ->
         read (files w') p
         = Some (Utf8 (if existsb is_call0 ps
                       then expected Foo ps else written))).
Proof.
  intros pre q rest p w content updated written Hread Hno Hfirst Hq1 Hq2 Hq3.
  set (body := node_call [] (cpp "`foo_node`") ++ q).
  assert (Hc : content
               = shaped_content Foo pre [] (str "int x") (str " ") (str " ")
                   body rest) by reflexivity.
  assert (Hbody : ~ In open_brace body).
  { apply lacks_not_in. unfold body. rewrite lacks_app.
    now rewrite (not_in_lacks _ _ Hq1). }
  assert (Hp : ~ In close_paren (str "int x")) by (now apply lacks_not_in).
  assert (Hfound := constructor_found Foo pre [] (str "int x") (str " ")
                      (str " ") body rest eq_refl eq_refl eq_refl Hp eq_refl
                      Hbody Hfirst).
  assert (Hrew : rewrite_constructor Foo content
                   (shaped_match Foo pre [] (str "int x") (str " ") (str " ") body)
                 = Ok updated).
  { rewrite Hc.
    rewrite (constructor_rewritten Foo pre [] (str "int x") (str " ") (str " ")
               body rest eq_refl eq_refl eq_refl Hp eq_refl Hbody Hfirst
               (initializer_list (str " ") (str " ")
                  (node_call_rewritten (cpp "`foo_node`") ++ q))).
    - reflexivity.
    - apply node_initializer_rewritten; try reflexivity; try assumption.
      now apply lacks_not_in.
    - apply lacks_not_in. unfold initializer_list. rewrite !lacks_app.
      now rewrite (not_in_lacks _ _ Hq2). }
  split.
  - exists (shaped_match Foo pre [] (str "int x") (str " ") (str " ") body).
    split; [exact Hfound|]. split; [reflexivity|]. split; [reflexivity|].
    exact Hrew.
  - exact (update_node_constructor_written Foo p w content _ updated
             eq_refl Hread Hno Hfound Hrew).
Qed.

(** The constructor alone in its file. *)
Lemma node_constructor_rewritten_witness :
  exists w',
    update_node_constructor Foo foo_cpp (package [(foo_cpp, direct_source)])
    = Ok w' /\
    read (files w') foo_cpp
    = Some (Utf8 (cpp "Foo::Foo(const rclcpp::NodeOptions & options)"
                  ++ cpp " : Node(`foo_node`, options) {}"
                  ++ registration_block (register_macro [] Foo))).
Proof.
  destruct (node_constructor_rewritten [] (str " ") (str "}") foo_cpp
              (package [(foo_cpp, direct_source)])
              eq_refl eq_refl eq_refl
              (lacks_not_in open_brace (str " ") eq_refl)
              (lacks_not_in backslash (str " ") eq_refl)
              eq_refl)
    as [_ [H1 H2]].
  destruct H1 as [w' Hw'].
  { intros x Hx. vm_compute in Hx. destruct Hx as [<- | []]. discriminate. }
  exists w'. split; [exact Hw'|].
  destruct (H2 w' Hw') as [_ H3].
  exact (H3 [Gap (cpp "Foo::Foo(const rclcpp::NodeOptions & options)"
                  ++ cpp " : Node(`foo_node`, options) {}"
                  ++ registration_block (register_macro [] Foo))]
           eq_refl eq_refl).
Defined.

(** In a file in which another constructor of the class comes first, that
    one is rewritten and the constructor
    [Foo::Foo(int x) : Node("foo_node")] is written back as it was. *)
Lemma node_constructor_behind_another_kept :
  exists w',
    update_node_constructor Foo foo_cpp
      (package [(foo_cpp, delegating_first_source)]) = Ok w' /\
    read (files w') foo_cpp
    = Some (Utf8 (unlines
                    ["Foo::Foo(const rclcpp::NodeOptions & options) : Foo(0) {}";
                     "Foo::Foo(int x) : Node(`foo_node`) {}"]%string
                  ++ registration_block (register_macro [] Foo))).
Proof. eexists. split; vm_compute; reflexivity. Qed.

(** C10.  For a constructor whose initializer list calls the base as
    [LifecycleNode(<args>)], qualified or not, in a file where it is the
    first [ClassName::ClassName], that is not yet converted, and whose
    initializer list holds no call of [Node] proper and no backslash, the
    rewriter replaces the signature by the one with the single options
    parameter and writes the initializer list back as it was: nothing is
    forwarded to [LifecycleNode].  The rewriter returns when nothing named
    [main*.cpp] below the package directory is a directory, and the file
    holds this text in the end, with the registration and with its own
    calls without arguments updated. *)
Theorem lifecycle_initializer_not_forwarded :
  forall (class_name pre w0 params w1 w2 lead args q rest : text)
         (p : path) (w : world),
    let init := initializer_list w1 w2 (lead ++ lifecycle_call args ++ q) in
    let content :=
      pre ++ signature class_name w0 params ++ init ++ str "{" ++ rest in
    let updated := pre ++ new_signature class_name ++ init ++ str "{" ++ rest in
    let written := append_registration class_name content updated in
    forallb is_word class_name = true ->
    forallb is_space w0 = true ->
    forallb is_space w1 = true ->
    forallb is_space w2 = true ->
    ~ In close_paren params ->
    opens_body (lead ++ str "L") = true ->
    ~ In open_brace (lead ++ args ++ q) ->
    ~ In backslash (lead ++ args ++ q) ->
    contains (str "Node") lead = false ->
    contains (str "Node") (args ++ str ")" ++ q) = false ->
    read_text (files w) p = Ok content ->
    contains (str "NodeOptions") content = false ->
    find_text (class_name ++ scope ++ class_name) content = Some (length pre) ->
    (exists m,
       search (constructor_regex class_name) content = Some m /\
       group_text 2 m = init /\
       sub node_initializer_pattern 1 node_template 0 init = Some init /\
       rewrite_constructor class_name content m = Ok updated) /\
    (all_files (files w) (main_candidates (files w) p) ->
     exists w', update_node_constructor class_name p w = Ok w') /\
    (forall w',
       update_node_constructor class_name p w = Ok w' ->
       reported (Updated class_name p) w' /\
       forall ps,
         pieces_ok class_name ps = true ->
         render class_name ps = universal_newlines written ->
         read (files w') p
         = Some (Utf8 (if existsb is_call0 ps
                       then expected class_name ps else written))).
Proof.
  intros class_name pre w0 params w1 w2 lead args q rest p w init content
    updated written Hc Hw0 Hw1 Hw2 Hp Hlead Hbrace Hback Hnl Hnq Hread Hno
    Hfirst.
  set (body := lead ++ lifecycle_call args ++ q).
  apply not_in_lacks in Hbrace, Hback. rewrite !lacks_app in Hbrace, Hback.
  apply andb_true_iff in Hbrace, Hback.
  destruct Hbrace as [Hb1 Hb2], Hback as [Hk1 Hk2].
  apply andb_true_iff in Hb2, Hk2.
  destruct Hb2 as [Hb2 Hb3], Hk2 as [Hk2 Hk3].
  assert (Hopens : opens_body body = true).
  { unfold body. destruct lead; [reflexivity | exact Hlead]. }
  assert (Hbody : ~ In open_brace body).
  { apply lacks_not_in. unfold body, lifecycle_call. rewrite !lacks_app.
    now rewrite Hb1, Hb2, Hb3. }
  assert (Hinner : sub node_initializer_pattern 1 node_template 0 init = Some init)
    by (now apply lifecycle_initializer_kept).
  assert (Hfound := constructor_found class_name pre w0 params w1 w2 body rest
                      Hw0 Hw1 Hw2 Hp Hopens Hbody Hfirst).
  assert (Hrew : rewrite_constructor class_name content
                   (shaped_match class_name pre w0 params w1 w2 body)
                 = Ok updated).
  { apply (constructor_rewritten class_name pre w0 params w1 w2 body rest
             Hw0 Hw1 Hw2 Hp Hopens Hbody Hfirst init Hinner).
    apply lacks_not_in. unfold new_signature, scope, init, initializer_list,
      lifecycle_call. rewrite !lacks_app.
    rewrite (class_lacks is_word backslash class_name eq_refl Hc),
      (class_lacks is_space backslash w1 eq_refl Hw1),
      (class_lacks is_space backslash w2 eq_refl Hw2), Hk1, Hk2, Hk3.
    reflexivity. }
  split.
  - exists (shaped_match class_name pre w0 params w1 w2 body).
    split; [exact Hfound|]. split; [reflexivity|]. split; [exact Hinner|].
    exact Hrew.
  - exact (update_node_constructor_written class_name p w content _ updated
             Hc Hread Hno Hfound Hrew).
Qed.

(** A lifecycle node with a qualified base class and a member
    initializer. *)
Lemma lifecycle_initializer_not_forwarded_witness :
  exists w',
    update_node_constructor Foo foo_cpp (package [(foo_cpp, lifecycle_source)])
    = Ok w' /\
    read (files w') foo_cpp
    = Some (Utf8 (cpp "Foo::Foo(const rclcpp::NodeOptions & options)"
                  ++ cpp " : rclcpp_lifecycle::LifecycleNode(`foo`), x_(x) {}"
                  ++ registration_block (register_macro [] Foo))).
Proof.
  destruct (lifecycle_initializer_not_forwarded Foo [] [] (str "int x")
              (str " ") (str " ") (str "rclcpp_lifecycle::") (cpp "`foo`")
              (str ", x_(x) ") (str "}") foo_cpp
              (package [(foo_cpp, lifecycle_source)])
              eq_refl eq_refl eq_refl eq_refl
              (lacks_not_in close_paren (str "int x") eq_refl)
              eq_refl
              (lacks_not_in open_brace
                 (str "rclcpp_lifecycle::" ++ cpp "`foo`" ++ str ", x_(x) ")
                 eq_refl)
              (lacks_not_in backslash
                 (str "rclcpp_lifecycle::" ++ cpp "`foo`" ++ str ", x_(x) ")
                 eq_refl)
              eq_refl eq_refl eq_refl eq_refl eq_refl)
    as [_ [H1 H2]].
  destruct H1 as [w' Hw'].
  { intros x Hx. vm_compute in Hx. destruct Hx as [<- | []]. discriminate. }
  exists w'. split; [exact Hw'|].
  destruct (H2 w' Hw') as [_ H3].
  exact (H3 [Gap (cpp "Foo::Foo(const rclcpp::NodeOptions & options)"
                  ++ cpp " : rclcpp_lifecycle::LifecycleNode(`foo`), x_(x) {}"
                  ++ registration_block (register_macro [] Foo))]
           eq_refl eq_refl).
Defined.

(** Where the arguments of [LifecycleNode] hold an escaped backslash, the
    initializer list is not written back as it was: of the two
    backslashes one is left. *)
Lemma lifecycle_arguments_unescaped :
  exists w',
    update_node_constructor Foo foo_cpp
      (package [(foo_cpp, escaped_lifecycle_source)]) = Ok w' /\
    read (files w') foo_cpp
    = Some (Utf8 (cpp "Foo::Foo(const rclcpp::NodeOptions & options)"
                  ++ cpp " : LifecycleNode(`a\b`) {}"
                  ++ registration_block (register_macro [] Foo))).
Proof. eexists. split; vm_compute; reflexivity. Qed.

(** X14.  An escape of the template language in the initializer list is
    replaced by the character it stands for: where the C++ text has a
    backslash followed by [n], the rewritten file has a line break, and
    where it has two backslashes, the rewritten file has one.  (The
    backslash is the first of the initializer list and stands after the
    call of [Node].) *)
Theorem escapes_in_initializers_are_interpreted :
  forall (class_name pre w0 params w1 w2 w3 args lead tail rest : text)
         (e x : ascii) (p : path) (w : world),
    let init :=
      initializer_list w1 w2
        (node_call w3 args ++ lead ++ backslash :: e :: tail) in
    let init' :=
      initializer_list w1 w2 (node_call_rewritten args ++ lead ++ x :: tail) in
    let content :=
      pre ++ signature class_name w0 params ++ init ++ str "{" ++ rest in
    let updated :=
      pre ++ new_signature class_name ++ init' ++ str "{" ++ rest in
    forallb is_word class_name = true ->
    forallb is_space w0 = true ->
    forallb is_space w1 = true ->
    forallb is_space w2 = true ->
    forallb is_space w3 = true ->
    ~ In close_paren params ->
    ~ In close_paren args ->
    ~ In open_brace (w3 ++ args ++ lead ++ e :: tail) ->
    ~ In backslash (args ++ lead) ->
    ~ In backslash tail ->
    escape_of e = Some x ->
    contains (str "Node") (lead ++ backslash :: e :: tail) = false ->
    read_text (files w) p = Ok content ->
    contains (str "NodeOptions") content = false ->
    find_text (class_name ++ scope ++ class_name) content = Some (length pre) ->
    exists m,
      search (constructor_regex class_name) content = Some m /\
      rewrite_constructor class_name content m = Ok updated /\
      update_node_constructor class_name p w
      = update_main_constructors class_name p
          (say (Updated class_name p)
             (put p (append_registration class_name content updated) w)).
Proof.
  intros class_name pre w0 params w1 w2 w3 args lead tail rest e x p w
    init init' content updated Hc Hw0 Hw1 Hw2 Hw3 Hp Hargs Hbrace Hback Htail
    He Hq Hread Hno Hfirst.
  set (body := node_call w3 args ++ lead ++ backslash :: e :: tail).
  apply not_in_lacks in Hbrace. rewrite !lacks_app in Hbrace.
  apply andb_true_iff in Hbrace. destruct Hbrace as [Hb0 Hb1].
  apply andb_true_iff in Hb1. destruct Hb1 as [Hb1 Hb2].
  apply andb_true_iff in Hb2. destruct Hb2 as [Hb2 Hb3].
  assert (Hopens : opens_body body = true) by reflexivity.
  assert (Hbody : ~ In open_brace body).
  { apply lacks_not_in. unfold body, node_call. rewrite !lacks_app.
    rewrite Hb0, Hb1, Hb2.
    change (backslash :: e :: tail) with ([backslash] ++ e :: tail).
    rewrite lacks_app. now rewrite Hb3. }
  assert (Hinner : sub node_initializer_pattern 1 node_template 0 init
                   = Some (initializer_list w1 w2
                             (node_call_rewritten args
                              ++ lead ++ backslash :: e :: tail)))
    by (now apply node_initializer_rewritten).
  assert (Hfound := constructor_found class_name pre w0 params w1 w2 body rest
                      Hw0 Hw1 Hw2 Hp Hopens Hbody Hfirst).
  assert (Hrew : rewrite_constructor class_name content
                   (shaped_match class_name pre w0 params w1 w2 body)
                 = Ok updated).
  { replace updated
      with (pre ++ (new_signature class_name ++ init') ++ str "{" ++ rest)
      by (unfold updated; now rewrite <- !app_assoc).
    apply (constructor_rewritten_to class_name pre w0 params w1 w2 body rest
             Hw0 Hw1 Hw2 Hp Hopens Hbody Hfirst _ _ Hinner).
    rewrite template_split.
    rewrite parse_template_escape with (x := x);
      [ | now apply template_before_backslash | exact He | exact Htail].
    do 2 f_equal. unfold init', initializer_list.
    now rewrite <- !app_assoc. }
  exists (shaped_match class_name pre w0 params w1 w2 body).
  split; [exact Hfound|]. split; [exact Hrew|].
  now apply update_node_constructor_found
    with (m := shaped_match class_name pre w0 params w1 w2 body).
Qed.

(** X15.  A backslash of the initializer list that is followed by a letter
    naming no escape of the template language (as in the C++ string
    ["\d+"]) makes the rewrite fail: the function ends in [re.error].  (The
    backslash is the first of the initializer list and stands after the
    call of [Node].) *)
Theorem bad_escape_in_initializers_raises :
  forall (class_name pre w0 params w1 w2 w3 args lead tail rest : text)
         (e : ascii) (p : path) (w : world),
    let init :=
      initializer_list w1 w2
        (node_call w3 args ++ lead ++ backslash :: e :: tail) in
    let content :=
      pre ++ signature class_name w0 params ++ init ++ str "{" ++ rest in
    forallb is_word class_name = true ->
    forallb is_space w0 = true ->
    forallb is_space w1 = true ->
    forallb is_space w2 = true ->
    forallb is_space w3 = true ->
    ~ In close_paren params ->
    ~ In close_paren args ->
    ~ In open_brace (w3 ++ args ++ lead ++ e :: tail) ->
    ~ In backslash (args ++ lead) ->
    is_ascii_letter e = true ->
    escape_of e = None ->
    e <> "g"%char ->
    contains (str "Node") (lead ++ backslash :: e :: tail) = false ->
    read_text (files w) p = Ok content ->
    contains (str "NodeOptions") content = false ->
    find_text (class_name ++ scope ++ class_name) content = Some (length pre) ->
    update_node_constructor class_name p w = Raise ReError.
Proof.
  intros class_name pre w0 params w1 w2 w3 args lead tail rest e p w
    init content Hc Hw0 Hw1 Hw2 Hw3 Hp Hargs Hbrace Hback Hl He Hg
    Hq Hread Hno Hfirst.
  set (body := node_call w3 args ++ lead ++ backslash :: e :: tail).
  apply not_in_lacks in Hbrace. rewrite !lacks_app in Hbrace.
  apply andb_true_iff in Hbrace. destruct Hbrace as [Hb0 Hb1].
  apply andb_true_iff in Hb1. destruct Hb1 as [Hb1 Hb2].
  apply andb_true_iff in Hb2. destruct Hb2 as [Hb2 Hb3].
  assert (Hopens : opens_body body = true) by reflexivity.
  assert (Hbody : ~ In open_brace body).
  { apply lacks_not_in. unfold body, node_call. rewrite !lacks_app.
    rewrite Hb0, Hb1, Hb2.
    change (backslash :: e :: tail) with ([backslash] ++ e :: tail).
    rewrite lacks_app. now rewrite Hb3. }
  assert (Hinner : sub node_initializer_pattern 1 node_template 0 init
                   = Some (initializer_list w1 w2
                             (node_call_rewritten args
                              ++ lead ++ backslash :: e :: tail)))
    by (now apply node_initializer_rewritten).
  assert (Hfound := constructor_found class_name pre w0 params w1 w2 body rest
                      Hw0 Hw1 Hw2 Hp Hopens Hbody Hfirst).
  apply update_node_constructor_raises
    with (content := content)
         (m := shaped_match class_name pre w0 params w1 w2 body);
    try assumption.
  apply (constructor_template_rejected class_name pre w0 params w1 w2 body rest
           _ Hinner).
  rewrite template_split.
  apply parse_template_bad_escape;
    [now apply template_before_backslash | exact Hl | exact He |].
  apply N.eqb_neq. intro E. apply Hg.
  apply (f_equal ascii_of_N) in E. unfold code in E.
  now rewrite ascii_N_embedding in E.
Qed.

Lemma escapes_in_initializers_are_interpreted_witness :
  exists m,
    search (constructor_regex Foo) line_break_source = Some m /\
    rewrite_constructor Foo line_break_source m
    = Ok (cpp "Foo::Foo(const rclcpp::NodeOptions & options)"
          ++ cpp " : Node(`foo`, options), sep_(`" ++ [newline]
          ++ cpp "`) {}").
Proof.
  destruct (escapes_in_initializers_are_interpreted Foo [] [] []
              (str " ") (str " ") [] (cpp "`foo`") (cpp ", sep_(`")
              (cpp "`) ") (str "}") "n"%char newline foo_cpp
              (package [(foo_cpp, line_break_source)])
              eq_refl eq_refl eq_refl eq_refl eq_refl
              (lacks_not_in close_paren [] eq_refl)
              (lacks_not_in close_paren (cpp "`foo`") eq_refl)
              (lacks_not_in open_brace
                 ([] ++ cpp "`foo`" ++ cpp ", sep_(`" ++ "n"%char :: cpp "`) ")
                 eq_refl)
              (lacks_not_in backslash (cpp "`foo`" ++ cpp ", sep_(`") eq_refl)
              (lacks_not_in backslash (cpp "`) ") eq_refl)
              eq_refl eq_refl eq_refl eq_refl eq_refl)
    as [m [Hs [Hr _]]].
  exists m. split; assumption.
Defined.

Lemma bad_escape_in_initializers_raises_witness :
  update_node_constructor Foo foo_cpp (package [(foo_cpp, digits_source)])
  = Raise ReError.
Proof.
  apply (bad_escape_in_initializers_raises Foo [] [] []
           (str " ") (str " ") [] (cpp "`foo`") (cpp ", re_(`")
           (cpp "+`) ") (str "}") "d"%char foo_cpp
           (package [(foo_cpp, digits_source)]));
    try reflexivity; try (now apply lacks_not_in); discriminate.
Defined.

(* ================================================================== *)
(** * The declaration in the header *)

Lemma boundary_before_word : forall prev c rest pos caps,
  word_opt prev = false -> is_word c = true ->
  at_word_boundary (MState prev (c :: rest) pos caps) = true.
Proof.
  intros prev c rest pos caps Hp Hc. unfold at_word_boundary.
  cbn [ms_prev ms_rest hd_error word_opt]. now rewrite Hp, Hc.
Qed.

(** A declaration is matched up to its semicolon. *)
Lemma declaration_match : forall class_name ws params rest prev pos,
  word_opt prev = false ->
  forallb is_word class_name = true -> class_name <> [] ->
  forallb is_space ws = true ->
  forallb in_declaration params = true ->
  match_here (declaration_regex class_name) prev
    (declaration class_name ws params ++ rest) pos
  = Some (PyMatch pos (pos + length (declaration class_name ws params))
            [(0, declaration class_name ws params)]).
Proof.
  intros class_name ws params rest prev pos Hprev Hc Hne Hws Hparams.
  assert (Hrun :
    run (declaration_regex class_name) (fun st => Some st)
        (MState prev (declaration class_name ws params ++ rest) pos [])
    = Some (MState (Some ";"%char) rest
              (pos + length (declaration class_name ws params)) [])).
  { unfold declaration_regex, declaration, lit, spaces.
    cbn [rseq]. rewrite <- !app_assoc.
    rewrite run_seq, run_wordb.
    destruct class_name as [|c class_name]; [contradiction|].
    cbn [forallb] in Hc. apply andb_true_iff in Hc. destruct Hc as [Hc0 Hc].
    cbn [app]. rewrite boundary_before_word by assumption.
    change (c :: class_name ++ ws ++ str "(" ++ params ++ str ");" ++ rest)
      with ((c :: class_name) ++ ws ++ str "(" ++ params ++ str ");" ++ rest).
    rewrite run_seq, run_lit. unfold after.
    rewrite run_seq, run_rep.
    apply rep_max; [exact Hws | reflexivity | lia |]. unfold after.
    rewrite run_seq, run_lit. unfold after.
    rewrite run_seq, run_rep.
    apply rep_prefix; [exact Hparams|]. rewrite Nat.sub_0_l.
    change (str ");" ++ rest) with ([")"%char] ++ ";"%char :: rest).
    rewrite rep_fallback;
      [ | reflexivity | reflexivity
        | cbn [fails_along]; split; [|exact I];
          now apply run_lit_none ].
    change ([")"%char] ++ ";"%char :: rest) with (str ");" ++ rest).
    rewrite run_lit. unfold after. f_equal. apply mstate_eq; try reflexivity.
    cbn [length]. repeat rewrite length_app. cbn [length]. lia. }
  unfold match_here. rewrite Hrun. cbn [ms_pos ms_caps].
  replace (pos + length (declaration class_name ws params) - pos)
    with (length (declaration class_name ws params)) by lia.
  now rewrite firstn_exact.
Qed.

(** Whatever the pattern matches begins with the class name, white space
    and an opening parenthesis. *)
Lemma declaration_match_inv : forall class_name prev rest pos m,
  match_here (declaration_regex class_name) prev rest pos = Some m ->
  exists s tail,
    rest = class_name ++ s ++ str "(" ++ tail /\ forallb is_space s = true.
Proof.
  intros class_name prev rest pos m H. unfold match_here in H.
  destruct (run (declaration_regex class_name) (fun st => Some st)
              (MState prev rest pos [])) as [st|] eqn:E; [|discriminate].
  clear H. unfold declaration_regex, lit, spaces in E. cbn [rseq] in E.
  rewrite run_seq, run_wordb in E.
  destruct (at_word_boundary _); [|discriminate].
  rewrite run_seq in E. apply run_lit_some in E.
  cbn [ms_prev ms_rest ms_pos ms_caps] in E. destruct E as [r1 [-> E]].
  unfold after in E. rewrite run_seq, run_rep in E.
  apply rep_some in E. destruct E as [s [r2 [-> [Hs [_ E]]]]].
  unfold after in E. rewrite run_seq in E. apply run_lit_some in E.
  cbn [ms_prev ms_rest ms_pos ms_caps] in E. destruct E as [r3 [-> E]].
  now exists s, r3.
Qed.

(** The class name cannot begin earlier and still be followed by white
    space and the same parenthesis. *)
Lemma shifted_name : forall class_name gap ws s X tail,
  forallb is_word class_name = true -> class_name <> [] ->
  forallb is_space ws = true -> forallb is_space s = true ->
  ~ In open_paren gap -> gap <> [] ->
  gap ++ class_name ++ ws ++ str "(" ++ X
  <> class_name ++ s ++ str "(" ++ tail.
Proof.
  intros class_name gap ws s X tail Hc Hne Hws Hs Hgap Hg H.
  assert (Hnp : forall t, forallb is_space t = true ->
                forallb (fun x => negb (chr_eqb open_paren x)) t = true).
  { intros t Ht. apply forallb_weaken with is_space; [|exact Ht].
    intros c Hcs. destruct (chr_eqb open_paren c) eqn:E; [|reflexivity].
    apply chr_eqb_eq in E. subst c. discriminate. }
  assert (Hnw : forallb (fun x => negb (chr_eqb open_paren x)) class_name = true).
  { apply forallb_weaken with is_word; [|exact Hc].
    intros c Hcw. destruct (chr_eqb open_paren c) eqn:E; [|reflexivity].
    apply chr_eqb_eq in E. subst c. discriminate. }
  assert (H' : ((gap ++ class_name) ++ ws) ++ "("%char :: X
               = (class_name ++ s) ++ "("%char :: tail).
  { rewrite <- !app_assoc. exact H. }
  assert (HA : forallb (fun x => negb (chr_eqb open_paren x))
                 ((gap ++ class_name) ++ ws) = true).
  { rewrite !forallb_app, (not_in_forallb _ _ Hgap), Hnw, (Hnp ws Hws).
    reflexivity. }
  assert (HB : forallb (fun x => negb (chr_eqb open_paren x))
                 (class_name ++ s) = true).
  { now rewrite forallb_app, Hnw, (Hnp s Hs). }
  destruct (span_unique _ _ _ "("%char "("%char X tail HA HB eq_refl eq_refl H')
    as [Heq _].
  destruct (exists_last Hne) as [c' [z Hz]].
  apply (f_equal (@rev ascii)) in Heq.
  rewrite !rev_app_distr, Hz, !rev_app_distr in Heq.
  cbn [rev app] in Heq.
  assert (Hzw : is_space z = false).
  { apply word_not_space. rewrite Hz, forallb_app in Hc.
    apply andb_true_iff in Hc. destruct Hc as [_ Hc]. cbn in Hc.
    now rewrite andb_true_r in Hc. }
  assert (Hrw : forallb is_space (rev ws) = true) by (now rewrite forallb_rev).
  assert (Hrs : forallb is_space (rev s) = true) by (now rewrite forallb_rev).
  destruct (span_unique is_space (rev ws) (rev s) z z _ _ Hrw Hrs Hzw Hzw Heq)
    as [_ [_ Hrest]].
  rewrite <- (app_nil_r (rev c')) in Hrest at 2.
  apply app_inv_head in Hrest. apply Hg.
  apply (f_equal (@rev ascii)) in Hrest.
  now rewrite rev_involutive in Hrest.
Qed.

Lemma no_declaration_before : forall class_name gap ws X prev pos,
  forallb is_word class_name = true -> class_name <> [] ->
  forallb is_space ws = true ->
  ~ In open_paren gap ->
  no_match (declaration_regex class_name) prev gap
    (class_name ++ ws ++ str "(" ++ X) pos.
Proof.
  intros class_name gap ws X prev pos Hc Hne Hws.
  revert prev pos. induction gap as [|c gap IH]; intros prev pos Hgap;
    [exact I|].
  cbn [no_match]. split.
  - destruct (match_here (declaration_regex class_name) prev
                (c :: gap ++ class_name ++ ws ++ str "(" ++ X) pos)
      as [m|] eqn:E; [|reflexivity].
    exfalso. apply declaration_match_inv in E.
    destruct E as [s [tail [E Hs]]].
    now apply (shifted_name class_name (c :: gap) ws s X tail).
  - apply IH. intro H. apply Hgap. now right.
Qed.

Lemma declaration_not_nil : forall class_name ws params,
  declaration class_name ws params <> [].
Proof.
  intros class_name ws params H. apply (f_equal (@length ascii)) in H.
  unfold declaration in H. rewrite !length_app in H. simpl in H. lia.
Qed.

Lemma new_declaration_plain : forall class_name,
  forallb is_word class_name = true ->
  ~ In backslash (new_declaration class_name).
Proof.
  intros class_name Hc. apply lacks_not_in. unfold new_declaration.
  rewrite !lacks_app.
  now rewrite (class_lacks is_word backslash class_name eq_refl Hc).
Qed.

Section DeclarationShape.

Variables class_name pre ws params rest : text.

Hypothesis class_word : forallb is_word class_name = true.
Hypothesis class_named : class_name <> [].
Hypothesis space_ws : forallb is_space ws = true.
Hypothesis params_inside : forallb in_declaration params = true.
Hypothesis no_parenthesis_before : ~ In open_paren pre.
Hypothesis not_inside_word : word_opt (last_of None pre) = false.

Lemma declaration_gap : forall prev pos,
  no_match (declaration_regex class_name) prev pre
    (declaration class_name ws params ++ rest) pos.
Proof.
  intros prev pos. unfold declaration. rewrite <- !app_assoc.
  now apply no_declaration_before.
Qed.

Lemma declaration_found :
  search (declaration_regex class_name)
    (pre ++ declaration class_name ws params ++ rest)
  = Some (PyMatch (length pre)
            (length pre + length (declaration class_name ws params))
            [(0, declaration class_name ws params)]).
Proof.
  unfold search. rewrite search_from_gap by apply declaration_gap.
  apply search_from_hit. cbn [Nat.add]. now apply declaration_match.
Qed.

Lemma declaration_replaced :
  sub (declaration_regex class_name) 0 (new_declaration class_name) 1
    (pre ++ declaration class_name ws params ++ rest)
  = Some (pre ++ new_declaration class_name ++ rest).
Proof.
  unfold sub.
  rewrite parse_template_plain by (now apply new_declaration_plain).
  f_equal. unfold sub_with. cbn [limit_of].
  rewrite sub_scan_gap by apply declaration_gap.
  f_equal. cbn [Nat.add].
  rewrite (sub_scan_hit (declaration_regex class_name) _ (Some 1)
             (declaration class_name ws params) _ rest (length pre) _
             ltac:(discriminate) (declaration_not_nil class_name ws params)
             (declaration_match class_name ws params rest _ (length pre)
                not_inside_word class_word class_named space_ws params_inside)
             eq_refl).
  cbn [option_map pred]. now rewrite sub_scan_done, expand_plain.
Qed.

End DeclarationShape.

(** C8.  The header is looked for in the directory of the implementation
    file, then in [include] at the package root, then in [include/<package>],
    and the first one found is the one worked on: it is the one that is
    read (and the step ends there when it is a directory or cannot be
    decoded), the one the reports name and the one whose declaration is
    replaced, every other file being left alone; when the three places
    hold no header, the synchronizer reports "not found" and changes no
    file, so that whatever the constructor rewriter did before stays in
    place. *)
Theorem header_search_order :
  forall (class_name : text) (cpp_path : path) (w : world),
    let pat := header_glob cpp_path in
    let own := glob (files w) (own_dir cpp_path) pat in
    let inc := glob (files w) (package_include_dir cpp_path) pat in
    let nested := glob (files w) (nested_include_dir cpp_path) pat in
    chosen_header (files w) cpp_path = hd_error (own ++ inc ++ nested) /\
    (forall h,
       chosen_header (files w) cpp_path = Some h ->
       (read (files w) h = Some Directory ->
        update_header_constructor_declaration class_name cpp_path w
        = Raise IsADirectoryError) /\
       (read (files w) h = Some NotUtf8 ->
        update_header_constructor_declaration class_name cpp_path w
        = Ok (say (SkippedNonUtf8Header h) w)) /\
       (forall content,
          read_text (files w) h = Ok content ->
          search (declaration_regex class_name) content = None ->
          update_header_constructor_declaration class_name cpp_path w
          = Ok (say (DeclarationNotFound class_name h) w)) /\
       (forall pre ws params rest,
          read_text (files w) h
          = Ok (pre ++ declaration class_name ws params ++ rest) ->
          forallb is_word class_name = true -> class_name <> [] ->
          forallb is_space ws = true ->
          forallb in_declaration params = true ->
          ~ In open_paren pre ->
          word_opt (last_of None pre) = false ->
          update_header_constructor_declaration class_name cpp_path w
          = Ok (say (HeaderUpdated h)
                  (put h (pre ++ new_declaration class_name ++ rest) w))) /\
       (forall w' p,
          update_header_constructor_declaration class_name cpp_path w = Ok w' ->
          p <> h -> read (files w') p = read (files w) p)) /\
    (own = [] -> inc = [] -> nested = [] ->
       update_header_constructor_declaration class_name cpp_path w
         = Ok (say (HeaderNotFound class_name cpp_path) w) /\
       forall w0,
         update_node_constructor class_name cpp_path w0 = Ok w ->
         exists w',
           convert w0 (class_name, cpp_path) = Ok w' /\ files w' = files w).
Proof.
  intros class_name cpp_path w pat own inc nested.
  split; [|split].
  - unfold chosen_header. now rewrite candidate_headers_flat.
  - intros h Hh.
    assert (Hc : exists others, candidate_headers (files w) cpp_path = h :: others).
    { unfold chosen_header in Hh.
      destruct (candidate_headers (files w) cpp_path) as [|h' others];
        [discriminate|].
      injection Hh as ->. now exists others. }
    destruct Hc as [others Hc].
    unfold update_header_constructor_declaration. rewrite Hc.
    repeat split.
    + intro Hd. unfold read_text. now rewrite Hd.
    + intro Hd. unfold read_text. now rewrite Hd.
    + intros content Hread Hs. now rewrite Hread, Hs.
    + intros pre ws params rest Hread Hw Hne Hws Hparams Hpre Hb.
      rewrite Hread. rewrite declaration_found by assumption.
      now rewrite declaration_replaced by assumption.
    + intros w' p H. apply (header_update_frame class_name cpp_path w w' h p Hh).
      unfold update_header_constructor_declaration. now rewrite Hc.
  - intros H1 H2 H3.
    assert (Hu : update_header_constructor_declaration class_name cpp_path w
                 = Ok (say (HeaderNotFound class_name cpp_path) w)).
    { unfold update_header_constructor_declaration.
      rewrite candidate_headers_flat. fold pat. fold own. fold inc. fold nested.
      now rewrite H1, H2, H3. }
    split; [exact Hu|].
    intros w0 H0. exists (say (HeaderNotFound class_name cpp_path) w).
    split; [|reflexivity].
    unfold convert. rewrite H0. simpl. exact Hu.
Qed.

(** With a header in each of the three places, the one next to the source
    is chosen and rewritten; a directory named as a header next to the
    source ends the step, a header in the include directory
    notwithstanding; with no header, the step reports "not found". *)
Lemma header_search_order_witness :
  chosen_header (files three_headers) foo_cpp
  = Some (in_pkg ["src"; "foo.hh"]%string) /\
  update_header_constructor_declaration Foo foo_cpp three_headers
  = Ok (say (HeaderUpdated (in_pkg ["src"; "foo.hh"]%string))
          (put (in_pkg ["src"; "foo.hh"]%string)
             (cpp "class Foo {   explicit Foo(const rclcpp::NodeOptions & options); };")
             three_headers)) /\
  update_header_constructor_declaration Foo foo_cpp header_directory
  = Raise IsADirectoryError /\
  update_header_constructor_declaration Foo foo_cpp no_header
  = Ok (say (HeaderNotFound Foo foo_cpp) no_header).
Proof.
  split; [|split; [|split]].
  - rewrite (proj1 (header_search_order Foo foo_cpp three_headers)).
    reflexivity.
  - destruct (proj1 (proj2 (header_search_order Foo foo_cpp three_headers))
                (in_pkg ["src"; "foo.hh"]%string) eq_refl)
      as [_ [_ [_ [H _]]]].
    apply (H (cpp "class Foo { ") [] [] (cpp " };")); try reflexivity.
    + discriminate.
    + now apply lacks_not_in.
  - destruct (proj1 (proj2 (header_search_order Foo foo_cpp header_directory))
                (in_pkg ["src"; "foo.h"]%string) eq_refl)
      as [H _].
    now apply H.
  - apply (proj2 (proj2 (header_search_order Foo foo_cpp no_header)));
      reflexivity.
Defined.

(** X16.  The header step replaces the first declaration of the
    constructor, from the class name to the semicolon, by
    [  explicit ClassName(const rclcpp::NodeOptions & options);] and keeps
    all the rest of the header as it was read (that is, with every line
    end read as a line feed), the indentation before the declaration and
    any further declaration of a constructor included.  (The declaration
    is the first place of the header with an opening parenthesis.) *)
Theorem header_declaration_rewritten :
  forall (class_name : text) (cpp_path header : path) (w : world)
         (pre ws params rest : text),
    let content := pre ++ declaration class_name ws params ++ rest in
    plain_name (stem cpp_path) = true ->
    chosen_header (files w) cpp_path = Some header ->
    read_text (files w) header = Ok content ->
    forallb is_word class_name = true -> class_name <> [] ->
    forallb is_space ws = true ->
    forallb in_declaration params = true ->
    ~ In open_paren pre ->
    word_opt (last_of None pre) = false ->
    update_header_constructor_declaration class_name cpp_path w
    = Ok (say (HeaderUpdated header)
            (put header (pre ++ new_declaration class_name ++ rest) w)).
Proof.
  intros class_name cpp_path header w pre ws params rest content
    _ Hh Hread Hc Hne Hws Hparams Hpre Hb.
  unfold update_header_constructor_declaration.
  unfold chosen_header in Hh.
  destruct (candidate_headers (files w) cpp_path) as [|h others];
    [discriminate|].
  injection Hh as ->. rewrite Hread.
  unfold content. rewrite declaration_found by assumption.
  cbn [of_template bind].
  rewrite declaration_replaced by assumption. reflexivity.
Qed.

Lemma header_declaration_rewritten_witness :
  update_header_constructor_declaration Foo foo_cpp
    (package [(foo_cpp, direct_source); (foo_hpp, two_constructors_header)])
  = Ok (say (HeaderUpdated foo_hpp)
          (put foo_hpp
             (unlines ["class Foo : public rclcpp::Node {"; "public:";
                       "  explicit   explicit Foo(const rclcpp::NodeOptions & options);";
                       "  Foo(int x, int y);"; "};"]%string)
             (package [(foo_cpp, direct_source);
                       (foo_hpp, two_constructors_header)]))).
Proof.
  apply (header_declaration_rewritten Foo foo_cpp foo_hpp _
           (unlines ["class Foo : public rclcpp::Node {"; "public:"]%string
            ++ str "  explicit ")
           [] (str "int x")
           (newline :: unlines ["  Foo(int x, int y);"; "};"]%string));
    try reflexivity.
  - discriminate.
  - now apply lacks_not_in.
Defined.

Lemma candidate_headers_exist : forall f cpp_path h,
  In h (candidate_headers f cpp_path) -> In h (paths f).
Proof.
  intros f cpp_path h H. rewrite candidate_headers_flat in H.
  repeat (apply in_app_or in H; destruct H as [H|H]);
    unfold glob in H; now apply filter_In in H.
Qed.

(** X17.  For a class name of word characters (and an implementation file
    whose name holds no wildcard) the header step fails in one case only:
    the header it chose is a directory, and reading it raises
    [IsADirectoryError].  In every other case it returns, whatever the
    files hold, and it creates and removes no file. *)
Theorem header_step_fails_only_on_directory :
  forall (class_name : text) (cpp_path : path) (w : world),
    forallb is_word class_name = true ->
    plain_name (stem cpp_path) = true ->
    (forall h,
       chosen_header (files w) cpp_path = Some h ->
       read (files w) h = Some Directory ->
       update_header_constructor_declaration class_name cpp_path w
       = Raise IsADirectoryError) /\
    ((forall h,
        chosen_header (files w) cpp_path = Some h ->
        read (files w) h <> Some Directory) ->
     exists w',
       update_header_constructor_declaration class_name cpp_path w = Ok w' /\
       paths (files w') = paths (files w)).
Proof.
  intros class_name cpp_path w Hc _.
  unfold update_header_constructor_declaration, chosen_header.
  destruct (candidate_headers (files w) cpp_path) as [|h others] eqn:E;
    cbn [hd_error].
  - split; [discriminate|]. intros _. eexists. split; reflexivity.
  - assert (Hh : read (files w) h <> None).
    { apply read_in_paths, candidate_headers_exist with cpp_path.
      rewrite E. now left. }
    split.
    + intros h' [= <-] Hd. unfold read_text. now rewrite Hd.
    + intros Hfile. specialize (Hfile h eq_refl). unfold read_text.
      destruct (read (files w) h) as [[content| |]|] eqn:Hread;
        [| |now contradiction Hfile|now contradiction Hh].
      * destruct (search (declaration_regex class_name)
                    (universal_newlines content)).
        -- unfold sub.
           rewrite parse_template_plain by (now apply new_declaration_plain).
           cbn [of_template bind]. eexists. split; [reflexivity|].
           cbn [say put files]. apply paths_write.
           apply read_file in Hread; [|discriminate].
           rewrite Hread. discriminate.
        -- eexists. split; reflexivity.
      * eexists. split; reflexivity.
Qed.

Lemma header_step_fails_only_on_directory_witness :
  exists w',
    update_header_constructor_declaration Foo foo_cpp demo_package = Ok w' /\
    paths (files w') = paths (files demo_package).
Proof.
  apply (header_step_fails_only_on_directory Foo foo_cpp demo_package);
    try reflexivity.
  intros h Hh. vm_compute in Hh. injection Hh as <-. vm_compute. discriminate.
Defined.

(* ================================================================== *)
(** * What a conversion leaves alone *)

Lemma rglob_write : forall f p t dir pat,
  entry f p <> None -> rglob (write f p t) dir pat = rglob f dir pat.
Proof.
  intros f p t dir pat H. unfold rglob. now rewrite paths_write.
Qed.

Lemma update_node_constructor_frame : forall class_name file_path w w',
  update_node_constructor class_name file_path w = Ok w' ->
  paths (files w') = paths (files w) /\
  forall q,
    q <> file_path ->
    ~ In q (rglob (files w) (parent (parent file_path)) (str "main*.cpp")) ->
    read (files w') q = read (files w) q.
Proof.
  intros class_name file_path w w' H.
  unfold update_node_constructor in H.
  destruct (read_text (files w) file_path) as [content|e] eqn:Hread.
  - destruct (already_converted class_name content);
      [injection H as <-; now split|].
    destruct (search (constructor_regex class_name) content) as [m|];
      [|injection H as <-; now split].
    destruct (rewrite_constructor class_name content m) as [updated|e];
      cbn [bind] in H; [|discriminate].
    set (w1 := say (Updated class_name file_path)
                 (put file_path
                    (append_registration class_name content updated) w)) in H.
    destruct (read_text_ok _ _ _ Hread) as [stored [Hentry _]].
    assert (Hex : entry (files w) file_path <> None)
      by (rewrite Hentry; discriminate).
    destruct (update_main_constructors_ok _ _ _ _ H) as [Hp Hf]. split.
    + rewrite (rewritten_paths _ _ Hp). unfold w1. cbn [say put files].
      now apply paths_write.
    + intros q Hq Hm. rewrite Hf; [| exact Hq |].
      * unfold w1. cbn [say put files]. now apply read_write_other.
      * unfold w1. cbn [say put files]. now rewrite rglob_write.
  - destruct e; try discriminate. injection H as <-. now split.
Qed.

(** X18.  The constructor rewriter creates and removes no file, and
    changes no file other than the implementation file and the files
    [main*.cpp] below the package directory. *)
Theorem constructor_rewrite_frame :
  forall (class_name : text) (file_path : path) (w w' : world),
    forallb is_word class_name = true ->
    update_node_constructor class_name file_path w = Ok w' ->
    paths (files w') = paths (files w) /\
    forall q,
      q <> file_path ->
      ~ In q (rglob (files w) (parent (parent file_path)) (str "main*.cpp")) ->
      read (files w') q = read (files w) q.
Proof.
  intros class_name file_path w w' _ H.
  now apply update_node_constructor_frame with class_name.
Qed.

Lemma constructor_rewrite_frame_witness :
  exists w',
    update_node_constructor Foo foo_cpp demo_package = Ok w' /\
    paths (files w') = paths (files demo_package) /\
    forall q,
      q <> foo_cpp ->
      ~ In q (rglob (files demo_package) (parent (parent foo_cpp))
                (str "main*.cpp")) ->
      read (files w') q = read (files demo_package) q.
Proof.
  eexists. split; [reflexivity|].
  apply (constructor_rewrite_frame Foo foo_cpp demo_package); reflexivity.
Defined.

Lemma header_update_paths : forall class_name cpp_path w w',
  update_header_constructor_declaration class_name cpp_path w = Ok w' ->
  paths (files w') = paths (files w).
Proof.
  intros class_name cpp_path w w' H.
  unfold update_header_constructor_declaration in H.
  destruct (candidate_headers (files w) cpp_path) as [|h others];
    [now injection H as <-|].
  destruct (read_text (files w) h) as [content|e] eqn:Hread.
  - destruct (search (declaration_regex class_name) content);
      [|now injection H as <-].
    destruct (sub (declaration_regex class_name) 0 (new_declaration class_name)
                1 content); cbn [of_template bind] in H; [|discriminate].
    injection H as <-. cbn [say put files]. apply paths_write.
    destruct (read_text_ok _ _ _ Hread) as [stored [Hentry _]].
    rewrite Hentry. discriminate.
  - destruct e; try discriminate. now injection H as <-.
Qed.

Lemma candidate_header_name : forall f cpp_path h,
  In h (candidate_headers f cpp_path) ->
  wild (header_glob cpp_path) (name h) = true.
Proof.
  intros f cpp_path h H. rewrite candidate_headers_flat in H.
  repeat (apply in_app_or in H; destruct H as [H|H]);
    unfold glob in H; apply filter_In in H; destruct H as [_ H];
    (destruct h; [discriminate|]);
    apply andb_true_iff in H; tauto.
Qed.

Lemma convert_frame : forall class_name p w w',
  convert w (class_name, p) = Ok w' ->
  paths (files w') = paths (files w) /\
  forall q,
    q <> p ->
    wild (str "main*.cpp") (name q) = false ->
    wild (header_glob p) (name q) = false ->
    read (files w') q = read (files w) q.
Proof.
  intros class_name p w w' H. unfold convert in H.
  destruct (update_node_constructor class_name p w) as [w1|e] eqn:H1;
    cbn [bind] in H; [|discriminate].
  destruct (update_node_constructor_frame _ _ _ _ H1) as [Hp1 Hf1].
  pose proof (header_update_paths _ _ _ _ H) as Hp2.
  split; [congruence|].
  intros q Hq Hmain Hhead.
  rewrite <- Hf1; [| exact Hq |].
  - destruct (chosen_header (files w1) p) as [h|] eqn:Hh.
    + apply (header_update_frame class_name p w1 w' h q Hh H).
      intros ->. unfold chosen_header in Hh.
      assert (Hin : In h (candidate_headers (files w1) p)).
      { destruct (candidate_headers (files w1) p); [discriminate|].
        injection Hh as ->. now left. }
      apply candidate_header_name in Hin. congruence.
    + unfold update_header_constructor_declaration in H.
      unfold chosen_header in Hh.
      destruct (candidate_headers (files w1) p); [|discriminate].
      now injection H as <-.
  - intro Hin. unfold rglob in Hin. apply filter_In in Hin.
    destruct Hin as [_ Hin]. destruct q; [discriminate|].
    apply andb_true_iff in Hin. destruct Hin as [_ Hin]. congruence.
Qed.

Lemma conversion_after_raise : forall nodes e,
  fold_left (fun acc node => w' <- acc ;; convert w' node) nodes (Raise e)
  = Raise e.
Proof. induction nodes as [|n nodes IH]; intro e; [reflexivity | apply IH]. Qed.

(** X19.  A conversion creates and removes no file, and the only files it
    changes are the implementation files it is given, files named
    [main*.cpp] and headers named after an implementation file: a file
    with any other name (a build file, another source) is left as it
    was. *)
Theorem conversion_frame :
  forall (nodes : list (text * path)) (w w' : world),
    forallb convertible nodes = true ->
    apply_composable_conversion nodes w = Ok w' ->
    paths (files w') = paths (files w) /\
    forall q,
      ~ In q (map snd nodes) ->
      wild (str "main*.cpp") (name q) = false ->
      (forall node, In node nodes ->
                    wild (header_glob (snd node)) (name q) = false) ->
      read (files w') q = read (files w) q.
Proof.
  induction nodes as [|[class_name p] nodes IH]; intros w w' Hw H.
  - injection H as <-. now split.
  - unfold apply_composable_conversion in H. cbn [fold_left bind] in H.
    destruct (convert w (class_name, p)) as [w1|e] eqn:H1;
      [|now rewrite conversion_after_raise in H].
    destruct (convert_frame _ _ _ _ H1) as [Hp1 Hf1].
    cbn [forallb] in Hw. apply andb_true_iff in Hw. destruct Hw as [_ Hl].
    destruct (IH w1 w' Hl H) as [Hp2 Hf2].
    split; [congruence|].
    intros q Hq Hmain Hhead. rewrite Hf2.
    + apply Hf1; [| exact Hmain |].
      * intros ->. apply Hq. now left.
      * apply (Hhead (class_name, p)). now left.
    + intro Hin. apply Hq. now right.
    + exact Hmain.
    + intros node Hin. apply Hhead. now right.
Qed.

Lemma conversion_frame_witness :
  exists w',
    apply_composable_conversion [(Foo, foo_cpp)] demo_package = Ok w' /\
    paths (files w') = paths (files demo_package) /\
    forall q,
      ~ In q (map snd [(Foo, foo_cpp)]) ->
      wild (str "main*.cpp") (name q) = false ->
      (forall node, In node [(Foo, foo_cpp)] ->
                    wild (header_glob (snd node)) (name q) = false) ->
      read (files w') q = read (files demo_package) q.
Proof.
  eexists. split; [reflexivity|].
  apply (conversion_frame [(Foo, foo_cpp)] demo_package).
  - reflexivity.
  - reflexivity.
Defined.

(* ================================================================== *)
(** * The names of the headers *)

Lemma wild_star : forall s, wild (str "*") s = true.
Proof.
  induction s as [|c s IH]; [reflexivity|].
  change (wild (str "*") (c :: s)) with (false || wild (str "*") s).
  exact IH.
Qed.

(** A pattern made of a plain name and a final [*] matches the names that
    begin with the plain name. *)
Lemma wild_prefix : forall pat s,
  plain_name pat = true ->
  wild (pat ++ str "*") s = true <-> exists ext, s = pat ++ ext.
Proof.
  induction pat as [|p pat IH]; intros s Hp.
  - cbn [app]. split.
    + intros _. now exists s.
    + intros _. apply wild_star.
  - cbn [plain_name forallb] in Hp. apply andb_true_iff in Hp.
    destruct Hp as [Hc Hp]. apply andb_true_iff in Hc. destruct Hc as [Hc _].
    apply andb_true_iff in Hc. destruct Hc as [H1 H2].
    apply negb_true_iff in H1, H2.
    cbn [app wild]. rewrite H1, H2. split.
    + destruct s as [|c s]; [discriminate|]. intro H.
      apply andb_true_iff in H. destruct H as [Hc H].
      apply chr_eqb_eq in Hc. subst c.
      apply IH in H; [|exact Hp]. destruct H as [ext ->]. now exists ext.
    + intros [ext ->]. cbn [app]. rewrite chr_eqb_refl. cbn [andb].
      apply IH; [exact Hp|]. now exists ext.
Qed.

Lemma glob_in : forall f dir pat h,
  In h (glob f dir pat) ->
  In h (paths f) /\ parent h = dir /\ wild pat (name h) = true.
Proof.
  intros f dir pat h H. unfold glob in H. apply filter_In in H.
  destruct H as [Hin H]. destruct h as [|x h]; [discriminate|].
  apply andb_true_iff in H. destruct H as [Hd Hw].
  apply path_eqb_eq in Hd. auto.
Qed.

(** X21.  The header the synchronizer works on is found in one of the
    three directories, and its name is the name of the implementation file
    up to its last dot, followed by [.h] and anything: [foo.h], [foo.hpp],
    but also [foo.html].  (The name of the implementation file holds none
    of the wildcards of [glob].) *)
Theorem header_named_after_source :
  forall (f : fs) (cpp_path h : path),
    plain_name (stem cpp_path) = true ->
    chosen_header f cpp_path = Some h ->
    In h (paths f) /\
    (parent h = own_dir cpp_path \/
     parent h = package_include_dir cpp_path \/
     parent h = nested_include_dir cpp_path) /\
    exists ext, name h = stem cpp_path ++ str ".h" ++ ext.
Proof.
  intros f cpp_path h Hstem Hh. unfold chosen_header in Hh.
  assert (Hin : In h (candidate_headers f cpp_path)).
  { destruct (candidate_headers f cpp_path); [discriminate|].
    injection Hh as ->. now left. }
  rewrite candidate_headers_flat in Hin.
  assert (Hname : forall dir,
            In h (glob f dir (header_glob cpp_path)) ->
            In h (paths f) /\ parent h = dir /\
            exists ext, name h = stem cpp_path ++ str ".h" ++ ext).
  { intros dir H. apply glob_in in H. destruct H as [H1 [H2 H3]].
    split; [exact H1|]. split; [exact H2|].
    unfold header_glob in H3.
    change (str ".h*") with (str ".h" ++ str "*") in H3.
    rewrite app_assoc in H3. apply wild_prefix in H3.
    - destruct H3 as [ext ->]. exists ext. now rewrite <- app_assoc.
    - unfold plain_name in *. rewrite forallb_app, Hstem. reflexivity. }
  apply in_app_or in Hin. destruct Hin as [Hin|Hin].
  - destruct (Hname _ Hin) as [H1 [H2 H3]]. auto.
  - apply in_app_or in Hin.
    destruct Hin as [Hin|Hin]; destruct (Hname _ Hin) as [H1 [H2 H3]]; auto.
Qed.

Lemma header_named_after_source_witness :
  In (in_pkg ["src"; "foo.hh"]%string) (paths (files three_headers)) /\
  (parent (in_pkg ["src"; "foo.hh"]%string) = own_dir foo_cpp \/
   parent (in_pkg ["src"; "foo.hh"]%string) = package_include_dir foo_cpp \/
   parent (in_pkg ["src"; "foo.hh"]%string) = nested_include_dir foo_cpp) /\
  exists ext,
    name (in_pkg ["src"; "foo.hh"]%string) = stem foo_cpp ++ str ".h" ++ ext.
Proof.
  apply (header_named_after_source (files three_headers) foo_cpp); reflexivity.
Defined.

(* ================================================================== *)
(** * The program as a whole *)

(** X4.  Unless some line of the input is a yes, the program changes
    nothing: it ends by itself or for want of input, with the files and
    reports it started with, or it ends in the exception of discovery,
    before anything is asked; it never ends in an exception of the
    conversion. *)
Theorem main_writes_only_after_yes : forall argv t w,
  existsb is_yes (stdin t) = false ->
  (exists status, fst (main argv t w) = Exit status w) \/
  fst (main argv t w) = EndOfInput w \/
  (exists script root,
     argv = [script; root] /\
     find_ros2_node_constructors (files w) root = Raise IsADirectoryError /\
     main argv t w = (Uncaught IsADirectoryError, t)).
Proof.
  intros argv t w H. unfold main.
  destruct argv as [|script [|root [|x argv]]]; try (left; now exists 1).
  destruct (find_ros2_node_constructors (files w) root) as [[|node nodes]|e]
    eqn:E; [left; now exists 0 | |].
  - destruct (confirm_from_answers (node :: nodes) []
                (print (Found (length (node :: nodes))) t)) as [H1 _].
    unfold confirm_nodes.
    destruct (confirm_from [] (node :: nodes) _) as [[confirmed|] t'];
      [|right; now left].
    cbn [fst stdin print] in H1.
    rewrite selected_none in H1 by (now apply answers_without_yes).
    destruct (_ <=? _) in H1; [|discriminate].
    injection H1 as ->. left. now exists 0.
  - right. right. exists script, root.
    destruct (discovery_raises _ _ _ E) as [-> _]. now repeat split.
Qed.

Lemma main_writes_only_after_yes_witness :
  (exists status,
     fst (main [in_pkg ["make_composable.py"]%string; in_pkg []]
            (Terminal [str "maybe"; str " N "] []) demo_package)
     = Exit status demo_package) \/
  fst (main [in_pkg ["make_composable.py"]%string; in_pkg []]
         (Terminal [str "maybe"; str " N "] []) demo_package)
  = EndOfInput demo_package \/
  (exists script root,
     [in_pkg ["make_composable.py"]%string; in_pkg []] = [script; root] /\
     find_ros2_node_constructors (files demo_package) root
     = Raise IsADirectoryError /\
     main [in_pkg ["make_composable.py"]%string; in_pkg []]
       (Terminal [str "maybe"; str " N "] []) demo_package
     = (Uncaught IsADirectoryError, Terminal [str "maybe"; str " N "] [])).
Proof. apply main_writes_only_after_yes. reflexivity. Defined.

(** X22.  The program decides by the answers its input holds.  Without
    exactly one argument it prints its usage and ends with status 1.
    Otherwise, when discovery ends in an exception, so does the program,
    before anything is printed or asked; when nothing is discovered, or
    when no node is answered with a yes, it ends with status 0 and the
    files as they were; when the input ends before every discovered node
    is answered, it ends in [EOFError], again with the files as they
    were, whatever was answered before; and in all other cases it
    converts the nodes answered with a yes, in the order of discovery, and
    nothing else. *)
Theorem main_by_answers :
  forall (argv : list path) (t : terminal) (w : world),
    (length argv <> 2 -> main argv t w = (Exit 1 w, print Usage t)) /\
    (forall script root,
       argv = [script; root] ->
       match find_ros2_node_constructors (files w) root with
       | Raise e => main argv t w = (Uncaught e, t)
       | Ok nodes =>
           let confirmed := selected nodes (answers (stdin t)) in
           fst (main argv t w)
           = match nodes with
             | [] => Exit 0 w
             | _ :: _ =>
                 if length nodes <=? length (answers (stdin t)) then
                   match confirmed with
                   | [] => Exit 0 w
                   | _ :: _ =>
                       match apply_composable_conversion confirmed w with
                       | Ok w' => Exit 0 w'
                       | Raise e => Uncaught e
                       end
                   end
                 else EndOfInput w
             end
       end).
Proof.
  intros argv t w. split.
  - intro H. destruct argv as [|a [|b [|c argv]]]; try reflexivity.
    now contradiction H.
  - intros script root ->.
    destruct (find_ros2_node_constructors (files w) root) as [nodes|e] eqn:D;
      [|unfold main; now rewrite D].
    intro confirmed. unfold main. rewrite D.
    destruct nodes as [|node nodes'] eqn:E; [reflexivity|].
    destruct (confirm_from_answers (node :: nodes') []
                (print (Found (length (node :: nodes'))) t)) as [H _].
    unfold confirm_nodes.
    destruct (confirm_from [] (node :: nodes') _) as [[c|] t'];
      cbn [fst stdin print app] in H;
      destruct (length (node :: nodes') <=? length (answers (stdin t)));
      try discriminate H; [|reflexivity].
    injection H as ->. fold confirmed.
    destruct confirmed as [|x l]; [reflexivity|].
    destruct (apply_composable_conversion (x :: l) w); reflexivity.
Qed.

Lemma main_by_answers_witness :
  main [in_pkg ["make_composable.py"]%string] (Terminal [] []) demo_package
  = (Exit 1 demo_package, print Usage (Terminal [] [])) /\
  fst (main [in_pkg ["make_composable.py"]%string; in_pkg []]
         (Terminal [str "what?"; str " Y "] []) demo_package)
  = match apply_composable_conversion [(Foo, foo_cpp)] demo_package with
    | Ok w' => Exit 0 w'
    | Raise e => Uncaught e
    end.
Proof.
  split.
  - apply (proj1 (main_by_answers [in_pkg ["make_composable.py"]%string]
                    (Terminal [] []) demo_package)).
    discriminate.
  - exact (proj2 (main_by_answers
                    [in_pkg ["make_composable.py"]%string; in_pkg []]
                    (Terminal [str "what?"; str " Y "] []) demo_package)
             _ _ eq_refl).
Defined.

(* ================================================================== *)
(** * Files that cannot be decoded *)

Lemma update_node_constructor_rewritten : forall class_name file_path w w',
  update_node_constructor class_name file_path w = Ok w' ->
  rewritten (files w) (files w').
Proof.
  intros class_name file_path w w' H.
  unfold update_node_constructor in H.
  destruct (read_text (files w) file_path) as [content|e] eqn:Hread.
  - destruct (already_converted class_name content);
      [injection H as <-; apply rewritten_refl|].
    destruct (search (constructor_regex class_name) content) as [m|];
      [|injection H as <-; apply rewritten_refl].
    destruct (rewrite_constructor class_name content m) as [updated|e];
      cbn [bind] in H; [|discriminate].
    destruct (read_text_ok _ _ _ Hread) as [stored [Hentry _]].
    apply update_main_constructors_ok in H. destruct H as [H _].
    apply rewritten_trans with (2 := H). cbn [say put files].
    now apply rewritten_write with stored.
  - destruct e; try discriminate. injection H as <-. apply rewritten_refl.
Qed.

Lemma header_update_rewritten : forall class_name cpp_path w w',
  update_header_constructor_declaration class_name cpp_path w = Ok w' ->
  rewritten (files w) (files w').
Proof.
  intros class_name cpp_path w w' H.
  unfold update_header_constructor_declaration in H.
  destruct (candidate_headers (files w) cpp_path) as [|h others];
    [injection H as <-; apply rewritten_refl|].
  destruct (read_text (files w) h) as [content|e] eqn:Hread.
  - destruct (search (declaration_regex class_name) content);
      [|injection H as <-; apply rewritten_refl].
    destruct (sub (declaration_regex class_name) 0 (new_declaration class_name)
                1 content); cbn [of_template bind] in H; [|discriminate].
    injection H as <-. cbn [say put files].
    destruct (read_text_ok _ _ _ Hread) as [stored [Hentry _]].
    now apply rewritten_write with stored.
  - destruct e; try discriminate. injection H as <-. apply rewritten_refl.
Qed.

Lemma conversion_rewritten : forall nodes w w',
  apply_composable_conversion nodes w = Ok w' ->
  rewritten (files w) (files w').
Proof.
  induction nodes as [|[class_name p] nodes IH]; intros w w' H.
  - injection H as <-. apply rewritten_refl.
  - unfold apply_composable_conversion in H. cbn [fold_left bind] in H.
    destruct (convert w (class_name, p)) as [w1|e] eqn:H1;
      [|now rewrite conversion_after_raise in H].
    apply rewritten_trans with (files w1); [|now apply IH].
    unfold convert in H1.
    destruct (update_node_constructor class_name p w) as [w0|e] eqn:H0;
      cbn [bind] in H1; [|discriminate].
    apply rewritten_trans with (files w0).
    + now apply update_node_constructor_rewritten with class_name p.
    + now apply header_update_rewritten with class_name p.
Qed.

(** X23.  A file that cannot be decoded as UTF-8 is never written: whatever
    nodes are converted, such a file is the same after the conversion as
    before. *)
Theorem undecodable_files_are_kept :
  forall (nodes : list (text * path)) (w w' : world) (q : path),
    forallb convertible nodes = true ->
    apply_composable_conversion nodes w = Ok w' ->
    read (files w) q = Some NotUtf8 ->
    read (files w') q = Some NotUtf8.
Proof.
  intros nodes w w' q _ H Hq.
  apply (rewritten_kind _ _ q (Some NotUtf8) (conversion_rewritten _ _ _ H));
    [discriminate | exact Hq].
Qed.

Lemma undecodable_files_are_kept_witness :
  exists w',
    apply_composable_conversion [(Foo, foo_cpp)] undecodable_main = Ok w' /\
    read (files w') main_cpp = Some NotUtf8.
Proof.
  eexists. split; [reflexivity|].
  apply (undecodable_files_are_kept [(Foo, foo_cpp)] undecodable_main _ main_cpp).
  - reflexivity.
  - reflexivity.
  - reflexivity.
Defined.

(* ================================================================== *)
(** * How a conversion can fail *)

Lemma of_template_raises : forall x e, of_template x = Raise e -> e = ReError.
Proof. intros [t|] e H; [discriminate | now injection H as <-]. Qed.

Lemma rewrite_constructor_raises : forall class_name content m e,
  rewrite_constructor class_name content m = Raise e -> e = ReError.
Proof.
  intros class_name content m e H. unfold rewrite_constructor in H.
  destruct (of_template
              (sub node_initializer_pattern 1 node_template 0 (group_text 2 m)))
    as [init|e0] eqn:E; cbn [bind] in H.
  - now apply of_template_raises in H.
  - injection H as <-. now apply of_template_raises in E.
Qed.

Lemma main_candidate_name : forall f cpp_path q,
  In q (main_candidates f cpp_path) ->
  q = cpp_path \/ wild (str "main*.cpp") (name q) = true.
Proof.
  intros f cpp_path q H. unfold main_candidates in H.
  apply in_app_or in H. destruct H as [H | [<- | []]]; [|now left].
  right. unfold rglob in H. apply filter_In in H. destruct H as [_ H].
  destruct q; [discriminate|]. apply andb_true_iff in H. tauto.
Qed.

Lemma update_node_constructor_fails : forall class_name file_path w e,
  read (files w) file_path <> None ->
  update_node_constructor class_name file_path w = Raise e ->
  e = ReError \/
  (e = IsADirectoryError /\
   exists q,
     read (files w) q = Some Directory /\
     (q = file_path \/ wild (str "main*.cpp") (name q) = true)).
Proof.
  intros class_name file_path w e Hex H.
  unfold update_node_constructor in H.
  destruct (read_text (files w) file_path) as [content|e0] eqn:Hread.
  - destruct (already_converted class_name content); [discriminate|].
    destruct (search (constructor_regex class_name) content) as [m|];
      [|discriminate].
    destruct (rewrite_constructor class_name content m) as [updated|e0] eqn:Hr;
      cbn [bind] in H;
      [|injection H as <-; left; now apply rewrite_constructor_raises in Hr].
    destruct (read_text_ok _ _ _ Hread) as [stored [Hentry _]].
    unfold update_main_constructors in H. apply update_main_files_fail in H.
    cbn [say put files] in H.
    destruct H as [[-> [q [Hq Hd]]] | [_ [q [Hq Hn]]]].
    + right. split; [reflexivity|]. exists q. split.
      * apply (rewritten_kind (files w) _ q (Some Directory)
                 (rewritten_write _ _ _ _ Hentry)) in Hd;
          [exact Hd | discriminate].
      * now apply main_candidate_name in Hq.
    + exfalso. apply (main_candidates_exist _ _ _) in Hq; [now apply Hq|].
      rewrite read_write_same. discriminate.
  - destruct (read_text_raises _ _ _ Hread) as [[-> _] | [[-> Hd] | [-> Hn]]].
    + discriminate.
    + injection H as <-. right. split; [reflexivity|].
      exists file_path. split; [exact Hd | now left].
    + now contradiction Hex.
Qed.

Lemma header_update_fails : forall class_name cpp_path w e,
  update_header_constructor_declaration class_name cpp_path w = Raise e ->
  e = ReError \/
  (e = IsADirectoryError /\
   exists q,
     read (files w) q = Some Directory /\
     wild (header_glob cpp_path) (name q) = true).
Proof.
  intros class_name cpp_path w e H.
  unfold update_header_constructor_declaration in H.
  destruct (candidate_headers (files w) cpp_path) as [|h others] eqn:E;
    [discriminate|].
  assert (Hin : In h (candidate_headers (files w) cpp_path))
    by (rewrite E; now left).
  destruct (read_text (files w) h) as [content|e0] eqn:Hread.
  - destruct (search (declaration_regex class_name) content); [|discriminate].
    destruct (of_template
                (sub (declaration_regex class_name) 0
                   (new_declaration class_name) 1 content)) as [u|e0] eqn:Es;
      cbn [bind] in H; [discriminate|].
    injection H as <-. left. now apply of_template_raises in Es.
  - destruct (read_text_raises _ _ _ Hread) as [[-> _] | [[-> Hd] | [-> Hn]]].
    + discriminate.
    + injection H as <-. right. split; [reflexivity|].
      exists h. split; [exact Hd|]. now apply candidate_header_name in Hin.
    + exfalso. revert Hn. apply read_in_paths.
      now apply candidate_headers_exist with cpp_path.
Qed.

(** X24.  A conversion of nodes whose implementation files exist can fail
    in two ways only: when a replacement text handed to [sub] is rejected
    as a template (with [re.error]; with [IndexError] where the text names
    a group that does not exist), and when something it reads is a
    directory (with [IsADirectoryError]): an implementation file, something
    named [main*.cpp] or something named as a header of an implementation
    file.  No file is found missing on the way. *)
Theorem conversion_fails_in_two_ways :
  forall (nodes : list (text * path)) (w : world) (e : exn),
    forallb convertible nodes = true ->
    (forall node, In node nodes -> read (files w) (snd node) <> None) ->
    apply_composable_conversion nodes w = Raise e ->
    e = ReError \/
    (e = IsADirectoryError /\
     exists q,
       read (files w) q = Some Directory /\
       (In q (map snd nodes) \/
        wild (str "main*.cpp") (name q) = true \/
        exists node,
          In node nodes /\ wild (header_glob (snd node)) (name q) = true)).
Proof.
  induction nodes as [|[class_name p] nodes IH]; intros w e Hw Hex H;
    [discriminate|].
  unfold apply_composable_conversion in H. cbn [fold_left bind] in H.
  cbn [forallb] in Hw. apply andb_true_iff in Hw. destruct Hw as [_ Hl].
  destruct (convert w (class_name, p)) as [w1|e1] eqn:H1.
  - assert (R : rewritten (files w) (files w1))
      by (apply (conversion_rewritten [(class_name, p)]);
          unfold apply_composable_conversion; cbn [fold_left bind];
          exact H1).
    destruct (IH w1 e Hl) as [He | [He [q [Hd Hq]]]]; [| exact H | now left |].
    + intros node Hin. apply (rewritten_exists _ _ _ R). apply Hex. now right.
    + right. split; [exact He|]. exists q. split.
      * apply (rewritten_kind _ _ q (Some Directory) R) in Hd;
          [exact Hd | discriminate].
      * destruct Hq as [Hq | [Hq | [node [Hin Hq]]]];
          [left; now right | right; now left |].
        right. right. exists node. split; [now right | exact Hq].
  - rewrite conversion_after_raise in H. injection H as <-.
    unfold convert in H1.
    destruct (update_node_constructor class_name p w) as [w0|e0] eqn:H0;
      cbn [bind] in H1.
    + apply header_update_fails in H1.
      destruct H1 as [He | [He [q [Hd Hq]]]]; [now left|].
      right. split; [exact He|]. exists q. split.
      * apply (rewritten_kind _ _ q (Some Directory)
                 (update_node_constructor_rewritten _ _ _ _ H0)) in Hd;
          [exact Hd | discriminate].
      * right. right. exists (class_name, p). split; [now left | exact Hq].
    + injection H1 as <-.
      apply update_node_constructor_fails in H0;
        [|apply (Hex (class_name, p)); now left].
      destruct H0 as [He | [He [q [Hd [-> | Hq]]]]]; [now left | |].
      * right. split; [exact He|]. exists p. split; [exact Hd|].
        left. now left.
      * right. split; [exact He|]. exists q. split; [exact Hd|].
        right. now left.
Qed.

Lemma conversion_fails_in_two_ways_witness :
  apply_composable_conversion [(Foo, foo_cpp)] main_directory
  = Raise IsADirectoryError /\
  (IsADirectoryError = ReError \/
   (IsADirectoryError = IsADirectoryError /\
    exists q,
      read (files main_directory) q = Some Directory /\
      (In q (map snd [(Foo, foo_cpp)]) \/
       wild (str "main*.cpp") (name q) = true \/
       exists node,
         In node [(Foo, foo_cpp)] /\
         wild (header_glob (snd node)) (name q) = true))).
Proof.
  split; [reflexivity|].
  apply (conversion_fails_in_two_ways [(Foo, foo_cpp)] main_directory).
  - reflexivity.
  - intros node [<-|[]]. discriminate.
  - reflexivity.
Defined.

(* ================================================================== *)
(** * The guard after a rewrite *)

(** With one replacement allowed, the new text holds the replacement of
    the match that [search] finds. *)
Lemma sub_scan_first : forall r repl rest prev pos m,
  search_from r prev rest pos = Some m ->
  exists a b, sub_scan r repl (Some 1) prev rest pos 0 = a ++ repl m ++ b.
Proof.
  intros r repl. induction rest as [|c rest IH]; intros prev pos m H.
  - cbn [search_from] in H. cbn [sub_scan].
    destruct (match_here r prev [] pos) as [m0|]; [|discriminate].
    injection H as ->. now exists [], [].
  - cbn [search_from] in H. cbn [sub_scan].
    destruct (match_here r prev (c :: rest) pos) as [m0|].
    + injection H as ->. exists []. eexists. reflexivity.
    + apply IH in H. destruct H as [a [b H]].
      exists (c :: a), b. cbn [app]. now rewrite H.
Qed.

(** A template that begins with text free of backslashes expands to text
    that begins in the same way. *)
Lemma parse_template_prefix : forall a t n items,
  ~ In backslash a ->
  parse_template (length (a ++ t)) n (a ++ t) = Some items ->
  exists items', items = map TChr a ++ items'.
Proof.
  induction a as [|c a IH]; intros t n items Ha H.
  - now exists items.
  - cbn [app length parse_template] in H.
    rewrite code_backslash in H by (intro E; apply Ha; now left).
    cbn [negb] in H.
    destruct (parse_template (length (a ++ t)) n (a ++ t)) as [l|] eqn:E;
      [|discriminate].
    injection H as <-. apply IH in E; [|intro Hin; apply Ha; now right].
    destruct E as [items' ->]. now exists items'.
Qed.

Lemma expand_app : forall a b m, expand (a ++ b) m = expand a m ++ expand b m.
Proof.
  induction a as [|[c|n] a IH]; intros b m; cbn [app expand];
    [reflexivity | now rewrite IH | now rewrite IH, app_assoc].
Qed.

Lemma new_signature_plain : forall class_name,
  forallb is_word class_name = true ->
  ~ In backslash (new_signature class_name).
Proof.
  intros class_name Hc. apply lacks_not_in. unfold new_signature, scope.
  rewrite !lacks_app.
  now rewrite (class_lacks is_word backslash class_name eq_refl Hc).
Qed.

(** The rewritten text holds the new signature. *)
Lemma rewritten_holds_signature : forall class_name content m updated,
  forallb is_word class_name = true ->
  search (constructor_regex class_name) content = Some m ->
  rewrite_constructor class_name content m = Ok updated ->
  exists a b, updated = a ++ new_signature class_name ++ b.
Proof.
  intros class_name content m updated Hc Hs H. unfold rewrite_constructor in H.
  destruct (of_template
              (sub node_initializer_pattern 1 node_template 0 (group_text 2 m)))
    as [init|e]; cbn [bind] in H; [|discriminate].
  unfold sub in H.
  destruct (parse_template (length (new_signature class_name ++ init)) 2
              (new_signature class_name ++ init)) as [items|] eqn:E;
    cbn [of_template] in H; [|discriminate].
  injection H as <-.
  apply parse_template_prefix in E; [|now apply new_signature_plain].
  destruct E as [items' ->].
  unfold sub_with. cbn [limit_of].
  destruct (sub_scan_first (constructor_regex class_name)
              (expand (map TChr (new_signature class_name) ++ items'))
              content None 0 m Hs) as [a [b ->]].
  rewrite expand_app, expand_plain. exists a, (expand items' m ++ b).
  now rewrite <- app_assoc.
Qed.

Lemma contains_signature : forall class_name a b,
  already_converted class_name (a ++ new_signature class_name ++ b) = true.
Proof.
  intros class_name a b. unfold already_converted, new_signature.
  apply andb_true_iff. split.
  - rewrite <- !app_assoc. rewrite (app_assoc class_name scope).
    apply contains_app.
  - change (str "(const rclcpp::NodeOptions & options)")
      with (str "(const rclcpp::" ++ str "NodeOptions" ++ str " & options)").
    rewrite <- !app_assoc.
    rewrite (app_assoc a), (app_assoc (a ++ class_name)),
      (app_assoc ((a ++ class_name) ++ scope)),
      (app_assoc (((a ++ class_name) ++ scope) ++ class_name)).
    apply contains_app.
Qed.

Lemma already_converted_app : forall class_name t u,
  already_converted class_name t = true ->
  already_converted class_name (t ++ u) = true.
Proof.
  intros class_name t u H. unfold already_converted in *.
  apply andb_true_iff in H. destruct H as [H1 H2].
  apply andb_true_iff. split.
  - apply (contains_within _ [] t u H1).
  - apply (contains_within _ [] t u H2).
Qed.

(** Text without line ends is found in a file as it is read where it is
    found in the file as it is stored. *)
Lemma code_carriage_return : forall c,
  (code c =? 13)%N = true -> c = carriage_return.
Proof.
  intros c E. apply N.eqb_eq in E. unfold code in E.
  rewrite <- (ascii_N_embedding c), E. reflexivity.
Qed.

Lemma starts_with_universal_newlines : forall p t,
  lacks carriage_return p = true -> lacks newline p = true ->
  starts_with p (universal_newlines t) = starts_with p t.
Proof.
  induction p as [|x p IH]; intros t Hr Hn; [reflexivity|].
  cbn [lacks forallb] in Hr, Hn.
  apply andb_true_iff in Hr. destruct Hr as [Hx Hr].
  apply andb_true_iff in Hn. destruct Hn as [Hy Hn].
  apply negb_true_iff in Hx, Hy.
  destruct t as [|c t]; [reflexivity|]. cbn [universal_newlines].
  destruct (code c =? 13)%N eqn:Ec.
  - apply code_carriage_return in Ec. subst c.
    rewrite !starts_with_cons. fold newline.
    rewrite (chr_eqb_sym x newline), (chr_eqb_sym x carriage_return), Hx, Hy.
    reflexivity.
  - rewrite !starts_with_cons. f_equal. now apply IH.
Qed.

Lemma contains_universal_newlines_bound : forall needle n t,
  lacks carriage_return needle = true -> lacks newline needle = true ->
  length t <= n ->
  contains needle (universal_newlines t) = contains needle t.
Proof.
  intros needle n. induction n as [|n IH]; intros t Hr Hn Hl.
  - destruct t; [reflexivity | simpl in Hl; lia].
  - destruct needle as [|x needle];
      [transitivity true; [now destruct (universal_newlines t) | now destruct t]|].
    destruct t as [|c t]; [reflexivity|]. simpl in Hl.
    assert (Hx : chr_eqb x carriage_return = false /\ chr_eqb x newline = false).
    { cbn [lacks forallb] in Hr, Hn.
      apply andb_true_iff in Hr. destruct Hr as [Hx _].
      apply andb_true_iff in Hn. destruct Hn as [Hy _].
      apply negb_true_iff in Hx, Hy.
      now rewrite (chr_eqb_sym x newline), (chr_eqb_sym x carriage_return). }
    destruct Hx as [Hx Hy].
    cbn [universal_newlines]. destruct (code c =? 13)%N eqn:Ec.
    + apply code_carriage_return in Ec. subst c. fold newline.
      cbn [contains]. rewrite !starts_with_cons, Hx, Hy. cbn [andb orb].
      destruct t as [|d t]; [reflexivity|]. simpl in Hl.
      destruct (code d =? 10)%N eqn:Ed.
      * assert (d = newline).
        { apply N.eqb_eq in Ed. unfold code in Ed.
          rewrite <- (ascii_N_embedding d), Ed. reflexivity. }
        subst d. cbn [contains]. rewrite starts_with_cons, Hy. cbn [andb orb].
        apply IH; [assumption | assumption | lia].
      * apply IH; [assumption | assumption | simpl; lia].
    + cbn [contains].
      rewrite <- (IH t Hr Hn) by lia. f_equal.
      pose proof (starts_with_universal_newlines (x :: needle) (c :: t) Hr Hn)
        as S.
      cbn [universal_newlines] in S. now rewrite Ec in S.
Qed.

Lemma contains_universal_newlines : forall needle t,
  lacks carriage_return needle = true -> lacks newline needle = true ->
  contains needle (universal_newlines t) = contains needle t.
Proof.
  intros needle t Hr Hn.
  now apply contains_universal_newlines_bound with (length t).
Qed.

Lemma already_converted_as_read : forall class_name t,
  forallb is_word class_name = true ->
  already_converted class_name (universal_newlines t)
  = already_converted class_name t.
Proof.
  intros class_name t Hc. unfold already_converted.
  rewrite !contains_universal_newlines; try reflexivity.
  - rewrite lacks_app, (class_lacks is_word carriage_return class_name eq_refl Hc).
    reflexivity.
  - rewrite lacks_app, (class_lacks is_word newline class_name eq_refl Hc).
    reflexivity.
Qed.

(** X25.  After the constructor rewriter has rewritten a file, it
    recognises the file: a second call reports that the class already uses
    [NodeOptions] and changes nothing.  (The rewritten file holds no
    [std::make_shared<], so that the call-site updater leaves it as the
    rewriter wrote it; the first call returns when nothing named
    [main*.cpp] below the package directory is a directory.) *)
Theorem rewritten_file_is_recognised :
  forall (class_name : text) (file_path : path) (w : world)
         (content updated : text) (m : pymatch),
    forallb is_word class_name = true ->
    read_text (files w) file_path = Ok content ->
    already_converted class_name content = false ->
    search (constructor_regex class_name) content = Some m ->
    rewrite_constructor class_name content m = Ok updated ->
    contains make_shared (append_registration class_name content updated)
      = false ->
    (all_files (files w) (main_candidates (files w) file_path) ->
     exists w1, update_node_constructor class_name file_path w = Ok w1) /\
    (forall w1,
       update_node_constructor class_name file_path w = Ok w1 ->
       read (files w1) file_path
         = Some (Utf8 (append_registration class_name content updated)) /\
       update_node_constructor class_name file_path w1
         = Ok (say (AlreadyConverted class_name) w1)).
Proof.
  intros class_name file_path w content updated m Hc Hread Hno Hs Hr Hcall.
  set (written := append_registration class_name content updated) in *.
  set (w0 := say (Updated class_name file_path) (put file_path written w)).
  destruct (read_text_ok _ _ _ Hread) as [stored [Hentry _]].
  assert (H0 : read (files w0) file_path = Some (Utf8 written))
    by (unfold w0; cbn [say put files]; apply read_write_same).
  assert (Hrun : update_node_constructor class_name file_path w
                 = update_main_constructors class_name file_path w0).
  { unfold update_node_constructor. rewrite Hread, Hno, Hs, Hr. reflexivity. }
  rewrite Hrun. split.
  - intro Hall. apply update_main_constructors_returns.
    + rewrite H0. discriminate.
    + unfold w0. cbn [say put files].
      rewrite (main_candidates_written _ _ stored) by exact Hentry.
      apply rewritten_all_files with (files w); [|exact Hall].
      now apply rewritten_write with stored.
  - intros w1 H1.
    assert (Hkeep : read (files w1) file_path = Some (Utf8 written)).
    { unfold update_main_constructors in H1.
      apply (update_main_files_result class_name Hc) in H1.
      destruct H1 as [_ H1].
      destruct (H1 file_path _ (read_text_stored _ _ _ H0)) as [[H2 _] _];
        [|now rewrite H2].
      apply no_make_shared_no_substitution.
      now rewrite contains_universal_newlines. }
    split; [exact Hkeep|].
    unfold update_node_constructor.
    rewrite (read_text_stored _ _ _ Hkeep).
    assert (Hg : already_converted class_name written = true).
    { destruct (rewritten_holds_signature class_name content m updated Hc Hs Hr)
        as [a [b Hu]].
      unfold written, append_registration.
      destruct (negb _); [apply already_converted_app|];
        rewrite Hu; apply contains_signature. }
    now rewrite already_converted_as_read, Hg.
Qed.

Lemma rewritten_file_is_recognised_witness :
  exists w1,
    update_node_constructor Foo foo_cpp (package [(foo_cpp, direct_source)])
      = Ok w1 /\
    update_node_constructor Foo foo_cpp w1
      = Ok (say (AlreadyConverted Foo) w1).
Proof.
  edestruct (rewritten_file_is_recognised Foo foo_cpp
               (package [(foo_cpp, direct_source)]) direct_source)
    as [H1 H2];
    [reflexivity | reflexivity | reflexivity
    | vm_compute; reflexivity | vm_compute; reflexivity
    | vm_compute; reflexivity | ].
  destruct H1 as [w1 H1].
  { intros q Hq. vm_compute in Hq. destruct Hq as [<- | []]. discriminate. }
  exists w1. split; [exact H1 | now apply H2].
Defined.

